(** * Verification of the conditional WGAN-GP module [wgan/wgan.py]

    Shallow embedding of the data wrapper, the optimistic Adam optimizer,
    the specification record, the generator transform, the critic's
    gradient penalty, the training loop and the kernel-regression
    monotonicity penalty, followed by the properties proved of them.

    Numbers.  Python [int]s are [Z] (or [nat] for counters that only grow
    from zero); tensors of floats are lists of reals, a 2-D tensor being
    the list of its rows.  Reals idealise the float32 arithmetic of the
    tensor runtime: there is no rounding, no overflow and no NaN, so the
    statements below are the exact-arithmetic counterparts of what the
    code computes. *)

From Stdlib Require OrdersEx DecimalString.
From Stdlib Require Import Reals Lra Lia ZArith String Bool Arith.
From Stdlib Require Import RelationClasses List Sorting.Sorted.
Import ListNotations.

Local Open Scope R_scope.

(** ** Python exceptions and results *)

Inductive exn : Type :=
| ValueError (msg : string)
| RuntimeError (msg : string)
| NameError (name : string)
| TypeError
| IndexError
| KeyError (key : string)
| ZeroDivisionError
| FileNotFoundError (path : string).

Definition result (A : Type) : Type := (exn + A)%type.

Definition ok {A} (a : A) : result A := inr a.
Definition raise {A} (e : exn) : result A := inl e.

Definition bind {A B} (m : result A) (k : A -> result B) : result B :=
  match m with
  | inl e => inl e
  | inr a => k a
  end.

Declare Scope result_scope.
Delimit Scope result_scope with result.
Notation "x <- m ;; k" := (bind m (fun x => k))
  (at level 61, m at next level, right associativity) : result_scope.
Notation "' p <- m ;; k" := (bind m (fun p => k))
  (at level 61, p pattern, m at next level, right associativity) : result_scope.

(** A loop that collects results and stops at the first exception. *)
Fixpoint map_result {A B} (f : A -> result B) (l : list A) : result (list B) :=
  match l with
  | [] => ok []
  | a :: l' => (b <- f a ;; bs <- map_result f l' ;; ok (b :: bs))%result
  end.

Definition raises {A} (m : result A) : Prop := exists e, m = inl e.
Definition returns {A} (m : result A) : Prop := exists a, m = inr a.

Definition is_ValueError (e : exn) : bool :=
  match e with ValueError _ => true | _ => false end.

(** ** Python integer helpers *)

(** [a % b]: the remainder takes the sign of the divisor, as [Z.modulo]
    does; a zero divisor raises. *)
Definition py_mod (a b : Z) : result Z :=
  if (b =? 0)%Z then raise ZeroDivisionError else ok (a mod b)%Z.

(** [range(a, b)] *)
Definition py_range (a b : Z) : list Z :=
  map (fun i => (a + Z.of_nat i)%Z) (seq 0 (Z.to_nat (b - a))).

(** Truthiness of an optional path: [None] and the empty string are falsy. *)
Definition truthy_path (p : option string) : bool :=
  match p with
  | None => false
  | Some s => negb (String.eqb s EmptyString)
  end.

(** ** Tensors *)

Module Tensor.

(** A 1-D tensor and a 2-D tensor (list of rows). *)
Definition vec := list R.
Definition mat := list (list R).

Definition sum (v : vec) : R := fold_right Rplus 0 v.

(** [v.mean()]: the sum over the number of elements. *)
Definition mean (v : vec) : R := sum v / INR (length v).

(** Elementwise binary operation on tensors of one shape. *)
Fixpoint map2 (f : R -> R -> R) (a b : vec) : vec :=
  match a, b with
  | x :: a', y :: b' => f x y :: map2 f a' b'
  | _, _ => []
  end.

Definition add (a b : vec) : vec := map2 Rplus a b.
Definition mul (a b : vec) : vec := map2 Rmult a b.
Definition scale (c : R) (a : vec) : vec := map (Rmult c) a.
Definition add_scalar (a : vec) (c : R) : vec := map (fun x => x + c) a.
Definition vsqrt (a : vec) : vec := map sqrt a.
Definition vmax (a b : vec) : vec := map2 Rmax a b.
Definition vmin (a b : vec) : vec := map2 Rmin a b.

(** [t.add_(value, other)]: [t + value * other]. *)
Definition add_ (t : vec) (value : R) (other : vec) : vec :=
  add t (scale value other).

(** [t.addcdiv_(value, t1, t2)]: [t + value * t1 / t2]. *)
Definition addcdiv (t : vec) (value : R) (t1 t2 : vec) : vec :=
  add t (scale value (map2 Rdiv t1 t2)).

(** [t.addcmul_(value, t1, t2)]: [t + value * t1 * t2]. *)
Definition addcmul (t : vec) (value : R) (t1 t2 : vec) : vec :=
  add t (scale value (mul t1 t2)).

Definition zeros_like (a : vec) : vec := map (fun _ => 0) a.

(** [F.relu] *)
Definition relu (x : R) : R := Rmax x 0.

(** [v.norm(2)] *)
Definition norm2 (v : vec) : R := sqrt (sum (map (fun x => x * x) v)).

(** [F.softmax(v, -1)] *)
Definition softmax (v : vec) : vec :=
  let e := map exp v in map (fun x => x / sum e) e.

(** [t.split(sizes, -1)] on one row: the sizes must add up to the width. *)
Fixpoint chunks (sizes : list nat) (v : vec) : list vec :=
  match sizes with
  | [] => []
  | n :: sizes' => firstn n v :: chunks sizes' (skipn n v)
  end.

Definition split (sizes : list nat) (v : vec) : result (list vec) :=
  if (length v =? list_sum sizes)%nat
  then ok (chunks sizes v)
  else raise (RuntimeError "split_with_sizes expects split_sizes to sum exactly to the dimension size").

(** [row.expand_as(t)] for a row against rows of width [n]: the widths
    must agree, unless the row has a single entry, which is repeated. *)
Definition expand_as (row : vec) (n : nat) : result vec :=
  if (length row =? n)%nat then ok row
  else if (length row =? 1)%nat then ok (repeat (hd 0 row) n)
  else raise (RuntimeError "The expanded size of the tensor must match the existing size").

(** [bounds[k:k+1].expand_as(t)], one row of it. *)
Definition slice_expand (m : mat) (k n : nat) : result vec :=
  match nth_error m k with
  | Some row => expand_as row n
  | None => raise (RuntimeError "The expanded size of the tensor must match the existing size")
  end.

(** Indexing a 1-D tensor with a Python integer: negative indices count
    from the end, anything out of range raises. *)
Definition index (v : vec) (i : Z) : result R :=
  let n := Z.of_nat (length v) in
  let j := if (i <? 0)%Z then (i + n)%Z else i in
  if ((0 <=? j) && (j <? n))%Z
  then match nth_error v (Z.to_nat j) with
       | Some x => ok x
       | None => raise IndexError
       end
  else raise IndexError.

(** [row.squeeze()[i]] for a tensor of shape [(1, d)]: when [d = 1] the
    squeeze leaves a 0-dimensional tensor, which cannot be indexed. *)
Definition squeeze_index (row : vec) (i : Z) : result R :=
  if (length row =? 1)%nat then raise IndexError else index row i.

End Tensor.

(** ** Python containers *)

(** [enumerate(l)] *)
Definition enumerate {A} (l : list A) : list (nat * A) :=
  combine (seq 0 (length l)) l.

(** A [dict] with string keys, in insertion order. *)
Module Dict.

Definition t (V : Type) := list (string * V).

Fixpoint get {V} (d : t V) (k : string) : option V :=
  match d with
  | [] => None
  | (k', v) :: d' => if String.eqb k k' then Some v else get d' k
  end.

Definition mem {V} (d : t V) (k : string) : bool :=
  match get d k with Some _ => true | None => false end.

(** [d[k] = v]: overwrite in place, or append a new key. *)
Fixpoint set {V} (d : t V) (k : string) (v : V) : t V :=
  match d with
  | [] => [(k, v)]
  | (k', v') :: d' =>
      if String.eqb k k' then (k, v) :: d' else (k', v') :: set d' k v
  end.

Definition keys {V} (d : t V) : list string := map fst d.

End Dict.

(** ** The optimistic Adam optimizer (class [OAdam]) *)

Module OAdam.

(** [p.grad.data], with its [is_sparse] flag. *)
Inductive gradient : Type :=
| Dense (g : Tensor.vec)
| Sparse (g : Tensor.vec).

(** [self.state[p]]: the per-parameter dictionary; [max_exp_avg_sq] is
    present only if the state was initialised under [amsgrad]. *)
Record param_state : Type := {
  step_count : nat;
  exp_avg : Tensor.vec;
  exp_avg_sq : Tensor.vec;
  max_exp_avg_sq : option Tensor.vec
}.

(** A parameter with its gradient ([None]: no gradient) and its slot in
    [self.state] ([None]: the empty dictionary). *)
Record param : Type := {
  data : Tensor.vec;
  grad : option gradient;
  state : option param_state
}.

Record group : Type := {
  params : list param;
  lr : R;
  betas : R * R;
  eps : R;
  weight_decay : R;
  amsgrad : bool
}.

Record t : Type := { param_groups : list group }.

(** [__init__]: the four range checks, then the base class constructor,
    which puts the parameters in one group with the defaults and
    refuses an empty parameter list. *)
Definition init (ps : list param) (lr : R) (betas : R * R) (eps : R)
    (weight_decay : R) (amsgrad : bool) : result t :=
  if Rle_dec 0 lr then
    if Rle_dec 0 eps then
      if Rle_dec 0 (fst betas) then
        if Rlt_dec (fst betas) 1 then
          if Rle_dec 0 (snd betas) then
            if Rlt_dec (snd betas) 1 then
              match ps with
              | [] => raise (ValueError "optimizer got an empty parameter list")
              | _ :: _ =>
                  ok {| param_groups :=
                          [ {| params := ps; lr := lr; betas := betas;
                               eps := eps; weight_decay := weight_decay;
                               amsgrad := amsgrad |} ] |}
              end
            else raise (ValueError "Invalid beta parameter at index 1")
          else raise (ValueError "Invalid beta parameter at index 1")
        else raise (ValueError "Invalid beta parameter at index 0")
      else raise (ValueError "Invalid beta parameter at index 0")
    else raise (ValueError "Invalid epsilon value")
  else raise (ValueError "Invalid learning rate").

(** State initialisation on first use ([len(state) == 0]). *)
Definition init_state (amsgrad : bool) (p : Tensor.vec) : param_state :=
  {| step_count := 0;
     exp_avg := Tensor.zeros_like p;
     exp_avg_sq := Tensor.zeros_like p;
     max_exp_avg_sq := if amsgrad then Some (Tensor.zeros_like p) else None |}.

(** [lr * math.sqrt(bias_correction2) / bias_correction1] on Python
    floats: a negative radicand and a zero divisor raise. *)
Definition step_size (lr beta1 beta2 : R) (t : nat) : result R :=
  let bias_correction1 := 1 - beta1 ^ t in
  let bias_correction2 := 1 - beta2 ^ t in
  if Rlt_dec bias_correction2 0 then raise (ValueError "math domain error")
  else if Req_dec_T bias_correction1 0 then raise ZeroDivisionError
  else ok (lr * sqrt bias_correction2 / bias_correction1).

(** The body of the loop over [group['params']] for one parameter: the
    parameter as the body leaves it, and the exception it raises if any.
    An exception raised after [state['step'] += 1] leaves the counter
    incremented and the gradient with its weight decay added. *)
Definition step_param (g : group) (p : param) : param * option exn :=
  match grad p with
  | None => (p, None)
  | Some (Sparse _) =>
      (p, Some (RuntimeError "Adam does not support sparse gradients, please consider SparseAdam instead"))
  | Some (Dense gr) =>
      let st := match state p with
                | None => init_state (amsgrad g) (data p)
                | Some s => s
                end in
      match (if amsgrad g then
               match max_exp_avg_sq st with
               | None => raise (KeyError "max_exp_avg_sq")
               | Some mx => ok (Some mx)
               end
             else ok None) with
      | inl e => (p, Some e)
      | inr max_exp_avg_sq =>
          let beta1 := fst (betas g) in
          let beta2 := snd (betas g) in
          let t := S (step_count st) in
          let gr := if Req_dec_T (weight_decay g) 0 then gr
                    else Tensor.add_ gr (weight_decay g) (data p) in
          match step_size (lr g) beta1 beta2 t with
          | inl e =>
              ({| data := data p;
                  grad := Some (Dense gr);
                  state := Some {| step_count := t; exp_avg := exp_avg st;
                                   exp_avg_sq := exp_avg_sq st;
                                   max_exp_avg_sq := OAdam.max_exp_avg_sq st |} |},
               Some e)
          | inr ss =>
              (* optimistic update *)
              let data1 := Tensor.addcdiv (data p) ss (exp_avg st)
                             (Tensor.add_scalar (Tensor.vsqrt (exp_avg_sq st)) (eps g)) in
              (* decay the first and second moment running averages *)
              let m := Tensor.add_ (Tensor.scale beta1 (exp_avg st)) (1 - beta1) gr in
              let v := Tensor.addcmul (Tensor.scale beta2 (exp_avg_sq st)) (1 - beta2) gr gr in
              let (mx, denom) :=
                match max_exp_avg_sq with
                | Some mx =>
                    (* the maximum of all second moment running averages so far *)
                    let mx' := Tensor.vmax mx v in
                    (Some mx', Tensor.add_scalar (Tensor.vsqrt mx') (eps g))
                | None =>
                    (OAdam.max_exp_avg_sq st,
                     Tensor.add_scalar (Tensor.vsqrt v) (eps g))
                end in
              let data2 := Tensor.addcdiv data1 (-2 * ss) m denom in
              ({| data := data2;
                  grad := Some (Dense gr);
                  state := Some {| step_count := t; exp_avg := m;
                                   exp_avg_sq := v; max_exp_avg_sq := mx |} |},
               None)
          end
      end
  end.

(** The loop over the parameters of a group.  An exception leaves the
    parameters already visited updated and the later ones untouched. *)
Fixpoint step_params (g : group) (ps : list param) : list param * option exn :=
  match ps with
  | [] => ([], None)
  | p :: rest =>
      match step_param g p with
      | (p', Some e) => (p' :: rest, Some e)
      | (p', None) =>
          let (rest', e) := step_params g rest in (p' :: rest', e)
      end
  end.

Definition with_params (g : group) (ps : list param) : group :=
  {| params := ps; lr := lr g; betas := betas g; eps := eps g;
     weight_decay := weight_decay g; amsgrad := amsgrad g |}.

Fixpoint step_groups (gs : list group) : list group * option exn :=
  match gs with
  | [] => ([], None)
  | g :: rest =>
      match step_params g (params g) with
      | (ps, Some e) => (with_params g ps :: rest, Some e)
      | (ps, None) =>
          let (rest', e) := step_groups rest in (with_params g ps :: rest', e)
      end
  end.

(** [step()] with no closure: the optimizer after the call, and the
    exception raised if any. *)
Definition step (o : t) : t * option exn :=
  let (gs, e) := step_groups (param_groups o) in
  ({| param_groups := gs |}, e).

End OAdam.

(** *** Reference formulas for one coordinate of an [OAdam] update *)

Module OAdamSpec.

(** [step_size] as a closed formula, for decay coefficients in [[0,1)]. *)
Definition step_size (lr beta1 beta2 : R) (t : nat) : R :=
  lr * sqrt (1 - beta2 ^ t) / (1 - beta1 ^ t).

Definition moment1 (beta1 m g : R) : R := beta1 * m + (1 - beta1) * g.
Definition moment2 (beta2 v g : R) : R := beta2 * v + (1 - beta2) * (g * g).

(** What the code does to one coordinate [x] with moments [m], [v] and
    gradient [g]: add the old direction once, take the new one twice. *)
Definition optimistic (lr beta1 beta2 eps : R) (t : nat) (x m v g : R) : R :=
  let ss := step_size lr beta1 beta2 t in
  x + ss * (m / (sqrt v + eps))
    - 2 * ss * (moment1 beta1 m g / (sqrt (moment2 beta2 v g) + eps)).

(** The update as the specification words it: both terms subtracted. *)
Definition spec_update (lr beta1 beta2 eps : R) (t : nat) (x m v g : R) : R :=
  let ss := step_size lr beta1 beta2 t in
  x - ss * (m / (sqrt v + eps))
    - 2 * ss * (moment1 beta1 m g / (sqrt (moment2 beta2 v g) + eps)).

(** The state a parameter enters the update with. *)
Definition entry_state (g : OAdam.group) (p : OAdam.param) : OAdam.param_state :=
  match OAdam.state p with
  | None => OAdam.init_state (OAdam.amsgrad g) (OAdam.data p)
  | Some s => s
  end.

(** [p'] is [p] after one update under the hyperparameters of [g]:
    untouched without a gradient; with a dense gradient the step counter
    grows by one and every coordinate of the data and of the two moments
    follows the formulas above. *)
Definition updated (g : OAdam.group) (p p' : OAdam.param) : Prop :=
  match OAdam.grad p with
  | None => p' = p
  | Some (OAdam.Sparse _) => False
  | Some (OAdam.Dense gr) =>
      let st := entry_state g p in
      let t := S (OAdam.step_count st) in
      exists st',
        OAdam.state p' = Some st' /\
        OAdam.step_count st' = t /\
        forall i x m v gi,
          nth_error (OAdam.data p) i = Some x ->
          nth_error (OAdam.exp_avg st) i = Some m ->
          nth_error (OAdam.exp_avg_sq st) i = Some v ->
          nth_error gr i = Some gi ->
          nth_error (OAdam.data p') i
            = Some (optimistic (OAdam.lr g) (fst (OAdam.betas g))
                      (snd (OAdam.betas g)) (OAdam.eps g) t x m v gi) /\
          nth_error (OAdam.exp_avg st') i
            = Some (moment1 (fst (OAdam.betas g)) m gi) /\
          nth_error (OAdam.exp_avg_sq st') i
            = Some (moment2 (snd (OAdam.betas g)) v gi)
  end.

(** The plain configuration: decay coefficients in range, no weight
    decay, no AMSGrad, no sparse gradient. *)
Definition plain_group (g : OAdam.group) : Prop :=
  0 <= fst (OAdam.betas g) < 1 /\
  0 <= snd (OAdam.betas g) < 1 /\
  OAdam.weight_decay g = 0 /\
  OAdam.amsgrad g = false /\
  Forall (fun p => forall s, OAdam.grad p <> Some (OAdam.Sparse s)) (OAdam.params g).

(** Decay coefficients in range and no AMSGrad, as for an optimizer
    built with the default [amsgrad]. *)
Definition in_range_group (g : OAdam.group) : Prop :=
  0 <= fst (OAdam.betas g) < 1 /\
  0 <= snd (OAdam.betas g) < 1 /\
  OAdam.amsgrad g = false.

(** The conditions under which the specification says construction
    fails. *)
Definition spec_rejects (lr beta1 beta2 eps : R) : Prop :=
  lr <= 0 \/ eps < 0 \/ ~ (0 <= beta1 < 1) \/ ~ (0 <= beta2 < 1).

(** The conditions under which the constructor's own checks fail. *)
Definition rejects (lr beta1 beta2 eps : R) : Prop :=
  lr < 0 \/ eps < 0 \/ ~ (0 <= beta1 < 1) \/ ~ (0 <= beta2 < 1).

End OAdamSpec.

(** ** The data wrapper (class [DataWrapper]) *)

Module DataWrapper.

(** A cell of a categorical column: a Python [float], or anything else
    (a word). *)
Inductive label : Type :=
| Word (s : string)
| Num (r : R).

(** [isinstance(c, float)] *)
Definition is_float (c : label) : bool :=
  match c with Num _ => true | Word _ => false end.

(** The order pandas sorts category values in: floats by value, words
    lexically.  Columns mixing the two are outside what pandas sorts;
    the model puts floats first. *)
Definition label_compare (a b : label) : comparison :=
  match a, b with
  | Num x, Num y => if Rlt_dec x y then Lt else if Rlt_dec y x then Gt else Eq
  | Num _, Word _ => Lt
  | Word _, Num _ => Gt
  | Word s, Word u => OrdersEx.String_as_OT.compare s u
  end.

Fixpoint insert (x : label) (l : list label) : list label :=
  match l with
  | [] => [x]
  | y :: l' =>
      match label_compare x y with
      | Lt => x :: l
      | Eq => l
      | Gt => y :: insert x l'
      end
  end.

(** [pd.get_dummies(column).columns]: the distinct values, sorted. *)
Definition dummy_columns (column : list label) : list label :=
  fold_right insert [] column.

Definition label_eqb (a b : label) : bool :=
  match label_compare a b with Eq => true | _ => false end.

(** One row of [pd.get_dummies(column)]. *)
Definition one_hot (columns : list label) (c : label) : Tensor.vec :=
  map (fun k => if label_eqb c k then 1 else 0) columns.

(** A row of a data frame, restricted to the columns the wrapper selects
    and in the order of its three variable lists. *)
Record row : Type := {
  cont_cells : list R;
  cat_cells : list label;
  ctx_cells : list R
}.

Definition frame := list row.

(** A decoded row: a categorical cell that the label dictionary does not
    cover is missing ([None], pandas' NaN). *)
Record out_row : Type := {
  out_cont : list R;
  out_cat : list (option label);
  out_ctx : list R
}.

(** [df[v]] for the categorical variable at position [j]. *)
Definition cat_column (df : frame) (j : nat) : list label :=
  flat_map (fun r => match nth_error (cat_cells r) j with
                     | Some c => [c]
                     | None => []
                     end) df.

(** [self.variables] *)
Record variable_names : Type := {
  continuous : list string;
  categorical : list string;
  context : list string
}.

Record t : Type := {
  variables : variable_names;
  means : Tensor.vec * Tensor.vec;
  stds : Tensor.vec * Tensor.vec;
  cat_dims : list nat;
  words_to_int : Dict.t (list (label * nat));
  int_to_words : Dict.t (list (nat * label));
  cat_labels : list (string * Tensor.vec);
  cont_bounds : Tensor.mat;
  df0 : frame
}.

(** Column [j] of a 2-D tensor. *)
Definition tensor_column (m : Tensor.mat) (j : nat) : Tensor.vec :=
  map (fun r => nth j r 0) m.

(** [x.mean(0, keepdim=True)] for a tensor with [d] columns. *)
Definition col_means (m : Tensor.mat) (d : nat) : Tensor.vec :=
  map (fun j => Tensor.mean (tensor_column m j)) (seq 0 d).

(** [x.std(0, keepdim=True)]: the unbiased estimator. *)
Definition std (v : Tensor.vec) : R :=
  let mu := Tensor.mean v in
  sqrt (Tensor.sum (map (fun x => (x - mu) * (x - mu)) v) / (INR (length v) - 1)).

Definition col_stds (m : Tensor.mat) (d : nat) : Tensor.vec :=
  map (fun j => std (tensor_column m j)) (seq 0 d).

(** [(x - m) / s] and [x * s + m] on one row. *)
Fixpoint scale_row (x m s : Tensor.vec) : Tensor.vec :=
  match x, m, s with
  | xi :: x', mi :: m', si :: s' => (xi - mi) / si :: scale_row x' m' s'
  | _, _, _ => []
  end.

Fixpoint unscale_row (x m s : Tensor.vec) : Tensor.vec :=
  match x, m, s with
  | xi :: x', mi :: m', si :: s' => xi * si + mi :: unscale_row x' m' s'
  | _, _, _ => []
  end.

(** [torch.tensor(labels).to(torch.float)]: only numbers convert. *)
Fixpoint to_float_tensor (l : list label) : result Tensor.vec :=
  match l with
  | [] => ok []
  | Num r :: l' => (v <- to_float_tensor l' ;; ok (r :: v))%result
  | Word _ :: _ => raise TypeError
  end.

(** [column.map(words_to_int[v])]: cells without a code go missing. *)
Fixpoint word_code (table : list (label * nat)) (c : label) : option nat :=
  match table with
  | [] => None
  | (w, i) :: table' => if label_eqb c w then Some i else word_code table' c
  end.

Definition map_codes (table : list (label * nat)) (column : list label) : list label :=
  flat_map (fun c => match word_code table c with
                     | Some i => [Num (INR i)]
                     | None => []
                     end) column.

(** The tables and the label tensor of the categorical variable [v] at
    position [j], as the constructor's loop body computes them. *)
Definition init_categorical (df : frame) (acc : Dict.t (list (label * nat)) *
                                               Dict.t (list (nat * label)) *
                                               list (string * Tensor.vec))
    (jv : nat * string) : result (Dict.t (list (label * nat)) *
                                  Dict.t (list (nat * label)) *
                                  list (string * Tensor.vec)) :=
  let '(w2i, i2w, labels) := acc in
  let '(j, v) := jv in
  let column := cat_column df j in
  match column with
  | [] => raise (KeyError "0")
  | first :: _ =>
      if negb (is_float first) then
        let feature_labels := dummy_columns column in
        let table := map (fun '(idx, feature) => (feature, idx)) (enumerate feature_labels) in
        let w2i := Dict.set w2i v table in
        let i2w := Dict.set i2w v (enumerate feature_labels) in
        let source := map_codes table column in
        (l <- to_float_tensor (dummy_columns source) ;;
         ok (w2i, i2w, labels ++ [(v, l)]))%result
      else
        (l <- to_float_tensor (dummy_columns column) ;;
         ok (w2i, i2w, labels ++ [(v, l)]))%result
  end.

Fixpoint init_categoricals (df : frame) acc (vars : list (nat * string)) :=
  match vars with
  | [] => ok acc
  | jv :: vars' =>
      (acc' <- init_categorical df acc jv ;; init_categoricals df acc' vars')%result
  end.

(** [bounds[v] if v in bounds.keys() else default] *)
Definition bound_or (bounds : Dict.t R) (default : R) (v : string) : R :=
  match Dict.get bounds v with Some b => b | None => default end.

(** [__init__] *)
Definition init (df : frame) (continuous_vars categorical_vars context_vars : list string)
    (continuous_lower_bounds continuous_upper_bounds : Dict.t R) : result t :=
  let variables := {| continuous := continuous_vars;
                      categorical := categorical_vars;
                      context := context_vars |} in
  let continuous := map cont_cells df in
  let context := map ctx_cells df in
  let means := (col_means continuous (length continuous_vars),
                col_means context (length context_vars)) in
  let stds := (Tensor.add_scalar (col_stds continuous (length continuous_vars)) 1e-5,
               Tensor.add_scalar (col_stds context (length context_vars)) 1e-5) in
  let cat_dims := map (fun j => length (dummy_columns (cat_column df j)))
                      (seq 0 (length categorical_vars)) in
  (' (w2i, i2w, labels) <- init_categoricals df ([], [], []) (enumerate categorical_vars) ;;
   let bounds := [ map (bound_or continuous_lower_bounds (-1e8)) continuous_vars;
                   map (bound_or continuous_upper_bounds 1e8) continuous_vars ] in
   ok {| variables := variables;
         means := means;
         stds := stds;
         cat_dims := cat_dims;
         words_to_int := w2i;
         int_to_words := i2w;
         cat_labels := labels;
         cont_bounds := map (fun b => scale_row b (fst means) (fst stds)) bounds;
         df0 := firstn 1 df |})%result.

(** One row of [pd.get_dummies(df[categorical], columns=categorical)]:
    the one-hot blocks of the row's cells, each over the distinct
    values its column takes in the frame [df] at hand. *)
Definition dummies_row (df : frame) (n_vars : nat) (r : row) : Tensor.vec :=
  flat_map (fun j => match nth_error (cat_cells r) j with
                     | Some c => one_hot (dummy_columns (cat_column df j)) c
                     | None => []
                     end) (seq 0 n_vars).

(** [preprocess]: the pair [(x, context)].  Over the reals the final
    test [total == total] holds of every entry, so the NaN error of the
    source never fires. *)
Definition preprocess (w : t) (df : frame) : result (Tensor.mat * Tensor.mat) :=
  let n_cat := length (categorical (variables w)) in
  let x := map (fun r =>
                  let xr := scale_row (cont_cells r) (fst (means w)) (fst (stds w)) in
                  if (0 <? n_cat)%nat then xr ++ dummies_row df n_cat r else xr) df in
  let context := map (fun r => scale_row (ctx_cells r) (snd (means w)) (snd (stds w))) df in
  ok (x, context).

(** *** Decoding *)

(** The random draws of [torch.multinomial], as an oracle: for the
    categorical variable at a position and a row number it turns the
    row's weights and the number of draws into the indices drawn. *)
Definition sampler := nat -> nat -> Tensor.vec -> nat -> list nat.

Definition Rleb (a b : R) : bool := if Rle_dec a b then true else false.
Definition Rltb (a b : R) : bool := if Rlt_dec a b then true else false.

(** The weights [torch.multinomial] accepts for [k] draws without
    replacement: non-negative, not all zero, at least [k] of them
    positive, and [k] itself positive. *)
Definition multinomial_ok (p : Tensor.vec) (k : nat) : bool :=
  forallb (Rleb 0) p && Rltb 0 (Tensor.sum p)
  && (0 <? k)%nat && (k <=? length (filter (Rltb 0) p))%nat.

(** What every outcome of [k] draws without replacement satisfies. *)
Definition valid_draw (p : Tensor.vec) (k : nat) (d : list nat) : Prop :=
  length d = k /\ NoDup d /\ forall i, In i d -> exists x, nth_error p i = Some x /\ 0 < x.

Definition valid_sampler (s : sampler) : Prop :=
  forall j i p k, multinomial_ok p k = true -> valid_draw p k (s j i p k).

(** [torch.multinomial(p, k)] for a 2-D [p], row by row. *)
Definition multinomial (s : sampler) (j : nat) (p : Tensor.mat) (k : nat)
  : result (list (list nat)) :=
  map_result (fun '(i, pi) =>
                if multinomial_ok pi k then ok (s j i pi k)
                else raise (RuntimeError "invalid multinomial distribution"))
             (enumerate p).

(** [labels[idx]] for one row of indices. *)
Definition gather (labels : Tensor.vec) (idx : list nat) : result Tensor.vec :=
  map_result (fun i => match nth_error labels i with
                       | Some x => ok x
                       | None => raise IndexError
                       end) idx.

(** The body of the loop over [zip(categorical.split(cat_dims), cat_labels)].
    For a variable without a label dictionary one value is drawn and
    padded with zero columns; the padding tensor has
    [(n_features - 1) * rows] rows, so it only fits for [n_features <= 2]
    (or no rows at all). *)
Definition decode_block (w : t) (s : sampler) (n_features : nat)
    (j : nat) (p : Tensor.mat) (l : string * Tensor.vec) : result Tensor.mat :=
  if Dict.mem (int_to_words w) (fst l) then
    (idx <- multinomial s j p n_features ;; map_result (gather (snd l)) idx)%result
  else
    (idx <- multinomial s j p 1 ;;
     first <- map_result (gather (snd l)) idx ;;
     match n_features, p with
     | 0%nat, _ | 1%nat, _ | _, [] => ok first
     | 2%nat, _ => ok (map (fun r => r ++ [0]) first)
     | _, _ => raise (RuntimeError "Sizes of tensors must match except in dimension 1")
     end)%result.

(** Block [j] of every row. *)
Definition block (sizes : list nat) (categorical : Tensor.mat) (j : nat) : Tensor.mat :=
  map (fun r => nth j (Tensor.chunks sizes r) []) categorical.

(** [torch.cat(blocks, -1)] for blocks with [n] rows each. *)
Definition cat_blocks (n : nat) (blocks : list Tensor.mat) : Tensor.mat :=
  map (fun i => flat_map (fun b => nth i b []) blocks) (seq 0 n).

(** [str(i)] *)
Definition str (i : nat) : string :=
  DecimalString.NilEmpty.string_of_uint (Nat.to_uint i).

(** [[var + str(i) for i in range(1, n_features)]] *)
Definition filler_vars (var : string) (n_features : nat) : list string :=
  map (fun i => var ++ str i)%string (seq 1 (n_features - 1)).

(** The loop that rebuilds the categorical variable list and shares the
    dictionaries of a variable with its filler columns. *)
Fixpoint extend_variables (n_features : nat) (vars : list string)
    (w2i : Dict.t (list (label * nat))) (i2w : Dict.t (list (nat * label)))
  : result (list string * Dict.t (list (label * nat)) * Dict.t (list (nat * label))) :=
  match vars with
  | [] => ok ([], w2i, i2w)
  | var :: vars' =>
      let fillers := filler_vars var n_features in
      (' (w2i, i2w) <-
         match Dict.get w2i var with
         | None => ok (w2i, i2w)
         | Some table =>
             match fillers, Dict.get i2w var with
             | [], _ => ok (w2i, i2w)
             | _ :: _, None => raise (KeyError var)
             | _ :: _, Some back =>
                 ok (fold_left (fun d f => Dict.set d f table) fillers w2i,
                     fold_left (fun d f => Dict.set d f back) fillers i2w)
             end
         end ;;
       ' (names, w2i, i2w) <- extend_variables n_features vars' w2i i2w ;;
       ok (var :: fillers ++ names, w2i, i2w))%result
  end.

(** [column.map(int_to_words[v])] on one cell: the word whose code
    equals the cell, if any. *)
Fixpoint code_word (back : list (nat * label)) (c : R) : option label :=
  match back with
  | [] => None
  | (i, wd) :: back' => if Req_dec_T (INR i) c then Some wd else code_word back' c
  end.

(** The last loop, on one categorical cell of the column called [name]. *)
Definition decode_cell (w2i : Dict.t (list (label * nat)))
    (i2w : Dict.t (list (nat * label))) (name : string) (c : R) : result (option label) :=
  if Dict.mem w2i name then
    match Dict.get i2w name with
    | Some back => ok (code_word back c)
    | None => raise (KeyError name)
    end
  else ok (Some (Num c)).

Fixpoint decode_cells w2i i2w (names : list string) (cells : Tensor.vec)
  : result (list (option label)) :=
  match names, cells with
  | name :: names', c :: cells' =>
      (o <- decode_cell w2i i2w name c ;;
       os <- decode_cells w2i i2w names' cells' ;;
       ok (o :: os))%result
  | _, _ => ok []
  end.

(** [deprocess]: the decoded frame and the wrapper as the call leaves
    it.  Column names are taken to be pairwise distinct, so that the
    frame has one column per name; a key of [words_to_int] that names no
    column of the frame raises. *)
Definition deprocess (w : t) (s : sampler) (x ctx : Tensor.mat) (n_features : nat)
  : result (list out_row * t) :=
  let d_cont := length (fst (means w)) in
  let d_cat := list_sum (cat_dims w) in
  (parts <- map_result (Tensor.split [d_cont; d_cat]) x ;;
   let x_cont := map (fun r => unscale_row (nth 0 r []) (fst (means w)) (fst (stds w))) parts in
   let x_cat := map (fun r => nth 1 r []) parts in
   let x_ctx := map (fun r => unscale_row r (snd (means w)) (snd (stds w))) ctx in
   x_cat <-
     (if (0 <? d_cat)%nat then
        blocks <- map_result
                    (fun '(j, l) => decode_block w s n_features j
                                      (block (cat_dims w) x_cat j) l)
                    (combine (seq 0 (length (cat_dims w))) (cat_labels w)) ;;
        ok (cat_blocks (length x) blocks)
      else ok x_cat) ;;
   ' (names, w2i, i2w) <-
     extend_variables n_features (categorical (variables w))
       (words_to_int w) (int_to_words w) ;;
   let columns := (continuous (variables w) ++ names ++ context (variables w))%list in
   _ <- map_result (fun k => if existsb (String.eqb k) columns then ok tt
                             else raise (KeyError k)) (Dict.keys w2i) ;;
   cells <- map_result (decode_cells w2i i2w names) x_cat ;;
   let w' := {| variables := {| continuous := continuous (variables w);
                                categorical := names;
                                context := context (variables w) |};
                means := means w; stds := stds w; cat_dims := cat_dims w;
                words_to_int := w2i; int_to_words := i2w;
                cat_labels := cat_labels w; cont_bounds := cont_bounds w;
                df0 := df0 w |} in
   ok (map (fun '(c, k, z) => {| out_cont := c; out_cat := k; out_ctx := z |})
           (combine (combine x_cont cells) x_ctx), w'))%result.

End DataWrapper.

(** *** Predicates on frames *)

Module DataWrapperSpec.

(** The strict order behind [label_compare]. *)
Definition label_lt (a b : DataWrapper.label) : Prop :=
  DataWrapper.label_compare a b = Lt.

(** Every row has one cell per selected variable. *)
Definition conforms (w : DataWrapper.t) (df : DataWrapper.frame) : Prop :=
  Forall (fun r =>
            length (DataWrapper.cont_cells r)
            = length (DataWrapper.continuous (DataWrapper.variables w)) /\
            length (DataWrapper.cat_cells r)
            = length (DataWrapper.categorical (DataWrapper.variables w)) /\
            length (DataWrapper.ctx_cells r)
            = length (DataWrapper.context (DataWrapper.variables w))) df.

(** Every categorical column of [df] takes exactly the values the same
    column takes in [fit]. *)
Definition same_categories (n_vars : nat) (fit df : DataWrapper.frame) : Prop :=
  forall j, (j < n_vars)%nat ->
    forall v, In v (DataWrapper.cat_column df j) <-> In v (DataWrapper.cat_column fit j).

(** The row a frame row decodes to when nothing is lost. *)
Definition decoded (r : DataWrapper.row) : DataWrapper.out_row :=
  {| DataWrapper.out_cont := DataWrapper.cont_cells r;
     DataWrapper.out_cat := map Some (DataWrapper.cat_cells r);
     DataWrapper.out_ctx := DataWrapper.ctx_cells r |}.

(** The codes [words_to_int] gives the values of a column. *)
Definition code_table (column : list DataWrapper.label) : list (DataWrapper.label * nat) :=
  map (fun '(idx, feature) => (feature, idx))
      (enumerate (DataWrapper.dummy_columns column)).

(** What the constructor records for the categorical variable [v] at
    position [j]: for a column of floats no dictionary and the sorted
    values as labels; otherwise the two dictionaries over the sorted
    values and the sorted codes as labels. *)
Definition recorded (df : DataWrapper.frame) (j : nat) (v : string)
    (w2i : Dict.t (list (DataWrapper.label * nat)))
    (i2w : Dict.t (list (nat * DataWrapper.label))) (l : Tensor.vec) : Prop :=
  match DataWrapper.cat_column df j with
  | [] => False
  | first :: _ =>
      if DataWrapper.is_float first then
        Dict.get w2i v = None /\ Dict.get i2w v = None /\
        DataWrapper.to_float_tensor (DataWrapper.dummy_columns (DataWrapper.cat_column df j))
        = inr l
      else
        Dict.get w2i v = Some (code_table (DataWrapper.cat_column df j)) /\
        Dict.get i2w v
        = Some (enumerate (DataWrapper.dummy_columns (DataWrapper.cat_column df j))) /\
        DataWrapper.to_float_tensor
          (DataWrapper.dummy_columns
             (DataWrapper.map_codes (code_table (DataWrapper.cat_column df j))
                                    (DataWrapper.cat_column df j)))
        = inr l
  end.

(** The position of a value among the one-hot columns. *)
Fixpoint index_of (columns : list DataWrapper.label) (c : DataWrapper.label) : nat :=
  match columns with
  | [] => 0
  | k :: columns' =>
      if DataWrapper.label_eqb c k then 0 else S (index_of columns' c)
  end.

(** The number a categorical cell is decoded from: its code where the
    variable has a dictionary, the cell itself where it is a float. *)
Definition raw_value (i2w : Dict.t (list (nat * DataWrapper.label))) (v : string)
    (columns : list DataWrapper.label) (c : DataWrapper.label) : R :=
  if Dict.mem i2w v then INR (index_of columns c)
  else match c with DataWrapper.Num x => x | DataWrapper.Word _ => 0 end.

(** What a wrapper built from the frame [fit] holds. *)
Record fitted (fit : DataWrapper.frame) (w : DataWrapper.t) : Prop := {
  fitted_means_cont :
    length (fst (DataWrapper.means w))
    = length (DataWrapper.continuous (DataWrapper.variables w));
  fitted_means_ctx :
    length (snd (DataWrapper.means w))
    = length (DataWrapper.context (DataWrapper.variables w));
  fitted_stds_cont :
    length (fst (DataWrapper.stds w))
    = length (DataWrapper.continuous (DataWrapper.variables w));
  fitted_stds_ctx :
    length (snd (DataWrapper.stds w))
    = length (DataWrapper.context (DataWrapper.variables w));
  fitted_stds_cont_pos : Forall (fun c => c <> 0) (fst (DataWrapper.stds w));
  fitted_stds_ctx_pos : Forall (fun c => c <> 0) (snd (DataWrapper.stds w));
  fitted_cat_dims :
    DataWrapper.cat_dims w
    = map (fun j => length (DataWrapper.dummy_columns (DataWrapper.cat_column fit j)))
          (seq 0 (length (DataWrapper.categorical (DataWrapper.variables w))));
  fitted_labels :
    exists ls,
      DataWrapper.cat_labels w
      = combine (DataWrapper.categorical (DataWrapper.variables w)) ls /\
      length ls = length (DataWrapper.categorical (DataWrapper.variables w)) /\
      forall j, (j < length (DataWrapper.categorical (DataWrapper.variables w)))%nat ->
        recorded fit j
          (nth j (DataWrapper.categorical (DataWrapper.variables w)) EmptyString)
          (DataWrapper.words_to_int w) (DataWrapper.int_to_words w) (nth j ls []);
  fitted_keys :
    forall k, In k (Dict.keys (DataWrapper.words_to_int w)) ->
              In k (DataWrapper.categorical (DataWrapper.variables w))
}.

(** A categorical column the constructor accepts: not empty, and all
    floats if its first cell is one. *)
Definition column_ok (column : list DataWrapper.label) : Prop :=
  match column with
  | [] => False
  | first :: _ =>
      DataWrapper.is_float first = true ->
      Forall (fun c => DataWrapper.is_float c = true) column
  end.

End DataWrapperSpec.

(** ** The training specifications (class [Specifications]) *)

Module Specifications.

(** The optimizer classes a specification can name. *)
Inductive optimizer_class : Type :=
| TorchAdam
| OptimisticAdam
| OtherOptimizer (name : string).

(** [generator_d_noise]: an integer, or the default string
    ["generator_d_output"]. *)
Inductive noise_arg : Type :=
| generator_d_output
| noise_width (d : Z).

(** [generator_optimizer]: a class, or the default string ["optimizer"]. *)
Inductive generator_optimizer_arg : Type :=
| same_as_optimizer
| own_optimizer (c : optimizer_class).

(** The keyword arguments of the constructor. *)
Record args : Type := {
  arg_optimizer : optimizer_class;
  arg_critic_d_hidden : list Z;
  arg_critic_dropout : R;
  arg_critic_steps : Z;
  arg_critic_lr : R;
  arg_critic_gp_factor : R;
  arg_generator_d_hidden : list Z;
  arg_generator_dropout : R;
  arg_generator_lr : R;
  arg_generator_d_noise : noise_arg;
  arg_generator_optimizer : generator_optimizer_arg;
  arg_max_epochs : Z;
  arg_batch_size : Z;
  arg_test_set_size : Z;
  arg_load_checkpoint : option string;
  arg_save_checkpoint : option string;
  arg_save_every : Z;
  arg_print_every : Z;
  arg_device : string
}.

Definition defaults (device : string) : args :=
  {| arg_optimizer := TorchAdam;
     arg_critic_d_hidden := [128; 128; 128]%Z;
     arg_critic_dropout := 0;
     arg_critic_steps := 15;
     arg_critic_lr := 1e-4;
     arg_critic_gp_factor := 5;
     arg_generator_d_hidden := [128; 128; 128]%Z;
     arg_generator_dropout := 0.1;
     arg_generator_lr := 1e-4;
     arg_generator_d_noise := generator_d_output;
     arg_generator_optimizer := same_as_optimizer;
     arg_max_epochs := 1000;
     arg_batch_size := 32;
     arg_test_set_size := 16;
     arg_load_checkpoint := None;
     arg_save_checkpoint := None;
     arg_save_every := 100;
     arg_print_every := 200;
     arg_device := device |}.

(** [self.settings] *)
Record settings_dict : Type := {
  optimizer : optimizer_class;
  critic_d_hidden : list Z;
  critic_dropout : R;
  critic_steps : Z;
  critic_lr : R;
  critic_gp_factor : R;
  generator_d_hidden : list Z;
  generator_dropout : R;
  generator_lr : R;
  generator_d_noise : Z;
  generator_optimizer : generator_optimizer_arg;
  max_epochs : Z;
  batch_size : Z;
  test_set_size : Z;
  load_checkpoint : option string;
  save_checkpoint : option string;
  save_every : Z;
  print_every : Z;
  device : string
}.

(** [self.data] *)
Record data_dict : Type := {
  d_context : Z;
  d_x : Z;
  cat_dims : list nat;
  cont_bounds : Tensor.mat
}.

Record t : Type := { settings : settings_dict; data : data_dict }.

(** [__init__]: the arguments are stored as they come; only the noise
    width is resolved. *)
Definition init (data_wrapper : DataWrapper.t) (a : args) : result t :=
  let d_context := Z.of_nat (length (DataWrapper.context (DataWrapper.variables data_wrapper))) in
  let d_cont := Z.of_nat (length (DataWrapper.continuous (DataWrapper.variables data_wrapper))) in
  let d_x := (d_cont + Z.of_nat (list_sum (DataWrapper.cat_dims data_wrapper)))%Z in
  ok {| settings :=
          {| optimizer := arg_optimizer a;
             critic_d_hidden := arg_critic_d_hidden a;
             critic_dropout := arg_critic_dropout a;
             critic_steps := arg_critic_steps a;
             critic_lr := arg_critic_lr a;
             critic_gp_factor := arg_critic_gp_factor a;
             generator_d_hidden := arg_generator_d_hidden a;
             generator_dropout := arg_generator_dropout a;
             generator_lr := arg_generator_lr a;
             generator_d_noise := match arg_generator_d_noise a with
                                  | generator_d_output => d_x
                                  | noise_width d => d
                                  end;
             generator_optimizer := arg_generator_optimizer a;
             max_epochs := arg_max_epochs a;
             batch_size := arg_batch_size a;
             test_set_size := arg_test_set_size a;
             load_checkpoint := arg_load_checkpoint a;
             save_checkpoint := arg_save_checkpoint a;
             save_every := arg_save_every a;
             print_every := arg_print_every a;
             device := arg_device a |};
        data :=
          {| d_context := d_context;
             d_x := d_x;
             cat_dims := DataWrapper.cat_dims data_wrapper;
             cont_bounds := DataWrapper.cont_bounds data_wrapper |} |}.

(** The numeric ranges the specification document expects the
    constructor to enforce. *)
Definition spec_out_of_range (a : args) : Prop :=
  arg_critic_lr a <= 0 \/ arg_generator_lr a <= 0 \/
  arg_critic_dropout a < 0 \/ arg_generator_dropout a < 0 \/
  (arg_batch_size a <= 0)%Z.

End Specifications.

(** ** Fully connected layers ([nn.Linear]) *)

Module Linear.

Record t : Type := { weight : Tensor.mat; bias : Tensor.vec }.

Definition dot (a b : Tensor.vec) : R := Tensor.sum (Tensor.mul a b).

(** [layer(x)]: every row of the weight must have the width of [x]. *)
Definition apply (l : t) (x : Tensor.vec) : result Tensor.vec :=
  if forallb (fun r => (length r =? length x)%nat) (weight l)
     && (length (weight l) =? length (bias l))%nat
  then ok (Tensor.add (map (fun r => dot r x) (weight l)) (bias l))
  else raise (RuntimeError "mat1 and mat2 shapes cannot be multiplied").

(** The loop [for layer in layers: x = dropout(relu(layer(x)))]. *)
Fixpoint hidden (dropout : Tensor.vec -> Tensor.vec) (layers : list t) (x : Tensor.vec)
  : result Tensor.vec :=
  match layers with
  | [] => ok x
  | l :: layers' =>
      (y <- apply l x ;; hidden dropout layers' (dropout (map Tensor.relu y)))%result
  end.

(** [layers[-1](hidden(layers[:-1], x))] *)
Definition network (dropout : Tensor.vec -> Tensor.vec) (layers : list t) (x : Tensor.vec)
  : result Tensor.vec :=
  match rev layers with
  | [] => raise IndexError
  | final :: _ =>
      (h <- hidden dropout (removelast layers) x ;; apply final h)%result
  end.

End Linear.

(** ** The generator (class [Generator]) *)

Module Generator.

(** [dropout] is the mask-and-rescale map the dropout layer applies at
    one call; it is the identity in evaluation mode. *)
Record t : Type := {
  cont_bounds : Tensor.mat;
  cat_dims : list nat;
  d_cont : nat;
  d_cat : nat;
  d_noise : Z;
  layers : list Linear.t;
  dropout : Tensor.vec -> Tensor.vec
}.

(** [__init__], given the freshly initialised layer for every pair of
    input and output widths and the dropout map. *)
Definition init (specifications : Specifications.t)
    (new_layer : Z -> Z -> Linear.t) (dropout : Tensor.vec -> Tensor.vec) : t :=
  let s := Specifications.settings specifications in
  let d := Specifications.data specifications in
  let cont_bounds := Specifications.cont_bounds d in
  let d_cont := length (hd [] cont_bounds) in
  let d_cat := list_sum (Specifications.cat_dims d) in
  let d_noise := Specifications.generator_d_noise s in
  let d_in := (d_noise + Specifications.d_context d)%Z
              :: Specifications.generator_d_hidden s in
  let d_out := Specifications.generator_d_hidden s
               ++ [Z.of_nat (d_cont + d_cat)] in
  {| cont_bounds := cont_bounds;
     cat_dims := Specifications.cat_dims d;
     d_cont := d_cont;
     d_cat := d_cat;
     d_noise := d_noise;
     layers := map (fun '(i, o) => new_layer i o) (combine d_in d_out);
     dropout := dropout |}.

(** [_transform] on one row of [hidden]. *)
Definition _transform (g : t) (hidden : Tensor.vec) : result Tensor.vec :=
  (parts <- Tensor.split [d_cont g; d_cat g] hidden ;;
   let continuous := nth 0 parts [] in
   let categorical := nth 1 parts [] in
   continuous <-
     (if (0 <? length continuous)%nat then
        (* apply bounds to continuous *)
        lower <- Tensor.slice_expand (cont_bounds g) 0 (length continuous) ;;
        let continuous := Tensor.vmax continuous lower in
        upper <- Tensor.slice_expand (cont_bounds g) 1 (length continuous) ;;
        ok (Tensor.vmin continuous upper)
      else ok continuous) ;;
   categorical <-
     (if (0 <? length categorical)%nat then
        (* renormalize categorical *)
        blocks <- Tensor.split (cat_dims g) categorical ;;
        ok (concat (map Tensor.softmax blocks))
      else ok categorical) ;;
   ok (continuous ++ categorical))%result.

(** [forward] on one row of [context], with the noise drawn for it. *)
Definition forward (g : t) (noise context : Tensor.vec) : result Tensor.vec :=
  (h <- Linear.network (dropout g) (layers g) (noise ++ context) ;;
   _transform g h)%result.

(** The bounds tensor has two rows of the width of the continuous part,
    the lower one below the upper one. *)
Definition bounds_ordered (g : t) : Prop :=
  exists lower upper,
    cont_bounds g = [lower; upper] /\
    length lower = d_cont g /\ length upper = d_cont g /\
    Forall2 Rle lower upper.

End Generator.

(** ** The critic (class [Critic]) *)

Module Critic.

Record t : Type := {
  layers : list Linear.t;
  dropout : Tensor.vec -> Tensor.vec
}.

Definition init (specifications : Specifications.t)
    (new_layer : Z -> Z -> Linear.t) (dropout : Tensor.vec -> Tensor.vec) : t :=
  let s := Specifications.settings specifications in
  let d := Specifications.data specifications in
  let d_in := (Specifications.d_x d + Specifications.d_context d)%Z
              :: Specifications.critic_d_hidden s in
  let d_out := Specifications.critic_d_hidden s ++ [1%Z] in
  {| layers := map (fun '(i, o) => new_layer i o) (combine d_in d_out);
     dropout := dropout |}.

(** [forward] on one row. *)
Definition forward (c : t) (x context : Tensor.vec) : result Tensor.vec :=
  Linear.network (dropout c) (layers c) (x ++ context).

(** [x * alpha + x_hat * (1 - alpha)] on one row, [alpha] being the
    weight drawn for that row. *)
Definition interpolate (alpha : R) (x x_hat : Tensor.vec) : Tensor.vec :=
  Tensor.map2 (fun a b => a * alpha + b * (1 - alpha)) x x_hat.

(** The rows of [interpolated], each paired with its context row. *)
Fixpoint interpolated (alpha : Tensor.vec) (x x_hat context : Tensor.mat)
  : list (Tensor.vec * Tensor.vec) :=
  match alpha, x, x_hat, context with
  | a :: alpha', xi :: x', hi :: x_hat', ci :: context' =>
      (interpolate a xi hi, ci) :: interpolated alpha' x' x_hat' context'
  | _, _, _, _ => []
  end.

(** [gradient_penalty].  [alpha] holds the uniform draws of
    [torch.rand], one per row; [autograd c z ctx] is the gradient of the
    critic's score at [(z, ctx)] with respect to [z], as the
    differentiation runtime returns it. *)
Definition gradient_penalty (c : t)
    (autograd : t -> Tensor.vec -> Tensor.vec -> Tensor.vec)
    (alpha : Tensor.vec) (x x_hat context : Tensor.mat) : R :=
  let gradients := map (fun '(z, ctx) => autograd c z ctx)
                       (interpolated alpha x x_hat context) in
  Tensor.mean (map (fun g => Tensor.relu (Tensor.norm2 g - 1)) gradients).

(** Every coordinate of the interpolated row lies between the
    coordinates of the two rows it combines. *)
Definition between (z x x_hat : Tensor.vec) : Prop :=
  forall i a b, nth_error x i = Some a -> nth_error x_hat i = Some b ->
    exists c, nth_error z i = Some c /\ Rmin a b <= c <= Rmax a b.

End Critic.

(** *** Properties of generator outputs, as predicates *)

Module GeneratorSpec.

(** Every continuous coordinate of [out] lies between its two bounds. *)
Definition within_bounds (g : Generator.t) (out : Tensor.vec) : Prop :=
  forall i lo hi,
    nth_error (nth 0 (Generator.cont_bounds g) []) i = Some lo ->
    nth_error (nth 1 (Generator.cont_bounds g) []) i = Some hi ->
    exists y, nth_error out i = Some y /\ lo <= y <= hi.

(** The categorical blocks of an output row. *)
Definition categorical_blocks (g : Generator.t) (out : Tensor.vec) : list Tensor.vec :=
  Tensor.chunks (Generator.cat_dims g) (skipn (Generator.d_cont g) out).

Definition probability_vector (b : Tensor.vec) : Prop :=
  Forall (fun p => 0 <= p) b /\ Tensor.sum b = 1.

(** The widths as [Generator.init] sets them, every categorical variable
    having at least one category. *)
Definition widths_consistent (g : Generator.t) : Prop :=
  Generator.d_cat g = list_sum (Generator.cat_dims g) /\
  Forall (fun d => (0 < d)%nat) (Generator.cat_dims g).

End GeneratorSpec.

(** ** The training loop (function [train]) *)

Module Train.

Definition batch : Type := (Tensor.mat * Tensor.mat)%type.

(** A penalty function for the generator loss; evaluating it may raise. *)
Definition penalty_fn : Type := Tensor.mat -> Tensor.mat -> result R.

(** What the loop consumes from the tensor runtime: optimizer objects,
    the random generators, data loading, the forward passes averaged
    over a batch, and the backward pass followed by an optimizer step. *)
Record runtime : Type := {
  opt : Type;
  rng : Type;
  dataset : Type;
  (** [opt_class(parameters, lr=lr)] *)
  generator_optimizer : Specifications.optimizer_class -> Generator.t -> R -> result opt;
  critic_optimizer : Specifications.optimizer_class -> Critic.t -> R -> result opt;
  (** [D.random_split(D.TensorDataset(x, context), (n_train, n_test))] *)
  random_split : rng -> Tensor.mat -> Tensor.mat -> Z -> Z -> result (dataset * dataset * rng);
  (** [D.DataLoader(d, batch_size, shuffle=True)] and one pass over it *)
  data_loader : dataset -> Z -> result dataset;
  batches : rng -> dataset -> list batch * rng;
  (** [generator(context)] *)
  generate : rng -> Generator.t -> Tensor.mat -> Tensor.mat * rng;
  (** [critic(x, context).mean()] *)
  critic_mean : rng -> Critic.t -> Tensor.mat -> Tensor.mat -> R * rng;
  (** [critic.gradient_penalty(x, x_hat, context)] *)
  gradient_penalty : rng -> Critic.t -> Tensor.mat -> Tensor.mat -> Tensor.mat -> R * rng;
  (** [loss.backward(); opt.step()] for a loss of the given value *)
  critic_backward_step : Generator.t -> Critic.t -> opt -> batch -> R -> Critic.t * opt;
  generator_backward_step : Generator.t -> Critic.t -> opt -> batch -> R -> Generator.t * opt
}.

Section WithRuntime.

Variable rt : runtime.

(** The dictionary [torch.save] writes.  A network stands for its
    state dictionary, an optimizer object for its own. *)
Record checkpoint : Type := {
  cp_epoch : Z;
  cp_step : Z;
  generator_state_dict : Generator.t;
  critic_state_dict : Critic.t;
  opt_generator_state_dict : opt rt;
  opt_critic_state_dict : opt rt
}.

(** What a run lets an observer see.  [EpochBegin], [CriticUpdate]
    and [GeneratorUpdate] mark the start of an iteration of the epoch
    loop and the two optimizer steps; [Printed] is the progress line,
    [Saved] the call of [torch.save]. *)
Inductive event : Type :=
| EpochBegin (epoch : Z)
| CriticUpdate (step : Z)
| GeneratorUpdate (step : Z)
| Printed (epoch step : Z) (WD_test WD_train : R)
| Saved (path : string) (epoch step : Z).

(** The objects the loop mutates, the files it reads and writes, and
    the events so far. *)
Record state : Type := {
  generator : Generator.t;
  critic : Critic.t;
  opt_generator : opt rt;
  opt_critic : opt rt;
  step : Z;
  generator_requires_grad : bool;
  critic_requires_grad : bool;
  random : rng rt;
  files : Dict.t checkpoint;
  log : list event
}.

Definition set_networks (g : Generator.t) (og : opt rt) (c : Critic.t) (oc : opt rt)
    (s : state) : state :=
  {| generator := g; critic := c; opt_generator := og; opt_critic := oc;
     step := step s; generator_requires_grad := generator_requires_grad s;
     critic_requires_grad := critic_requires_grad s; random := random s;
     files := files s; log := log s |}.

Definition set_step (n : Z) (s : state) : state :=
  {| generator := generator s; critic := critic s;
     opt_generator := opt_generator s; opt_critic := opt_critic s;
     step := n; generator_requires_grad := generator_requires_grad s;
     critic_requires_grad := critic_requires_grad s; random := random s;
     files := files s; log := log s |}.

Definition set_requires_grad (g c : bool) (s : state) : state :=
  {| generator := generator s; critic := critic s;
     opt_generator := opt_generator s; opt_critic := opt_critic s;
     step := step s; generator_requires_grad := g;
     critic_requires_grad := c; random := random s;
     files := files s; log := log s |}.

Definition set_random (r : rng rt) (s : state) : state :=
  {| generator := generator s; critic := critic s;
     opt_generator := opt_generator s; opt_critic := opt_critic s;
     step := step s; generator_requires_grad := generator_requires_grad s;
     critic_requires_grad := critic_requires_grad s; random := r;
     files := files s; log := log s |}.

Definition set_files (f : Dict.t checkpoint) (s : state) : state :=
  {| generator := generator s; critic := critic s;
     opt_generator := opt_generator s; opt_critic := opt_critic s;
     step := step s; generator_requires_grad := generator_requires_grad s;
     critic_requires_grad := critic_requires_grad s; random := random s;
     files := f; log := log s |}.

Definition add_event (e : event) (s : state) : state :=
  {| generator := generator s; critic := critic s;
     opt_generator := opt_generator s; opt_critic := opt_critic s;
     step := step s; generator_requires_grad := generator_requires_grad s;
     critic_requires_grad := critic_requires_grad s; random := random s;
     files := files s; log := log s ++ [e] |}.

(** Computations that read and write the state and may raise. *)
Definition M (A : Type) : Type := state -> result A * state.

Definition ret {A} (a : A) : M A := fun s => (ok a, s).
Definition lift {A} (r : result A) : M A := fun s => (r, s).
Definition get : M state := fun s => (ok s, s).
Definition modify (f : state -> state) : M unit := fun s => (ok tt, f s).
Definition tell (e : event) : M unit := modify (add_event e).

Definition mbind {A B} (m : M A) (k : A -> M B) : M B :=
  fun s => match m s with
           | (inl e, s') => (inl e, s')
           | (inr a, s') => k a s'
           end.

(** A call that consumes randomness. *)
Definition sample {A} (f : rng rt -> A * rng rt) : M A :=
  fun s => let (a, r) := f (random s) in (ok a, set_random r s).

Fixpoint for_fold {A B} (l : list A) (acc : B) (body : B -> A -> M B) : M B :=
  match l with
  | [] => ret acc
  | a :: l' => mbind (body acc a) (fun acc' => for_fold l' acc' body)
  end.

Fixpoint for_each {A} (l : list A) (body : A -> M unit) : M unit :=
  match l with
  | [] => ret tt
  | a :: l' => mbind (body a) (fun _ => for_each l' body)
  end.

End WithRuntime.

Arguments ret {rt A} a.
Arguments lift {rt A} r.
Arguments get {rt}.
Arguments modify {rt} f.
Arguments tell {rt} e.
Arguments mbind {rt A B} m k.
Arguments sample {rt A} f.
Arguments for_fold {rt A B} l acc body.
Arguments for_each {rt A} l body.

Declare Scope train_scope.
Delimit Scope train_scope with train.
Notation "x <- m ;; k" := (mbind m (fun x => k))
  (at level 61, m at next level, right associativity) : train_scope.
Notation "' p <- m ;; k" := (mbind m (fun p => k))
  (at level 61, p pattern, m at next level, right associativity) : train_scope.
Notation "m ;; k" := (mbind m (fun _ => k))
  (at level 61, right associativity) : train_scope.

(** [a / n] for a float by an integer count. *)
Definition py_div (a : R) (n : Z) : result R :=
  if (n =? 0)%Z then raise ZeroDivisionError else ok (a / IZR n).

Section Loop.

Variable rt : runtime.
Variable s : Specifications.settings_dict.
Variable penalty : option penalty_fn.

Local Open Scope train_scope.

(** The body of [for x, context in train_batches], with the running
    [(WD_train, n_batches)]. *)
Definition train_batch (acc : R * Z) (b : batch) : M rt (R * Z) :=
  let '(WD_train, n_batches) := acc in
  let '(x, context) := b in
  st <- get ;;
  r <- lift (py_mod (step rt st) (Specifications.critic_steps s)) ;;
  let generator_update := (r =? 0)%Z in
  modify (set_requires_grad rt generator_update (negb generator_update)) ;;
  x_hat <- sample (fun g => generate rt g (generator rt st) context) ;;
  critic_x_hat <- sample (fun g => critic_mean rt g (critic rt st) x_hat context) ;;
  acc' <-
  (if negb generator_update then
     critic_x <- sample (fun g => critic_mean rt g (critic rt st) x context) ;;
     let WD := critic_x - critic_x_hat in
     gp <- sample (fun g => gradient_penalty rt g (critic rt st) x x_hat context) ;;
     let loss := - WD + Specifications.critic_gp_factor s * gp in
     let (c, oc) := critic_backward_step rt (generator rt st) (critic rt st)
                      (opt_critic rt st) b loss in
     modify (set_networks rt (generator rt st) (opt_generator rt st) c oc) ;;
     tell (CriticUpdate (step rt st)) ;;
     ret (WD_train + WD, (n_batches + 1)%Z)
   else
     loss <- match penalty with
             | Some f => p <- lift (f x_hat context) ;; ret (- critic_x_hat + p)
             | None => ret (- critic_x_hat)
             end ;;
     let (g, og) := generator_backward_step rt (generator rt st) (critic rt st)
                      (opt_generator rt st) b loss in
     modify (set_networks rt g og (critic rt st) (opt_critic rt st)) ;;
     tell (GeneratorUpdate (step rt st)) ;;
     ret (WD_train, n_batches)) ;;
  modify (fun st' => set_step rt (step rt st' + 1)%Z st') ;;
  ret acc'.

(** The body of [for x, context in test_batches]. *)
Definition test_batch (acc : R * Z) (b : batch) : M rt (R * Z) :=
  let '(WD_test, n_batches) := acc in
  let '(x, context) := b in
  st <- get ;;
  x_hat <- sample (fun g => generate rt g (generator rt st) context) ;;
  critic_x_hat <- sample (fun g => critic_mean rt g (critic rt st) x_hat context) ;;
  critic_x <- sample (fun g => critic_mean rt g (critic rt st) x context) ;;
  ret (WD_test + (critic_x - critic_x_hat), (n_batches + 1)%Z).

(** [torch.save(..., path)]: the file at [path] is replaced. *)
Definition save (path : string) (epoch : Z) : M rt unit :=
  st <- get ;;
  let cp := {| cp_epoch := epoch; cp_step := step rt st;
               generator_state_dict := generator rt st;
               critic_state_dict := critic rt st;
               opt_generator_state_dict := opt_generator rt st;
               opt_critic_state_dict := opt_critic rt st |} in
  modify (set_files rt (Dict.set (files rt st) path cp)) ;;
  tell (Saved path epoch (step rt st)).

(** The body of [for epoch in range(start_epoch, max_epochs)]. *)
Definition train_epoch (train_batches test_batches : dataset rt) (epoch : Z)
  : M rt unit :=
  tell (EpochBegin epoch) ;;
  (* train loop *)
  bs <- sample (fun g => batches rt g train_batches) ;;
  ' (WD_train, n_batches) <- for_fold bs (0, 0%Z) train_batch ;;
  WD_train <- lift (py_div WD_train n_batches) ;;
  (* test loop *)
  bs <- sample (fun g => batches rt g test_batches) ;;
  ' (WD_test, n_batches) <- for_fold bs (0, 0%Z) test_batch ;;
  WD_test <- lift (py_div WD_test n_batches) ;;
  (* diagnostics *)
  r <- lift (py_mod epoch (Specifications.print_every s)) ;;
  (if (r =? 0)%Z then
     st <- get ;; tell (Printed epoch (step rt st) WD_test WD_train)
   else ret tt) ;;
  match Specifications.save_checkpoint s with
  | Some path =>
      if truthy_path (Some path) then
        r <- lift (py_mod epoch (Specifications.save_every s)) ;;
        if (r =? 0)%Z then save path epoch else ret tt
      else ret tt
  | None => ret tt
  end.

(** The block [if s["load_checkpoint"]: ...]; it returns [start_epoch]. *)
Definition load_checkpoints : M rt Z :=
  match Specifications.load_checkpoint s with
  | Some path =>
      if truthy_path (Some path) then
        st <- get ;;
        match Dict.get (files rt st) path with
        | None => lift (raise (FileNotFoundError path))
        | Some cp =>
            modify (set_networks rt (generator_state_dict rt cp)
                      (opt_generator_state_dict rt cp)
                      (critic_state_dict rt cp)
                      (opt_critic_state_dict rt cp)) ;;
            modify (set_step rt (cp_step rt cp)) ;;
            ret (cp_epoch rt cp)
        end
      else ret 0%Z
  | None => ret 0%Z
  end.

(** Everything from the checkpoint block to the end of the epoch loop. *)
Definition run (train_batches test_batches : dataset rt) : M rt unit :=
  start_epoch <- load_checkpoints ;;
  for_each (py_range start_epoch (Specifications.max_epochs s))
           (train_epoch train_batches test_batches).

(** The set-up before the checkpoint block: optimizers, the split of
    the data and the two loaders; the step counter starts at 1. *)
Definition setup (generator : Generator.t) (critic : Critic.t)
    (x context : Tensor.mat) (g0 : rng rt) (fs : Dict.t (checkpoint rt))
  : result (state rt * dataset rt * dataset rt) :=
  let opt_class :=
    match Specifications.generator_optimizer s with
    | Specifications.same_as_optimizer => Specifications.optimizer s
    | Specifications.own_optimizer c => c
    end in
  (opt_generator <- generator_optimizer rt opt_class generator
                      (Specifications.generator_lr s) ;;
   opt_critic <- critic_optimizer rt (Specifications.optimizer s) critic
                   (Specifications.critic_lr s) ;;
   ' (train_set, test_set, g1) <-
     random_split rt g0 x context
       (Z.of_nat (length x) - Specifications.test_set_size s)
       (Specifications.test_set_size s) ;;
   train_batches <- data_loader rt train_set (Specifications.batch_size s) ;;
   test_batches <- data_loader rt test_set (Specifications.batch_size s) ;;
   ok ({| generator := generator; critic := critic;
          opt_generator := opt_generator; opt_critic := opt_critic;
          step := 1; generator_requires_grad := true;
          critic_requires_grad := true; random := g1;
          files := fs; log := [] |},
       train_batches, test_batches))%result.

End Loop.

(** Events that are optimizer steps, and epochs begun. *)
Definition is_update (e : event) : bool :=
  match e with CriticUpdate _ | GeneratorUpdate _ => true | _ => false end.

Definition is_generator_update (e : event) : bool :=
  match e with GeneratorUpdate _ => true | _ => false end.

Definition updates (l : list event) : list event := filter is_update l.

Fixpoint epochs_begun (l : list event) : list Z :=
  match l with
  | [] => []
  | EpochBegin e :: l' => e :: epochs_begun l'
  | _ :: l' => epochs_begun l'
  end.

(** The update the loop performs at a given value of the step counter. *)
Definition update_at (critic_steps k : Z) : event :=
  if (k mod critic_steps =? 0)%Z then GeneratorUpdate k else CriticUpdate k.

End Train.

(** [train]: an exception raised during set-up leaves nothing behind; past
    the set-up the result is the state the call ends in, with the exception
    that ended it if any.  A keyboard interrupt is not modelled. *)
Definition train (rt : Train.runtime) (generator : Generator.t) (critic : Critic.t)
    (x context : Tensor.mat) (specifications : Specifications.t)
    (penalty : option Train.penalty_fn)
    (g0 : Train.rng rt) (fs : Dict.t (Train.checkpoint rt))
  : result (result unit * Train.state rt) :=
  let s := Specifications.settings specifications in
  (' (st, train_batches, test_batches) <- Train.setup rt s generator critic x context g0 fs ;;
   ok (Train.run rt s penalty train_batches test_batches st))%result.

(** *** Relations between the states of a run *)

Module TrainSpec.

(** [R s s'] holds whenever running [m] from [s] ends in [s'], with or
    without an exception. *)
Definition always {rt A} (R : Train.state rt -> Train.state rt -> Prop)
    (m : Train.M rt A) : Prop :=
  forall s r s', m s = (r, s') -> R s s'.

(** Relations that every step of the loop other than an optimizer step,
    the start of an epoch and the restoring of a checkpoint respects. *)
Record stable {rt} (R : Train.state rt -> Train.state rt -> Prop) : Prop := {
  stable_refl : forall s, R s s;
  stable_trans : forall s1 s2 s3, R s1 s2 -> R s2 s3 -> R s1 s3;
  stable_random : forall s r, R s (Train.set_random rt r s);
  stable_files : forall s f, R s (Train.set_files rt f s);
  stable_printed : forall s e k a b, R s (Train.add_event rt (Train.Printed e k a b) s);
  stable_saved : forall s p e k, R s (Train.add_event rt (Train.Saved p e k) s)
}.

(** The optimizer steps logged so far are those of the step values
    [1, ..., step - 1], in order. *)
Definition covers {rt} (critic_steps : Z) (s : Train.state rt) : Prop :=
  (1 <= Train.step rt s)%Z /\
  Train.updates (Train.log rt s)
  = map (Train.update_at critic_steps) (py_range 1 (Train.step rt s)).

Definition keeps_cover {rt} (critic_steps : Z) (s s' : Train.state rt) : Prop :=
  covers critic_steps s -> covers critic_steps s'.

Definition same_epochs {rt} (s s' : Train.state rt) : Prop :=
  Train.epochs_begun (Train.log rt s') = Train.epochs_begun (Train.log rt s).

End TrainSpec.

(** ** The kernel-regression monotonicity penalty *)

(** The names bound at module level in [wgan.py]: its imports, functions
    and classes.  A name that a function body reads without binding it is
    looked up here (none of those below shadows a builtin). *)
Definition module_globals : list string :=
  [ "torch"; "math"; "nn"; "F"; "D"; "pd"; "np"; "plt"; "time";
    "collect_features"; "get_top_features"; "make_feature_vector";
    "DataWrapper"; "OAdam"; "Specifications"; "Generator"; "Critic";
    "train"; "compare_dfs"; "gaussian_similarity_penalty";
    "monotonicity_penalty_kernreg"; "monotonicity_penalty_chetverikov" ]%string.

Definition is_global (name : string) : bool :=
  existsb (String.eqb name) module_globals.

Module Kernreg.

(** [torch.cat([x_hat, context], -1)[:, idx]] *)
Definition column (x_hat context : Tensor.mat) (idx : Z) : result Tensor.vec :=
  map_result (fun '(a, b) => Tensor.index (a ++ b) idx)%list
                         (combine x_hat context).

(** [k = lambda x: (1 - x.pow(2)).clamp_min(0)] *)
Definition k (u : R) : R := Rmax (1 - u * u) 0.

(** [(x_max - x_min) * torch.arange(20) / 20 + x_min] *)
Definition x_grid (x_min x_max : R) : Tensor.vec :=
  map (fun j => (x_max - x_min) * INR j / 20 + x_min) (seq 0 20).

(** The closure [penalty(x_hat, context)]. *)
Definition penalty (factor h : R) (idx_out idx_in : Z) (x_min x_max : R)
    (x_hat context : Tensor.mat) : result R :=
  (y <- column x_hat context idx_out ;;
   x <- column x_hat context idx_in ;;
   let W := map (fun g => map (fun xi => k ((g - xi) / h)) x) (x_grid x_min x_max) in
   let W := map (fun row => map (fun w => w / (Tensor.sum row + 1e-2)) row) W in
   let y_mean := map (fun row => Tensor.sum (Tensor.mul row y)) W in
   ok (Tensor.sum (map (fun '(a, b) => Rmax (factor * (a - b)) 0)
                       (combine (removelast y_mean) (tl y_mean)))))%result.

(** An element of the generator expression
    [((x - x_mean) / (x_std + 1e-3) for x in (x_min, x_max))]:
    subtracting from [None] is a type error. *)
Definition rescale (x_mean x_std : R) (x : option R) : result R :=
  match x with
  | Some v => ok ((v - x_mean) / (x_std + 1e-3))
  | None => raise TypeError
  end.

(** [if x_min is None: x_min = x.min()].  Nothing binds [x] in the
    function, and it is no module-level name either, so the right-hand
    side cannot be evaluated. *)
Definition default_endpoint (endpoint : option R) : result R :=
  match endpoint with
  | Some v => ok v
  | None => raise (NameError "x")
  end.

End Kernreg.

(** [monotonicity_penalty_kernreg]; [None] stands for Python's [None]. *)
Definition monotonicity_penalty_kernreg (factor h : R) (idx_out idx_in : Z)
    (x_min x_max : option R) (data_wrapper : option DataWrapper.t)
  : result (Tensor.mat -> Tensor.mat -> result R) :=
  (' (x_min, x_max) <-
     match data_wrapper with
     | Some w =>
         x_std <- Tensor.squeeze_index
                    (fst (DataWrapper.stds w) ++ snd (DataWrapper.stds w)) idx_in ;;
         x_mean <- Tensor.squeeze_index
                     (fst (DataWrapper.means w) ++ snd (DataWrapper.means w)) idx_in ;;
         a <- Kernreg.rescale x_mean x_std x_min ;;
         b <- Kernreg.rescale x_mean x_std x_max ;;
         ok (Some a, Some b)
     | None => ok (x_min, x_max)
     end ;;
   x_min <- Kernreg.default_endpoint x_min ;;
   x_max <- Kernreg.default_endpoint x_max ;;
   ok (Kernreg.penalty factor h idx_out idx_in x_min x_max))%result.

(** ** Token features ([collect_features], [get_top_features],
       [make_feature_vector]) *)

Module Features.

(** [s.split(',')]: the pieces between the commas, empty pieces
    included; a string without comma is its own single piece. *)
Fixpoint split (s : string) : list string :=
  match s with
  | EmptyString => [EmptyString]
  | String c s' =>
      if String.eqb (String c EmptyString) "," then EmptyString :: split s'
      else match split s' with
           | t :: ts => String c t :: ts
           | [] => [String c EmptyString]
           end
  end.

(** [d.setdefault(k, v)]: the value under [k], which is set to [v]
    first if the key is missing. *)
Definition setdefault (d : Dict.t Z) (k : string) (v : Z) : Z * Dict.t Z :=
  match Dict.get d k with
  | Some c => (c, d)
  | None => (v, Dict.set d k v)
  end.

(** [features_dict[token] = features_dict.setdefault(token, 0) + 1] *)
Definition count_token (d : Dict.t Z) (token : string) : Dict.t Z :=
  let (c, d') := setdefault d token 0 in Dict.set d' token (c + 1)%Z.

(** The body of the loop over the observations.  An observation that is
    not a string (a missing value, read as a float) has no [split]; the
    bare [except] swallows the error and the dictionary is left as it
    is. *)
Definition count_observation (d : Dict.t Z) (obs : DataWrapper.label) : Dict.t Z :=
  match obs with
  | DataWrapper.Word s => fold_left count_token (split s) d
  | DataWrapper.Num _ => d
  end.

(** [collect_features]; [data] maps a column name to its cells. *)
Definition collect_features (data : Dict.t (list DataWrapper.label))
    (cate_word_variable : string) : result (Dict.t Z) :=
  match Dict.get data cate_word_variable with
  | None => raise (KeyError cate_word_variable)
  | Some column => ok (fold_left count_observation column [])
  end.

(** [sorted(items, key=lambda skill: skill[1])]: ascending in the count,
    items of equal count in their original order. *)
Fixpoint insert_by_count (x : string * Z) (l : list (string * Z)) : list (string * Z) :=
  match l with
  | [] => [x]
  | y :: l' =>
      if (snd x <=? snd y)%Z then x :: l else y :: insert_by_count x l'
  end.

Definition sorted_by_count (items : list (string * Z)) : list (string * Z) :=
  fold_right insert_by_count [] items.

(** [l[start:]]: a negative start counts from the end, and a start
    outside the list is clipped to it. *)
Definition slice_from {A} (l : list A) (start : Z) : list A :=
  let n := Z.of_nat (length l) in
  let i := if (start <? 0)%Z then Z.max (n + start) 0 else Z.min start n in
  skipn (Z.to_nat i) l.

(** [dict(items)] *)
Definition dict_of_items (items : list (string * Z)) : Dict.t Z :=
  fold_left (fun d '(k, v) => Dict.set d k v) items [].

(** [get_top_features] *)
Definition get_top_features (features : Dict.t Z) (n_top_features : Z) : Dict.t Z :=
  dict_of_items (slice_from (sorted_by_count features) (- n_top_features)).

(** [x[idx] = v] on an array: an index past the end raises. *)
Fixpoint set_item (x : Tensor.vec) (idx : nat) (v : R) : result Tensor.vec :=
  match x, idx with
  | [], _ => raise IndexError
  | _ :: x', O => ok (v :: x')
  | a :: x', S i => (y <- set_item x' i v ;; ok (a :: y))%result
  end.

(** The loop [for idx, skill in enumerate(top_features.keys())]. *)
Fixpoint mark_features (tokens : list string) (keys : list (nat * string))
    (x : Tensor.vec) : result Tensor.vec :=
  match keys with
  | [] => ok x
  | (idx, skill) :: keys' =>
      if existsb (String.eqb skill) tokens
      then (x' <- set_item x idx 1 ;; mark_features tokens keys' x')%result
      else mark_features tokens keys' x
  end.

(** [make_feature_vector]: [None] is Python's [None], which the function
    returns when the [try] block raised. *)
Definition make_feature_vector (observation : DataWrapper.label)
    (top_features : Dict.t Z) : option Tensor.vec :=
  let dim := length top_features in
  let x := repeat 0 dim in
  match observation with
  | DataWrapper.Word s =>
      let tokens := split s in
      match mark_features tokens (enumerate (Dict.keys top_features)) x with
      | inr x' => Some x'
      | inl _ => None
      end
  | DataWrapper.Num _ => None
  end.

End Features.

(** *** What the feature helpers compute, as reference definitions *)

Module FeaturesSpec.

(** All the tokens of a column, in order. *)
Definition tokens (column : list DataWrapper.label) : list string :=
  flat_map (fun obs => match obs with
                       | DataWrapper.Word s => Features.split s
                       | DataWrapper.Num _ => []
                       end) column.

(** How often a token occurs in a list of tokens. *)
Definition occurrences (token : string) (l : list string) : nat :=
  count_occ string_dec l token.

(** [s.join(l)] with a comma as [s]. *)
Fixpoint join (l : list string) : string :=
  match l with
  | [] => EmptyString
  | [t] => t
  | t :: l' => (t ++ "," ++ join l')%string
  end.

(** The count a dictionary holds for a token, 0 for a missing one. *)
Definition count_of (d : Dict.t Z) (k : string) : Z :=
  match Dict.get d k with Some c => c | None => 0%Z end.

(** The sum of all counts. *)
Definition total (d : Dict.t Z) : Z := fold_right Z.add 0%Z (map snd d).

(** The indicator of the keys among the tokens. *)
Definition indicator (tokens keys : list string) : Tensor.vec :=
  map (fun k => if existsb (String.eqb k) tokens then 1 else 0) keys.

End FeaturesSpec.

(** *** Invariants of [OAdam.step] *)

Module OAdamInv.

(** Gradient and moments have the shape of the parameter. *)
Definition well_shaped (p : OAdam.param) : Prop :=
  match OAdam.grad p with
  | Some (OAdam.Dense gr) => length gr = length (OAdam.data p)
  | _ => True
  end /\
  match OAdam.state p with
  | Some st =>
      length (OAdam.exp_avg st) = length (OAdam.data p) /\
      length (OAdam.exp_avg_sq st) = length (OAdam.data p)
  | None => True
  end.

(** The second moments, and their running maximum if kept, are
    non-negative. *)
Definition nonneg_moments (p : OAdam.param) : Prop :=
  match OAdam.state p with
  | None => True
  | Some st =>
      Forall (fun v => 0 <= v) (OAdam.exp_avg_sq st) /\
      match OAdam.max_exp_avg_sq st with
      | Some mx => Forall (fun v => 0 <= v) mx
      | None => True
      end
  end.

Definition nonneg_group (g : OAdam.group) : Prop :=
  0 <= snd (OAdam.betas g) <= 1 /\ Forall nonneg_moments (OAdam.params g).

(** No coordinate of [p'] is further than [bound] from its value in [p]. *)
Definition moved_at_most (bound : R) (p p' : OAdam.param) : Prop :=
  forall i x, nth_error (OAdam.data p) i = Some x ->
    exists x', nth_error (OAdam.data p') i = Some x' /\ Rabs (x' - x) <= bound.

(** A group of parameters that have not been updated yet. *)
Definition fresh_group (g : OAdam.group) : Prop :=
  0 <= OAdam.lr g /\ 0 < OAdam.eps g /\
  Forall (fun p => OAdam.state p = None /\ well_shaped p) (OAdam.params g).

End OAdamInv.

(** *** Reading the log of a run *)

Module TrainLog.

Definition is_critic_update (e : Train.event) : bool :=
  match e with Train.CriticUpdate _ => true | _ => false end.

(** The number of critic steps among some events. *)
Definition critic_updates (l : list Train.event) : nat :=
  length (filter is_critic_update l).

(** The penalty passed to [train], if any, raises nothing. *)
Definition penalty_returns (penalty : option Train.penalty_fn) : Prop :=
  forall f, penalty = Some f -> forall x_hat context, exists p, f x_hat context = inr p.

End TrainLog.

(** *** Further predicates on wrappers and frames *)

Module WrapperSpec.

(** The categorical variable list [deprocess] leaves behind: every
    variable followed by its filler columns. *)
Definition with_fillers (n_features : nat) (vars : list string) : list string :=
  flat_map (fun var => var :: DataWrapper.filler_vars var n_features) vars.

(** The supplied bounds are consistent: no lower bound exceeds the
    upper bound of the same variable, the defaults included. *)
Definition bounds_consistent (continuous_vars : list string) (lower upper : Dict.t R)
  : Prop :=
  Forall (fun v => DataWrapper.bound_or lower (-1e8) v
                   <= DataWrapper.bound_or upper 1e8 v) continuous_vars.

(** A frame with at least two rows (the standard deviation of fewer is
    not a number), each with one cell per selected variable. *)
Definition well_formed (n_cont n_cat n_ctx : nat) (df : DataWrapper.frame) : Prop :=
  (2 <= length df)%nat /\
  Forall (fun r => length (DataWrapper.cont_cells r) = n_cont /\
                   length (DataWrapper.cat_cells r) = n_cat /\
                   length (DataWrapper.ctx_cells r) = n_ctx) df.

End WrapperSpec.

(** *** Shapes of layers *)

Module Shapes.

(** A layer as [nn.Linear(i, o)] builds it: a weight of [o] rows of
    width [i] and a bias of [o] entries. *)
Definition layer (l : Linear.t) (i o : nat) : Prop :=
  length (Linear.weight l) = o /\
  length (Linear.bias l) = o /\
  Forall (fun r => length r = i) (Linear.weight l).

(** What is assumed of the constructor [nn.Linear]. *)
Definition linear_constructor (new_layer : Z -> Z -> Linear.t) : Prop :=
  forall i o, (0 <= i)%Z -> (0 <= o)%Z ->
    layer (new_layer i o) (Z.to_nat i) (Z.to_nat o).

(** Dropout masks and rescales entries; it keeps the shape. *)
Definition keeps_width (dropout : Tensor.vec -> Tensor.vec) : Prop :=
  forall v, length (dropout v) = length v.

(** A non-empty stack of layers leading from width [a] to width [b],
    every layer taking what the one before it gives. *)
Fixpoint chained (layers : list Linear.t) (a b : nat) : Prop :=
  match layers with
  | [] => False
  | l :: rest =>
      match rest with
      | [] => layer l a b
      | _ :: _ => exists m, layer l a m /\ chained rest m b
      end
  end.

(** The sizes given for hidden layers and noise are not negative. *)
Definition sizes_ok (a : Specifications.args) : Prop :=
  Forall (fun d => (0 <= d)%Z) (Specifications.arg_generator_d_hidden a) /\
  Forall (fun d => (0 <= d)%Z) (Specifications.arg_critic_d_hidden a) /\
  match Specifications.arg_generator_d_noise a with
  | Specifications.generator_d_output => True
  | Specifications.noise_width d => (0 <= d)%Z
  end.

End Shapes.

(** ** Data frames, and the methods [apply_generator] and [apply_critic] *)

Module Frame.

(** A cell holds a value or is missing ([None], the NaN of pandas). *)
Definition cell : Type := option DataWrapper.label.

(** A frame over the default index [0, ..., n_rows - 1]: its columns in
    order, each with one cell per row. *)
Record t : Type := { n_rows : nat; cols : Dict.t (list cell) }.

Definition columns (df : t) : list string := Dict.keys (cols df).

(** [name in list(df.columns)] *)
Definition has (df : t) (name : string) : bool := Dict.mem (cols df) name.

(** [df[names]], column by column: a missing name is a [KeyError]. *)
Definition select (df : t) (names : list string) : result (list (list cell)) :=
  map_result (fun k => match Dict.get (cols df) k with
                       | Some c => ok c
                       | None => raise (KeyError k)
                       end) names.

(** [df[names]] as a frame. *)
Definition restrict (df : t) (names : list string) : result t :=
  (cs <- select df names ;;
   ok {| n_rows := n_rows df; cols := combine names cs |})%result.

(** [df.drop(names, axis=1, errors="ignore")] *)
Definition drop_ignore (df : t) (names : list string) : t :=
  {| n_rows := n_rows df;
     cols := filter (fun kc => negb (existsb (String.eqb (fst kc)) names)) (cols df) |}.

(** [df.drop(names, axis=1)]: a name that is no column is a [KeyError]. *)
Definition drop (df : t) (names : list string) : result t :=
  (_ <- map_result (fun k => if has df k then ok tt else raise (KeyError k)) names ;;
   ok (drop_ignore df names))%result.

(** [left.join(right)] without suffixes: a left join on the index.  A
    column name the two frames share is a [ValueError]; a row of [left]
    that [right] does not have is filled with missing cells. *)
Definition join (left right : t) : result t :=
  if existsb (has right) (columns left)
  then raise (ValueError "columns overlap but no suffix specified")
  else ok {| n_rows := n_rows left;
             cols := cols left
                     ++ map (fun kc => (fst kc,
                                        map (fun i => nth i (snd kc) None)
                                            (seq 0 (n_rows left))))
                            (cols right) |}.

(** [df.insert(0, name, values)] *)
Definition insert_first (df : t) (name : string) (values : list cell) : result t :=
  if has df name then raise (ValueError "cannot insert, already exists")
  else if (length values =? n_rows df)%nat
       then ok {| n_rows := n_rows df; cols := (name, values) :: cols df |}
       else raise (ValueError "Length of values does not match length of index").

(** [dict(zip(names, columns))]: a later column replaces an earlier one
    of the same name. *)
Definition of_items (items : list (string * list cell)) : Dict.t (list cell) :=
  fold_left (fun d kc => Dict.set d (fst kc) (snd kc)) items [].

(** *** Tensors from frames *)

(** [torch.tensor(np.array(column)).to(torch.float)]: a column with a
    word in it has no numeric type; a missing cell becomes NaN. *)
Definition to_float (column : list cell) : result (list (option R)) :=
  map_result (fun c => match c with
                       | None => ok None
                       | Some (DataWrapper.Num r) => ok (Some r)
                       | Some (DataWrapper.Word _) => raise TypeError
                       end) column.

(** [torch.tensor(np.array(df[names])).to(torch.float)], by columns. *)
Definition tensor_columns (df : t) (names : list string)
  : result (list (list (option R))) :=
  (cs <- select df names ;; map_result to_float cs)%result.

(** Row [i] of a tensor given by its columns. *)
Definition row_of {A} (d : A) (columns : list (list A)) (i : nat) : list A :=
  map (fun c => nth i c d) columns.

(** A row without NaN, as reals. *)
Fixpoint numbers (row : list (option R)) : option Tensor.vec :=
  match row with
  | [] => Some []
  | Some r :: row' => match numbers row' with
                      | Some v => Some (r :: v)
                      | None => None
                      end
  | None :: _ => None
  end.

(** [pd.get_dummies(column).columns]: the distinct values that are not
    missing, sorted. *)
Definition dummy_columns (column : list cell) : list DataWrapper.label :=
  DataWrapper.dummy_columns
    (flat_map (fun c => match c with Some l => [l] | None => [] end) column).

(** One row of [pd.get_dummies(column)]; a missing cell has no 1. *)
Definition one_hot (columns : list DataWrapper.label) (c : cell) : Tensor.vec :=
  match c with
  | Some l => DataWrapper.one_hot columns l
  | None => map (fun _ => 0) columns
  end.

(** [preprocess] on a frame: the two selections with their conversion,
    the selection of the categorical columns if there are any, and the
    test for NaN at the end. *)
Definition preprocess (w : DataWrapper.t) (df : t) : result (Tensor.mat * Tensor.mat) :=
  (x <- tensor_columns df (DataWrapper.continuous (DataWrapper.variables w)) ;;
   context <- tensor_columns df (DataWrapper.context (DataWrapper.variables w)) ;;
   categorical <-
     (if (0 <? length (DataWrapper.categorical (DataWrapper.variables w)))%nat
      then select df (DataWrapper.categorical (DataWrapper.variables w))
      else ok []) ;;
   rows <- map_result
     (fun i =>
        match numbers (row_of None x i), numbers (row_of None context i) with
        | Some xr, Some cr =>
            ok (DataWrapper.scale_row xr (fst (DataWrapper.means w))
                                         (fst (DataWrapper.stds w))
                ++ flat_map (fun c => one_hot (dummy_columns c) (nth i c None))
                            categorical,
                DataWrapper.scale_row cr (snd (DataWrapper.means w))
                                         (snd (DataWrapper.stds w)))
        | _, _ =>
            raise (RuntimeError "It looks like there are NaNs your data, at least after preprocessing. This is currently not supported!")
        end)
     (seq 0 (n_rows df)) ;;
   ok (map fst rows, map snd rows))%result.

(** *** Frames from the wrapper *)

Definition number (r : R) : cell := Some (DataWrapper.Num r).

(** [self.df0.sample(n, replace=True).reset_index(drop=True)].  The
    frame [df0] holds the first row of the training frame, so every draw
    is that row; drawing from a frame without rows is a [ValueError].
    Its columns are the generated variables as the constructor got
    them, which are those [variables] lists as long as [deprocess] has
    not extended the categorical ones ([FrameSpec.df0_current]
    below). *)
Definition sample_df0 (w : DataWrapper.t) (n : nat) : result t :=
  let names := (DataWrapper.continuous (DataWrapper.variables w)
                ++ DataWrapper.categorical (DataWrapper.variables w))%list in
  match DataWrapper.df0 w with
  | [] =>
      if (n =? 0)%nat
      then ok {| n_rows := 0; cols := map (fun k => (k, [])) names |}
      else raise (ValueError "a must be greater than 0 unless no samples are taken")
  | r :: _ =>
      ok {| n_rows := n;
            cols := combine names
                      (map (fun c => repeat c n)
                           (map number (DataWrapper.cont_cells r)
                            ++ map Some (DataWrapper.cat_cells r))) |}
  end.

(** The frame [deprocess] returns, from its rows: the names zipped with
    the columns of [torch.cat([continuous, categorical, context], -1)].
    The width of that tensor is read off its first row. *)
Definition of_rows (w : DataWrapper.t) (out : list DataWrapper.out_row) : t :=
  let names := (DataWrapper.continuous (DataWrapper.variables w)
                ++ DataWrapper.categorical (DataWrapper.variables w)
                ++ DataWrapper.context (DataWrapper.variables w))%list in
  let cells := map (fun r => map number (DataWrapper.out_cont r)
                             ++ DataWrapper.out_cat r
                             ++ map number (DataWrapper.out_ctx r))%list out in
  let width := length (hd [] cells) in
  let columns := map (fun j => map (fun r => nth j r None) cells) (seq 0 width) in
  let items := of_items (combine names columns) in
  {| n_rows := match items with [] => 0 | _ :: _ => length out end;
     cols := items |}.

(** [generator(context)]: one forward pass per row, [noise i] being the
    noise drawn for row [i]. *)
Definition generate (generator : Generator.t) (noise : nat -> Tensor.vec)
    (context : Tensor.mat) : result Tensor.mat :=
  map_result (fun ic => Generator.forward generator (noise (fst ic)) (snd ic))
             (enumerate context).

(** [apply_generator]: the frame returned, and the wrapper as the call
    leaves it. *)
Definition apply_generator (w : DataWrapper.t) (generator : Generator.t)
    (noise : nat -> Tensor.vec) (s : DataWrapper.sampler) (df : t) (n_features : nat)
  : result (t * DataWrapper.t) :=
  let updated := (DataWrapper.continuous (DataWrapper.variables w)
                  ++ DataWrapper.categorical (DataWrapper.variables w))%list in
  let df := drop_ignore df updated in
  (sampled <- sample_df0 w (n_rows df) ;;
   df <- join sampled df ;;
   ' (x, context) <- preprocess w df ;;
   x_hat <- generate generator noise context ;;
   ' (out, w') <- DataWrapper.deprocess w s x_hat context n_features ;;
   let df_hat := of_rows w' out in
   let new_columns := columns df_hat in
   df <- drop df updated ;;
   joined <- join df_hat df ;;
   r <- restrict joined new_columns ;;
   ok (r, w'))%result.

(** [apply_critic]: the frame returned, and the frame the caller passed
    as the call leaves it.  [drop] gives a new frame, which [insert]
    then changes; without the [drop] it is the caller's frame that
    [insert] changes. *)
Definition apply_critic (w : DataWrapper.t) (critic : Critic.t) (df : t)
    (colname : string) : result (t * t) :=
  (' (x, context) <- preprocess w df ;;
   c <- map_result (fun xc => Critic.forward critic (fst xc) (snd xc))
                   (combine x context) ;;
   let dropped := has df colname in
   let df' := if dropped then drop_ignore df [colname] else df in
   scores <- map_result (fun y => Tensor.index y 0) c ;;
   df' <- insert_first df' colname (map number scores) ;;
   ok (df', if dropped then df else df'))%result.

End Frame.

(** *** Predicates on frames with named columns *)

Module FrameSpec.

(** The cells of a column; none for a column the frame does not have. *)
Definition column (df : Frame.t) (k : string) : list Frame.cell :=
  match Dict.get (Frame.cols df) k with Some c => c | None => [] end.

(** How many one-hot columns [pd.get_dummies] makes of the given
    columns of the frame: one per distinct value of each. *)
Definition dummy_width (df : Frame.t) (names : list string) : nat :=
  list_sum (map (fun k => length (Frame.dummy_columns (column df k))) names).

(** A column of numbers, one per row and none missing. *)
Definition numeric (df : Frame.t) (k : string) : Prop :=
  exists values : list R,
    Dict.get (Frame.cols df) k = Some (map Frame.number values) /\
    length values = Frame.n_rows df.

(** The saved first row has a cell for every generated variable the
    wrapper lists: [deprocess] has not extended the categorical
    variables since the constructor saved [df0]. *)
Definition df0_current (w : DataWrapper.t) : Prop :=
  Forall (fun r =>
            length (DataWrapper.cont_cells r)
            = length (DataWrapper.continuous (DataWrapper.variables w)) /\
            length (DataWrapper.cat_cells r)
            = length (DataWrapper.categorical (DataWrapper.variables w)))
         (DataWrapper.df0 w).

(** The call [apply_generator] gets as far as its last line: sampling,
    joining, [preprocess], the generator and [deprocess] all return. *)
Definition decodes (w : DataWrapper.t) (generator : Generator.t)
    (noise : nat -> Tensor.vec) (s : DataWrapper.sampler) (df : Frame.t)
    (n_features : nat) : Prop :=
  let updated := (DataWrapper.continuous (DataWrapper.variables w)
                  ++ DataWrapper.categorical (DataWrapper.variables w))%list in
  exists sampled joined x context x_hat out w',
    Frame.sample_df0 w (Frame.n_rows df) = inr sampled /\
    Frame.join sampled (Frame.drop_ignore df updated) = inr joined /\
    Frame.preprocess w joined = inr (x, context) /\
    Frame.generate generator noise context = inr x_hat /\
    DataWrapper.deprocess w s x_hat context n_features = inr (out, w').

End FrameSpec.

(** ** Concrete inputs used by the examples below *)

Module Examples.

(** An [OAdam] group with learning rate 1, no momentum and [eps = 1]. *)
Definition oadam_group (ps : list OAdam.param) : OAdam.group :=
  {| OAdam.params := ps; OAdam.lr := 1; OAdam.betas := (0, 0);
     OAdam.eps := 1; OAdam.weight_decay := 0; OAdam.amsgrad := false |}.

(** A fresh scalar parameter at 0 with gradient 1. *)
Definition oadam_p0 : OAdam.param :=
  {| OAdam.data := [0]; OAdam.grad := Some (OAdam.Dense [1]);
     OAdam.state := None |}.

(** The same parameter after its first update (data -1, both moments 1),
    with the gradient of the next backward pass being 0. *)
Definition oadam_p1 : OAdam.param :=
  {| OAdam.data := [-1]; OAdam.grad := Some (OAdam.Dense [0]);
     OAdam.state := Some {| OAdam.step_count := 1; OAdam.exp_avg := [1];
                            OAdam.exp_avg_sq := [1];
                            OAdam.max_exp_avg_sq := None |} |}.

Definition oadam_sparse : OAdam.param :=
  {| OAdam.data := [0]; OAdam.grad := Some (OAdam.Sparse [1]);
     OAdam.state := None |}.

(** A generator head with one continuous coordinate bounded by [-1, 1]
    and one categorical variable with two categories. *)
Definition generator : Generator.t :=
  {| Generator.cont_bounds := [[-1]; [1]];
     Generator.cat_dims := [2%nat];
     Generator.d_cont := 1;
     Generator.d_cat := 2;
     Generator.d_noise := 3;
     Generator.layers := [];
     Generator.dropout := fun v => v |}.

(** A data wrapper with one continuous, one categorical (two values) and
    one context variable. *)
Definition wrapper : DataWrapper.t :=
  {| DataWrapper.variables :=
       {| DataWrapper.continuous := ["age"%string];
          DataWrapper.categorical := ["color"%string];
          DataWrapper.context := ["income"%string] |};
     DataWrapper.means := ([40], [3]);
     DataWrapper.stds := ([10], [2]);
     DataWrapper.cat_dims := [2%nat];
     DataWrapper.words_to_int := [];
     DataWrapper.int_to_words := [];
     DataWrapper.cat_labels := [];
     DataWrapper.cont_bounds := [[-1]; [1]];
     DataWrapper.df0 := [] |}.

(** Arguments with a negative critic learning rate, a negative dropout
    rate and a batch size of zero. *)
Definition bad_args : Specifications.args :=
  {| Specifications.arg_optimizer := Specifications.TorchAdam;
     Specifications.arg_critic_d_hidden := [128; 128; 128]%Z;
     Specifications.arg_critic_dropout := -1;
     Specifications.arg_critic_steps := 15;
     Specifications.arg_critic_lr := -1;
     Specifications.arg_critic_gp_factor := 5;
     Specifications.arg_generator_d_hidden := [128; 128; 128]%Z;
     Specifications.arg_generator_dropout := 0.1;
     Specifications.arg_generator_lr := 1e-4;
     Specifications.arg_generator_d_noise := Specifications.generator_d_output;
     Specifications.arg_generator_optimizer := Specifications.same_as_optimizer;
     Specifications.arg_max_epochs := 1000;
     Specifications.arg_batch_size := 0;
     Specifications.arg_test_set_size := 16;
     Specifications.arg_load_checkpoint := None;
     Specifications.arg_save_checkpoint := None;
     Specifications.arg_save_every := 100;
     Specifications.arg_print_every := 200;
     Specifications.arg_device := "cpu" |}.

(** A runtime with trivial optimizers and no randomness: the data are
    split in order, every row is a batch of its own, scores and
    penalties are 0 and the optimizer steps leave the networks alone. *)
Definition plain_runtime : Train.runtime :=
  {| Train.opt := unit;
     Train.rng := unit;
     Train.dataset := list Train.batch;
     Train.generator_optimizer := fun _ _ _ => ok tt;
     Train.critic_optimizer := fun _ _ _ => ok tt;
     Train.random_split := fun g x context n_train n_test =>
       let rows := map (fun '(r, c) => ([r], [c])) (combine x context) in
       ok (firstn (Z.to_nat n_train) rows, skipn (Z.to_nat n_train) rows, g);
     Train.data_loader := fun d batch_size => ok d;
     Train.batches := fun g d => (d, g);
     Train.generate := fun g _ context => (map (fun _ => []) context, g);
     Train.critic_mean := fun g _ _ _ => (0, g);
     Train.gradient_penalty := fun g _ _ _ _ => (0, g);
     Train.critic_backward_step := fun _ c o _ _ => (c, o);
     Train.generator_backward_step := fun g _ o _ _ => (g, o) |}.

Definition critic : Critic.t :=
  {| Critic.layers := []; Critic.dropout := fun v => v |}.

(** Specifications with two critic steps per generator step, a batch
    size of 1 and one row held out. *)
Definition train_spec (max_epochs : Z) (load : option string) : Specifications.t :=
  {| Specifications.settings :=
       {| Specifications.optimizer := Specifications.TorchAdam;
          Specifications.critic_d_hidden := [];
          Specifications.critic_dropout := 0;
          Specifications.critic_steps := 2;
          Specifications.critic_lr := 1e-4;
          Specifications.critic_gp_factor := 5;
          Specifications.generator_d_hidden := [];
          Specifications.generator_dropout := 0;
          Specifications.generator_lr := 1e-4;
          Specifications.generator_d_noise := 3;
          Specifications.generator_optimizer := Specifications.same_as_optimizer;
          Specifications.max_epochs := max_epochs;
          Specifications.batch_size := 1;
          Specifications.test_set_size := 1;
          Specifications.load_checkpoint := load;
          Specifications.save_checkpoint := None;
          Specifications.save_every := 100;
          Specifications.print_every := 200;
          Specifications.device := "cpu" |};
     Specifications.data :=
       {| Specifications.d_context := 1;
          Specifications.d_x := 3;
          Specifications.cat_dims := [2%nat];
          Specifications.cont_bounds := [[-1]; [1]] |} |}.

(** Three rows of data: two mini-batches per epoch and one held out. *)
Definition train_x : Tensor.mat := [[0; 1; 0]; [0; 0; 1]; [0; 1; 0]].
Definition train_context : Tensor.mat := [[0]; [0]; [0]].

(** A checkpoint written at the end of epoch 3, after six steps. *)
Definition checkpoint3 : Train.checkpoint plain_runtime :=
  Train.Build_checkpoint plain_runtime 3 7 generator critic tt tt.

(** Two epochs from scratch. *)
Definition train_fresh :=
  train plain_runtime generator critic train_x train_context
        (train_spec 2 None) None tt [].

(** Resuming from [checkpoint3] with five epochs as the limit. *)
Definition train_resumed :=
  train plain_runtime generator critic train_x train_context
        (train_spec 5 (Some "cp.pt"%string)) None tt
        [("cp.pt"%string, checkpoint3)].

(** A training frame with one continuous and one categorical variable. *)
Definition red_row : DataWrapper.row :=
  {| DataWrapper.cont_cells := [30];
     DataWrapper.cat_cells := [DataWrapper.Word "red"];
     DataWrapper.ctx_cells := [] |}.

Definition blue_row : DataWrapper.row :=
  {| DataWrapper.cont_cells := [40];
     DataWrapper.cat_cells := [DataWrapper.Word "blue"];
     DataWrapper.ctx_cells := [] |}.

Definition fit_frame : DataWrapper.frame := [red_row; blue_row].

(** The positions of the positive weights, counted from [i]. *)
Fixpoint positive_indices (p : Tensor.vec) (i : nat) : list nat :=
  match p with
  | [] => []
  | x :: p' =>
      if DataWrapper.Rltb 0 x then i :: positive_indices p' (S i)
      else positive_indices p' (S i)
  end.

(** A sampler that draws the first positive weights. *)
Definition first_positive : DataWrapper.sampler :=
  fun _ _ p k => firstn k (positive_indices p 0).

End Examples.

(** ** Further concrete inputs *)

Module Cases.

(** A column of comma-separated skills with one missing value. *)
Definition skills_column : list DataWrapper.label :=
  [DataWrapper.Word "sql,python"; DataWrapper.Num 0; DataWrapper.Word "python"].

Definition skills_data : Dict.t (list DataWrapper.label) :=
  [("skills"%string, skills_column)].

(** Token counts, in the order of first occurrence. *)
Definition skill_counts : Dict.t Z :=
  [("sql"%string, 1%Z); ("python"%string, 2%Z); ("excel"%string, 1%Z)].

(** Specifications as [Examples.train_spec], with the given number of
    critic steps per generator step and checkpoint path to write. *)
Definition spec_with (critic_steps max_epochs : Z) (save : option string)
  : Specifications.t :=
  {| Specifications.settings :=
       {| Specifications.optimizer := Specifications.TorchAdam;
          Specifications.critic_d_hidden := [];
          Specifications.critic_dropout := 0;
          Specifications.critic_steps := critic_steps;
          Specifications.critic_lr := 1e-4;
          Specifications.critic_gp_factor := 5;
          Specifications.generator_d_hidden := [];
          Specifications.generator_dropout := 0;
          Specifications.generator_lr := 1e-4;
          Specifications.generator_d_noise := 3;
          Specifications.generator_optimizer := Specifications.same_as_optimizer;
          Specifications.max_epochs := max_epochs;
          Specifications.batch_size := 1;
          Specifications.test_set_size := 1;
          Specifications.load_checkpoint := None;
          Specifications.save_checkpoint := save;
          Specifications.save_every := 100;
          Specifications.print_every := 200;
          Specifications.device := "cpu" |};
     Specifications.data :=
       {| Specifications.d_context := 1;
          Specifications.d_x := 3;
          Specifications.cat_dims := [2%nat];
          Specifications.cont_bounds := [[-1]; [1]] |} |}.

(** Two epochs with a generator step at every batch. *)
Definition train_one_critic_step :=
  train Examples.plain_runtime Examples.generator Examples.critic
        Examples.train_x Examples.train_context (spec_with 1 2 None) None tt [].

(** A layer constructor that fills weights and biases with zeros. *)
Definition zero_layer (i o : Z) : Linear.t :=
  {| Linear.weight := repeat (repeat 0 (Z.to_nat i)) (Z.to_nat o);
     Linear.bias := repeat 0 (Z.to_nat o) |}.

(** Dropout in evaluation mode. *)
Definition no_dropout (v : Tensor.vec) : Tensor.vec := v.

(** A wrapper over a single continuous variable with mean 0 and
    deviation 1, whose saved first row has [y = 2]. *)
Definition plain_wrapper : DataWrapper.t :=
  {| DataWrapper.variables :=
       {| DataWrapper.continuous := ["y"%string];
          DataWrapper.categorical := [];
          DataWrapper.context := [] |};
     DataWrapper.means := ([0], []);
     DataWrapper.stds := ([1], []);
     DataWrapper.cat_dims := [];
     DataWrapper.words_to_int := [];
     DataWrapper.int_to_words := [];
     DataWrapper.cat_labels := [];
     DataWrapper.cont_bounds := [[-1]; [1]];
     DataWrapper.df0 := [ {| DataWrapper.cont_cells := [2];
                             DataWrapper.cat_cells := [];
                             DataWrapper.ctx_cells := [] |} ] |}.

(** A generator for it: one layer from one noise entry to one output. *)
Definition plain_generator : Generator.t :=
  {| Generator.cont_bounds := [[-1]; [1]];
     Generator.cat_dims := [];
     Generator.d_cont := 1;
     Generator.d_cat := 0;
     Generator.d_noise := 1;
     Generator.layers := [ {| Linear.weight := [[1]]; Linear.bias := [0] |} ];
     Generator.dropout := no_dropout |}.

(** A frame of two rows with a column that is no variable of the
    wrapper. *)
Definition ids : Frame.t :=
  {| Frame.n_rows := 2;
     Frame.cols := [("id"%string, [Some (DataWrapper.Word "a");
                                   Some (DataWrapper.Word "b")])] |}.

(** A training frame with a continuous variable and a context variable,
    and a frame of two rows to generate for. *)
Definition xy_row (y z : R) : DataWrapper.row :=
  {| DataWrapper.cont_cells := [y];
     DataWrapper.cat_cells := [];
     DataWrapper.ctx_cells := [z] |}.

Definition xy_frame : DataWrapper.frame := [xy_row 1 0; xy_row 2 1; xy_row 4 0].

Definition z_frame : Frame.t :=
  {| Frame.n_rows := 2;
     Frame.cols := [("z"%string, [Some (DataWrapper.Num 0);
                                  Some (DataWrapper.Num 1)])] |}.

(** A generator from one noise entry and one context entry to one
    output. *)
Definition xy_generator : Generator.t :=
  {| Generator.cont_bounds := [[-1]; [1]];
     Generator.cat_dims := [];
     Generator.d_cont := 1;
     Generator.d_cat := 0;
     Generator.d_noise := 1;
     Generator.layers := [ {| Linear.weight := [[1; 1]]; Linear.bias := [0] |} ];
     Generator.dropout := no_dropout |}.

Definition no_noise (i : nat) : Tensor.vec := [0].

(** One row of [Examples.fit_frame], as a frame with named columns, and
    the two rows. *)
Definition red_only : Frame.t :=
  {| Frame.n_rows := 1;
     Frame.cols := [("age"%string, [Some (DataWrapper.Num 30)]);
                    ("color"%string, [Some (DataWrapper.Word "red")])] |}.

Definition red_and_blue : Frame.t :=
  {| Frame.n_rows := 2;
     Frame.cols := [("age"%string, [Some (DataWrapper.Num 30);
                                    Some (DataWrapper.Num 40)]);
                    ("color"%string, [Some (DataWrapper.Word "red");
                                      Some (DataWrapper.Word "blue")])] |}.

End Cases.

(** ** Proof automation *)

(** Unfold the elementwise tensor operations. *)
Ltac tensor_unfold :=
  unfold Tensor.addcdiv, Tensor.add_, Tensor.addcmul, Tensor.add, Tensor.mul,
    Tensor.scale, Tensor.add_scalar, Tensor.vsqrt, Tensor.zeros_like,
    Tensor.vmax, Tensor.vmin;
  simpl.

(** Case analysis on the next call into the runtime. *)
Ltac destruct_call :=
  match goal with
  | |- context [let (_, _) := ?x in _] =>
      lazymatch x with
      | context [match _ with _ => _ end] => fail
      | _ => destruct x
      end
  end.

(** * Properties *)

(** ** Tensor lemmas *)

Lemma nth_error_map2 (f : R -> R -> R) (a b : list R) (i : nat) :
  nth_error (Tensor.map2 f a b) i =
  match nth_error a i, nth_error b i with
  | Some x, Some y => Some (f x y)
  | _, _ => None
  end.
Proof.
  revert b i.
  induction a as [|x a IH]; intros [|y b] [|i]; simpl; auto;
    destruct (nth_error a i); reflexivity.
Qed.

Lemma nth_error_scale (c : R) (a : list R) (i : nat) :
  nth_error (Tensor.scale c a) i = option_map (Rmult c) (nth_error a i).
Proof. unfold Tensor.scale. apply nth_error_map. Qed.

Lemma nth_error_add_scalar (a : list R) (c : R) (i : nat) :
  nth_error (Tensor.add_scalar a c) i = option_map (fun x => x + c) (nth_error a i).
Proof. unfold Tensor.add_scalar. apply nth_error_map. Qed.

Lemma nth_error_vsqrt (a : list R) (i : nat) :
  nth_error (Tensor.vsqrt a) i = option_map sqrt (nth_error a i).
Proof. unfold Tensor.vsqrt. apply nth_error_map. Qed.

(** ** The optimistic Adam optimizer *)

Lemma pow_range (b : R) (t : nat) : 0 <= b < 1 -> 0 <= b ^ S t < 1.
Proof.
  intros [H0 H1]. split.
  - apply pow_le; assumption.
  - induction t as [|t IH].
    + simpl. lra.
    + change (b ^ S (S t)) with (b * b ^ S t).
      assert (0 <= b ^ S t) by (apply pow_le; assumption). nra.
Qed.

Lemma OAdam_step_size_ok (lr b1 b2 : R) (t : nat) :
  0 <= b1 < 1 -> 0 <= b2 < 1 ->
  OAdam.step_size lr b1 b2 (S t) = inr (OAdamSpec.step_size lr b1 b2 (S t)).
Proof.
  intros H1 H2. unfold OAdam.step_size.
  pose proof (pow_range b1 t H1). pose proof (pow_range b2 t H2).
  destruct (Rlt_dec (1 - b2 ^ S t) 0); [lra|].
  destruct (Req_dec_T (1 - b1 ^ S t) 0); [lra|].
  reflexivity.
Qed.

Lemma OAdam_step_param_plain (g : OAdam.group) (p : OAdam.param) (gr : list R) :
  0 <= fst (OAdam.betas g) < 1 ->
  0 <= snd (OAdam.betas g) < 1 ->
  OAdam.weight_decay g = 0 ->
  OAdam.amsgrad g = false ->
  OAdam.grad p = Some (OAdam.Dense gr) ->
  exists p', OAdam.step_param g p = (p', None) /\ OAdamSpec.updated g p p'.
Proof.
  intros Hb1 Hb2 Hwd Hams Hgr.
  unfold OAdam.step_param, OAdamSpec.updated. rewrite Hgr.
  fold (OAdamSpec.entry_state g p).
  set (st := OAdamSpec.entry_state g p).
  rewrite Hwd. destruct (Req_dec_T 0 0) as [_|Hne]; [|contradiction Hne; reflexivity].
  rewrite OAdam_step_size_ok by assumption.
  rewrite Hams. unfold ok.
  eexists. split; [reflexivity|].
  eexists. split; [reflexivity|]. split; [reflexivity|].
  intros i x m v gi Hx Hm Hv Hg. cbn [OAdam.data OAdam.exp_avg OAdam.exp_avg_sq].
  unfold Tensor.addcdiv, Tensor.add_, Tensor.addcmul, Tensor.add, Tensor.mul.
  repeat (rewrite ?nth_error_map2, ?nth_error_scale, ?nth_error_add_scalar,
            ?nth_error_vsqrt, ?Hx, ?Hm, ?Hv, ?Hg; cbn [option_map]).
  unfold OAdamSpec.optimistic, OAdamSpec.moment1, OAdamSpec.moment2.
  repeat split; f_equal; unfold Rdiv; ring.
Qed.

Lemma OAdam_step_params_plain (g : OAdam.group) (ps : list OAdam.param) :
  0 <= fst (OAdam.betas g) < 1 ->
  0 <= snd (OAdam.betas g) < 1 ->
  OAdam.weight_decay g = 0 ->
  OAdam.amsgrad g = false ->
  Forall (fun p => forall s, OAdam.grad p <> Some (OAdam.Sparse s)) ps ->
  exists ps', OAdam.step_params g ps = (ps', None) /\
              Forall2 (OAdamSpec.updated g) ps ps'.
Proof.
  intros Hb1 Hb2 Hwd Hams. induction 1 as [|p ps Hp _ IH].
  - exists []. split; [reflexivity|constructor].
  - destruct IH as (ps' & Hps & Hall).
    assert (Hstep : exists p', OAdam.step_param g p = (p', None) /\ OAdamSpec.updated g p p').
    { destruct (OAdam.grad p) as [[gr|s]|] eqn:Hg.
      - eapply OAdam_step_param_plain; eauto.
      - exfalso. apply (Hp s). reflexivity.
      - exists p. unfold OAdam.step_param, OAdamSpec.updated. rewrite Hg. auto. }
    destruct Hstep as (p' & Hp' & Hup).
    exists (p' :: ps'). simpl. rewrite Hp', Hps. split; [reflexivity|].
    constructor; assumption.
Qed.

Lemma OAdam_step_groups_plain (gs : list OAdam.group) :
  Forall OAdamSpec.plain_group gs ->
  exists gs', OAdam.step_groups gs = (gs', None) /\
    Forall2 (fun g g' => g' = OAdam.with_params g (OAdam.params g') /\
                         Forall2 (OAdamSpec.updated g) (OAdam.params g) (OAdam.params g'))
            gs gs'.
Proof.
  induction 1 as [|g gs Hg _ IH].
  - exists []. split; [reflexivity|constructor].
  - destruct IH as (gs' & Hgs & Hall).
    destruct Hg as (Hb1 & Hb2 & Hwd & Hams & Hsp).
    destruct (OAdam_step_params_plain g (OAdam.params g) Hb1 Hb2 Hwd Hams Hsp)
      as (ps' & Hps & Hup).
    exists (OAdam.with_params g ps' :: gs'). simpl. rewrite Hps, Hgs.
    split; [reflexivity|]. constructor; [|assumption].
    split; [reflexivity|exact Hup].
Qed.

(** C6 (amended): under the plain configuration one call of [step] raises
    nothing and updates every parameter that has a gradient coordinate by
    coordinate as [x + s*m/(sqrt v + eps) - 2*s*m'/(sqrt v' + eps)], where
    [m], [v] are the moments before the call, [m'], [v'] the moments after
    it, and [s = lr * sqrt(1 - beta2^t) / (1 - beta1^t)]: the first term is
    added, computed with the old moments, the second is subtracted twice,
    computed with the new ones. *)
Theorem OAdam_step_optimistic (o : OAdam.t) :
  Forall OAdamSpec.plain_group (OAdam.param_groups o) ->
  exists gs',
    OAdam.step o = ({| OAdam.param_groups := gs' |}, None) /\
    Forall2 (fun g g' => g' = OAdam.with_params g (OAdam.params g') /\
                         Forall2 (OAdamSpec.updated g) (OAdam.params g) (OAdam.params g'))
            (OAdam.param_groups o) gs'.
Proof.
  intros H. destruct (OAdam_step_groups_plain _ H) as (gs' & Hgs & Hall).
  exists gs'. unfold OAdam.step. rewrite Hgs. split; [reflexivity|assumption].
Qed.

Lemma oadam_example_plain :
  Forall OAdamSpec.plain_group [Examples.oadam_group [Examples.oadam_p0; Examples.oadam_p1]].
Proof.
  constructor; [|constructor].
  unfold OAdamSpec.plain_group; simpl.
  repeat split; try lra.
  repeat constructor; simpl; intros s; discriminate.
Qed.

Lemma OAdam_step_optimistic_witness :
  let o := {| OAdam.param_groups :=
                [Examples.oadam_group [Examples.oadam_p0; Examples.oadam_p1]] |} in
  Forall OAdamSpec.plain_group (OAdam.param_groups o) /\
  exists gs',
    OAdam.step o = ({| OAdam.param_groups := gs' |}, None) /\
    Forall2 (fun g g' => g' = OAdam.with_params g (OAdam.params g') /\
                         Forall2 (OAdamSpec.updated g) (OAdam.params g) (OAdam.params g'))
            (OAdam.param_groups o) gs'.
Proof.
  intro o. split.
  - exact oadam_example_plain.
  - apply (OAdam_step_optimistic o). exact oadam_example_plain.
Defined.

Lemma oadam_example_values :
  OAdamSpec.optimistic 1 0 0 1 2 (-1) 1 1 0 = -1/2 /\
  OAdamSpec.spec_update 1 0 0 1 2 (-1) 1 1 0 = -3/2.
Proof.
  unfold OAdamSpec.optimistic, OAdamSpec.spec_update, OAdamSpec.step_size,
    OAdamSpec.moment1, OAdamSpec.moment2.
  replace (1 - 0 ^ 2) with 1 by (simpl; ring).
  replace (0 * 1 + (1 - 0) * (0 * 0)) with 0 by ring.
  rewrite sqrt_1, sqrt_0. split; field.
Qed.

(** The first update of the fresh parameter [oadam_p0] leads to the state
    and data of [oadam_p1]. *)
Lemma oadam_example_first_step :
  exists p', OAdam.step_param (Examples.oadam_group []) Examples.oadam_p0 = (p', None) /\
    OAdam.data p' = OAdam.data Examples.oadam_p1 /\
    OAdam.state p' = OAdam.state Examples.oadam_p1.
Proof.
  unfold OAdam.step_param. simpl.
  destruct (Req_dec_T 0 0) as [_|Hne]; [|contradiction Hne; reflexivity].
  rewrite (OAdam_step_size_ok 1 0 0 0) by lra.
  eexists. split; [reflexivity|].
  unfold OAdamSpec.step_size. tensor_unfold.
  replace (1 - 0 * 1) with 1 by ring.
  replace (0 * 0 + (1 - 0) * (1 * 1)) with 1 by ring.
  rewrite sqrt_1, sqrt_0. split.
  - apply (f_equal (fun x => [x])). field.
  - repeat f_equal; ring.
Qed.

(** C6, counterexample: on the second update of a scalar parameter (data
    -1, moments 1 and 1, new gradient 0, learning rate 1, no momentum,
    [eps = 1]) the code moves the parameter to -1/2, while subtracting both
    terms would give -3/2. *)
Lemma OAdam_step_adds_old_direction :
  exists p',
    OAdam.step_param (Examples.oadam_group []) Examples.oadam_p1 = (p', None) /\
    OAdam.data p' = [-1/2] /\
    OAdam.data p' <> [OAdamSpec.spec_update 1 0 0 1 2 (-1) 1 1 0].
Proof.
  destruct oadam_example_values as [Hopt Hspec].
  destruct (OAdam_step_param_plain (Examples.oadam_group []) Examples.oadam_p1 [0])
    as (p' & Hstep & Hup); simpl; try lra; try reflexivity.
  exists p'. split; [exact Hstep|].
  assert (Hdata : OAdam.data p' = [-1/2]).
  { revert Hstep. unfold OAdam.step_param. simpl.
    destruct (Req_dec_T 0 0) as [_|Hne]; [|contradiction Hne; reflexivity].
    rewrite (OAdam_step_size_ok 1 0 0 1) by lra.
    intros Hstep. injection Hstep as <-. tensor_unfold.
    apply (f_equal (fun x => [x])). rewrite <- Hopt.
    change (0 * (0 * 1)) with (0 ^ 2).
    unfold OAdamSpec.optimistic, OAdamSpec.moment1, OAdamSpec.moment2.
    unfold Rdiv. ring. }
  split; [exact Hdata|].
  rewrite Hdata, Hspec. intros Heq. injection Heq as Heq. lra.
Qed.

Lemma OAdam_init_accepts (ps : list OAdam.param) (lr b1 b2 eps wd : R) (ams : bool) :
  ps <> [] -> 0 <= lr -> 0 <= eps -> 0 <= b1 < 1 -> 0 <= b2 < 1 ->
  OAdam.init ps lr (b1, b2) eps wd ams
  = inr {| OAdam.param_groups :=
             [ {| OAdam.params := ps; OAdam.lr := lr; OAdam.betas := (b1, b2);
                  OAdam.eps := eps; OAdam.weight_decay := wd;
                  OAdam.amsgrad := ams |} ] |}.
Proof.
  intros Hps Hlr Heps [Hb1 Hb1'] [Hb2 Hb2']. unfold OAdam.init. simpl.
  destruct (Rle_dec 0 lr); [|contradiction].
  destruct (Rle_dec 0 eps); [|contradiction].
  destruct (Rle_dec 0 b1); [|contradiction].
  destruct (Rlt_dec b1 1); [|contradiction].
  destruct (Rle_dec 0 b2); [|contradiction].
  destruct (Rlt_dec b2 1); [|contradiction].
  destruct ps; [contradiction Hps; reflexivity|reflexivity].
Qed.

Lemma OAdam_init_rejects (ps : list OAdam.param) (lr b1 b2 eps wd : R) (ams : bool) :
  OAdamSpec.rejects lr b1 b2 eps ->
  exists msg, OAdam.init ps lr (b1, b2) eps wd ams = inl (ValueError msg).
Proof.
  intros H. unfold OAdam.init. simpl.
  destruct (Rle_dec 0 lr); [|eexists; reflexivity].
  destruct (Rle_dec 0 eps); [|eexists; reflexivity].
  destruct (Rle_dec 0 b1); [|eexists; reflexivity].
  destruct (Rlt_dec b1 1); [|eexists; reflexivity].
  destruct (Rle_dec 0 b2); [|eexists; reflexivity].
  destruct (Rlt_dec b2 1); [|eexists; reflexivity].
  exfalso. destruct H as [H|[H|[H|H]]]; lra.
Qed.

Lemma OAdam_step_param_sparse (g : OAdam.group) (p : OAdam.param) (s : list R) :
  OAdam.grad p = Some (OAdam.Sparse s) ->
  exists msg, OAdam.step_param g p = (p, Some (RuntimeError msg)).
Proof. intros H. unfold OAdam.step_param. rewrite H. eexists. reflexivity. Qed.

Lemma OAdam_step_params_sparse (g : OAdam.group) (ps : list OAdam.param) (p : OAdam.param)
    (s : list R) :
  In p ps -> OAdam.grad p = Some (OAdam.Sparse s) ->
  exists e, snd (OAdam.step_params g ps) = Some e.
Proof.
  intros Hin Hs. induction ps as [|q ps IH]; [contradiction|].
  simpl. destruct (OAdam.step_param g q) as [q' [e|]] eqn:Hq.
  - exists e. reflexivity.
  - destruct Hin as [->|Hin].
    + destruct (OAdam_step_param_sparse g p s Hs) as [msg Hmsg]. congruence.
    + destruct (IH Hin) as [e He].
      destruct (OAdam.step_params g ps) as [rest' e']. simpl in *.
      exists e. exact He.
Qed.

Lemma OAdam_step_groups_sparse (gs : list OAdam.group) (g : OAdam.group)
    (p : OAdam.param) (s : list R) :
  In g gs -> In p (OAdam.params g) -> OAdam.grad p = Some (OAdam.Sparse s) ->
  exists e, snd (OAdam.step_groups gs) = Some e.
Proof.
  intros Hg Hp Hs. induction gs as [|h gs IH]; [contradiction|].
  simpl. destruct (OAdam.step_params h (OAdam.params h)) as [ps [e|]] eqn:Hh.
  - exists e. reflexivity.
  - destruct Hg as [->|Hg].
    + destruct (OAdam_step_params_sparse g _ p s Hp Hs) as [e He].
      rewrite Hh in He. discriminate.
    + destruct (IH Hg) as [e He].
      destruct (OAdam.step_groups gs) as [rest' e']. simpl in *.
      exists e. exact He.
Qed.

Lemma OAdam_step_param_error (g : OAdam.group) (p p' : OAdam.param) (e : exn) :
  OAdamSpec.in_range_group g ->
  OAdam.step_param g p = (p', Some e) ->
  exists msg, e = RuntimeError msg.
Proof.
  intros (Hb1 & Hb2 & Hams). unfold OAdam.step_param.
  destruct (OAdam.grad p) as [[gr|s]|].
  - rewrite Hams. unfold ok. rewrite OAdam_step_size_ok by assumption. discriminate.
  - intros H. injection H as _ <-. eexists. reflexivity.
  - discriminate.
Qed.

Lemma OAdam_step_params_error (g : OAdam.group) (ps ps' : list OAdam.param) (e : exn) :
  OAdamSpec.in_range_group g ->
  OAdam.step_params g ps = (ps', Some e) ->
  exists msg, e = RuntimeError msg.
Proof.
  intros Hg. revert ps'. induction ps as [|p ps IH]; intros ps'; simpl; [discriminate|].
  destruct (OAdam.step_param g p) as [p1 [e1|]] eqn:Hp.
  - intros H. injection H as _ <-. eapply OAdam_step_param_error; eassumption.
  - destruct (OAdam.step_params g ps) as [rest' e'] eqn:Hrest.
    intros H. injection H as _ ->. eapply IH. reflexivity.
Qed.

Lemma OAdam_step_groups_error (gs gs' : list OAdam.group) (e : exn) :
  Forall OAdamSpec.in_range_group gs ->
  OAdam.step_groups gs = (gs', Some e) ->
  exists msg, e = RuntimeError msg.
Proof.
  intros Hgs. revert gs'. induction Hgs as [|g gs Hg _ IH]; intros gs'; simpl;
    [discriminate|].
  destruct (OAdam.step_params g (OAdam.params g)) as [ps [e1|]] eqn:Hps.
  - intros H. injection H as _ <-. eapply OAdam_step_params_error; eassumption.
  - destruct (OAdam.step_groups gs) as [rest' e'] eqn:Hrest.
    intros H. injection H as _ ->. eapply IH. reflexivity.
Qed.

(** C7 (amended): for a non-empty parameter list, constructing the
    optimizer raises exactly when the learning rate is negative, the
    epsilon is negative, or a decay coefficient lies outside [[0,1)], and
    what it raises is a [ValueError]; otherwise it returns the optimizer
    holding one group with the given hyperparameters (a learning rate of
    zero is accepted).  A call of [step] on an optimizer one of whose
    parameters has a sparse gradient raises, and what it raises is the
    [RuntimeError] for sparse gradients when the decay coefficients are in
    range and AMSGrad is off. *)
Theorem OAdam_init_checks (ps : list OAdam.param) (lr b1 b2 eps wd : R) (ams : bool) :
  ps <> [] ->
  (raises (OAdam.init ps lr (b1, b2) eps wd ams) <-> OAdamSpec.rejects lr b1 b2 eps) /\
  (forall e, OAdam.init ps lr (b1, b2) eps wd ams = inl e -> is_ValueError e = true) /\
  (~ OAdamSpec.rejects lr b1 b2 eps ->
   OAdam.init ps lr (b1, b2) eps wd ams
   = inr {| OAdam.param_groups :=
              [ {| OAdam.params := ps; OAdam.lr := lr; OAdam.betas := (b1, b2);
                   OAdam.eps := eps; OAdam.weight_decay := wd;
                   OAdam.amsgrad := ams |} ] |}) /\
  (forall o g p s,
     In g (OAdam.param_groups o) -> In p (OAdam.params g) ->
     OAdam.grad p = Some (OAdam.Sparse s) ->
     (exists e, snd (OAdam.step o) = Some e) /\
     (Forall OAdamSpec.in_range_group (OAdam.param_groups o) ->
      exists msg, snd (OAdam.step o) = Some (RuntimeError msg))).
Proof.
  intros Hps.
  assert (Hvalid : ~ OAdamSpec.rejects lr b1 b2 eps ->
                   0 <= lr /\ 0 <= eps /\ 0 <= b1 < 1 /\ 0 <= b2 < 1).
  { unfold OAdamSpec.rejects. intros Hn.
    destruct (Rle_dec 0 lr); [|exfalso; apply Hn; left; lra].
    destruct (Rle_dec 0 eps); [|exfalso; apply Hn; right; left; lra].
    destruct (Rle_dec 0 b1); [|exfalso; apply Hn; right; right; left; lra].
    destruct (Rlt_dec b1 1); [|exfalso; apply Hn; right; right; left; lra].
    destruct (Rle_dec 0 b2); [|exfalso; apply Hn; right; right; right; lra].
    destruct (Rlt_dec b2 1); [|exfalso; apply Hn; right; right; right; lra].
    lra. }
  assert (Hdec : OAdamSpec.rejects lr b1 b2 eps \/ ~ OAdamSpec.rejects lr b1 b2 eps).
  { unfold OAdamSpec.rejects.
    destruct (Rlt_dec lr 0); [left; left; assumption|].
    destruct (Rlt_dec eps 0); [left; right; left; assumption|].
    destruct (Rle_dec 0 b1); [|left; right; right; left; lra].
    destruct (Rlt_dec b1 1); [|left; right; right; left; lra].
    destruct (Rle_dec 0 b2); [|left; right; right; right; lra].
    destruct (Rlt_dec b2 1); [|left; right; right; right; lra].
    right. intros [H|[H|[H|H]]]; lra. }
  split; [split|split; [|split]].
  - intros [e He]. destruct Hdec as [H|H]; [exact H|].
    destruct (Hvalid H) as (H1 & H2 & H3 & H4).
    rewrite (OAdam_init_accepts ps lr b1 b2 eps wd ams Hps H1 H2 H3 H4) in He.
    discriminate.
  - intros H. destruct (OAdam_init_rejects ps lr b1 b2 eps wd ams H) as [msg Hmsg].
    exists (ValueError msg). exact Hmsg.
  - intros e He. destruct Hdec as [H|H].
    + destruct (OAdam_init_rejects ps lr b1 b2 eps wd ams H) as [msg Hmsg].
      rewrite Hmsg in He. injection He as <-. reflexivity.
    + destruct (Hvalid H) as (H1 & H2 & H3 & H4).
      rewrite (OAdam_init_accepts ps lr b1 b2 eps wd ams Hps H1 H2 H3 H4) in He.
      discriminate.
  - intros H. destruct (Hvalid H) as (H1 & H2 & H3 & H4).
    apply OAdam_init_accepts; assumption.
  - intros o g p s Hg Hp Hs. unfold OAdam.step.
    destruct (OAdam_step_groups_sparse _ g p s Hg Hp Hs) as [e He].
    destruct (OAdam.step_groups (OAdam.param_groups o)) as [gs e'] eqn:Hstep.
    simpl in *. subst e'. split; [exists e; reflexivity|].
    intros Hrange. destruct (OAdam_step_groups_error _ _ _ Hrange Hstep) as [msg ->].
    exists msg. reflexivity.
Qed.

Lemma OAdam_init_checks_witness :
  [Examples.oadam_p0] <> [] /\
  (raises (OAdam.init [Examples.oadam_p0] 1e-3 (0.9, 0.999) 1e-8 0 false)
   <-> OAdamSpec.rejects 1e-3 0.9 0.999 1e-8).
Proof.
  split.
  - discriminate.
  - apply (OAdam_init_checks [Examples.oadam_p0] 1e-3 0.9 0.999 1e-8 0 false).
    discriminate.
Defined.

(** C7, counterexample: a learning rate of zero is non-positive, so the
    specification counts it as rejected, yet the constructor accepts it. *)
Lemma OAdam_init_accepts_zero_lr :
  OAdamSpec.spec_rejects 0 0.9 0.999 1e-8 /\
  ~ raises (OAdam.init [Examples.oadam_p0] 0 (0.9, 0.999) 1e-8 0 false).
Proof.
  split.
  - left. lra.
  - rewrite OAdam_init_accepts by (try discriminate; lra).
    intros [e He]. discriminate.
Qed.

(** ** The generator transform *)

Lemma map2_length (f : R -> R -> R) (a b : list R) :
  length (Tensor.map2 f a b) = Nat.min (length a) (length b).
Proof.
  revert b. induction a as [|x a IH]; intros [|y b]; simpl; auto.
Qed.

Lemma split_two (n m : nat) (v : list R) (parts : list (list R)) :
  Tensor.split [n; m] v = inr parts ->
  parts = [firstn n v; skipn n v] /\ length v = (n + m)%nat.
Proof.
  unfold Tensor.split. simpl. rewrite Nat.add_0_r.
  destruct (Nat.eqb_spec (length v) (n + m)) as [Hlen|]; [|discriminate].
  intros H. injection H as <-. split; [|assumption].
  f_equal. f_equal. apply firstn_all2. rewrite length_skipn. lia.
Qed.

Lemma chunks_concat (bs : list (list R)) (rest : list R) :
  Tensor.chunks (map (@length R) bs) (concat bs ++ rest) = bs.
Proof.
  induction bs as [|b bs IH]; simpl; [reflexivity|].
  rewrite <- app_assoc. rewrite firstn_app, firstn_all, Nat.sub_diag. simpl.
  rewrite app_nil_r. rewrite skipn_app, skipn_all, Nat.sub_diag. simpl.
  rewrite IH. reflexivity.
Qed.

Lemma chunks_lengths (sizes : list nat) (v : list R) :
  length v = list_sum sizes ->
  map (@length R) (Tensor.chunks sizes v) = sizes.
Proof.
  revert v. induction sizes as [|n sizes IH]; intros v Hv; simpl in *; [reflexivity|].
  rewrite length_firstn, IH.
  - f_equal. lia.
  - rewrite length_skipn. lia.
Qed.

Lemma softmax_length (v : list R) : length (Tensor.softmax v) = length v.
Proof. unfold Tensor.softmax. rewrite !length_map. reflexivity. Qed.

Lemma sum_exp_pos (v : list R) : v <> [] -> 0 < Tensor.sum (map exp v).
Proof.
  destruct v as [|x v]; [congruence|]. intros _. simpl.
  assert (H : 0 <= Tensor.sum (map exp v)).
  { induction v as [|y v IH]; simpl; [lra|]. pose proof (exp_pos y). lra. }
  pose proof (exp_pos x). lra.
Qed.

Lemma sum_map_div (e : list R) (s : R) :
  Tensor.sum (map (fun x => x / s) e) = Tensor.sum e / s.
Proof.
  induction e as [|x e IH]; simpl.
  - unfold Rdiv. ring.
  - rewrite IH. unfold Rdiv. ring.
Qed.

Lemma softmax_probability (v : list R) :
  v <> [] -> GeneratorSpec.probability_vector (Tensor.softmax v).
Proof.
  intros Hv. pose proof (sum_exp_pos v Hv) as Hs.
  unfold GeneratorSpec.probability_vector, Tensor.softmax. split.
  - apply Forall_forall. intros p Hp.
    apply in_map_iff in Hp. destruct Hp as (x & <- & Hx).
    apply in_map_iff in Hx. destruct Hx as (y & <- & _).
    apply Rlt_le. apply Rdiv_lt_0_compat; [apply exp_pos|assumption].
  - rewrite sum_map_div. field. lra.
Qed.

Lemma clamp_between (x lo hi : R) : lo <= hi -> lo <= Rmin (Rmax x lo) hi <= hi.
Proof.
  intros H. split.
  - apply Rmin_glb; [apply Rmax_r|assumption].
  - apply Rmin_r.
Qed.

Lemma expand_as_length (row : list R) (n : nat) (r : list R) :
  Tensor.expand_as row n = inr r -> length r = n.
Proof.
  unfold Tensor.expand_as.
  destruct (Nat.eqb_spec (length row) n) as [Hn|_].
  - intros H. injection H as <-. assumption.
  - destruct (length row =? 1)%nat; [|discriminate].
    intros H. injection H as <-. apply repeat_length.
Qed.

Lemma slice_expand_length (m : list (list R)) (k n : nat) (r : list R) :
  Tensor.slice_expand m k n = inr r -> length r = n.
Proof.
  unfold Tensor.slice_expand. destruct (nth_error m k); [|discriminate].
  apply expand_as_length.
Qed.

Lemma slice_expand_exact (m : list (list R)) (k n : nat) (row : list R) :
  nth_error m k = Some row -> length row = n ->
  Tensor.slice_expand m k n = inr row.
Proof.
  intros Hk Hn. unfold Tensor.slice_expand, Tensor.expand_as. rewrite Hk.
  destruct (Nat.eqb_spec (length row) n); [reflexivity|contradiction].
Qed.

Lemma split_two_ok (n m : nat) (v : list R) :
  length v = (n + m)%nat ->
  Tensor.split [n; m] v = inr [firstn n v; skipn n v].
Proof.
  intros Hlen. unfold Tensor.split. simpl. rewrite Nat.add_0_r.
  destruct (Nat.eqb_spec (length v) (n + m)); [|contradiction].
  unfold ok. do 3 f_equal. apply firstn_all2. rewrite length_skipn. lia.
Qed.

(** The shape of a successful transform. *)
Lemma Generator_transform_inv (g : Generator.t) (hidden out : list R) :
  Generator._transform g hidden = inr out ->
  exists cont' cat',
    out = cont' ++ cat' /\
    length hidden = (Generator.d_cont g + Generator.d_cat g)%nat /\
    length cont' = Generator.d_cont g /\
    (if (0 <? Generator.d_cont g)%nat
     then exists lower upper,
         Tensor.slice_expand (Generator.cont_bounds g) 0 (Generator.d_cont g) = inr lower /\
         Tensor.slice_expand (Generator.cont_bounds g) 1 (Generator.d_cont g) = inr upper /\
         cont' = Tensor.vmin (Tensor.vmax (firstn (Generator.d_cont g) hidden) lower) upper
     else cont' = firstn (Generator.d_cont g) hidden) /\
    (if (0 <? Generator.d_cat g)%nat
     then Generator.d_cat g = list_sum (Generator.cat_dims g) /\
          cat' = concat (map Tensor.softmax
                           (Tensor.chunks (Generator.cat_dims g)
                                          (skipn (Generator.d_cont g) hidden)))
     else cat' = skipn (Generator.d_cont g) hidden).
Proof.
  unfold Generator._transform.
  destruct (Tensor.split [Generator.d_cont g; Generator.d_cat g] hidden) as [e|parts] eqn:Hsplit;
    [discriminate|].
  apply split_two in Hsplit. destruct Hsplit as [-> Hlen]. cbn [bind nth].
  assert (Hc : length (firstn (Generator.d_cont g) hidden) = Generator.d_cont g)
    by (rewrite length_firstn; lia).
  assert (Hk : length (skipn (Generator.d_cont g) hidden) = Generator.d_cat g)
    by (rewrite length_skipn; lia).
  rewrite Hc, Hk.
  set (c := firstn (Generator.d_cont g) hidden) in *.
  assert (Hcont : forall cont',
    (if (0 <? Generator.d_cont g)%nat
     then (lower <- Tensor.slice_expand (Generator.cont_bounds g) 0 (Generator.d_cont g) ;;
           upper <- Tensor.slice_expand (Generator.cont_bounds g) 1
                      (length (Tensor.vmax c lower)) ;;
           ok (Tensor.vmin (Tensor.vmax c lower) upper))%result
     else ok c) = inr cont' ->
    length cont' = Generator.d_cont g /\
    (if (0 <? Generator.d_cont g)%nat
     then exists lower upper,
         Tensor.slice_expand (Generator.cont_bounds g) 0 (Generator.d_cont g) = inr lower /\
         Tensor.slice_expand (Generator.cont_bounds g) 1 (Generator.d_cont g) = inr upper /\
         cont' = Tensor.vmin (Tensor.vmax c lower) upper
     else cont' = c)).
  { intros cont'. destruct (0 <? Generator.d_cont g)%nat.
    - destruct (Tensor.slice_expand _ 0 _) as [e|lower] eqn:Hlo; cbn [bind]; [discriminate|].
      pose proof (slice_expand_length _ _ _ _ Hlo) as Hll.
      assert (Hm : length (Tensor.vmax c lower) = Generator.d_cont g).
      { unfold Tensor.vmax. rewrite map2_length. lia. }
      rewrite Hm.
      destruct (Tensor.slice_expand _ 1 _) as [e|upper] eqn:Hup; cbn [bind]; [discriminate|].
      pose proof (slice_expand_length _ _ _ _ Hup) as Hul.
      intros H. injection H as <-. split.
      + unfold Tensor.vmin. rewrite map2_length. lia.
      + exists lower, upper. auto.
    - intros H. injection H as <-. auto. }
  match goal with
  | |- bind ?m _ = _ -> _ => destruct m as [e|cont'] eqn:Hm; cbn [bind]; [discriminate|]
  end.
  destruct (Hcont cont' Hm) as [Hcl Hcs].
  destruct (0 <? Generator.d_cat g)%nat eqn:Hcat.
  - unfold Tensor.split. rewrite Hk.
    destruct (Nat.eqb_spec (Generator.d_cat g) (list_sum (Generator.cat_dims g))) as [Hsum|];
      [|discriminate].
    cbn [bind]. intros H. injection H as <-.
    exists cont'. eexists. repeat split; try eassumption; reflexivity.
  - cbn [bind]. intros H. injection H as <-.
    exists cont'. eexists. repeat split; try eassumption; reflexivity.
Qed.

Lemma Generator_transform_total (g : Generator.t) (hidden : list R) :
  Generator.bounds_ordered g ->
  Generator.d_cat g = list_sum (Generator.cat_dims g) ->
  length hidden = (Generator.d_cont g + Generator.d_cat g)%nat ->
  returns (Generator._transform g hidden).
Proof.
  intros (lower & upper & Hb & Hl & Hu & _) Hsum Hlen. unfold Generator._transform.
  rewrite (split_two_ok _ _ _ Hlen). cbn [bind nth].
  assert (Hc : length (firstn (Generator.d_cont g) hidden) = Generator.d_cont g)
    by (rewrite length_firstn; lia).
  rewrite Hc.
  assert (Hcont : exists cont',
    (if (0 <? Generator.d_cont g)%nat
     then (lo <- Tensor.slice_expand (Generator.cont_bounds g) 0 (Generator.d_cont g) ;;
           up <- Tensor.slice_expand (Generator.cont_bounds g) 1
                   (length (Tensor.vmax (firstn (Generator.d_cont g) hidden) lo)) ;;
           ok (Tensor.vmin (Tensor.vmax (firstn (Generator.d_cont g) hidden) lo) up))%result
     else ok (firstn (Generator.d_cont g) hidden)) = inr cont').
  { destruct (0 <? Generator.d_cont g)%nat; [|eexists; reflexivity].
    rewrite (slice_expand_exact _ 0 _ lower) by (rewrite ?Hb; auto). cbn [bind].
    rewrite (slice_expand_exact _ 1 _ upper); [cbn [bind]; eexists; reflexivity| |].
    - rewrite Hb. reflexivity.
    - unfold Tensor.vmax. rewrite map2_length. lia. }
  match goal with
  | |- returns (bind ?m _) =>
      assert (Hm : exists cont', m = inr cont') by exact Hcont
  end.
  destruct Hm as [cont' ->]. cbn [bind].
  destruct (0 <? length (skipn (Generator.d_cont g) hidden))%nat.
  - unfold Tensor.split. rewrite length_skipn.
    destruct (Nat.eqb_spec (length hidden - Generator.d_cont g)
                           (list_sum (Generator.cat_dims g))); [|lia].
    cbn [bind]. eexists. reflexivity.
  - cbn [bind]. eexists. reflexivity.
Qed.

Lemma Forall2_nth_error_le (lower upper : list R) (i : nat) (lo hi : R) :
  Forall2 Rle lower upper ->
  nth_error lower i = Some lo -> nth_error upper i = Some hi -> lo <= hi.
Proof.
  intros Hle. revert i.
  induction Hle as [|a b lower upper Hab _ IH]; intros [|i] Hlo Hhi; simpl in *;
    try discriminate.
  - injection Hlo as <-. injection Hhi as <-. assumption.
  - eapply IH; eassumption.
Qed.

Lemma Generator_transform_within_bounds (g : Generator.t) (hidden out : list R) :
  Generator.bounds_ordered g ->
  Generator._transform g hidden = inr out ->
  GeneratorSpec.within_bounds g out.
Proof.
  intros (lower & upper & Hb & Hl & Hu & Hle) Hout.
  destruct (Generator_transform_inv g hidden out Hout)
    as (cont' & cat' & -> & Hlen & Hcl & Hcont & _).
  unfold GeneratorSpec.within_bounds. rewrite Hb. cbn [nth].
  intros i lo hi Hlo Hhi.
  assert (Hi : (i < Generator.d_cont g)%nat).
  { rewrite <- Hl. apply nth_error_Some. congruence. }
  destruct (Nat.ltb_spec 0 (Generator.d_cont g)) as [_|]; [|lia].
  destruct Hcont as (lower' & upper' & Hlo' & Hup' & ->).
  rewrite (slice_expand_exact _ 0 _ lower) in Hlo' by (rewrite ?Hb; auto).
  rewrite (slice_expand_exact _ 1 _ upper) in Hup' by (rewrite ?Hb; auto).
  injection Hlo' as <-. injection Hup' as <-.
  assert (Hx : exists x, nth_error (firstn (Generator.d_cont g) hidden) i = Some x).
  { destruct (nth_error (firstn (Generator.d_cont g) hidden) i) eqn:E; [eauto|].
    apply nth_error_None in E. rewrite length_firstn in E. lia. }
  destruct Hx as [x Hx].
  exists (Rmin (Rmax x lo) hi). split.
  - rewrite nth_error_app1 by lia.
    unfold Tensor.vmin, Tensor.vmax.
    rewrite !nth_error_map2, Hx, Hlo, Hhi. reflexivity.
  - apply clamp_between. eapply Forall2_nth_error_le; eassumption.
Qed.

(** C2: when the bounds tensor has its lower row below its upper row,
    every continuous coordinate of a transformed row lies within its
    bounds, whatever the row before the transform; the same holds of every
    row the generator returns, whatever the noise and the context; and the
    transform does return on every row of the generator's output width. *)
Theorem Generator_output_within_bounds (g : Generator.t) :
  Generator.bounds_ordered g ->
  (forall hidden out,
     Generator._transform g hidden = inr out -> GeneratorSpec.within_bounds g out) /\
  (forall noise context out,
     Generator.forward g noise context = inr out -> GeneratorSpec.within_bounds g out) /\
  (Generator.d_cat g = list_sum (Generator.cat_dims g) ->
   forall hidden,
     length hidden = (Generator.d_cont g + Generator.d_cat g)%nat ->
     exists out, Generator._transform g hidden = inr out /\
                 GeneratorSpec.within_bounds g out).
Proof.
  intros Hb. repeat split.
  - intros hidden out. apply Generator_transform_within_bounds. assumption.
  - intros noise context out. unfold Generator.forward.
    destruct (Linear.network _ _ _) as [e|h]; cbn [bind]; [discriminate|].
    apply Generator_transform_within_bounds. assumption.
  - intros Hsum hidden Hlen.
    destruct (Generator_transform_total g hidden Hb Hsum Hlen) as [out Hout].
    exists out. split; [assumption|].
    eapply Generator_transform_within_bounds; eassumption.
Qed.

Lemma Generator_transform_probabilities (g : Generator.t) (hidden out : list R) :
  GeneratorSpec.widths_consistent g ->
  Generator._transform g hidden = inr out ->
  map (@length R) (GeneratorSpec.categorical_blocks g out) = Generator.cat_dims g /\
  Forall GeneratorSpec.probability_vector (GeneratorSpec.categorical_blocks g out).
Proof.
  intros [Hsum Hpos] Hout.
  destruct (Generator_transform_inv g hidden out Hout)
    as (cont' & cat' & -> & Hlen & Hcont & _ & Hcat).
  unfold GeneratorSpec.categorical_blocks.
  assert (Hk : length (skipn (Generator.d_cont g) hidden) = Generator.d_cat g)
    by (rewrite length_skipn; lia).
  rewrite skipn_app, skipn_all2 by lia. rewrite Hcont, Nat.sub_diag. simpl.
  destruct (Nat.ltb_spec 0 (Generator.d_cat g)) as [Hd|Hd].
  - destruct Hcat as [_ ->].
    set (blocks := Tensor.chunks (Generator.cat_dims g) (skipn (Generator.d_cont g) hidden)).
    assert (Hbl : map (@length R) blocks = Generator.cat_dims g).
    { apply chunks_lengths. congruence. }
    assert (Hsl : map (@length R) (map Tensor.softmax blocks) = Generator.cat_dims g).
    { rewrite map_map. rewrite <- Hbl. apply map_ext. apply softmax_length. }
    assert (Hch : Tensor.chunks (Generator.cat_dims g) (concat (map Tensor.softmax blocks))
                  = map Tensor.softmax blocks).
    { rewrite <- Hsl at 1. rewrite <- (app_nil_r (concat _)). apply chunks_concat. }
    rewrite Hch.
    split; [assumption|].
    apply Forall_forall. intros b Hb. apply in_map_iff in Hb.
    destruct Hb as (v & <- & Hv). apply softmax_probability.
    intros ->. 
    assert (Hin : In (length (@nil R)) (Generator.cat_dims g)).
    { rewrite <- Hbl. apply in_map. assumption. }
    rewrite Forall_forall in Hpos. specialize (Hpos _ Hin). simpl in Hpos. lia.
  - assert (Hnil : Generator.cat_dims g = []).
    { destruct (Generator.cat_dims g) as [|d ds]; [reflexivity|].
      inversion Hpos; subst. simpl in Hsum. lia. }
    rewrite Hnil. simpl. split; [reflexivity|constructor].
Qed.

(** C3: when every categorical variable has at least one category, the
    categorical part of every transformed row splits into blocks of the
    widths [cat_dims], each with non-negative entries that add up to 1,
    whatever the row before the transform; the same holds of every row the
    generator returns. *)
Theorem Generator_output_probabilities (g : Generator.t) :
  GeneratorSpec.widths_consistent g ->
  (forall hidden out,
     Generator._transform g hidden = inr out ->
     map (@length R) (GeneratorSpec.categorical_blocks g out) = Generator.cat_dims g /\
     Forall GeneratorSpec.probability_vector (GeneratorSpec.categorical_blocks g out)) /\
  (forall noise context out,
     Generator.forward g noise context = inr out ->
     map (@length R) (GeneratorSpec.categorical_blocks g out) = Generator.cat_dims g /\
     Forall GeneratorSpec.probability_vector (GeneratorSpec.categorical_blocks g out)).
Proof.
  intros Hw. split.
  - intros hidden out. apply Generator_transform_probabilities. assumption.
  - intros noise context out. unfold Generator.forward.
    destruct (Linear.network _ _ _) as [e|h]; cbn [bind]; [discriminate|].
    apply Generator_transform_probabilities. assumption.
Qed.

Lemma example_generator_bounds : Generator.bounds_ordered Examples.generator.
Proof.
  exists [-1], [1]. repeat split; try reflexivity.
  constructor; [lra|constructor].
Qed.

Lemma example_generator_widths : GeneratorSpec.widths_consistent Examples.generator.
Proof.
  split; [reflexivity|]. constructor; [simpl; lia|constructor].
Qed.

Lemma Generator_output_within_bounds_witness :
  Generator.bounds_ordered Examples.generator /\
  exists out, Generator._transform Examples.generator [5; 0; 0] = inr out /\
              GeneratorSpec.within_bounds Examples.generator out.
Proof.
  split.
  - exact example_generator_bounds.
  - apply (Generator_output_within_bounds Examples.generator example_generator_bounds);
      reflexivity.
Defined.

Lemma Generator_output_probabilities_witness :
  GeneratorSpec.widths_consistent Examples.generator /\
  forall hidden out,
    Generator._transform Examples.generator hidden = inr out ->
    map (@length R) (GeneratorSpec.categorical_blocks Examples.generator out) = [2%nat] /\
    Forall GeneratorSpec.probability_vector
           (GeneratorSpec.categorical_blocks Examples.generator out).
Proof.
  split.
  - exact example_generator_widths.
  - apply (Generator_output_probabilities Examples.generator example_generator_widths).
Defined.

(** ** The critic's gradient penalty *)

Lemma relu_nonneg (x : R) : 0 <= Tensor.relu x.
Proof. unfold Tensor.relu. apply Rmax_r. Qed.

Lemma relu_zero (x : R) : x <= 0 -> Tensor.relu x = 0.
Proof. intros H. unfold Tensor.relu. apply Rmax_right. assumption. Qed.

Lemma sum_nonneg (v : list R) : Forall (fun x => 0 <= x) v -> 0 <= Tensor.sum v.
Proof. induction 1; simpl; lra. Qed.

Lemma sum_zero (v : list R) : Forall (fun x => x = 0) v -> Tensor.sum v = 0.
Proof. induction 1; simpl; lra. Qed.

Lemma mean_nonneg (v : list R) : Forall (fun x => 0 <= x) v -> 0 <= Tensor.mean v.
Proof.
  intros H. unfold Tensor.mean. destruct v as [|x v].
  - simpl. unfold Rdiv. rewrite Rmult_0_l. lra.
  - apply Rmult_le_pos; [apply sum_nonneg; assumption|].
    apply Rlt_le, Rinv_0_lt_compat, lt_0_INR. simpl. lia.
Qed.

Lemma mean_zero (v : list R) : Forall (fun x => x = 0) v -> Tensor.mean v = 0.
Proof.
  intros H. unfold Tensor.mean. rewrite (sum_zero v H). unfold Rdiv. ring.
Qed.

Lemma interpolate_between (alpha : R) (x x_hat : list R) :
  0 <= alpha <= 1 -> Critic.between (Critic.interpolate alpha x x_hat) x x_hat.
Proof.
  intros Ha i a b Hx Hh. unfold Critic.interpolate.
  rewrite nth_error_map2, Hx, Hh. eexists. split; [reflexivity|].
  unfold Rmin, Rmax. destruct (Rle_dec a b); split; nra.
Qed.

Lemma interpolated_rows (alpha : list R) (x x_hat context : list (list R)) :
  Forall (fun a => 0 <= a <= 1) alpha ->
  Forall (fun '(z, ctx) =>
            exists i a xi hi,
              nth_error alpha i = Some a /\ nth_error x i = Some xi /\
              nth_error x_hat i = Some hi /\ nth_error context i = Some ctx /\
              z = Critic.interpolate a xi hi /\ Critic.between z xi hi)
         (Critic.interpolated alpha x x_hat context).
Proof.
  intros Ha. revert x x_hat context.
  induction Ha as [|a alpha Ha0 _ IH]; intros [|xi x] [|hi x_hat] [|ci context]; simpl;
    try constructor.
  - exists 0%nat, a, xi, hi. simpl. repeat split; try reflexivity.
    apply interpolate_between. assumption.
  - eapply Forall_impl; [|apply IH]. intros [z ctx] (i & a' & xi' & hi' & H).
    exists (S i), a', xi', hi'. exact H.
Qed.


(** ** The training specifications *)

(** C8 (amended): the constructor checks no numeric range.  For every
    argument record it returns the settings with each argument stored as
    given, the noise width being the width [d_x] of the generated output
    when left at its default and the given integer otherwise, together
    with the dimensions derived from the data wrapper. *)
Theorem Specifications_init_total (w : DataWrapper.t) (a : Specifications.args) :
  exists s,
    Specifications.init w a = inr s /\
    Specifications.d_x (Specifications.data s)
      = (Z.of_nat (length (DataWrapper.continuous (DataWrapper.variables w)))
         + Z.of_nat (list_sum (DataWrapper.cat_dims w)))%Z /\
    Specifications.d_context (Specifications.data s)
      = Z.of_nat (length (DataWrapper.context (DataWrapper.variables w))) /\
    Specifications.cat_dims (Specifications.data s) = DataWrapper.cat_dims w /\
    Specifications.cont_bounds (Specifications.data s) = DataWrapper.cont_bounds w /\
    Specifications.generator_d_noise (Specifications.settings s)
      = match Specifications.arg_generator_d_noise a with
        | Specifications.generator_d_output => Specifications.d_x (Specifications.data s)
        | Specifications.noise_width d => d
        end /\
    Specifications.critic_lr (Specifications.settings s) = Specifications.arg_critic_lr a /\
    Specifications.generator_lr (Specifications.settings s)
      = Specifications.arg_generator_lr a /\
    Specifications.critic_dropout (Specifications.settings s)
      = Specifications.arg_critic_dropout a /\
    Specifications.generator_dropout (Specifications.settings s)
      = Specifications.arg_generator_dropout a /\
    Specifications.batch_size (Specifications.settings s)
      = Specifications.arg_batch_size a /\
    Specifications.critic_steps (Specifications.settings s)
      = Specifications.arg_critic_steps a /\
    Specifications.max_epochs (Specifications.settings s)
      = Specifications.arg_max_epochs a /\
    Specifications.load_checkpoint (Specifications.settings s)
      = Specifications.arg_load_checkpoint a /\
    Specifications.save_checkpoint (Specifications.settings s)
      = Specifications.arg_save_checkpoint a.
Proof.
  eexists. split; [reflexivity|]. simpl. repeat split; reflexivity.
Qed.

(** C8, counterexample: with a critic learning rate of -1, a critic
    dropout rate of -1 and a batch size of 0 the constructor raises
    nothing and stores the three values. *)
Lemma Specifications_init_accepts_bad_ranges :
  Specifications.spec_out_of_range Examples.bad_args /\
  exists s,
    Specifications.init Examples.wrapper Examples.bad_args = inr s /\
    Specifications.critic_lr (Specifications.settings s) = -1 /\
    Specifications.critic_dropout (Specifications.settings s) = -1 /\
    Specifications.batch_size (Specifications.settings s) = 0%Z.
Proof.
  split.
  - left. simpl. lra.
  - eexists. split; [reflexivity|]. simpl. repeat split; reflexivity.
Qed.

(** ** The training loop *)

Section TrainMonad.

Context {rt : Train.runtime}.
Variable Rel : Train.state rt -> Train.state rt -> Prop.
Hypothesis HR : TrainSpec.stable Rel.

Lemma always_ret {A} (a : A) : TrainSpec.always Rel (Train.ret a).
Proof. intros s r s' H. injection H as _ <-. apply (TrainSpec.stable_refl Rel HR). Qed.

Lemma always_lift {A} (x : result A) : TrainSpec.always Rel (Train.lift x).
Proof. intros s r s' H. injection H as _ <-. apply (TrainSpec.stable_refl Rel HR). Qed.

Lemma always_get : TrainSpec.always Rel Train.get.
Proof. intros s r s' H. injection H as _ <-. apply (TrainSpec.stable_refl Rel HR). Qed.

Lemma always_sample {A} (f : Train.rng rt -> A * Train.rng rt) :
  TrainSpec.always Rel (Train.sample f).
Proof.
  intros s r s' H. unfold Train.sample in H.
  destruct (f (Train.random rt s)) as [a g]. injection H as _ <-.
  apply (TrainSpec.stable_random Rel HR).
Qed.

Lemma always_modify (f : Train.state rt -> Train.state rt) :
  (forall s, Rel s (f s)) -> TrainSpec.always Rel (Train.modify f).
Proof. intros Hf s r s' H. injection H as _ <-. apply Hf. Qed.

Lemma always_bind {A B} (m : Train.M rt A) (k : A -> Train.M rt B) :
  TrainSpec.always Rel m -> (forall a, TrainSpec.always Rel (k a)) ->
  TrainSpec.always Rel (Train.mbind m k).
Proof.
  intros Hm Hk s r s' H. unfold Train.mbind in H.
  destruct (m s) as [[e|a] s1] eqn:Hms.
  - injection H as _ <-. eapply Hm; eassumption.
  - eapply (TrainSpec.stable_trans Rel HR).
    + eapply Hm; eassumption.
    + eapply Hk; eassumption.
Qed.

Lemma always_for_fold {A B} (l : list A) (body : B -> A -> Train.M rt B) :
  (forall acc a, TrainSpec.always Rel (body acc a)) ->
  forall acc, TrainSpec.always Rel (Train.for_fold l acc body).
Proof.
  intros Hb. induction l as [|a l IH]; intros acc; simpl.
  - apply always_ret.
  - apply always_bind; [apply Hb|]. intros acc'. apply IH.
Qed.

Lemma always_for_each {A} (l : list A) (body : A -> Train.M rt unit) :
  (forall a, TrainSpec.always Rel (body a)) ->
  TrainSpec.always Rel (Train.for_each l body).
Proof.
  intros Hb. induction l as [|a l IH]; simpl.
  - apply always_ret.
  - apply always_bind; [apply Hb|]. intros _. apply IH.
Qed.

Variable s : Specifications.settings_dict.
Variable penalty : option Train.penalty_fn.

Lemma always_test_batch (acc : R * Z) (b : Train.batch) :
  TrainSpec.always Rel (Train.test_batch rt acc b).
Proof.
  destruct acc as [wd n], b as [x context]. unfold Train.test_batch.
  apply always_bind; [apply always_get|]. intros st.
  repeat (apply always_bind; [apply always_sample|]; intros ?).
  apply always_ret.
Qed.

Lemma always_save (path : string) (epoch : Z) :
  TrainSpec.always Rel (Train.save rt path epoch).
Proof.
  unfold Train.save.
  apply always_bind; [apply always_get|]. intros st.
  apply always_bind.
  - apply always_modify. intros s0. apply (TrainSpec.stable_files Rel HR).
  - intros _. apply always_modify. intros s0. apply (TrainSpec.stable_saved Rel HR).
Qed.

Hypothesis Hbatch :
  forall acc b, TrainSpec.always Rel (Train.train_batch rt s penalty acc b).

(** Past the start-of-epoch mark, an epoch respects the relation. *)
Lemma always_train_epoch (train_batches test_batches : Train.dataset rt) (epoch : Z) :
  forall st r st',
    Train.train_epoch rt s penalty train_batches test_batches epoch st = (r, st') ->
    Rel (Train.add_event rt (Train.EpochBegin epoch) st) st'.
Proof.
  intros st r st'. unfold Train.train_epoch.
  unfold Train.mbind at 1. unfold Train.tell at 1, Train.modify at 1.
  cbv beta iota. unfold ok at 1. cbv beta iota.
  match goal with
  | |- ?m _ = _ -> _ => assert (Hm : TrainSpec.always Rel m)
  end.
  { apply always_bind; [apply always_sample|]. intros bs.
    apply always_bind; [apply always_for_fold; apply Hbatch|]. intros [WD_train n].
    apply always_bind; [apply always_lift|]. intros WD_train'.
    apply always_bind; [apply always_sample|]. intros bs'.
    apply always_bind; [apply always_for_fold; apply always_test_batch|].
    intros [WD_test n'].
    apply always_bind; [apply always_lift|]. intros WD_test'.
    apply always_bind; [apply always_lift|]. intros r0.
    apply always_bind.
    - destruct (r0 =? 0)%Z; [|apply always_ret].
      apply always_bind; [apply always_get|]. intros st0.
      apply always_modify. intros s0. apply (TrainSpec.stable_printed Rel HR).
    - intros _. destruct (Specifications.save_checkpoint s) as [path|]; [|apply always_ret].
      destruct (truthy_path (Some path)); [|apply always_ret].
      apply always_bind; [apply always_lift|]. intros r1.
      destruct (r1 =? 0)%Z; [apply always_save|apply always_ret]. }
  intros H. eapply Hm. exact H.
Qed.

End TrainMonad.

Lemma train_batch_spec (rt : Train.runtime) (s : Specifications.settings_dict)
    (penalty : option Train.penalty_fn) (acc : R * Z) (b : Train.batch)
    (st st' : Train.state rt) (r : result (R * Z)) :
  Train.train_batch rt s penalty acc b st = (r, st') ->
  (exists e, r = inl e /\ Train.log rt st' = Train.log rt st /\
             Train.step rt st' = Train.step rt st) \/
  (exists acc', r = inr acc' /\
     Train.log rt st'
     = Train.log rt st ++ [Train.update_at (Specifications.critic_steps s) (Train.step rt st)] /\
     Train.step rt st' = (Train.step rt st + 1)%Z).
Proof.
  destruct acc as [wd n], b as [x context].
  unfold Train.train_batch, Train.update_at, py_mod.
  unfold Train.mbind at 1. unfold Train.get at 1. cbv beta iota. unfold ok at 1.
  cbv beta iota.
  unfold Train.mbind at 1. unfold Train.lift at 1.
  destruct (Specifications.critic_steps s =? 0)%Z.
  - unfold raise. intros H. injection H as <- <-. left. eauto.
  - unfold ok at 1. cbv beta iota.
    set (gu := (Train.step rt st mod Specifications.critic_steps s =? 0)%Z).
    unfold Train.mbind, Train.modify, Train.tell, Train.modify, Train.sample, Train.ret,
      Train.lift, ok.
    cbn [Train.random Train.set_requires_grad Train.set_random].
    do 2 (destruct_call; cbn [Train.random Train.set_requires_grad Train.set_random]).
    destruct gu; cbn [negb].
    + destruct penalty as [f|].
      * destruct (f _ _) as [e|p].
        -- intros H. injection H as <- <-. left. eauto.
        -- destruct_call. cbn. intros H. injection H as <- <-. right. eauto.
      * destruct_call. cbn. intros H. injection H as <- <-. right. eauto.
    + repeat (destruct_call; cbn [Train.random Train.set_requires_grad Train.set_random]).
      cbn. intros H. injection H as <- <-. right. eauto.
Qed.

Lemma py_range_snoc (a k : Z) :
  (a <= k)%Z -> py_range a (k + 1) = py_range a k ++ [k].
Proof.
  intros H. unfold py_range.
  replace (Z.to_nat (k + 1 - a)) with (S (Z.to_nat (k - a))) by lia.
  rewrite seq_S, map_app. simpl. f_equal. f_equal. lia.
Qed.

Lemma py_range_empty (a b : Z) : (b <= a)%Z -> py_range a b = [].
Proof.
  intros H. unfold py_range. replace (Z.to_nat (b - a)) with 0%nat by lia. reflexivity.
Qed.

Lemma py_range_cons (a b : Z) :
  (a < b)%Z -> py_range a b = a :: py_range (a + 1) b.
Proof.
  intros H. unfold py_range.
  replace (Z.to_nat (b - a)) with (S (Z.to_nat (b - (a + 1)))) by lia.
  simpl. f_equal; [lia|]. rewrite <- seq_shift, map_map.
  apply map_ext. intros i. lia.
Qed.

Lemma py_range_length (a b : Z) : length (py_range a b) = Z.to_nat (b - a).
Proof. unfold py_range. rewrite length_map, length_seq. reflexivity. Qed.

Lemma updates_app (l l' : list Train.event) :
  Train.updates (l ++ l') = Train.updates l ++ Train.updates l'.
Proof. apply filter_app. Qed.

Lemma epochs_begun_app (l l' : list Train.event) :
  Train.epochs_begun (l ++ l') = Train.epochs_begun l ++ Train.epochs_begun l'.
Proof.
  induction l as [|e l IH]; simpl; [reflexivity|].
  destruct e; simpl; rewrite IH; reflexivity.
Qed.

Lemma is_update_update_at (cs k : Z) : Train.is_update (Train.update_at cs k) = true.
Proof. unfold Train.update_at. destruct (k mod cs =? 0)%Z; reflexivity. Qed.

Lemma generator_updates_of_updates (l : list Train.event) :
  filter Train.is_generator_update (Train.updates l) = filter Train.is_generator_update l.
Proof.
  induction l as [|e l IH]; simpl; [reflexivity|].
  destruct e; simpl; rewrite ?IH; reflexivity.
Qed.

(** Among the step values [1, ..., n] the multiples of [cs] number
    [floor (n / cs)]. *)
Lemma count_generator_updates (cs : Z) (n : nat) :
  (0 < cs)%Z ->
  Z.of_nat (length (filter Train.is_generator_update
                      (map (Train.update_at cs) (py_range 1 (Z.of_nat n + 1)))))
  = (Z.of_nat n / cs)%Z.
Proof.
  intros Hcs. induction n as [|n IH].
  - simpl. rewrite Z.div_0_l by lia. reflexivity.
  - replace (Z.of_nat (S n) + 1)%Z with ((Z.of_nat n + 1) + 1)%Z by lia.
    rewrite py_range_snoc by lia. rewrite map_app, filter_app, length_app.
    rewrite Nat2Z.inj_add, IH. simpl map. unfold Train.update_at.
    replace (Z.of_nat (S n)) with (Z.of_nat n + 1)%Z by lia.
    pose proof (Z.div_mod (Z.of_nat n) cs ltac:(lia)) as Hdm.
    pose proof (Z.mod_pos_bound (Z.of_nat n) cs Hcs) as Hb.
    destruct (Z.eqb_spec ((Z.of_nat n + 1) mod cs) 0) as [Hz|Hnz]; simpl.
    + apply (Z.div_unique _ _ _ 0); [lia|].
      apply Z.mod_divide in Hz; [|lia]. destruct Hz as [q Hq].
      assert (q = Z.of_nat n / cs + 1)%Z by nia. nia.
    + rewrite Z.add_0_r.
      apply (Z.div_unique _ _ _ (Z.of_nat n mod cs + 1)); [|lia].
      assert (Z.of_nat n mod cs + 1 <> cs)%Z; [|lia].
      intros Heq. apply Hnz.
      replace (Z.of_nat n + 1)%Z with (cs * (Z.of_nat n / cs + 1))%Z by lia.
      rewrite Z.mul_comm. apply Z.mod_mul. lia.
Qed.

Lemma keeps_cover_stable (rt : Train.runtime) (cs : Z) :
  TrainSpec.stable (@TrainSpec.keeps_cover rt cs).
Proof.
  unfold TrainSpec.keeps_cover, TrainSpec.covers.
  constructor; auto; intros; simpl in *;
    rewrite ?updates_app, ?app_nil_r; simpl; rewrite ?app_nil_r; auto.
Qed.

Lemma same_epochs_stable (rt : Train.runtime) : TrainSpec.stable (@TrainSpec.same_epochs rt).
Proof.
  unfold TrainSpec.same_epochs.
  constructor; auto; intros; simpl in *;
    rewrite ?epochs_begun_app; simpl; rewrite ?app_nil_r; congruence.
Qed.

Lemma train_batch_keeps_cover (rt : Train.runtime) (s : Specifications.settings_dict)
    (penalty : option Train.penalty_fn) (acc : R * Z) (b : Train.batch) :
  TrainSpec.always (TrainSpec.keeps_cover (Specifications.critic_steps s))
                   (Train.train_batch rt s penalty acc b).
Proof.
  intros st r st' H [Hstep Hlog]. unfold TrainSpec.covers.
  destruct (train_batch_spec _ _ _ _ _ _ _ _ H)
    as [(e & _ & Hl & Hs)|(acc' & _ & Hl & Hs)]; rewrite Hl, Hs.
  - auto.
  - split; [lia|].
    rewrite updates_app, Hlog, py_range_snoc by lia. rewrite map_app. simpl.
    rewrite is_update_update_at. reflexivity.
Qed.

Lemma train_batch_same_epochs (rt : Train.runtime) (s : Specifications.settings_dict)
    (penalty : option Train.penalty_fn) (acc : R * Z) (b : Train.batch) :
  TrainSpec.always TrainSpec.same_epochs (Train.train_batch rt s penalty acc b).
Proof.
  intros st r st' H. unfold TrainSpec.same_epochs.
  destruct (train_batch_spec _ _ _ _ _ _ _ _ H)
    as [(e & _ & Hl & Hs)|(acc' & _ & Hl & Hs)]; rewrite Hl.
  - reflexivity.
  - rewrite epochs_begun_app. unfold Train.update_at.
    destruct (_ =? 0)%Z; simpl; apply app_nil_r.
Qed.

Lemma train_epoch_keeps_cover (rt : Train.runtime) (s : Specifications.settings_dict)
    (penalty : option Train.penalty_fn) (tr te : Train.dataset rt) (epoch : Z) :
  TrainSpec.always (TrainSpec.keeps_cover (Specifications.critic_steps s))
                   (Train.train_epoch rt s penalty tr te epoch).
Proof.
  intros st r st' H Hc.
  refine (always_train_epoch _ (keeps_cover_stable rt _) s penalty
            (train_batch_keeps_cover rt s penalty) tr te epoch st r st' H _).
  destruct Hc as [Hs Hl]. split; simpl; [assumption|].
  rewrite updates_app. simpl. rewrite app_nil_r. assumption.
Qed.

Lemma train_epoch_begins_one (rt : Train.runtime) (s : Specifications.settings_dict)
    (penalty : option Train.penalty_fn) (tr te : Train.dataset rt) (epoch : Z)
    (st st' : Train.state rt) (r : result unit) :
  Train.train_epoch rt s penalty tr te epoch st = (r, st') ->
  Train.epochs_begun (Train.log rt st') = Train.epochs_begun (Train.log rt st) ++ [epoch].
Proof.
  intros H.
  pose proof (always_train_epoch _ (same_epochs_stable rt) s penalty
                (train_batch_same_epochs rt s penalty) tr te epoch st r st' H) as Hs.
  unfold TrainSpec.same_epochs in Hs. rewrite Hs. simpl.
  rewrite epochs_begun_app. reflexivity.
Qed.

Lemma run_fresh_keeps_cover (rt : Train.runtime) (s : Specifications.settings_dict)
    (penalty : option Train.penalty_fn) (tr te : Train.dataset rt) :
  truthy_path (Specifications.load_checkpoint s) = false ->
  TrainSpec.always (TrainSpec.keeps_cover (Specifications.critic_steps s))
                   (Train.run rt s penalty tr te).
Proof.
  intros Hload. unfold Train.run.
  apply always_bind; [apply keeps_cover_stable| |].
  - unfold Train.load_checkpoints.
    destruct (Specifications.load_checkpoint s) as [path|];
      [rewrite Hload|]; apply always_ret; apply keeps_cover_stable.
  - intros start. apply always_for_each; [apply keeps_cover_stable|].
    intros epoch. apply train_epoch_keeps_cover.
Qed.



(** The scenario of the specification: with [critic_steps = 5] the steps
    1 to 10 are critic steps except 5 and 10. *)
Example step_kinds_five_of_ten :
  map (Train.update_at 5) (py_range 1 11)
  = [Train.CriticUpdate 1; Train.CriticUpdate 2; Train.CriticUpdate 3;
     Train.CriticUpdate 4; Train.GeneratorUpdate 5; Train.CriticUpdate 6;
     Train.CriticUpdate 7; Train.CriticUpdate 8; Train.CriticUpdate 9;
     Train.GeneratorUpdate 10].
Proof. reflexivity. Qed.

(** The epochs begun by the epoch loop over [l] form a prefix of [l]: the
    whole of it when the loop ends without an exception, and never empty
    unless [l] is. *)
Lemma for_each_epochs (rt : Train.runtime) (s : Specifications.settings_dict)
    (penalty : option Train.penalty_fn) (tr te : Train.dataset rt) (l : list Z) :
  forall st r st',
    Train.for_each l (Train.train_epoch rt s penalty tr te) st = (r, st') ->
    exists n,
      Train.epochs_begun (Train.log rt st')
      = Train.epochs_begun (Train.log rt st) ++ firstn n l /\
      (l <> [] -> (1 <= n)%nat) /\
      (r = inr tt -> firstn n l = l).
Proof.
  induction l as [|e l IH]; intros st r st' H; simpl in H.
  - injection H as <- <-. exists 0%nat. rewrite app_nil_r. repeat split; auto.
    congruence.
  - unfold Train.mbind in H.
    destruct (Train.train_epoch rt s penalty tr te e st) as [[err|[]] st1] eqn:He.
    + injection H as <- <-. exists 1%nat. simpl.
      rewrite (train_epoch_begins_one _ _ _ _ _ _ _ _ _ He).
      repeat split; auto. discriminate.
    + destruct (IH _ _ _ H) as (n & Hn & _ & Hall).
      exists (S n). simpl.
      rewrite Hn, (train_epoch_begins_one _ _ _ _ _ _ _ _ _ He), <- app_assoc.
      repeat split; auto; [lia|]. intros Hr. rewrite (Hall Hr). reflexivity.
Qed.

Lemma load_checkpoints_restores (rt : Train.runtime) (s : Specifications.settings_dict)
    (st : Train.state rt) (path : string) (cp : Train.checkpoint rt) :
  Specifications.load_checkpoint s = Some path ->
  path <> EmptyString ->
  Dict.get (Train.files rt st) path = Some cp ->
  Train.load_checkpoints rt s st
  = (inr (Train.cp_epoch rt cp),
     Train.set_step rt (Train.cp_step rt cp)
       (Train.set_networks rt (Train.generator_state_dict rt cp)
          (Train.opt_generator_state_dict rt cp)
          (Train.critic_state_dict rt cp)
          (Train.opt_critic_state_dict rt cp) st)).
Proof.
  intros Hload Hpath Hfile. unfold Train.load_checkpoints. rewrite Hload.
  unfold truthy_path. destruct (String.eqb_spec path EmptyString); [contradiction|].
  cbn [negb]. unfold Train.mbind at 1, Train.get at 1. cbv beta iota.
  unfold ok at 1. cbv beta iota. rewrite Hfile. reflexivity.
Qed.


Lemma example_resumed_state :
  exists st tr te,
    Train.setup Examples.plain_runtime
      (Specifications.settings (Examples.train_spec 5 (Some "cp.pt"%string)))
      Examples.generator Examples.critic Examples.train_x Examples.train_context tt
      [("cp.pt"%string, Examples.checkpoint3)] = inr (st, tr, te) /\
    Dict.get (Train.files Examples.plain_runtime st) "cp.pt" = Some Examples.checkpoint3.
Proof. do 3 eexists. split; vm_compute; reflexivity. Qed.



(** ** The kernel-regression monotonicity penalty *)

Lemma x_is_not_global : is_global "x" = false.
Proof. reflexivity. Qed.

(** C10: without a data wrapper, leaving either grid endpoint at [None]
    makes the factory fail with a [NameError] for [x], a name that is
    bound neither in the function nor at module level; whenever the
    factory does return a penalty both endpoints were supplied; and with
    both endpoints and no data wrapper it returns the penalty over the
    grid between them. *)
Theorem monotonicity_penalty_kernreg_unbound_x
    (factor h : R) (idx_out idx_in : Z) (x_min x_max : option R) :
  is_global "x" = false /\
  (x_min = None \/ x_max = None ->
   monotonicity_penalty_kernreg factor h idx_out idx_in x_min x_max None
   = inl (NameError "x")) /\
  (forall data_wrapper penalty,
     monotonicity_penalty_kernreg factor h idx_out idx_in x_min x_max data_wrapper
     = inr penalty ->
     exists a b, x_min = Some a /\ x_max = Some b) /\
  (forall a b,
     x_min = Some a -> x_max = Some b ->
     monotonicity_penalty_kernreg factor h idx_out idx_in x_min x_max None
     = inr (Kernreg.penalty factor h idx_out idx_in a b)).
Proof.
  split; [reflexivity|]. split; [|split].
  - intros [-> | ->]; unfold monotonicity_penalty_kernreg; simpl.
    + reflexivity.
    + destruct x_min; reflexivity.
  - intros w penalty. unfold monotonicity_penalty_kernreg.
    destruct w as [w|]; cbn [bind].
    + destruct (Tensor.squeeze_index _ _) as [e|sd]; cbn [bind]; [discriminate|].
      destruct (Tensor.squeeze_index _ _) as [e|mu]; cbn [bind]; [discriminate|].
      destruct x_min as [a|]; cbn [bind Kernreg.rescale]; [|discriminate].
      destruct x_max as [b|]; cbn [bind Kernreg.rescale]; [|discriminate].
      intros _. eauto.
    + destruct x_min as [a|]; cbn [bind Kernreg.default_endpoint]; [|discriminate].
      destruct x_max as [b|]; cbn [bind Kernreg.default_endpoint]; [|discriminate].
      intros _. eauto.
  - intros a b -> ->. reflexivity.
Qed.

(** ** The data wrapper *)

(** *** The order on category values *)

Lemma label_compare_eq (a b : DataWrapper.label) :
  DataWrapper.label_compare a b = Eq <-> a = b.
Proof.
  destruct a as [s|x], b as [u|y]; simpl.
  - destruct (OrdersEx.String_as_OT.compare_spec s u) as [H|H|H]; split;
      try discriminate; try (intros; congruence).
    + intros Heq. injection Heq as ->.
      exfalso. exact (StrictOrder_Irreflexive _ H).
    + intros Heq. injection Heq as ->.
      exfalso. exact (StrictOrder_Irreflexive _ H).
  - split; discriminate.
  - split; discriminate.
  - destruct (Rlt_dec x y); [|destruct (Rlt_dec y x)]; split;
      try discriminate; try (intros Heq; injection Heq as ->; exfalso; lra).
    + intros _. f_equal. lra.
    + reflexivity.
Qed.

Lemma label_compare_refl (a : DataWrapper.label) : DataWrapper.label_compare a a = Eq.
Proof. apply label_compare_eq. reflexivity. Qed.

Lemma label_compare_gt (a b : DataWrapper.label) :
  DataWrapper.label_compare a b = Gt -> DataWrapperSpec.label_lt b a.
Proof.
  unfold DataWrapperSpec.label_lt. destruct a as [s|x], b as [u|y]; simpl;
    try discriminate; try reflexivity.
  - destruct (OrdersEx.String_as_OT.compare_spec s u) as [H|H|H]; try discriminate.
    intros _. exact H.
  - destruct (Rlt_dec x y); [discriminate|]. destruct (Rlt_dec y x); [|discriminate].
    reflexivity.
Qed.

Lemma label_lt_irrefl (a : DataWrapper.label) : ~ DataWrapperSpec.label_lt a a.
Proof.
  unfold DataWrapperSpec.label_lt. rewrite label_compare_refl. discriminate.
Qed.

Lemma label_lt_trans (a b c : DataWrapper.label) :
  DataWrapperSpec.label_lt a b -> DataWrapperSpec.label_lt b c ->
  DataWrapperSpec.label_lt a c.
Proof.
  unfold DataWrapperSpec.label_lt. destruct a as [s|x], b as [u|y], c as [v|z]; simpl;
    try discriminate; try reflexivity.
  - intros H1 H2.
    exact (StrictOrder_Transitive (R := OrdersEx.String_as_OT.lt) s u v H1 H2).
  - destruct (Rlt_dec x y); [|destruct (Rlt_dec y x); discriminate].
    destruct (Rlt_dec y z); [|destruct (Rlt_dec z y); discriminate].
    intros _ _. destruct (Rlt_dec x z); [reflexivity|lra].
Qed.

Lemma label_eqb_eq (a b : DataWrapper.label) :
  DataWrapper.label_eqb a b = true <-> a = b.
Proof.
  unfold DataWrapper.label_eqb. rewrite <- label_compare_eq.
  destruct (DataWrapper.label_compare a b); split; congruence.
Qed.

Lemma label_eqb_refl (a : DataWrapper.label) : DataWrapper.label_eqb a a = true.
Proof. apply label_eqb_eq. reflexivity. Qed.

(** *** Sorted lists of distinct values *)

Lemma insert_In (x v : DataWrapper.label) (l : list DataWrapper.label) :
  In v (DataWrapper.insert x l) <-> v = x \/ In v l.
Proof.
  induction l as [|y l IH]; simpl.
  - intuition.
  - destruct (DataWrapper.label_compare x y) eqn:E; simpl.
    + apply label_compare_eq in E. subst. intuition.
    + intuition.
    + rewrite IH. intuition.
Qed.

Lemma dummy_columns_In (v : DataWrapper.label) (column : list DataWrapper.label) :
  In v (DataWrapper.dummy_columns column) <-> In v column.
Proof.
  unfold DataWrapper.dummy_columns. induction column as [|x column IH]; simpl.
  - reflexivity.
  - rewrite insert_In, IH. intuition.
Qed.

Lemma insert_sorted (x : DataWrapper.label) (l : list DataWrapper.label) :
  StronglySorted DataWrapperSpec.label_lt l ->
  StronglySorted DataWrapperSpec.label_lt (DataWrapper.insert x l).
Proof.
  induction 1 as [|y l Hs IH Hy]; simpl.
  - constructor; constructor.
  - destruct (DataWrapper.label_compare x y) eqn:E.
    + constructor; assumption.
    + constructor; [constructor; assumption|].
      constructor; [exact E|].
      eapply Forall_impl; [|exact Hy]. intros z Hz.
      eapply label_lt_trans; eassumption.
    + constructor; [assumption|].
      apply Forall_forall. intros z Hz. apply insert_In in Hz.
      destruct Hz as [->|Hz].
      * apply label_compare_gt. assumption.
      * rewrite Forall_forall in Hy. auto.
Qed.

Lemma dummy_columns_sorted (column : list DataWrapper.label) :
  StronglySorted DataWrapperSpec.label_lt (DataWrapper.dummy_columns column).
Proof.
  unfold DataWrapper.dummy_columns. induction column as [|x column IH]; simpl.
  - constructor.
  - apply insert_sorted. assumption.
Qed.

Lemma sorted_NoDup (l : list DataWrapper.label) :
  StronglySorted DataWrapperSpec.label_lt l -> NoDup l.
Proof.
  induction 1 as [|y l Hs IH Hy]; constructor; [|assumption].
  intros Hin. rewrite Forall_forall in Hy. exact (label_lt_irrefl y (Hy y Hin)).
Qed.

(** Two strictly sorted lists with the same elements are equal. *)
Lemma sorted_ext (l l' : list DataWrapper.label) :
  StronglySorted DataWrapperSpec.label_lt l ->
  StronglySorted DataWrapperSpec.label_lt l' ->
  (forall v, In v l <-> In v l') ->
  l = l'.
Proof.
  intros Hl. revert l'. induction Hl as [|x l Hs IH Hx]; intros l' Hl' Hin.
  - destruct l' as [|y l']; [reflexivity|].
    exfalso. apply (Hin y). left. reflexivity.
  - destruct Hl' as [|y l' Hs' Hy].
    + exfalso. apply (Hin x). left. reflexivity.
    + rewrite Forall_forall in Hx, Hy.
      assert (Hxy : x = y).
      { destruct (proj1 (Hin x) (or_introl eq_refl)) as [Heq|Hxl']; [congruence|].
        destruct (proj2 (Hin y) (or_introl eq_refl)) as [Heq|Hyl]; [assumption|].
        exfalso. apply (label_lt_irrefl x).
        eapply label_lt_trans; [apply Hx; exact Hyl|apply Hy; exact Hxl']. }
      subst y. f_equal. apply IH; [assumption|].
      intros v. split; intros Hv.
      * destruct (proj1 (Hin v) (or_intror Hv)) as [Heq|H]; [|assumption].
        subst v. exfalso. exact (label_lt_irrefl x (Hx x Hv)).
      * destruct (proj2 (Hin v) (or_intror Hv)) as [Heq|H]; [|assumption].
        subst v. exfalso. exact (label_lt_irrefl x (Hy x Hv)).
Qed.

Lemma dummy_columns_ext (c c' : list DataWrapper.label) :
  (forall v, In v c <-> In v c') ->
  DataWrapper.dummy_columns c = DataWrapper.dummy_columns c'.
Proof.
  intros H. apply sorted_ext; try apply dummy_columns_sorted.
  intros v. rewrite !dummy_columns_In. apply H.
Qed.

(** *** Dictionaries *)

Lemma Dict_get_set_same {V} (d : Dict.t V) (k : string) (v : V) :
  Dict.get (Dict.set d k v) k = Some v.
Proof.
  induction d as [|[k' v'] d IH]; simpl.
  - rewrite String.eqb_refl. reflexivity.
  - destruct (String.eqb_spec k k') as [->|Hne]; simpl.
    + rewrite String.eqb_refl. reflexivity.
    + destruct (String.eqb_spec k k'); [contradiction|]. exact IH.
Qed.

Lemma Dict_get_set_other {V} (d : Dict.t V) (k k' : string) (v : V) :
  k' <> k -> Dict.get (Dict.set d k v) k' = Dict.get d k'.
Proof.
  intros Hne. induction d as [|[k0 v0] d IH]; simpl.
  - destruct (String.eqb_spec k' k); [contradiction|reflexivity].
  - destruct (String.eqb_spec k k0) as [->|Hk]; simpl.
    + destruct (String.eqb_spec k' k0); [contradiction|reflexivity].
    + destruct (String.eqb_spec k' k0); [reflexivity|exact IH].
Qed.

Lemma Dict_get_keys {V} (d : Dict.t V) (k : string) :
  In k (Dict.keys d) -> exists v, Dict.get d k = Some v.
Proof.
  unfold Dict.keys. induction d as [|[k' v'] d IH]; simpl; [contradiction|].
  intros [->|Hin].
  - rewrite String.eqb_refl. eauto.
  - destruct (String.eqb k k'); eauto.
Qed.

(** *** What the constructor records *)

Lemma init_categorical_spec (df : DataWrapper.frame) w2i i2w labels j v w2i' i2w' labels' :
  DataWrapper.init_categorical df (w2i, i2w, labels) (j, v) = inr (w2i', i2w', labels') ->
  Dict.get w2i v = None -> Dict.get i2w v = None ->
  exists l,
    labels' = labels ++ [(v, l)] /\
    DataWrapperSpec.recorded df j v w2i' i2w' l /\
    (forall k, k <> v -> Dict.get w2i' k = Dict.get w2i k /\
                         Dict.get i2w' k = Dict.get i2w k).
Proof.
  unfold DataWrapper.init_categorical, DataWrapperSpec.recorded.
  destruct (DataWrapper.cat_column df j) as [|first col] eqn:Hcol; [discriminate|].
  fold (DataWrapperSpec.code_table (first :: col)).
  destruct (DataWrapper.is_float first); cbn [negb].
  - destruct (DataWrapper.to_float_tensor _) as [e|l]; cbn [bind]; [discriminate|].
    intros H Hw Hi. injection H as <- <- <-. exists l.
    split; [reflexivity|]. split; auto.
  - destruct (DataWrapper.to_float_tensor _) as [e|l]; cbn [bind]; [discriminate|].
    intros H Hw Hi. injection H as <- <- <-. exists l.
    rewrite !Dict_get_set_same.
    split; [reflexivity|]. split; [auto|].
    intros k Hk. rewrite !Dict_get_set_other by assumption. auto.
Qed.

Lemma recorded_frame (df : DataWrapper.frame) j v w2i i2w w2i' i2w' l :
  Dict.get w2i' v = Dict.get w2i v -> Dict.get i2w' v = Dict.get i2w v ->
  DataWrapperSpec.recorded df j v w2i i2w l ->
  DataWrapperSpec.recorded df j v w2i' i2w' l.
Proof.
  unfold DataWrapperSpec.recorded. intros -> ->. auto.
Qed.

Lemma init_categoricals_spec (df : DataWrapper.frame) (vars : list (nat * string)) :
  forall w2i i2w labels w2i' i2w' labels',
    DataWrapper.init_categoricals df (w2i, i2w, labels) vars = inr (w2i', i2w', labels') ->
    NoDup (map snd vars) ->
    (forall jv, In jv vars -> Dict.get w2i (snd jv) = None /\ Dict.get i2w (snd jv) = None) ->
    exists ls,
      labels' = labels ++ combine (map snd vars) ls /\
      Forall2 (fun jv l => DataWrapperSpec.recorded df (fst jv) (snd jv) w2i' i2w' l) vars ls /\
      (forall k, ~ In k (map snd vars) ->
                 Dict.get w2i' k = Dict.get w2i k /\ Dict.get i2w' k = Dict.get i2w k).
Proof.
  induction vars as [|[j v] vars IH]; intros w2i i2w labels w2i' i2w' labels' H Hnd Hfresh.
  - injection H as <- <- <-. exists []. rewrite app_nil_r.
    split; [reflexivity|]. split; [constructor|auto].
  - cbn [DataWrapper.init_categoricals] in H.
    destruct (DataWrapper.init_categorical df (w2i, i2w, labels) (j, v))
      as [e|[[w2i1 i2w1] labels1]] eqn:Hone; cbn [bind] in H; [discriminate|].
    simpl in Hnd. inversion Hnd as [|? ? Hnotin Hnd']; subst.
    destruct (Hfresh (j, v) (or_introl eq_refl)) as [Hw Hi]. simpl in Hw, Hi.
    destruct (init_categorical_spec _ _ _ _ _ _ _ _ _ Hone Hw Hi) as (l & -> & Hrec & Hother).
    assert (Hfresh' : forall jv, In jv vars ->
              Dict.get w2i1 (snd jv) = None /\ Dict.get i2w1 (snd jv) = None).
    { intros jv Hin.
      assert (Hne : snd jv <> v).
      { intros Heq. apply Hnotin. rewrite <- Heq. apply in_map. assumption. }
      destruct (Hother _ Hne) as [-> ->]. apply Hfresh. right. assumption. }
    destruct (IH _ _ _ _ _ _ H Hnd' Hfresh') as (ls & -> & Hall & Hrest).
    exists (l :: ls). simpl. rewrite <- app_assoc. split; [reflexivity|]. split.
    + constructor; [|assumption]. simpl.
      destruct (Hrest v Hnotin) as [Hw1 Hi1].
      eapply recorded_frame; eassumption.
    + intros k Hk. simpl in Hk.
      destruct (Hrest k) as [-> ->]; [tauto|].
      apply Hother. intros ->. apply Hk. left. reflexivity.
Qed.

(** *** Codes and words *)

Lemma word_code_from (n : nat) (U : list DataWrapper.label) (c : DataWrapper.label) (i : nat) :
  DataWrapper.word_code (map (fun '(idx, feature) => (feature, idx))
                             (combine (seq n (length U)) U)) c = Some i ->
  (n <= i)%nat /\ nth_error U (i - n) = Some c.
Proof.
  revert n. induction U as [|u U IH]; intros n; simpl; [discriminate|].
  destruct (DataWrapper.label_eqb c u) eqn:E.
  - intros H. injection H as <-. apply label_eqb_eq in E. subst.
    rewrite Nat.sub_diag. auto.
  - intros H. destruct (IH _ H) as [Hle Hnth]. split; [lia|].
    replace (i - n)%nat with (S (i - S n)) by lia. exact Hnth.
Qed.

Lemma word_code_nth (n : nat) (U : list DataWrapper.label) (c : DataWrapper.label) (i : nat) :
  NoDup U -> nth_error U i = Some c ->
  DataWrapper.word_code (map (fun '(idx, feature) => (feature, idx))
                             (combine (seq n (length U)) U)) c = Some (n + i)%nat.
Proof.
  intros Hnd. revert n i. induction Hnd as [|u U Hu _ IH]; intros n [|i]; simpl;
    try discriminate.
  - intros H. injection H as ->. rewrite label_eqb_refl. f_equal. lia.
  - intros H. destruct (DataWrapper.label_eqb c u) eqn:E.
    + apply label_eqb_eq in E. subst. exfalso. apply Hu.
      eapply nth_error_In. eassumption.
    + rewrite (IH (S n) i H). f_equal. lia.
Qed.

Lemma code_word_from (n : nat) (U : list DataWrapper.label) (i : nat) (c : DataWrapper.label) :
  nth_error U i = Some c ->
  DataWrapper.code_word (combine (seq n (length U)) U) (INR (n + i)) = Some c.
Proof.
  revert n i. induction U as [|u U IH]; intros n [|i]; simpl; try discriminate.
  - intros H. injection H as ->. rewrite Nat.add_0_r.
    destruct (Req_dec_T (INR n) (INR n)); [reflexivity|contradiction].
  - intros H. destruct (Req_dec_T (INR n) (INR (n + S i))) as [Heq|_].
    + apply INR_eq in Heq. lia.
    + replace (n + S i)%nat with (S n + i)%nat by lia. apply IH. exact H.
Qed.

Lemma to_float_tensor_nums (l : list R) :
  DataWrapper.to_float_tensor (map DataWrapper.Num l) = inr l.
Proof.
  induction l as [|x l IH]; simpl; [reflexivity|]. rewrite IH. reflexivity.
Qed.

Lemma to_float_tensor_inv (U : list DataWrapper.label) (l : list R) :
  DataWrapper.to_float_tensor U = inr l -> U = map DataWrapper.Num l.
Proof.
  revert l. induction U as [|[s|x] U IH]; intros l; simpl.
  - intros H. injection H as <-. reflexivity.
  - discriminate.
  - destruct (DataWrapper.to_float_tensor U) as [e|v]; cbn [bind]; [discriminate|].
    intros H. injection H as <-. simpl. f_equal. apply IH. reflexivity.
Qed.

Lemma codes_sorted (n k : nat) :
  StronglySorted DataWrapperSpec.label_lt
    (map (fun i => DataWrapper.Num (INR i)) (seq n k)).
Proof.
  revert n. induction k as [|k IH]; intros n; simpl; constructor; [apply IH|].
  apply Forall_forall. intros v Hv. apply in_map_iff in Hv.
  destruct Hv as (i & <- & Hi). apply in_seq in Hi.
  unfold DataWrapperSpec.label_lt. simpl.
  destruct (Rlt_dec (INR n) (INR i)) as [_|Hn]; [reflexivity|].
  exfalso. apply Hn. apply lt_INR. lia.
Qed.

(** The sorted codes of a column are [0, ..., k - 1], [k] being the
    number of distinct values. *)
Lemma code_labels (column : list DataWrapper.label) :
  DataWrapper.dummy_columns
    (DataWrapper.map_codes (DataWrapperSpec.code_table column) column)
  = map (fun i => DataWrapper.Num (INR i))
        (seq 0 (length (DataWrapper.dummy_columns column))).
Proof.
  apply sorted_ext; [apply dummy_columns_sorted|apply codes_sorted|].
  set (U := DataWrapper.dummy_columns column).
  intros v. rewrite dummy_columns_In. unfold DataWrapper.map_codes.
  rewrite in_flat_map, in_map_iff. split.
  - intros (c & Hc & Hv).
    destruct (DataWrapper.word_code _ c) as [i|] eqn:Hcode; [|contradiction].
    destruct Hv as [<-|[]]. exists i. split; [reflexivity|].
    apply word_code_from in Hcode. destruct Hcode as [_ Hnth].
    apply in_seq. rewrite Nat.sub_0_r in Hnth.
    assert (i < length U)%nat
      by (apply nth_error_Some; unfold U; rewrite Hnth; discriminate).
    lia.
  - intros (i & <- & Hi). apply in_seq in Hi.
    destruct (nth_error U i) as [c|] eqn:Hnth;
      [|apply nth_error_None in Hnth; lia].
    exists c. split.
    + apply dummy_columns_In. eapply nth_error_In. exact Hnth.
    + unfold DataWrapperSpec.code_table, enumerate. fold U.
      rewrite (word_code_nth 0 U c i); [left; reflexivity| |exact Hnth].
      apply sorted_NoDup. apply dummy_columns_sorted.
Qed.

(** *** Rows *)

Lemma scale_row_length (x m s : list R) :
  length x = length m -> length x = length s ->
  length (DataWrapper.scale_row x m s) = length x.
Proof.
  revert m s. induction x as [|a x IH]; intros [|b m] [|c s]; simpl; try discriminate; auto.
Qed.

Lemma unscale_scale_row (x m s : list R) :
  length x = length m -> length x = length s -> Forall (fun c => c <> 0) s ->
  DataWrapper.unscale_row (DataWrapper.scale_row x m s) m s = x.
Proof.
  revert m s. induction x as [|a x IH]; intros [|b m] [|c s]; simpl; try discriminate; auto.
  intros Hm Hs Hpos. inversion Hpos; subst. f_equal.
  - field. assumption.
  - apply IH; auto.
Qed.

Lemma one_hot_length (U : list DataWrapper.label) (c : DataWrapper.label) :
  length (DataWrapper.one_hot U c) = length U.
Proof. unfold DataWrapper.one_hot. apply length_map. Qed.

Lemma one_hot_nth (U : list DataWrapper.label) (c : DataWrapper.label) (i : nat) (x : R) :
  nth_error (DataWrapper.one_hot U c) i = Some x -> 0 < x -> nth_error U i = Some c.
Proof.
  unfold DataWrapper.one_hot. rewrite nth_error_map.
  destruct (nth_error U i) as [k|]; simpl; [|discriminate].
  destruct (DataWrapper.label_eqb c k) eqn:E; intros H; injection H as <-.
  - intros _. apply label_eqb_eq in E. congruence.
  - lra.
Qed.

Lemma index_of_nth (U : list DataWrapper.label) (c : DataWrapper.label) :
  In c U -> nth_error U (DataWrapperSpec.index_of U c) = Some c.
Proof.
  induction U as [|k U IH]; simpl; [contradiction|].
  destruct (DataWrapper.label_eqb c k) eqn:E.
  - intros _. apply label_eqb_eq in E. subst. reflexivity.
  - intros [->|Hin]; [rewrite label_eqb_refl in E; discriminate|]. simpl. auto.
Qed.

Lemma index_of_unique (U : list DataWrapper.label) (c : DataWrapper.label) (i : nat) :
  NoDup U -> nth_error U i = Some c -> DataWrapperSpec.index_of U c = i.
Proof.
  intros Hnd. revert i. induction Hnd as [|k U Hk _ IH]; intros [|i]; simpl;
    try discriminate.
  - intros H. injection H as ->. rewrite label_eqb_refl. reflexivity.
  - intros H. destruct (DataWrapper.label_eqb c k) eqn:E.
    + apply label_eqb_eq in E. subst. exfalso. apply Hk.
      eapply nth_error_In. eassumption.
    + f_equal. auto.
Qed.

Lemma one_hot_nonneg (U : list DataWrapper.label) (c : DataWrapper.label) :
  Forall (fun x => 0 <= x) (DataWrapper.one_hot U c).
Proof.
  unfold DataWrapper.one_hot. apply Forall_forall. intros x Hx.
  apply in_map_iff in Hx. destruct Hx as (k & <- & _).
  destruct (DataWrapper.label_eqb c k); lra.
Qed.

Lemma one_hot_positive (U : list DataWrapper.label) (c : DataWrapper.label) :
  In c U ->
  0 < Tensor.sum (DataWrapper.one_hot U c) /\
  (1 <= length (filter (DataWrapper.Rltb 0) (DataWrapper.one_hot U c)))%nat.
Proof.
  pose proof (one_hot_nonneg U c) as Hnn. unfold DataWrapper.one_hot in *.
  induction U as [|k U IH]; simpl; [contradiction|].
  inversion Hnn as [|? ? _ Hnn']; subst.
  assert (Hs : 0 <= Tensor.sum (map (fun k0 => if DataWrapper.label_eqb c k0 then 1 else 0) U))
    by (apply sum_nonneg; assumption).
  intros [->|Hin].
  - rewrite label_eqb_refl. unfold DataWrapper.Rltb at 1.
    destruct (Rlt_dec 0 1); [|lra]. simpl. split; [lra|lia].
  - destruct (IH Hnn' Hin) as [Hsum Hcount].
    destruct (DataWrapper.label_eqb c k).
    + unfold DataWrapper.Rltb at 1. destruct (Rlt_dec 0 1); [|lra]. simpl. split; [lra|lia].
    + unfold DataWrapper.Rltb at 1. destruct (Rlt_dec 0 0); [lra|]. split; [lra|assumption].
Qed.

Lemma one_hot_multinomial_ok (U : list DataWrapper.label) (c : DataWrapper.label) :
  In c U -> DataWrapper.multinomial_ok (DataWrapper.one_hot U c) 1 = true.
Proof.
  intros Hin. destruct (one_hot_positive U c Hin) as [Hsum Hcount].
  unfold DataWrapper.multinomial_ok.
  assert (Hall : forallb (DataWrapper.Rleb 0) (DataWrapper.one_hot U c) = true).
  { apply forallb_forall. intros x Hx.
    pose proof (one_hot_nonneg U c) as Hnn. rewrite Forall_forall in Hnn.
    unfold DataWrapper.Rleb. destruct (Rle_dec 0 x); [reflexivity|].
    exfalso. auto. }
  rewrite Hall. unfold DataWrapper.Rltb at 1.
  destruct (Rlt_dec 0 (Tensor.sum (DataWrapper.one_hot U c))); [|contradiction].
  cbn [andb Nat.ltb Nat.leb].
  destruct (length (filter (DataWrapper.Rltb 0) (DataWrapper.one_hot U c))); [lia|reflexivity].
Qed.

(** The draw from a one-hot row is the position of its 1. *)
Lemma one_hot_draw (s : DataWrapper.sampler) (j i : nat)
    (U : list DataWrapper.label) (c : DataWrapper.label) :
  DataWrapper.valid_sampler s -> NoDup U -> In c U ->
  s j i (DataWrapper.one_hot U c) 1%nat = [DataWrapperSpec.index_of U c].
Proof.
  intros Hs Hnd Hin.
  destruct (Hs j i _ 1%nat (one_hot_multinomial_ok U c Hin)) as (Hlen & _ & Hpos).
  destruct (s j i (DataWrapper.one_hot U c) 1%nat) as [|k [|k' d]]; try discriminate.
  destruct (Hpos k (or_introl eq_refl)) as (x & Hx & Hx0).
  f_equal. symmetry. apply index_of_unique; [assumption|].
  eapply one_hot_nth; eassumption.
Qed.

(** *** Loops over lists *)

Lemma map_result_map {A B C} (f : B -> result C) (g : A -> B) (h : A -> C) (l : list A) :
  (forall a, In a l -> f (g a) = inr (h a)) ->
  map_result f (map g l) = inr (map h l).
Proof.
  induction l as [|a l IH]; intros H; simpl; [reflexivity|].
  rewrite (H a (or_introl eq_refl)). cbn [bind].
  rewrite IH by (intros; apply H; right; assumption). reflexivity.
Qed.

Lemma map_result_enumerate_map {A B C} (f : nat * B -> result C) (g : A -> B) (h : A -> C)
    (l : list A) :
  (forall i a, In a l -> f (i, g a) = inr (h a)) ->
  map_result f (enumerate (map g l)) = inr (map h l).
Proof.
  unfold enumerate. rewrite length_map. generalize 0%nat.
  induction l as [|a l IH]; intros n H; simpl; [reflexivity|].
  rewrite (H n a (or_introl eq_refl)). cbn [bind].
  rewrite IH by (intros; apply H; right; assumption). reflexivity.
Qed.

Lemma list_as_map_nth {A} (l : list A) (d : A) :
  l = map (fun j => nth j l d) (seq 0 (length l)).
Proof.
  induction l as [|a l IH]; simpl; [reflexivity|].
  f_equal. rewrite <- seq_shift, map_map. exact IH.
Qed.

Lemma combine_seq_snd {A} (n : nat) (l : list A) :
  map snd (combine (seq n (length l)) l) = l.
Proof.
  revert n. induction l as [|a l IH]; intros n; simpl; [reflexivity|].
  f_equal. apply IH.
Qed.

Lemma Forall2_combine_seq {A B} (P : nat * A -> B -> Prop) (d : A) (d' : B) (l : list A) :
  forall (n : nat) (ls : list B),
    Forall2 P (combine (seq n (length l)) l) ls ->
    length ls = length l /\
    forall j, (j < length l)%nat -> P ((n + j)%nat, nth j l d) (nth j ls d').
Proof.
  induction l as [|a l IH]; intros n ls H; simpl in *.
  - inversion H; subst. split; [reflexivity|]. intros j Hj. lia.
  - inversion H as [|? b ? ls' Hab Hrest]; subst.
    destruct (IH _ _ Hrest) as [Hlen Hnth]. split; [simpl; lia|].
    intros [|j] Hj; simpl.
    + rewrite Nat.add_0_r. exact Hab.
    + replace (n + S j)%nat with (S n + j)%nat by lia. apply Hnth. lia.
Qed.

Lemma add_scalar_nonzero (v : list R) :
  Forall (fun x => 0 <= x) v -> Forall (fun c => c <> 0) (Tensor.add_scalar v 1e-5).
Proof.
  intros H. unfold Tensor.add_scalar. apply Forall_forall. intros c Hc.
  apply in_map_iff in Hc. destruct Hc as (x & <- & Hx).
  rewrite Forall_forall in H. specialize (H x Hx). lra.
Qed.

Lemma col_stds_nonneg (m : list (list R)) (d : nat) :
  Forall (fun x => 0 <= x) (DataWrapper.col_stds m d).
Proof.
  unfold DataWrapper.col_stds. apply Forall_forall. intros x Hx.
  apply in_map_iff in Hx. destruct Hx as (j & <- & _).
  unfold DataWrapper.std. apply sqrt_pos.
Qed.

(** The constructor, when it returns, returns a fitted wrapper over the
    given variable lists. *)
Lemma DataWrapper_init_fitted (fit : DataWrapper.frame)
    (continuous_vars categorical_vars context_vars : list string)
    (lower upper : Dict.t R) (w : DataWrapper.t) :
  DataWrapper.init fit continuous_vars categorical_vars context_vars lower upper = inr w ->
  NoDup categorical_vars ->
  DataWrapper.variables w
  = {| DataWrapper.continuous := continuous_vars;
       DataWrapper.categorical := categorical_vars;
       DataWrapper.context := context_vars |} /\
  DataWrapperSpec.fitted fit w.
Proof.
  unfold DataWrapper.init. intros H Hnd.
  destruct (DataWrapper.init_categoricals fit ([], [], []) (enumerate categorical_vars))
    as [e|[[w2i i2w] labels]] eqn:Hcat; cbn [bind] in H; [discriminate|].
  injection H as <-. split; [reflexivity|].
  unfold enumerate in Hcat.
  destruct (init_categoricals_spec _ _ _ _ _ _ _ _ Hcat) as (ls & Hlabels & Hall & Hrest).
  { rewrite combine_seq_snd. assumption. }
  { intros jv _. split; reflexivity. }
  rewrite combine_seq_snd in Hlabels, Hrest. simpl in Hlabels.
  destruct (Forall2_combine_seq _ EmptyString [] _ _ _ Hall) as [Hlen Hnth].
  constructor; cbn [DataWrapper.means DataWrapper.stds DataWrapper.variables
                      DataWrapper.continuous DataWrapper.categorical DataWrapper.context
                      DataWrapper.cat_dims DataWrapper.cat_labels DataWrapper.words_to_int
                      DataWrapper.int_to_words fst snd].
  - unfold DataWrapper.col_means. rewrite length_map, length_seq. reflexivity.
  - unfold DataWrapper.col_means. rewrite length_map, length_seq. reflexivity.
  - unfold Tensor.add_scalar, DataWrapper.col_stds. rewrite !length_map, length_seq.
    reflexivity.
  - unfold Tensor.add_scalar, DataWrapper.col_stds. rewrite !length_map, length_seq.
    reflexivity.
  - apply add_scalar_nonzero, col_stds_nonneg.
  - apply add_scalar_nonzero, col_stds_nonneg.
  - reflexivity.
  - exists ls. split; [assumption|]. split; [assumption|].
    intros j Hj. apply (Hnth j Hj).
  - intros k Hk. destruct (in_dec string_dec k categorical_vars) as [Hin|Hnotin];
      [assumption|].
    destruct (Dict_get_keys _ _ Hk) as [v Hv].
    destruct (Hrest k Hnotin) as [Hw _]. rewrite Hw in Hv. discriminate.
Qed.

(** *** One categorical variable *)

Lemma nth_error_codes (k i : nat) :
  (i < k)%nat -> nth_error (map INR (seq 0 k)) i = Some (INR i).
Proof.
  intros Hi. rewrite nth_error_map, nth_error_seq.
  destruct (Nat.ltb_spec i k); [reflexivity|lia].
Qed.

(** For a recorded variable, the label drawn from the one-hot row of a
    value is the value's raw number, and the raw number decodes to the
    value. *)
Lemma recorded_decodes (fit : DataWrapper.frame) (j : nat) (v : string)
    (w2i : Dict.t (list (DataWrapper.label * nat)))
    (i2w : Dict.t (list (nat * DataWrapper.label))) (l : list R)
    (c : DataWrapper.label) :
  DataWrapperSpec.recorded fit j v w2i i2w l ->
  let U := DataWrapper.dummy_columns (DataWrapper.cat_column fit j) in
  In c U ->
  DataWrapper.gather l [DataWrapperSpec.index_of U c]
  = inr [DataWrapperSpec.raw_value i2w v U c] /\
  DataWrapper.decode_cell w2i i2w v (DataWrapperSpec.raw_value i2w v U c) = inr (Some c).
Proof.
  intros Hrec U Hin. subst U. unfold DataWrapperSpec.recorded in Hrec.
  remember (DataWrapper.cat_column fit j) as column eqn:Hcol.
  destruct column as [|first col]; [contradiction|].
  set (U := DataWrapper.dummy_columns (first :: col)) in *.
  pose proof (index_of_nth U c Hin) as Hnth.
  assert (Hlt : (DataWrapperSpec.index_of U c < length U)%nat)
    by (apply nth_error_Some; rewrite Hnth; discriminate).
  unfold DataWrapper.gather, DataWrapper.decode_cell, DataWrapperSpec.raw_value, Dict.mem.
  destruct (DataWrapper.is_float first).
  - destruct Hrec as (Hw & Hi & Hl). rewrite Hw, Hi.
    apply to_float_tensor_inv in Hl.
    assert (Hnth' : nth_error (map DataWrapper.Num l) (DataWrapperSpec.index_of U c) = Some c)
      by (rewrite <- Hl; exact Hnth).
    rewrite nth_error_map in Hnth'.
    destruct (nth_error l (DataWrapperSpec.index_of U c)) as [x|] eqn:Hx;
      simpl in Hnth'; [|discriminate].
    injection Hnth' as <-.
    simpl. rewrite Hx. split; reflexivity.
  - destruct Hrec as (Hw & Hi & Hl). rewrite Hw, Hi.
    rewrite code_labels in Hl. fold U in Hl.
    rewrite <- (map_map INR DataWrapper.Num), to_float_tensor_nums in Hl. injection Hl as <-.
    simpl. rewrite (nth_error_codes _ _ Hlt). cbn [bind]. split; [reflexivity|].
    unfold enumerate. pose proof (code_word_from 0 U _ c Hnth) as Hword.
    rewrite Nat.add_0_l in Hword. rewrite Hword. reflexivity.
Qed.

Lemma recorded_nonempty (fit : DataWrapper.frame) (j : nat) (v : string) w2i i2w l :
  DataWrapperSpec.recorded fit j v w2i i2w l ->
  (0 < length (DataWrapper.dummy_columns (DataWrapper.cat_column fit j)))%nat.
Proof.
  unfold DataWrapperSpec.recorded.
  destruct (DataWrapper.cat_column fit j) as [|first col] eqn:Hcol; [contradiction|].
  intros _.
  assert (Hin : In first (DataWrapper.dummy_columns (first :: col)))
    by (apply dummy_columns_In; left; reflexivity).
  destruct (DataWrapper.dummy_columns (first :: col)); [contradiction|simpl; lia].
Qed.

(** Decoding the block of one variable over the rows of a frame, one draw
    per row. *)
Lemma decode_block_one (w : DataWrapper.t) (s : DataWrapper.sampler) (j : nat)
    (v : string) (l : list R) (U : list DataWrapper.label)
    {A} (rows : list A) (cell : A -> DataWrapper.label) :
  DataWrapper.valid_sampler s -> NoDup U ->
  (forall r, In r rows -> In (cell r) U) ->
  (forall c, In c U ->
     DataWrapper.gather l [DataWrapperSpec.index_of U c]
     = inr [DataWrapperSpec.raw_value (DataWrapper.int_to_words w) v U c]) ->
  DataWrapper.decode_block w s 1 j
    (map (fun r => DataWrapper.one_hot U (cell r)) rows) (v, l)
  = inr (map (fun r => [DataWrapperSpec.raw_value (DataWrapper.int_to_words w) v U (cell r)])
             rows).
Proof.
  intros Hs Hnd Hcells Hgather. unfold DataWrapper.decode_block.
  cbn [fst snd].
  assert (Hdraw : DataWrapper.multinomial s j
                    (map (fun r => DataWrapper.one_hot U (cell r)) rows) 1
          = inr (map (fun r => [DataWrapperSpec.index_of U (cell r)]) rows)).
  { unfold DataWrapper.multinomial.
    apply map_result_enumerate_map. intros i r Hr.
    rewrite one_hot_multinomial_ok by auto.
    rewrite one_hot_draw by auto. reflexivity. }
  assert (Hlabels : map_result (DataWrapper.gather l)
            (map (fun r => [DataWrapperSpec.index_of U (cell r)]) rows)
          = inr (map (fun r => [DataWrapperSpec.raw_value (DataWrapper.int_to_words w) v U
                                  (cell r)]) rows)).
  { apply map_result_map. intros r Hr. apply Hgather. auto. }
  destruct (Dict.mem (DataWrapper.int_to_words w) v).
  - rewrite Hdraw. cbn [bind]. exact Hlabels.
  - rewrite Hdraw. cbn [bind]. rewrite Hlabels. cbn [bind]. reflexivity.
Qed.

(** *** Frames *)

Lemma map_result_all {A B} (f : A -> result B) (h : A -> B) (l : list A) :
  (forall a, In a l -> f a = inr (h a)) ->
  map_result f l = inr (map h l).
Proof.
  intros H. rewrite <- (map_id l) at 1. apply map_result_map. exact H.
Qed.

Lemma nth_map_seq {A} (f : nat -> A) (d : A) (n j : nat) :
  (j < n)%nat -> nth j (map f (seq 0 n)) d = f j.
Proof.
  intros Hj. rewrite (nth_indep _ d (f 0%nat)) by (rewrite length_map, length_seq; lia).
  rewrite (map_nth f (seq 0 n) 0%nat j), seq_nth by lia. reflexivity.
Qed.

Lemma cat_blocks_transpose {A} (rows : list A) (js : list nat) (f : nat -> A -> R) :
  DataWrapper.cat_blocks (length rows) (map (fun j => map (fun r => [f j r]) rows) js)
  = map (fun r => map (fun j => f j r) js) rows.
Proof.
  unfold DataWrapper.cat_blocks. induction rows as [|a rows IH]; [reflexivity|].
  cbn [length seq map]. f_equal.
  - clear IH. induction js as [|j js IHj]; simpl; [reflexivity|]. f_equal. exact IHj.
  - rewrite <- IH, <- seq_shift, map_map. apply map_ext. intros i.
    clear IH. induction js as [|j js IHj]; simpl; [reflexivity|]. rewrite IHj. reflexivity.
Qed.

Lemma combine3_map {A} (rows : list A) (f : A -> list R) (g : A -> list (option DataWrapper.label))
    (h : A -> list R) :
  map (fun '(c, k, z) => {| DataWrapper.out_cont := c; DataWrapper.out_cat := k;
                            DataWrapper.out_ctx := z |})
      (combine (combine (map f rows) (map g rows)) (map h rows))
  = map (fun r => {| DataWrapper.out_cont := f r; DataWrapper.out_cat := g r;
                     DataWrapper.out_ctx := h r |}) rows.
Proof. induction rows as [|a rows IH]; simpl; [reflexivity|]. rewrite IH. reflexivity. Qed.

Lemma combine_seq_pairs {A B} (l : list A) (l' : list B) (d : A) (d' : B) :
  length l' = length l ->
  combine (seq 0 (length l)) (combine l l')
  = map (fun j => (j, (nth j l d, nth j l' d'))) (seq 0 (length l)).
Proof.
  intros Hlen.
  assert (H : forall n, combine (seq n (length l)) (combine l l')
                        = map (fun j => (j, (nth (j - n) l d, nth (j - n) l' d')))
                              (seq n (length l))).
  { revert l' Hlen. induction l as [|a l IH]; intros [|b l'] Hlen n; simpl in *;
      try discriminate; [reflexivity|].
    rewrite Nat.sub_diag. f_equal. rewrite IH by lia.
    apply map_ext_in. intros j Hj. apply in_seq in Hj.
    replace (j - n)%nat with (S (j - S n)) by lia. reflexivity. }
  rewrite H. apply map_ext. intros j. rewrite Nat.sub_0_r. reflexivity.
Qed.

Lemma extend_variables_one (vars : list string) w2i i2w :
  DataWrapper.extend_variables 1 vars w2i i2w = inr (vars, w2i, i2w).
Proof.
  induction vars as [|v vars IH]; [reflexivity|].
  cbn [DataWrapper.extend_variables]. unfold DataWrapper.filler_vars.
  cbn [Nat.sub seq map].
  destruct (Dict.get w2i v); unfold ok at 1; cbn [bind]; rewrite IH; reflexivity.
Qed.

Lemma decode_cells_map {A} (w2i : Dict.t (list (DataWrapper.label * nat)))
    (i2w : Dict.t (list (nat * DataWrapper.label)))
    (name : A -> string) (value : A -> R) (cell : A -> DataWrapper.label) (js : list A) :
  (forall j, In j js -> DataWrapper.decode_cell w2i i2w (name j) (value j) = inr (Some (cell j))) ->
  DataWrapper.decode_cells w2i i2w (map name js) (map value js)
  = inr (map Some (map cell js)).
Proof.
  induction js as [|j js IH]; intros H; simpl; [reflexivity|].
  rewrite (H j (or_introl eq_refl)). cbn [bind].
  rewrite IH by (intros; apply H; right; assumption). reflexivity.
Qed.

Lemma cell_in_column (df : DataWrapper.frame) (r : DataWrapper.row) (j : nat)
    (d : DataWrapper.label) :
  In r df -> (j < length (DataWrapper.cat_cells r))%nat ->
  nth_error (DataWrapper.cat_cells r) j = Some (nth j (DataWrapper.cat_cells r) d) /\
  In (nth j (DataWrapper.cat_cells r) d) (DataWrapper.cat_column df j).
Proof.
  intros Hr Hj.
  assert (Hnth : nth_error (DataWrapper.cat_cells r) j
                 = Some (nth j (DataWrapper.cat_cells r) d))
    by (apply nth_error_nth'; assumption).
  split; [assumption|].
  unfold DataWrapper.cat_column. apply in_flat_map. exists r. split; [assumption|].
  rewrite Hnth. left. reflexivity.
Qed.

Lemma list_sum_pos (l : list nat) :
  Forall (fun k => (0 < k)%nat) l -> list_sum l = 0%nat -> l = [].
Proof.
  destruct l as [|k l]; [reflexivity|]. intros H. inversion H; subst. simpl. lia.
Qed.

(** *** Encoding and decoding a frame *)

Section RoundTrip.

Variables (fit df : DataWrapper.frame) (w : DataWrapper.t) (s : DataWrapper.sampler).

Hypothesis Hfit : DataWrapperSpec.fitted fit w.
Hypothesis Hnames : NoDup (DataWrapper.categorical (DataWrapper.variables w)).
Hypothesis Hconf : DataWrapperSpec.conforms w df.
Hypothesis Hsame :
  DataWrapperSpec.same_categories
    (length (DataWrapper.categorical (DataWrapper.variables w))) fit df.
Hypothesis Hsampler : DataWrapper.valid_sampler s.

Local Abbreviation n := (length (DataWrapper.categorical (DataWrapper.variables w))).
Local Abbreviation U := (fun j => DataWrapper.dummy_columns (DataWrapper.cat_column fit j)).
Local Abbreviation d := (DataWrapper.Num 0).
Local Abbreviation cell := (fun j r => nth j (DataWrapper.cat_cells r) (DataWrapper.Num 0)).
Local Abbreviation name :=
  (fun j => nth j (DataWrapper.categorical (DataWrapper.variables w)) EmptyString).

Lemma rt_row (r : DataWrapper.row) :
  In r df ->
  length (DataWrapper.cont_cells r)
  = length (DataWrapper.continuous (DataWrapper.variables w)) /\
  length (DataWrapper.cat_cells r) = n /\
  length (DataWrapper.ctx_cells r)
  = length (DataWrapper.context (DataWrapper.variables w)).
Proof.
  intros Hr. unfold DataWrapperSpec.conforms in Hconf.
  rewrite Forall_forall in Hconf. exact (Hconf r Hr).
Qed.

Lemma rt_columns (j : nat) :
  (j < n)%nat -> DataWrapper.dummy_columns (DataWrapper.cat_column df j) = U j.
Proof. intros Hj. apply dummy_columns_ext. apply Hsame. exact Hj. Qed.

Lemma rt_cell (r : DataWrapper.row) (j : nat) :
  In r df -> (j < n)%nat ->
  nth_error (DataWrapper.cat_cells r) j = Some (cell j r) /\ In (cell j r) (U j).
Proof.
  intros Hr Hj. destruct (rt_row r Hr) as (_ & Hlen & _).
  destruct (cell_in_column df r j d Hr ltac:(lia)) as [Hnth Hin].
  split; [exact Hnth|].
  rewrite <- rt_columns by assumption. apply dummy_columns_In. exact Hin.
Qed.

Lemma rt_dummies (r : DataWrapper.row) :
  In r df ->
  DataWrapper.dummies_row df n r
  = concat (map (fun j => DataWrapper.one_hot (U j) (cell j r)) (seq 0 n)).
Proof.
  intros Hr. unfold DataWrapper.dummies_row. rewrite flat_map_concat_map. f_equal.
  apply map_ext_in. intros j Hj. apply in_seq in Hj.
  destruct (rt_cell r j Hr ltac:(lia)) as [-> _].
  rewrite rt_columns by lia. reflexivity.
Qed.

Lemma rt_cat_dims (r : DataWrapper.row) :
  DataWrapper.cat_dims w
  = map (@length R) (map (fun j => DataWrapper.one_hot (U j) (cell j r)) (seq 0 n)).
Proof.
  rewrite (DataWrapperSpec.fitted_cat_dims fit w Hfit), map_map.
  apply map_ext. intros j. rewrite one_hot_length. reflexivity.
Qed.

Lemma rt_dummies_length (r : DataWrapper.row) :
  In r df ->
  length (DataWrapper.dummies_row df n r) = list_sum (DataWrapper.cat_dims w).
Proof.
  intros Hr. rewrite (rt_dummies r Hr), (rt_cat_dims r). apply length_concat.
Qed.

Lemma rt_block (r : DataWrapper.row) (j : nat) :
  In r df -> (j < n)%nat ->
  nth j (Tensor.chunks (DataWrapper.cat_dims w) (DataWrapper.dummies_row df n r)) []
  = DataWrapper.one_hot (U j) (cell j r).
Proof.
  intros Hr Hj. rewrite (rt_dummies r Hr), (rt_cat_dims r).
  rewrite <- (app_nil_r (concat _)), chunks_concat.
  apply (nth_map_seq (fun j => DataWrapper.one_hot (U j) (cell j r))). exact Hj.
Qed.

Lemma rt_recorded :
  exists ls,
    DataWrapper.cat_labels w
    = combine (DataWrapper.categorical (DataWrapper.variables w)) ls /\
    length ls = n /\
    forall j, (j < n)%nat ->
      DataWrapperSpec.recorded fit j (name j) (DataWrapper.words_to_int w)
                               (DataWrapper.int_to_words w) (nth j ls []).
Proof. exact (DataWrapperSpec.fitted_labels fit w Hfit). Qed.

Lemma rt_no_categories :
  list_sum (DataWrapper.cat_dims w) = 0%nat -> n = 0%nat.
Proof.
  intros Hsum. destruct rt_recorded as (ls & _ & _ & Hrec).
  rewrite (DataWrapperSpec.fitted_cat_dims fit w Hfit) in Hsum.
  apply list_sum_pos in Hsum.
  - apply (f_equal (@length nat)) in Hsum.
    rewrite length_map, length_seq in Hsum. exact Hsum.
  - apply Forall_forall. intros k Hk. apply in_map_iff in Hk.
    destruct Hk as (j & <- & Hj). apply in_seq in Hj.
    eapply recorded_nonempty. apply Hrec. lia.
Qed.

Lemma rt_preprocess :
  DataWrapper.preprocess w df
  = inr (map (fun r => DataWrapper.scale_row (DataWrapper.cont_cells r)
                         (fst (DataWrapper.means w)) (fst (DataWrapper.stds w))
                       ++ DataWrapper.dummies_row df n r) df,
         map (fun r => DataWrapper.scale_row (DataWrapper.ctx_cells r)
                         (snd (DataWrapper.means w)) (snd (DataWrapper.stds w))) df).
Proof.
  unfold DataWrapper.preprocess, ok. do 2 f_equal.
  apply map_ext. intros r. cbv zeta.
  destruct (Nat.ltb_spec 0 n) as [_|Hn]; [reflexivity|].
  replace n with 0%nat by lia. unfold DataWrapper.dummies_row. simpl.
  rewrite app_nil_r. reflexivity.
Qed.

Lemma rt_split :
  map_result
    (Tensor.split [length (fst (DataWrapper.means w)); list_sum (DataWrapper.cat_dims w)])
    (map (fun r => DataWrapper.scale_row (DataWrapper.cont_cells r)
                     (fst (DataWrapper.means w)) (fst (DataWrapper.stds w))
                   ++ DataWrapper.dummies_row df n r) df)
  = inr (map (fun r => [DataWrapper.scale_row (DataWrapper.cont_cells r)
                          (fst (DataWrapper.means w)) (fst (DataWrapper.stds w));
                        DataWrapper.dummies_row df n r]) df).
Proof.
  apply map_result_map. intros r Hr.
  destruct (rt_row r Hr) as (Hc & _ & _).
  assert (Hs : length (DataWrapper.scale_row (DataWrapper.cont_cells r)
                         (fst (DataWrapper.means w)) (fst (DataWrapper.stds w)))
               = length (fst (DataWrapper.means w))).
  { rewrite scale_row_length.
    - rewrite Hc. symmetry. apply (DataWrapperSpec.fitted_means_cont fit w Hfit).
    - rewrite Hc. symmetry. apply (DataWrapperSpec.fitted_means_cont fit w Hfit).
    - rewrite Hc. symmetry. apply (DataWrapperSpec.fitted_stds_cont fit w Hfit). }
  rewrite split_two_ok by (rewrite length_app, Hs, (rt_dummies_length r Hr); reflexivity).
  rewrite <- Hs at 1 2.
  rewrite firstn_app, firstn_all, Nat.sub_diag, skipn_app, skipn_all, Nat.sub_diag.
  simpl. rewrite app_nil_r. reflexivity.
Qed.

Lemma rt_blocks :
  map_result
    (fun '(j, l) =>
       DataWrapper.decode_block w s 1 j
         (DataWrapper.block (DataWrapper.cat_dims w)
            (map (fun r => DataWrapper.dummies_row df n r) df) j) l)
    (combine (seq 0 (length (DataWrapper.cat_dims w))) (DataWrapper.cat_labels w))
  = inr (map (fun j => map (fun r => [DataWrapperSpec.raw_value
                                        (DataWrapper.int_to_words w) (name j) (U j)
                                        (cell j r)]) df)
             (seq 0 n)).
Proof.
  destruct rt_recorded as (ls & Hlabels & Hlen & Hrec).
  rewrite Hlabels, (DataWrapperSpec.fitted_cat_dims fit w Hfit), length_map, length_seq.
  rewrite (combine_seq_pairs _ ls EmptyString []) by exact Hlen.
  apply map_result_map. intros j Hj. apply in_seq in Hj.
  assert (Hblock : DataWrapper.block
                     (map (fun j0 => length (U j0)) (seq 0 n))
                     (map (fun r => DataWrapper.dummies_row df n r) df) j
                   = map (fun r => DataWrapper.one_hot (U j) (cell j r)) df).
  { unfold DataWrapper.block. rewrite map_map. apply map_ext_in. intros r Hr.
    rewrite <- (DataWrapperSpec.fitted_cat_dims fit w Hfit).
    apply rt_block; [assumption|lia]. }
  rewrite Hblock.
  apply (decode_block_one w s j (name j) (nth j ls []) (U j) df (cell j)).
  - exact Hsampler.
  - apply sorted_NoDup, dummy_columns_sorted.
  - intros r Hr. apply (rt_cell r j Hr). lia.
  - intros c Hc. apply (recorded_decodes fit j (name j) _ _ _ c (Hrec j ltac:(lia)) Hc).
Qed.

Lemma rt_cells :
  map_result
    (DataWrapper.decode_cells (DataWrapper.words_to_int w) (DataWrapper.int_to_words w)
                              (DataWrapper.categorical (DataWrapper.variables w)))
    (map (fun r => map (fun j => DataWrapperSpec.raw_value
                                   (DataWrapper.int_to_words w) (name j) (U j)
                                   (cell j r)) (seq 0 n)) df)
  = inr (map (fun r => map Some (DataWrapper.cat_cells r)) df).
Proof.
  destruct rt_recorded as (ls & Hlabels & Hlen & Hrec).
  apply map_result_map. intros r Hr.
  destruct (rt_row r Hr) as (_ & Hk & _).
  transitivity
    (DataWrapper.decode_cells (DataWrapper.words_to_int w) (DataWrapper.int_to_words w)
       (map name (seq 0 n))
       (map (fun j => DataWrapperSpec.raw_value (DataWrapper.int_to_words w) (name j)
                        (U j) (cell j r)) (seq 0 n))).
  { f_equal. apply list_as_map_nth. }
  rewrite (decode_cells_map _ _ name _ (fun j => cell j r)).
  - unfold ok. do 2 f_equal. rewrite <- Hk. symmetry. apply list_as_map_nth.
  - intros j Hj. apply in_seq in Hj.
    apply (recorded_decodes fit j (name j) _ _ _ _ (Hrec j ltac:(lia))).
    apply (rt_cell r j Hr). lia.
Qed.

Lemma rt_keys :
  map_result
    (fun k => if existsb (String.eqb k)
                   (DataWrapper.continuous (DataWrapper.variables w)
                    ++ DataWrapper.categorical (DataWrapper.variables w)
                    ++ DataWrapper.context (DataWrapper.variables w))
              then ok tt else raise (KeyError k))
    (Dict.keys (DataWrapper.words_to_int w))
  = inr (map (fun _ => tt) (Dict.keys (DataWrapper.words_to_int w))).
Proof.
  apply map_result_all. intros k Hk.
  apply (DataWrapperSpec.fitted_keys fit w Hfit) in Hk.
  assert (He : existsb (String.eqb k)
                 (DataWrapper.continuous (DataWrapper.variables w)
                  ++ DataWrapper.categorical (DataWrapper.variables w)
                  ++ DataWrapper.context (DataWrapper.variables w)) = true).
  { apply existsb_exists. exists k. split; [|apply String.eqb_refl].
    apply in_or_app. right. apply in_or_app. left. exact Hk. }
  rewrite He. reflexivity.
Qed.

(** Decoding what [preprocess] returns gives the frame back and leaves
    the wrapper as it was. *)
Lemma rt_deprocess :
  exists x context,
    DataWrapper.preprocess w df = inr (x, context) /\
    DataWrapper.deprocess w s x context 1
    = inr (map DataWrapperSpec.decoded df, w).
Proof.
  eexists. eexists. split; [exact rt_preprocess|].
  unfold DataWrapper.deprocess.
  rewrite rt_split. cbn [bind]. rewrite !map_map. cbn [nth].
  assert (Hcat :
    (if (0 <? list_sum (DataWrapper.cat_dims w))%nat
     then (blocks <- map_result
                       (fun '(j, l) =>
                          DataWrapper.decode_block w s 1 j
                            (DataWrapper.block (DataWrapper.cat_dims w)
                               (map (fun r => DataWrapper.dummies_row df n r) df) j) l)
                       (combine (seq 0 (length (DataWrapper.cat_dims w)))
                                (DataWrapper.cat_labels w)) ;;
           ok (DataWrapper.cat_blocks (length df) blocks))%result
     else ok (map (fun r => DataWrapper.dummies_row df n r) df))
    = inr (map (fun r => map (fun j => DataWrapperSpec.raw_value
                                         (DataWrapper.int_to_words w) (name j) (U j)
                                         (cell j r)) (seq 0 n)) df)).
  { destruct (Nat.ltb_spec 0 (list_sum (DataWrapper.cat_dims w))) as [_|Hz].
    - rewrite rt_blocks. cbn [bind]. unfold ok. f_equal.
      apply (cat_blocks_transpose df (seq 0 n)
               (fun j r => DataWrapperSpec.raw_value (DataWrapper.int_to_words w)
                             (name j) (U j) (cell j r))).
    - assert (Hn : n = 0%nat) by (apply rt_no_categories; lia).
      unfold ok. f_equal. apply map_ext. intros r.
      rewrite Hn. reflexivity. }
  rewrite length_map.
  match goal with
  | |- bind ?m _ = _ =>
      assert (Hm : m = inr (map (fun r => map (fun j => DataWrapperSpec.raw_value
                                         (DataWrapper.int_to_words w) (name j) (U j)
                                         (cell j r)) (seq 0 n)) df)) by exact Hcat;
      rewrite Hm
  end.
  cbn [bind].
  rewrite extend_variables_one. cbn [bind].
  rewrite rt_keys. cbn [bind].
  rewrite rt_cells. cbn [bind].
  unfold ok. f_equal. f_equal.
  - rewrite (combine3_map df _ _ _). apply map_ext_in. intros r Hr.
    destruct (rt_row r Hr) as (Hc & _ & Hx).
    unfold DataWrapperSpec.decoded. f_equal.
    + apply unscale_scale_row.
      * rewrite Hc. symmetry. apply (DataWrapperSpec.fitted_means_cont fit w Hfit).
      * rewrite Hc. symmetry. apply (DataWrapperSpec.fitted_stds_cont fit w Hfit).
      * apply (DataWrapperSpec.fitted_stds_cont_pos fit w Hfit).
    + apply unscale_scale_row.
      * rewrite Hx. symmetry. apply (DataWrapperSpec.fitted_means_ctx fit w Hfit).
      * rewrite Hx. symmetry. apply (DataWrapperSpec.fitted_stds_ctx fit w Hfit).
      * apply (DataWrapperSpec.fitted_stds_ctx_pos fit w Hfit).
  - destruct w as [[cv kv xv] ms ss cd w2i i2w cl cb d0]. reflexivity.
Qed.

End RoundTrip.

(** *** The constructor returns *)

Lemma to_float_tensor_total (l : list DataWrapper.label) :
  Forall (fun c => DataWrapper.is_float c = true) l ->
  exists v, DataWrapper.to_float_tensor l = inr v.
Proof.
  induction 1 as [|c l Hc _ [v IH]]; simpl; [eexists; reflexivity|].
  destruct c as [s|x]; [discriminate|]. rewrite IH. eexists. reflexivity.
Qed.

Lemma init_categorical_total (df : DataWrapper.frame) acc (j : nat) (v : string) :
  DataWrapperSpec.column_ok (DataWrapper.cat_column df j) ->
  exists acc', DataWrapper.init_categorical df acc (j, v) = inr acc'.
Proof.
  destruct acc as [[w2i i2w] labels].
  unfold DataWrapperSpec.column_ok, DataWrapper.init_categorical.
  destruct (DataWrapper.cat_column df j) as [|first col]; [contradiction|].
  fold (DataWrapperSpec.code_table (first :: col)).
  destruct (DataWrapper.is_float first); cbn [negb]; intros Hok.
  - assert (Hall : Forall (fun c => DataWrapper.is_float c = true)
                           (DataWrapper.dummy_columns (first :: col))).
    { apply Forall_forall. intros c Hc. apply (proj1 (dummy_columns_In _ _)) in Hc.
      specialize (Hok eq_refl). rewrite Forall_forall in Hok. apply Hok. exact Hc. }
    destruct (to_float_tensor_total _ Hall) as [l Hl].
    rewrite Hl. eexists. reflexivity.
  - rewrite code_labels, <- (map_map INR DataWrapper.Num), to_float_tensor_nums.
    eexists. reflexivity.
Qed.

Lemma init_categoricals_total (df : DataWrapper.frame) (vars : list (nat * string)) :
  (forall jv, In jv vars -> DataWrapperSpec.column_ok (DataWrapper.cat_column df (fst jv))) ->
  forall acc, exists acc', DataWrapper.init_categoricals df acc vars = inr acc'.
Proof.
  induction vars as [|[j v] vars IH]; intros Hok acc; simpl.
  - eexists. reflexivity.
  - destruct (init_categorical_total df acc j v (Hok (j, v) (or_introl eq_refl)))
      as [acc1 ->].
    cbn [bind]. apply IH. intros jv Hjv. apply Hok. right. assumption.
Qed.

Lemma DataWrapper_init_total (fit : DataWrapper.frame)
    (continuous_vars categorical_vars context_vars : list string)
    (lower upper : Dict.t R) :
  (forall j, (j < length categorical_vars)%nat ->
             DataWrapperSpec.column_ok (DataWrapper.cat_column fit j)) ->
  exists w,
    DataWrapper.init fit continuous_vars categorical_vars context_vars lower upper = inr w.
Proof.
  intros Hok. unfold DataWrapper.init.
  assert (Hcols : forall jv, In jv (enumerate categorical_vars) ->
            DataWrapperSpec.column_ok (DataWrapper.cat_column fit (fst jv))).
  { intros [j v] Hin. apply Hok. unfold enumerate in Hin.
    apply in_combine_l in Hin. apply in_seq in Hin. simpl. lia. }
  destruct (init_categoricals_total fit (enumerate categorical_vars) Hcols
              (@nil (string * list (DataWrapper.label * nat)),
               @nil (string * list (nat * DataWrapper.label)),
               @nil (string * Tensor.vec)))
    as [[[w2i i2w] labels] Hcat].
  unfold Dict.t in *. rewrite Hcat. cbn [bind]. eexists. reflexivity.
Qed.


(** *** A sampler and a training frame *)

Lemma positive_indices_spec (p : list R) (i : nat) :
  length (Examples.positive_indices p i) = length (filter (DataWrapper.Rltb 0) p) /\
  NoDup (Examples.positive_indices p i) /\
  forall k, In k (Examples.positive_indices p i) ->
            (i <= k)%nat /\ exists x, nth_error p (k - i) = Some x /\ 0 < x.
Proof.
  revert i. induction p as [|x p IH]; intros i; simpl.
  - repeat split; [constructor|contradiction|contradiction].
  - destruct (IH (S i)) as (Hlen & Hnd & Hin).
    destruct (DataWrapper.Rltb 0 x) eqn:Hx; simpl.
    + assert (Hx0 : 0 < x).
      { unfold DataWrapper.Rltb in Hx. destruct (Rlt_dec 0 x); [assumption|discriminate]. }
      split; [lia|]. split.
      * constructor; [|assumption]. intros Hi. apply Hin in Hi. lia.
      * intros k [<-|Hk].
        -- split; [lia|]. rewrite Nat.sub_diag. exists x. split; [reflexivity|exact Hx0].
        -- destruct (Hin k Hk) as (Hle & y & Hy & Hy0). split; [lia|].
           replace (k - i)%nat with (S (k - S i)) by lia. eauto.
    + split; [assumption|]. split; [assumption|].
      intros k Hk. destruct (Hin k Hk) as (Hle & y & Hy & Hy0). split; [lia|].
      replace (k - i)%nat with (S (k - S i)) by lia. eauto.
Qed.

Lemma In_firstn {A} (k : nat) (l : list A) (x : A) : In x (firstn k l) -> In x l.
Proof.
  revert k. induction l as [|a l IH]; intros [|k]; simpl; try contradiction.
  intros [->|H]; [left; reflexivity|right; eapply IH; eassumption].
Qed.

Lemma NoDup_firstn {A} (k : nat) (l : list A) : NoDup l -> NoDup (firstn k l).
Proof.
  intros Hnd. revert k. induction Hnd as [|a l Ha _ IH]; intros [|k]; simpl;
    try constructor; auto.
  intros Hf. apply Ha. eapply In_firstn. eassumption.
Qed.

Lemma first_positive_valid : DataWrapper.valid_sampler Examples.first_positive.
Proof.
  intros j i p k Hok. unfold Examples.first_positive, DataWrapper.valid_draw.
  destruct (positive_indices_spec p 0) as (Hlen & Hnd & Hin).
  unfold DataWrapper.multinomial_ok in Hok.
  apply andb_prop in Hok. destruct Hok as [_ Hk]. apply Nat.leb_le in Hk.
  split; [|split].
  - rewrite length_firstn. lia.
  - apply NoDup_firstn. assumption.
  - intros m Hm. apply In_firstn in Hm.
    destruct (Hin m Hm) as (_ & x & Hx & Hx0). rewrite Nat.sub_0_r in Hx. eauto.
Qed.

Lemma fit_frame_columns_ok (j : nat) :
  (j < 1)%nat -> DataWrapperSpec.column_ok (DataWrapper.cat_column Examples.fit_frame j).
Proof.
  intros Hj. replace j with 0%nat by lia. simpl. discriminate.
Qed.



(** ** Token features *)

From Stdlib Require Import Permutation.

(** [split] undoes [join]: the model of [str.split] loses nothing. *)
Lemma split_nonempty (s : string) : Features.split s <> [].
Proof.
  destruct s as [|c s]; cbn [Features.split]; [discriminate|].
  destruct (String.eqb (String c EmptyString) ","); [discriminate|].
  destruct (Features.split s); discriminate.
Qed.

Lemma join_split (s : string) : FeaturesSpec.join (Features.split s) = s.
Proof.
  induction s as [|c s IH]; [reflexivity|].
  cbn [Features.split].
  destruct (String.eqb_spec (String c EmptyString) ",") as [Hc|Hc].
  - injection Hc as ->.
    pose proof (split_nonempty s) as Hne.
    destruct (Features.split s) as [|t ts] eqn:Hs; [contradiction|].
    cbn [FeaturesSpec.join] in *. rewrite IH. reflexivity.
  - pose proof (split_nonempty s) as Hne.
    destruct (Features.split s) as [|t ts] eqn:Hs; [contradiction|].
    destruct ts as [|u ts]; cbn [FeaturesSpec.join] in *.
    + rewrite IH. reflexivity.
    + rewrite <- IH. reflexivity.
Qed.

Lemma count_of_set_same (d : Dict.t Z) (k : string) (v : Z) :
  FeaturesSpec.count_of (Dict.set d k v) k = v.
Proof. unfold FeaturesSpec.count_of. rewrite Dict_get_set_same. reflexivity. Qed.

Lemma count_token_get (d : Dict.t Z) (t k : string) :
  Dict.get (Features.count_token d t) k
  = if String.eqb k t then Some (FeaturesSpec.count_of d t + 1)%Z else Dict.get d k.
Proof.
  unfold Features.count_token, Features.setdefault, FeaturesSpec.count_of.
  destruct (Dict.get d t) as [c|] eqn:Hd;
    destruct (String.eqb_spec k t) as [->|Hne].
  - apply Dict_get_set_same.
  - apply Dict_get_set_other. assumption.
  - apply Dict_get_set_same.
  - rewrite !Dict_get_set_other by assumption. reflexivity.
Qed.

Lemma count_tokens_get (l : list string) :
  forall (d : Dict.t Z) (k : string),
    Dict.get (fold_left Features.count_token l d) k
    = match FeaturesSpec.occurrences k l with
      | O => Dict.get d k
      | S n => Some (FeaturesSpec.count_of d k + Z.of_nat (S n))%Z
      end.
Proof.
  unfold FeaturesSpec.occurrences.
  induction l as [|t l IH]; intros d k; [reflexivity|].
  cbn [fold_left count_occ]. rewrite IH.
  unfold FeaturesSpec.count_of at 1. rewrite (count_token_get d t k).
  destruct (string_dec t k) as [->|Hne].
  - rewrite String.eqb_refl.
    destruct (count_occ string_dec l k) as [|n]; f_equal; lia.
  - destruct (String.eqb_spec k t) as [->|_]; [contradiction|].
    reflexivity.
Qed.

Lemma count_observations_tokens (column : list DataWrapper.label) :
  forall d : Dict.t Z,
    fold_left Features.count_observation column d
    = fold_left Features.count_token (FeaturesSpec.tokens column) d.
Proof.
  induction column as [|obs column IH]; intros d; [reflexivity|].
  cbn [fold_left FeaturesSpec.tokens flat_map].
  rewrite fold_left_app, IH. destruct obs; reflexivity.
Qed.

Lemma collect_features_fold (data : Dict.t (list DataWrapper.label))
    (variable : string) (column : list DataWrapper.label) :
  Dict.get data variable = Some column ->
  Features.collect_features data variable
  = inr (fold_left Features.count_token (FeaturesSpec.tokens column) []).
Proof.
  intros Hcol. unfold Features.collect_features. rewrite Hcol.
  rewrite count_observations_tokens. reflexivity.
Qed.

(** X1: [collect_features] returns, for a column that exists, the
    dictionary that maps every token occurring in the string cells of the
    column to the number of its occurrences, and holds no other key; cells
    that are not strings contribute nothing and raise nothing. *)
Theorem collect_features_counts (data : Dict.t (list DataWrapper.label))
    (variable : string) (column : list DataWrapper.label) :
  Dict.get data variable = Some column ->
  exists d,
    Features.collect_features data variable = inr d /\
    forall token,
      Dict.get d token
      = match FeaturesSpec.occurrences token (FeaturesSpec.tokens column) with
        | O => None
        | S n => Some (Z.of_nat (S n))
        end.
Proof.
  intros Hcol. rewrite (collect_features_fold _ _ _ Hcol).
  eexists. split; [reflexivity|]. intros token.
  rewrite count_tokens_get.
  destruct (FeaturesSpec.occurrences token (FeaturesSpec.tokens column)); reflexivity.
Qed.

Lemma collect_features_counts_witness :
  Dict.get Cases.skills_data "skills" = Some Cases.skills_column /\
  exists d,
    Features.collect_features Cases.skills_data "skills" = inr d /\
    forall token,
      Dict.get d token
      = match FeaturesSpec.occurrences token (FeaturesSpec.tokens Cases.skills_column) with
        | O => None
        | S n => Some (Z.of_nat (S n))
        end.
Proof.
  split; [reflexivity|].
  apply (collect_features_counts Cases.skills_data "skills" Cases.skills_column).
  reflexivity.
Defined.

(** The column name is looked up outside the [try]. *)
Lemma collect_features_missing_column (data : Dict.t (list DataWrapper.label))
    (variable : string) :
  Dict.get data variable = None ->
  Features.collect_features data variable = inl (KeyError variable).
Proof. intros H. unfold Features.collect_features. rewrite H. reflexivity. Qed.

(** *** Totals and keys *)

Lemma total_set (d : Dict.t Z) (k : string) (v : Z) :
  FeaturesSpec.total (Dict.set d k v)
  = (FeaturesSpec.total d - FeaturesSpec.count_of d k + v)%Z.
Proof.
  unfold FeaturesSpec.total, FeaturesSpec.count_of.
  induction d as [|[k' v'] d IH]; simpl; [lia|].
  destruct (String.eqb k k'); simpl; [lia|]. rewrite IH. lia.
Qed.

Lemma total_count_token (d : Dict.t Z) (t : string) :
  FeaturesSpec.total (Features.count_token d t) = (FeaturesSpec.total d + 1)%Z.
Proof.
  unfold Features.count_token, Features.setdefault.
  destruct (Dict.get d t) as [c|] eqn:Hd.
  - rewrite total_set. unfold FeaturesSpec.count_of. rewrite Hd. lia.
  - rewrite total_set, count_of_set_same, total_set.
    unfold FeaturesSpec.count_of. rewrite Hd. lia.
Qed.

Lemma keys_set {V} (d : Dict.t V) (k : string) (v : V) :
  Dict.keys (Dict.set d k v)
  = if Dict.mem d k then Dict.keys d else (Dict.keys d ++ [k])%list.
Proof.
  unfold Dict.keys, Dict.mem.
  induction d as [|[k' v'] d IH]; simpl; [reflexivity|].
  destruct (String.eqb_spec k k') as [->|Hne]; simpl; [reflexivity|].
  rewrite IH. destruct (Dict.get d k); reflexivity.
Qed.

Lemma get_none_keys {V} (d : Dict.t V) (k : string) :
  Dict.get d k = None -> ~ In k (Dict.keys d).
Proof.
  intros Hget Hin. destruct (Dict_get_keys d k Hin) as [v Hv]. congruence.
Qed.

Lemma NoDup_keys_set {V} (d : Dict.t V) (k : string) (v : V) :
  NoDup (Dict.keys d) -> NoDup (Dict.keys (Dict.set d k v)).
Proof.
  intros Hnd. rewrite keys_set. unfold Dict.mem.
  destruct (Dict.get d k) eqn:Hget; [assumption|].
  apply NoDup_app; [assumption|repeat constructor; simpl; tauto|].
  intros x Hx [->|[]]. exact (get_none_keys d x Hget Hx).
Qed.

Lemma NoDup_keys_count_token (d : Dict.t Z) (t : string) :
  NoDup (Dict.keys d) -> NoDup (Dict.keys (Features.count_token d t)).
Proof.
  intros Hnd. unfold Features.count_token, Features.setdefault.
  destruct (Dict.get d t); repeat apply NoDup_keys_set; assumption.
Qed.

Lemma count_tokens_total (l : list string) :
  forall d : Dict.t Z,
    NoDup (Dict.keys d) ->
    NoDup (Dict.keys (fold_left Features.count_token l d)) /\
    FeaturesSpec.total (fold_left Features.count_token l d)
    = (FeaturesSpec.total d + Z.of_nat (length l))%Z.
Proof.
  induction l as [|t l IH]; intros d Hnd.
  - split; [assumption|]. simpl. lia.
  - cbn [fold_left].
    destruct (IH _ (NoDup_keys_count_token d t Hnd)) as [Hk Ht].
    split; [assumption|]. rewrite Ht, total_count_token. cbn [length]. lia.
Qed.

(** X2: the dictionary [collect_features] returns has every token once as
    a key, and its counts add up to the number of tokens in the string
    cells of the column. *)
Theorem collect_features_total (data : Dict.t (list DataWrapper.label))
    (variable : string) (column : list DataWrapper.label) :
  Dict.get data variable = Some column ->
  exists d,
    Features.collect_features data variable = inr d /\
    NoDup (Dict.keys d) /\
    FeaturesSpec.total d = Z.of_nat (length (FeaturesSpec.tokens column)).
Proof.
  intros Hcol. rewrite (collect_features_fold _ _ _ Hcol).
  eexists. split; [reflexivity|].
  destruct (count_tokens_total (FeaturesSpec.tokens column) [] (NoDup_nil _)) as [Hk Ht].
  split; [assumption|]. rewrite Ht. reflexivity.
Qed.

Lemma collect_features_total_witness :
  Dict.get Cases.skills_data "skills" = Some Cases.skills_column /\
  exists d,
    Features.collect_features Cases.skills_data "skills" = inr d /\
    NoDup (Dict.keys d) /\
    FeaturesSpec.total d = Z.of_nat (length (FeaturesSpec.tokens Cases.skills_column)).
Proof.
  split; [reflexivity|].
  apply (collect_features_total Cases.skills_data "skills" Cases.skills_column).
  reflexivity.
Defined.

(** *** The top features *)

Lemma insert_by_count_perm (x : string * Z) (l : list (string * Z)) :
  Permutation (x :: l) (Features.insert_by_count x l).
Proof.
  induction l as [|y l IH]; simpl; [reflexivity|].
  destruct (snd x <=? snd y)%Z; [reflexivity|].
  rewrite perm_swap. apply perm_skip. exact IH.
Qed.

Lemma sorted_by_count_perm (l : list (string * Z)) :
  Permutation l (Features.sorted_by_count l).
Proof.
  induction l as [|x l IH]; simpl; [reflexivity|].
  rewrite <- insert_by_count_perm. apply perm_skip. exact IH.
Qed.

Lemma insert_by_count_sorted (x : string * Z) (l : list (string * Z)) :
  StronglySorted (fun a b => (snd a <= snd b)%Z) l ->
  StronglySorted (fun a b => (snd a <= snd b)%Z) (Features.insert_by_count x l).
Proof.
  induction 1 as [|y l Hl IH Hy]; simpl.
  - repeat constructor.
  - destruct (Z.leb_spec (snd x) (snd y)) as [Hle|Hgt].
    + constructor; [constructor; assumption|].
      constructor; [assumption|].
      rewrite Forall_forall in *. intros z Hz. specialize (Hy z Hz). lia.
    + constructor; [assumption|].
      rewrite Forall_forall in *. intros z Hz.
      apply (Permutation_in _ (Permutation_sym (insert_by_count_perm x l))) in Hz.
      destruct Hz as [<-|Hz]; [lia|auto].
Qed.

Lemma sorted_by_count_sorted (l : list (string * Z)) :
  StronglySorted (fun a b => (snd a <= snd b)%Z) (Features.sorted_by_count l).
Proof.
  induction l as [|x l IH]; simpl; [constructor|].
  apply insert_by_count_sorted. exact IH.
Qed.

Lemma sorted_app_le {A} (R : A -> A -> Prop) (l1 l2 : list A) :
  StronglySorted R (l1 ++ l2) ->
  forall a b, In a l1 -> In b l2 -> R a b.
Proof.
  induction l1 as [|x l1 IH]; simpl; intros Hs a b Ha Hb; [contradiction|].
  inversion Hs as [|? ? Hrest Hall]; subst.
  destruct Ha as [<-|Ha].
  - rewrite Forall_forall in Hall. apply Hall. apply in_or_app. right. assumption.
  - apply IH; assumption.
Qed.

Lemma set_fresh {V} (d : Dict.t V) (k : string) (v : V) :
  ~ In k (Dict.keys d) -> Dict.set d k v = (d ++ [(k, v)])%list.
Proof.
  unfold Dict.keys. induction d as [|[k' v'] d IH]; simpl; intros Hk; [reflexivity|].
  destruct (String.eqb_spec k k') as [->|Hne]; [tauto|].
  rewrite IH by tauto. reflexivity.
Qed.

Lemma fold_set_fresh (items : list (string * Z)) :
  forall acc : Dict.t Z,
    NoDup (Dict.keys (acc ++ items)) ->
    fold_left (fun d '(k, v) => Dict.set d k v) items acc = (acc ++ items)%list.
Proof.
  unfold Dict.keys.
  induction items as [|[k v] items IH]; intros acc Hnd; simpl.
  - rewrite app_nil_r. reflexivity.
  - assert (Hk : ~ In k (map fst acc)).
    { rewrite map_app in Hnd. simpl in Hnd. apply NoDup_remove_2 in Hnd.
      intros Hin. apply Hnd. apply in_or_app. left. assumption. }
    rewrite (set_fresh acc k v Hk).
    rewrite IH; rewrite <- app_assoc; simpl; [reflexivity|assumption].
Qed.

Lemma dict_of_items_id (items : list (string * Z)) :
  NoDup (Dict.keys items) -> Features.dict_of_items items = items.
Proof. intros Hnd. unfold Features.dict_of_items. apply fold_set_fresh. exact Hnd. Qed.

Lemma get_In {V} (d : Dict.t V) (k : string) (v : V) :
  NoDup (Dict.keys d) -> (Dict.get d k = Some v <-> In (k, v) d).
Proof.
  unfold Dict.keys. induction d as [|[k' v'] d IH]; simpl; intros Hnd.
  - split; [discriminate|contradiction].
  - inversion Hnd as [|? ? Hk Hrest]; subst.
    destruct (String.eqb_spec k k') as [->|Hne].
    + split.
      * intros [= ->]. left. reflexivity.
      * intros [[= ->]|Hin]; [reflexivity|].
        exfalso. apply Hk. apply (in_map fst) in Hin. exact Hin.
    + rewrite (IH Hrest). split; [tauto|].
      intros [[= -> ->]|Hin]; [contradiction|assumption].
Qed.

Lemma NoDup_keys_perm {V} (d d' : Dict.t V) :
  Permutation d d' -> NoDup (Dict.keys d) -> NoDup (Dict.keys d').
Proof.
  intros Hp. apply Permutation_NoDup. unfold Dict.keys. apply Permutation_map. exact Hp.
Qed.

Lemma get_perm {V} (d d' : Dict.t V) (k : string) :
  Permutation d d' -> NoDup (Dict.keys d) -> Dict.get d' k = Dict.get d k.
Proof.
  intros Hp Hnd. pose proof (NoDup_keys_perm d d' Hp Hnd) as Hnd'.
  destruct (Dict.get d k) as [v|] eqn:Hd.
  - apply (get_In d' k v Hnd'). apply (Permutation_in _ Hp).
    apply (get_In d k v Hnd). exact Hd.
  - destruct (Dict.get d' k) as [v|] eqn:Hd'; [|reflexivity].
    apply (get_In d' k v Hnd') in Hd'.
    apply (Permutation_in _ (Permutation_sym Hp)) in Hd'.
    apply (get_In d k v Hnd) in Hd'. congruence.
Qed.

Lemma NoDup_keys_skipn {V} (d : Dict.t V) (m : nat) :
  NoDup (Dict.keys d) -> NoDup (Dict.keys (skipn m d)).
Proof.
  unfold Dict.keys. intros Hnd. rewrite <- (firstn_skipn m d), map_app in Hnd.
  apply NoDup_app_remove_l in Hnd. exact Hnd.
Qed.

Lemma get_top_features_all (features : Dict.t Z) (n : Z) :
  NoDup (Dict.keys features) ->
  (n = 0 \/ Z.of_nat (length features) <= n)%Z ->
  Features.get_top_features features n = Features.sorted_by_count features.
Proof.
  intros Hnd Hn. unfold Features.get_top_features, Features.slice_from.
  pose proof (sorted_by_count_perm features) as Hp.
  pose proof (Permutation_length Hp) as Hlen.
  assert (Hskip : Z.to_nat
                    (if (- n <? 0)%Z
                     then Z.max (Z.of_nat (length (Features.sorted_by_count features)) + - n) 0
                     else Z.min (- n) (Z.of_nat (length (Features.sorted_by_count features))))
                  = 0%nat).
  { destruct (Z.ltb_spec (- n) 0); lia. }
  rewrite Hskip. cbn [skipn].
  apply dict_of_items_id. apply (NoDup_keys_perm _ _ Hp Hnd).
Qed.

(** X3: with [n_top_features] at its default of 0, or at least the number
    of features, [get_top_features] drops nothing: the slice [[-0:]] is
    the whole list, so the result holds every feature with its count. *)
Theorem get_top_features_default_keeps_all (features : Dict.t Z) (n : Z) :
  NoDup (Dict.keys features) ->
  (n = 0 \/ Z.of_nat (length features) <= n)%Z ->
  length (Features.get_top_features features n) = length features /\
  forall k, Dict.get (Features.get_top_features features n) k = Dict.get features k.
Proof.
  intros Hnd Hn. rewrite (get_top_features_all features n Hnd Hn).
  pose proof (sorted_by_count_perm features) as Hp.
  split; [symmetry; exact (Permutation_length Hp)|].
  intros k. apply get_perm; assumption.
Qed.

Lemma get_top_features_default_keeps_all_witness :
  NoDup (Dict.keys Cases.skill_counts) /\
  (0 = 0 \/ Z.of_nat (length Cases.skill_counts) <= 0)%Z /\
  length (Features.get_top_features Cases.skill_counts 0) = length Cases.skill_counts /\
  forall k, Dict.get (Features.get_top_features Cases.skill_counts 0) k
            = Dict.get Cases.skill_counts k.
Proof.
  assert (Hnd : NoDup (Dict.keys Cases.skill_counts)).
  { repeat constructor; simpl; intuition discriminate. }
  split; [exact Hnd|]. split; [left; reflexivity|].
  apply (get_top_features_default_keeps_all Cases.skill_counts 0 Hnd).
  left. reflexivity.
Defined.

(** X4: for [0 < n <= len(features)], [get_top_features] returns exactly
    [n] features, each with the count it has in [features], and no feature
    it leaves out has a larger count than one it keeps. *)
Theorem get_top_features_keeps_largest (features : Dict.t Z) (n : Z) :
  NoDup (Dict.keys features) ->
  (0 < n <= Z.of_nat (length features))%Z ->
  Z.of_nat (length (Features.get_top_features features n)) = n /\
  (forall k c, Dict.get (Features.get_top_features features n) k = Some c ->
               Dict.get features k = Some c) /\
  (forall k c k' c',
      Dict.get (Features.get_top_features features n) k = Some c ->
      Dict.get features k' = Some c' ->
      Dict.get (Features.get_top_features features n) k' = None ->
      (c' <= c)%Z).
Proof.
  intros Hnd Hn. unfold Features.get_top_features, Features.slice_from.
  pose proof (sorted_by_count_perm features) as Hp.
  pose proof (Permutation_length Hp) as Hlen.
  pose proof (NoDup_keys_perm _ _ Hp Hnd) as Hnds.
  set (s := Features.sorted_by_count features) in *.
  assert (Hskip : Z.to_nat
                    (if (- n <? 0)%Z then Z.max (Z.of_nat (length s) + - n) 0
                     else Z.min (- n) (Z.of_nat (length s)))
                  = (length s - Z.to_nat n)%nat).
  { destruct (Z.ltb_spec (- n) 0); lia. }
  rewrite Hskip. set (m := (length s - Z.to_nat n)%nat).
  pose proof (NoDup_keys_skipn s m Hnds) as Hndk.
  rewrite dict_of_items_id by exact Hndk.
  split; [rewrite length_skipn; lia|]. split.
  - intros k c Hk. apply (get_In _ _ _ Hndk) in Hk.
    apply (get_In _ _ _ Hnd). apply (Permutation_in _ (Permutation_sym Hp)).
    rewrite <- (firstn_skipn m s). apply in_or_app. right. exact Hk.
  - intros k c k' c' Hk Hk' Hnone.
    apply (get_In _ _ _ Hndk) in Hk.
    apply (get_In _ _ _ Hnd) in Hk'. apply (Permutation_in _ Hp) in Hk'.
    fold s in Hk'. rewrite <- (firstn_skipn m s) in Hk'.
    apply in_app_or in Hk'. destruct Hk' as [Hfirst|Hlast].
    + pose proof (sorted_by_count_sorted features) as Hs. fold s in Hs.
      rewrite <- (firstn_skipn m s) in Hs.
      exact (sorted_app_le _ _ _ Hs (k', c') (k, c) Hfirst Hk).
    + apply (get_In _ _ _ Hndk) in Hlast. congruence.
Qed.

Lemma get_top_features_keeps_largest_witness :
  NoDup (Dict.keys Cases.skill_counts) /\
  (0 < 1 <= Z.of_nat (length Cases.skill_counts))%Z /\
  Z.of_nat (length (Features.get_top_features Cases.skill_counts 1)) = 1%Z /\
  (forall k c, Dict.get (Features.get_top_features Cases.skill_counts 1) k = Some c ->
               Dict.get Cases.skill_counts k = Some c) /\
  (forall k c k' c',
      Dict.get (Features.get_top_features Cases.skill_counts 1) k = Some c ->
      Dict.get Cases.skill_counts k' = Some c' ->
      Dict.get (Features.get_top_features Cases.skill_counts 1) k' = None ->
      (c' <= c)%Z).
Proof.
  assert (Hnd : NoDup (Dict.keys Cases.skill_counts)).
  { repeat constructor; simpl; intuition discriminate. }
  assert (Hn : (0 < 1 <= Z.of_nat (length Cases.skill_counts))%Z) by (simpl; lia).
  split; [exact Hnd|]. split; [exact Hn|].
  exact (get_top_features_keeps_largest Cases.skill_counts 1 Hnd Hn).
Defined.

(** *** The feature vector *)

Lemma set_item_app (pre : list R) (a : R) (post : list R) (v : R) :
  Features.set_item (pre ++ a :: post) (length pre) v = inr (pre ++ v :: post)%list.
Proof.
  induction pre as [|b pre IH]; simpl; [reflexivity|]. rewrite IH. reflexivity.
Qed.

Lemma mark_features_indicator (tokens : list string) (keys : list string) :
  forall pre : list R,
    Features.mark_features tokens (combine (seq (length pre) (length keys)) keys)
      (pre ++ repeat 0 (length keys))
    = inr (pre ++ FeaturesSpec.indicator tokens keys)%list.
Proof.
  induction keys as [|k keys IH]; intros pre; [reflexivity|].
  cbn [length seq combine Features.mark_features repeat FeaturesSpec.indicator map].
  destruct (existsb (String.eqb k) tokens).
  - rewrite set_item_app. cbn [bind].
    specialize (IH (pre ++ [1])%list).
    rewrite length_app, Nat.add_1_r, <- !app_assoc in IH. exact IH.
  - specialize (IH (pre ++ [0])%list).
    rewrite length_app, Nat.add_1_r, <- !app_assoc in IH. exact IH.
Qed.

Lemma make_feature_vector_word (s : string) (top_features : Dict.t Z) :
  Features.make_feature_vector (DataWrapper.Word s) top_features
  = Some (FeaturesSpec.indicator (Features.split s) (Dict.keys top_features)).
Proof.
  unfold Features.make_feature_vector, enumerate.
  pose proof (mark_features_indicator (Features.split s) (Dict.keys top_features) []) as H.
  cbn [length app] in H.
  replace (length top_features) with (length (Dict.keys top_features))
    by (unfold Dict.keys; apply length_map).
  rewrite H. reflexivity.
Qed.

(** X5: for an observation that is a string, [make_feature_vector] returns
    the vector with one entry per top feature, in the order of the
    dictionary's keys, that is 1 where the feature is one of the
    observation's comma-separated tokens and 0 elsewhere; for an
    observation that is not a string it returns [None]. *)
Theorem make_feature_vector_indicator (observation : DataWrapper.label)
    (top_features : Dict.t Z) :
  Features.make_feature_vector observation top_features
  = match observation with
    | DataWrapper.Word s =>
        Some (FeaturesSpec.indicator (Features.split s) (Dict.keys top_features))
    | DataWrapper.Num _ => None
    end.
Proof.
  destruct observation as [s|x]; [apply make_feature_vector_word|reflexivity].
Qed.

Lemma In_existsb_eqb (k : string) (l : list string) :
  existsb (String.eqb k) l = true <-> In k l.
Proof.
  rewrite existsb_exists. split.
  - intros (x & Hx & Heq). apply String.eqb_eq in Heq. subst. assumption.
  - intros H. exists k. split; [assumption|apply String.eqb_refl].
Qed.

Lemma get_some_keys {V} (d : Dict.t V) (k : string) (v : V) :
  Dict.get d k = Some v -> In k (Dict.keys d).
Proof.
  unfold Dict.keys. induction d as [|[k' v'] d IH]; simpl; [discriminate|].
  destruct (String.eqb_spec k k') as [->|Hne]; [left; reflexivity|right; auto].
Qed.

(** X6: applied to an observation of the column the features were
    collected from, with every feature kept, the vector has a 1 at the
    position of each of the observation's tokens: every token of the
    column is a key of the dictionary. *)
Theorem feature_vector_marks_own_tokens (data : Dict.t (list DataWrapper.label))
    (variable : string) (column : list DataWrapper.label) (s token : string) :
  Dict.get data variable = Some column ->
  In (DataWrapper.Word s) column ->
  In token (Features.split s) ->
  exists d x i,
    Features.collect_features data variable = inr d /\
    Features.make_feature_vector (DataWrapper.Word s) (Features.get_top_features d 0)
    = Some x /\
    nth_error (Dict.keys (Features.get_top_features d 0)) i = Some token /\
    nth_error x i = Some 1.
Proof.
  intros Hcol Hs Htok.
  set (d := fold_left Features.count_token (FeaturesSpec.tokens column) []).
  destruct (count_tokens_total (FeaturesSpec.tokens column) [] (NoDup_nil _)) as [Hnd _].
  fold d in Hnd.
  exists d.
  pose proof (get_top_features_all d 0 Hnd (or_introl eq_refl)) as Htop.
  assert (Hocc : In token (FeaturesSpec.tokens column)).
  { unfold FeaturesSpec.tokens. apply in_flat_map. exists (DataWrapper.Word s). auto. }
  assert (Hkey : In token (Dict.keys (Features.get_top_features d 0))).
  { rewrite Htop. apply (get_some_keys _ _ (Z.of_nat (FeaturesSpec.occurrences token
                                                           (FeaturesSpec.tokens column)))).
    rewrite (get_perm d _ token (sorted_by_count_perm d) Hnd).
    unfold d. rewrite count_tokens_get.
    apply (count_occ_In string_dec) in Hocc. unfold FeaturesSpec.occurrences.
    destruct (count_occ string_dec (FeaturesSpec.tokens column) token); [lia|].
    reflexivity. }
  destruct (In_nth_error _ _ Hkey) as [i Hi].
  rewrite make_feature_vector_word.
  eexists. exists i. split; [exact (collect_features_fold _ _ _ Hcol)|].
  split; [reflexivity|]. split; [exact Hi|].
  unfold FeaturesSpec.indicator. rewrite nth_error_map, Hi. cbn [option_map].
  rewrite (proj2 (In_existsb_eqb token (Features.split s)) Htok). reflexivity.
Qed.

Lemma feature_vector_marks_own_tokens_witness :
  Dict.get Cases.skills_data "skills" = Some Cases.skills_column /\
  In (DataWrapper.Word "sql,python") Cases.skills_column /\
  In "python"%string (Features.split "sql,python") /\
  exists d x i,
    Features.collect_features Cases.skills_data "skills" = inr d /\
    Features.make_feature_vector (DataWrapper.Word "sql,python")
      (Features.get_top_features d 0) = Some x /\
    nth_error (Dict.keys (Features.get_top_features d 0)) i = Some "python"%string /\
    nth_error x i = Some 1.
Proof.
  assert (H1 : Dict.get Cases.skills_data "skills" = Some Cases.skills_column)
    by reflexivity.
  assert (H2 : In (DataWrapper.Word "sql,python") Cases.skills_column)
    by (left; reflexivity).
  assert (H3 : In "python"%string (Features.split "sql,python"))
    by (right; left; reflexivity).
  split; [exact H1|]. split; [exact H2|]. split; [exact H3|].
  exact (feature_vector_marks_own_tokens Cases.skills_data "skills" Cases.skills_column
           "sql,python" "python" H1 H2 H3).
Defined.

(** ** More on the optimistic Adam optimizer *)

Lemma Forall2_Forall_impl {A B} (P : A -> Prop) (Q S : A -> B -> Prop) (l : list A)
    (l' : list B) :
  (forall a b, P a -> Q a b -> S a b) ->
  Forall P l -> Forall2 Q l l' -> Forall2 S l l'.
Proof.
  intros H HP HQ. induction HQ as [|a b l l' Hab _ IH]; constructor.
  - inversion HP; subst. auto.
  - apply IH. inversion HP; subst. assumption.
Qed.

Lemma nth_error_zeros_like (a : list R) (i : nat) (x : R) :
  nth_error a i = Some x -> nth_error (Tensor.zeros_like a) i = Some 0.
Proof.
  intros H. unfold Tensor.zeros_like. rewrite nth_error_map, H. reflexivity.
Qed.

Lemma nth_error_same_length {A} (a b : list A) (i : nat) (x : A) :
  length b = length a -> nth_error a i = Some x -> exists y, nth_error b i = Some y.
Proof.
  intros Hlen Hx.
  assert (Hi : (i < length a)%nat) by (apply nth_error_Some; congruence).
  destruct (nth_error b i) as [y|] eqn:Hb; [eauto|].
  apply nth_error_None in Hb. lia.
Qed.

(** The first optimistic step moves a coordinate by
    [2 * lr * a|g| / (a|g| + eps)] with [a = sqrt (1 - beta2)]. *)
Lemma optimistic_first_step_bound (lr b1 b2 eps x g : R) :
  0 <= b1 < 1 -> 0 <= b2 < 1 -> 0 <= lr -> 0 < eps ->
  Rabs (OAdamSpec.optimistic lr b1 b2 eps 1 x 0 0 g - x) <= 2 * lr.
Proof.
  intros Hb1 Hb2 Hlr Heps.
  unfold OAdamSpec.optimistic, OAdamSpec.step_size, OAdamSpec.moment1, OAdamSpec.moment2.
  rewrite !pow_1.
  replace (b1 * 0 + (1 - b1) * g) with ((1 - b1) * g) by ring.
  replace (b2 * 0 + (1 - b2) * (g * g)) with ((1 - b2) * (g * g)) by ring.
  rewrite sqrt_0.
  assert (Hs : sqrt ((1 - b2) * (g * g)) = sqrt (1 - b2) * Rabs g).
  { rewrite sqrt_mult_alt by lra. f_equal. apply sqrt_Rsqr_abs. }
  rewrite Hs.
  set (a := sqrt (1 - b2)). assert (Ha : 0 <= a) by apply sqrt_pos.
  set (D := a * Rabs g + eps).
  assert (HD : 0 < D).
  { unfold D. pose proof (Rabs_pos g). nra. }
  replace (x + lr * a / (1 - b1) * (0 / (0 + eps))
           - 2 * (lr * a / (1 - b1)) * ((1 - b1) * g / D) - x)
    with (- (2 * lr) * (a * g / D)) by (field; lra).
  assert (Hq : -1 <= a * g / D <= 1).
  { assert (Hag : - D <= a * g <= D).
    { unfold D. destruct (Rcase_abs g) as [Hneg|Hpos].
      - rewrite (Rabs_left g Hneg). nra.
      - rewrite (Rabs_right g Hpos). nra. }
    split.
    - apply Rmult_le_reg_r with D; [assumption|].
      unfold Rdiv. rewrite Rmult_assoc, Rinv_l by lra. lra.
    - apply Rmult_le_reg_r with D; [assumption|].
      unfold Rdiv. rewrite Rmult_assoc, Rinv_l by lra. lra. }
  apply Rabs_le. nra.
Qed.

Lemma updated_fresh_moved (g : OAdam.group) (p p' : OAdam.param) :
  0 <= fst (OAdam.betas g) < 1 ->
  0 <= snd (OAdam.betas g) < 1 ->
  0 <= OAdam.lr g -> 0 < OAdam.eps g ->
  OAdam.state p = None -> OAdamInv.well_shaped p ->
  OAdamSpec.updated g p p' ->
  OAdamInv.moved_at_most (2 * OAdam.lr g) p p'.
Proof.
  intros Hb1 Hb2 Hlr Heps Hfresh [Hshape _] Hup i x Hx.
  unfold OAdamSpec.updated, OAdamSpec.entry_state in Hup. rewrite Hfresh in Hup.
  destruct (OAdam.grad p) as [[gr|s]|]; [|contradiction|].
  - destruct Hup as (st' & _ & _ & Hcoord).
    destruct (nth_error_same_length _ gr i x Hshape Hx) as [gi Hgi].
    destruct (Hcoord i x 0 0 gi Hx) as (Hx' & _ & _).
    + apply (nth_error_zeros_like _ _ x Hx).
    + apply (nth_error_zeros_like _ _ x Hx).
    + exact Hgi.
    + eexists. split; [exact Hx'|].
      apply optimistic_first_step_bound; assumption.
  - subst p'. exists x. split; [assumption|].
    replace (x - x) with 0 by ring. rewrite Rabs_R0. lra.
Qed.


Lemma oadam_example_fresh :
  Forall OAdamInv.fresh_group [Examples.oadam_group [Examples.oadam_p0]].
Proof.
  repeat constructor; simpl; lra.
Qed.

Lemma oadam_example_plain_fresh :
  Forall OAdamSpec.plain_group [Examples.oadam_group [Examples.oadam_p0]].
Proof.
  constructor; [|constructor].
  unfold OAdamSpec.plain_group; simpl.
  repeat split; try lra.
  repeat constructor; simpl; intros s; discriminate.
Qed.


(** *** A learning rate of zero *)

Lemma addcdiv_zero (t t1 t2 : list R) (c : R) :
  c = 0 -> length t1 = length t -> length t2 = length t ->
  Tensor.addcdiv t c t1 t2 = t.
Proof.
  intros ->. unfold Tensor.addcdiv, Tensor.add, Tensor.scale.
  revert t1 t2. induction t as [|x t IH]; intros [|y t1] [|z t2]; simpl;
    try discriminate; [reflexivity|].
  intros H1 H2. f_equal; [ring|]. apply IH; lia.
Qed.

Lemma OAdam_step_param_zero_lr (g : OAdam.group) (p : OAdam.param) :
  0 <= fst (OAdam.betas g) < 1 ->
  0 <= snd (OAdam.betas g) < 1 ->
  OAdam.weight_decay g = 0 ->
  OAdam.amsgrad g = false ->
  OAdam.lr g = 0 ->
  OAdamInv.well_shaped p ->
  (forall s, OAdam.grad p <> Some (OAdam.Sparse s)) ->
  exists p', OAdam.step_param g p = (p', None) /\ OAdam.data p' = OAdam.data p.
Proof.
  intros Hb1 Hb2 Hwd Hams Hlr [Hgrad Hstate] Hsparse.
  unfold OAdam.step_param.
  destruct (OAdam.grad p) as [[gr|s]|] eqn:Hg.
  - rewrite Hams. unfold ok.
    rewrite Hwd. destruct (Req_dec_T 0 0) as [_|Hne]; [|contradiction Hne; reflexivity].
    rewrite OAdam_step_size_ok by assumption.
    eexists. split; [reflexivity|]. cbn [OAdam.data].
    assert (Hss : OAdamSpec.step_size (OAdam.lr g) (fst (OAdam.betas g))
                    (snd (OAdam.betas g))
                    (S (OAdam.step_count
                          match OAdam.state p with
                          | Some s => s
                          | None => OAdam.init_state false (OAdam.data p)
                          end)) = 0).
    { unfold OAdamSpec.step_size. rewrite Hlr. unfold Rdiv. ring. }
    rewrite Hss.
    assert (Hm : length (OAdam.exp_avg match OAdam.state p with
                                       | Some s => s
                                       | None => OAdam.init_state false (OAdam.data p)
                                       end) = length (OAdam.data p) /\
                 length (OAdam.exp_avg_sq match OAdam.state p with
                                          | Some s => s
                                          | None => OAdam.init_state false (OAdam.data p)
                                          end) = length (OAdam.data p)).
    { destruct (OAdam.state p) as [st|]; [exact Hstate|].
      unfold OAdam.init_state, Tensor.zeros_like. cbn [OAdam.exp_avg OAdam.exp_avg_sq].
      rewrite length_map. split; reflexivity. }
    destruct Hm as [Hm Hv].
    rewrite (addcdiv_zero (OAdam.data p)).
    + apply addcdiv_zero.
      * ring.
      * unfold Tensor.add_, Tensor.add, Tensor.scale.
        rewrite map2_length, !length_map. lia.
      * unfold Tensor.add_scalar, Tensor.vsqrt, Tensor.addcmul, Tensor.add, Tensor.mul,
          Tensor.scale.
        rewrite !length_map, map2_length, !length_map, map2_length. lia.
    + reflexivity.
    + exact Hm.
    + unfold Tensor.add_scalar, Tensor.vsqrt. rewrite !length_map. exact Hv.
  - exfalso. apply (Hsparse s). reflexivity.
  - exists p. split; reflexivity.
Qed.

Lemma OAdam_step_params_zero_lr (g : OAdam.group) (ps : list OAdam.param) :
  0 <= fst (OAdam.betas g) < 1 ->
  0 <= snd (OAdam.betas g) < 1 ->
  OAdam.weight_decay g = 0 ->
  OAdam.amsgrad g = false ->
  OAdam.lr g = 0 ->
  Forall OAdamInv.well_shaped ps ->
  Forall (fun p => forall s, OAdam.grad p <> Some (OAdam.Sparse s)) ps ->
  exists ps', OAdam.step_params g ps = (ps', None) /\
              map OAdam.data ps' = map OAdam.data ps.
Proof.
  intros Hb1 Hb2 Hwd Hams Hlr Hshape Hsp.
  induction ps as [|p ps IH]; [exists []; split; reflexivity|].
  inversion Hshape; subst. inversion Hsp; subst.
  destruct (OAdam_step_param_zero_lr g p) as (p' & Hp' & Hd); try assumption.
  destruct IH as (ps' & Hps' & Hds); try assumption.
  exists (p' :: ps'). simpl. rewrite Hp', Hps'. split; [reflexivity|].
  rewrite Hd, Hds. reflexivity.
Qed.



(** *** The second moments stay non-negative *)

Lemma Forall_map2 (P : R -> Prop) (f : R -> R -> R) (a b : list R) :
  (forall x y, P x -> P y -> P (f x y)) ->
  Forall P a -> Forall P b -> Forall P (Tensor.map2 f a b).
Proof.
  intros Hf Ha. revert b. induction Ha as [|x a Hx _ IH]; intros b Hb; simpl.
  - constructor.
  - destruct Hb as [|y b Hy Hb]; constructor; auto.
Qed.

Lemma Forall_squares (c : R) (l : list R) :
  0 <= c -> Forall (fun v => 0 <= v) (Tensor.scale c (Tensor.mul l l)).
Proof.
  intros Hc. unfold Tensor.scale, Tensor.mul.
  induction l as [|x l IH]; simpl; constructor; [|exact IH].
  pose proof (Rle_0_sqr x) as H. unfold Rsqr in H. nra.
Qed.

Lemma Forall_scale_nonneg (c : R) (l : list R) :
  0 <= c -> Forall (fun v => 0 <= v) l -> Forall (fun v => 0 <= v) (Tensor.scale c l).
Proof.
  intros Hc Hl. unfold Tensor.scale. induction Hl; simpl; constructor; [nra|assumption].
Qed.

Lemma Forall_zeros_like (l : list R) : Forall (fun v => 0 <= v) (Tensor.zeros_like l).
Proof.
  unfold Tensor.zeros_like. induction l; simpl; constructor; [lra|assumption].
Qed.

Lemma second_moment_nonneg (beta2 : R) (v gr : list R) :
  0 <= beta2 <= 1 -> Forall (fun x => 0 <= x) v ->
  Forall (fun x => 0 <= x) (Tensor.addcmul (Tensor.scale beta2 v) (1 - beta2) gr gr).
Proof.
  intros Hb Hv. unfold Tensor.addcmul, Tensor.add.
  apply Forall_map2.
  - intros; lra.
  - apply Forall_scale_nonneg; [lra|assumption].
  - apply Forall_squares. lra.
Qed.

Lemma OAdam_step_param_nonneg (g : OAdam.group) (p : OAdam.param) :
  0 <= snd (OAdam.betas g) <= 1 ->
  OAdamInv.nonneg_moments p ->
  OAdamInv.nonneg_moments (fst (OAdam.step_param g p)).
Proof.
  intros Hb Hp. unfold OAdam.step_param.
  destruct (OAdam.grad p) as [[gr|s]|]; [|exact Hp|exact Hp].
  set (st := match OAdam.state p with
             | Some s => s
             | None => OAdam.init_state (OAdam.amsgrad g) (OAdam.data p)
             end).
  assert (Hst : Forall (fun v => 0 <= v) (OAdam.exp_avg_sq st) /\
                match OAdam.max_exp_avg_sq st with
                | Some mx => Forall (fun v => 0 <= v) mx
                | None => True
                end).
  { unfold st, OAdamInv.nonneg_moments in *. destruct (OAdam.state p) as [s|]; [exact Hp|].
    unfold OAdam.init_state. cbn [OAdam.exp_avg_sq OAdam.max_exp_avg_sq].
    split; [apply Forall_zeros_like|].
    destruct (OAdam.amsgrad g); [apply Forall_zeros_like|exact I]. }
  destruct Hst as [Hv Hmx].
  destruct (OAdam.amsgrad g).
  - destruct (OAdam.max_exp_avg_sq st) as [mx|] eqn:Hmax; cbn [raise ok]; [|exact Hp].
    destruct (OAdam.step_size _ _ _ _) as [e|ss]; unfold OAdamInv.nonneg_moments;
      cbn [fst OAdam.state OAdam.exp_avg_sq OAdam.max_exp_avg_sq].
    + rewrite ?Hmax. split; assumption.
    + split; [apply second_moment_nonneg; assumption|].
      unfold Tensor.vmax. apply Forall_map2; [|assumption|].
      * intros x y Hx Hy. apply Rle_trans with x; [assumption|apply Rmax_l].
      * apply second_moment_nonneg; assumption.
  - cbn [ok].
    destruct (OAdam.step_size _ _ _ _) as [e|ss]; unfold OAdamInv.nonneg_moments;
      cbn [fst OAdam.state OAdam.exp_avg_sq OAdam.max_exp_avg_sq].
    + split; assumption.
    + split; [apply second_moment_nonneg; assumption|assumption].
Qed.

Lemma OAdam_step_params_nonneg (g : OAdam.group) (ps : list OAdam.param) :
  0 <= snd (OAdam.betas g) <= 1 ->
  Forall OAdamInv.nonneg_moments ps ->
  Forall OAdamInv.nonneg_moments (fst (OAdam.step_params g ps)).
Proof.
  intros Hb. induction 1 as [|p ps Hp Hps IH]; simpl; [constructor|].
  pose proof (OAdam_step_param_nonneg g p Hb Hp) as Hp'.
  destruct (OAdam.step_param g p) as [p' [e|]]; cbn [fst] in *.
  - constructor; assumption.
  - destruct (OAdam.step_params g ps) as [rest e]. cbn [fst] in *.
    constructor; assumption.
Qed.

(** X9: whatever the gradients are, and whether or not the call raises,
    [step] keeps the second-moment estimates (and their running maximum
    under AMSGrad) non-negative when the second decay coefficient lies in
    [[0,1]]: the square roots the update takes are always of non-negative
    numbers. *)
Theorem OAdam_step_keeps_second_moments_nonneg (o : OAdam.t) :
  Forall OAdamInv.nonneg_group (OAdam.param_groups o) ->
  Forall OAdamInv.nonneg_group (OAdam.param_groups (fst (OAdam.step o))).
Proof.
  unfold OAdam.step. intros H.
  destruct (OAdam.step_groups (OAdam.param_groups o)) as [gs e] eqn:Hgs.
  cbn [fst OAdam.param_groups].
  replace gs with (fst (OAdam.step_groups (OAdam.param_groups o))) by (rewrite Hgs; reflexivity).
  clear Hgs. induction H as [|g rest [Hb Hps] Hrest IH]; simpl; [constructor|].
  pose proof (OAdam_step_params_nonneg g (OAdam.params g) Hb Hps) as Hps'.
  destruct (OAdam.step_params g (OAdam.params g)) as [ps' [e1|]]; cbn [fst] in *.
  - constructor; [|assumption]. split; assumption.
  - destruct (OAdam.step_groups rest) as [rest' e2]. cbn [fst] in *.
    constructor; [|assumption]. split; assumption.
Qed.

Lemma OAdam_step_keeps_second_moments_nonneg_witness :
  Forall OAdamInv.nonneg_group [Examples.oadam_group [Examples.oadam_p0; Examples.oadam_p1]] /\
  Forall OAdamInv.nonneg_group
    (OAdam.param_groups
       (fst (OAdam.step {| OAdam.param_groups :=
                             [Examples.oadam_group [Examples.oadam_p0; Examples.oadam_p1]] |}))).
Proof.
  assert (H : Forall OAdamInv.nonneg_group
                [Examples.oadam_group [Examples.oadam_p0; Examples.oadam_p1]]).
  { repeat constructor; simpl; lra. }
  split; [exact H|].
  exact (OAdam_step_keeps_second_moments_nonneg
           {| OAdam.param_groups :=
                [Examples.oadam_group [Examples.oadam_p0; Examples.oadam_p1]] |} H).
Defined.

(** ** More on the training loop *)

(** What one training batch does, in full: the kind of step taken, the
    count of critic batches, and which network it leaves alone. *)
Lemma train_batch_result (rt : Train.runtime) (s : Specifications.settings_dict)
    (penalty : option Train.penalty_fn) (acc : R * Z) (b : Train.batch)
    (st st' : Train.state rt) (r : result (R * Z)) :
  Train.train_batch rt s penalty acc b st = (r, st') ->
  (exists e, r = inl e /\ Train.log rt st' = Train.log rt st /\
             Train.step rt st' = Train.step rt st /\
             Train.critic rt st' = Train.critic rt st /\
             Train.generator rt st' = Train.generator rt st /\
             ((Specifications.critic_steps s = 0%Z /\ e = ZeroDivisionError) \/
              (exists f x_hat, penalty = Some f /\ f x_hat (snd b) = inl e))) \/
  (exists acc', r = inr acc' /\
     Specifications.critic_steps s <> 0%Z /\
     Train.log rt st'
     = Train.log rt st ++ [Train.update_at (Specifications.critic_steps s) (Train.step rt st)] /\
     Train.step rt st' = (Train.step rt st + 1)%Z /\
     snd acc' = (snd acc +
                 if (Train.step rt st mod Specifications.critic_steps s =? 0)%Z
                 then 0 else 1)%Z /\
     ((Train.step rt st mod Specifications.critic_steps s =? 0)%Z = true ->
      Train.critic rt st' = Train.critic rt st) /\
     ((Train.step rt st mod Specifications.critic_steps s =? 0)%Z = false ->
      Train.generator rt st' = Train.generator rt st)).
Proof.
  destruct acc as [wd n], b as [x context].
  unfold Train.train_batch, Train.update_at, py_mod.
  unfold Train.mbind at 1. unfold Train.get at 1. cbv beta iota. unfold ok at 1.
  cbv beta iota.
  unfold Train.mbind at 1. unfold Train.lift at 1.
  destruct (Z.eqb_spec (Specifications.critic_steps s) 0) as [Hcs|Hcs].
  - unfold raise. intros H. injection H as <- <-. left.
    eexists. repeat split; auto.
  - unfold ok at 1. cbv beta iota.
    set (gu := (Train.step rt st mod Specifications.critic_steps s =? 0)%Z).
    unfold Train.mbind, Train.modify, Train.tell, Train.modify, Train.sample, Train.ret,
      Train.lift, ok.
    cbn [Train.random Train.set_requires_grad Train.set_random].
    do 2 (destruct_call; cbn [Train.random Train.set_requires_grad Train.set_random]).
    destruct gu; cbn [negb].
    + destruct penalty as [f|].
      * destruct (f _ _) as [e|p] eqn:Hf.
        -- intros H. injection H as <- <-. left.
           eexists. repeat split; auto. right. eauto.
        -- destruct_call. cbn. intros H. injection H as <- <-. right.
           eexists. repeat split; auto; try discriminate. simpl. lia.
      * destruct_call. cbn. intros H. injection H as <- <-. right.
        eexists. repeat split; auto; try discriminate. simpl. lia.
    + repeat (destruct_call; cbn [Train.random Train.set_requires_grad Train.set_random]).
      cbn. intros H. injection H as <- <-. right.
      eexists. repeat split; auto; try discriminate.
Qed.

Lemma critic_updates_app (l l' : list Train.event) :
  TrainLog.critic_updates (l ++ l')
  = (TrainLog.critic_updates l + TrainLog.critic_updates l')%nat.
Proof. unfold TrainLog.critic_updates. rewrite filter_app, length_app. reflexivity. Qed.

Lemma critic_updates_update_at (cs k : Z) :
  Z.of_nat (TrainLog.critic_updates [Train.update_at cs k])
  = (if (k mod cs =? 0)%Z then 0 else 1)%Z.
Proof. unfold Train.update_at. destruct (k mod cs =? 0)%Z; reflexivity. Qed.

(** The loop over the training batches of one epoch, after [k] batches. *)
Lemma train_loop_result (rt : Train.runtime) (s : Specifications.settings_dict)
    (penalty : option Train.penalty_fn) (bs : list Train.batch) :
  forall (acc : R * Z) (st : Train.state rt) (r : result (R * Z)) (st' : Train.state rt),
    Train.for_fold bs acc (Train.train_batch rt s penalty) st = (r, st') ->
    exists k : nat,
      (k <= length bs)%nat /\
      Train.log rt st'
      = Train.log rt st
        ++ map (Train.update_at (Specifications.critic_steps s))
             (py_range (Train.step rt st) (Train.step rt st + Z.of_nat k)) /\
      Train.step rt st' = (Train.step rt st + Z.of_nat k)%Z /\
      (forall acc', r = inr acc' ->
         k = length bs /\
         (bs <> [] -> Specifications.critic_steps s <> 0%Z) /\
         snd acc'
         = (snd acc +
            Z.of_nat (TrainLog.critic_updates
                        (map (Train.update_at (Specifications.critic_steps s))
                           (py_range (Train.step rt st)
                              (Train.step rt st + Z.of_nat k)))))%Z) /\
      (forall e, r = inl e ->
         (Specifications.critic_steps s = 0%Z /\ e = ZeroDivisionError) \/
         (exists f x_hat context, penalty = Some f /\ f x_hat context = inl e)) /\
      (Specifications.critic_steps s = 1%Z -> Train.critic rt st' = Train.critic rt st).
Proof.
  induction bs as [|b bs IH]; intros acc st r st' H; simpl in H.
  - injection H as <- <-. exists 0%nat.
    rewrite Z.add_0_r, py_range_empty by lia. simpl. rewrite app_nil_r.
    split; [lia|]. split; [reflexivity|]. split; [lia|]. split.
    { intros acc' [= <-]. split; [reflexivity|]. split; [congruence|lia]. }
    split; [discriminate|reflexivity].
  - unfold Train.mbind in H.
    destruct (Train.train_batch rt s penalty acc b st) as [[e|acc1] st1] eqn:Hb.
    + injection H as <- <-.
      destruct (train_batch_result _ _ _ _ _ _ _ _ Hb)
        as [(e' & [= <-] & Hlog & Hstep & Hc & _ & Hwhy)|(acc' & [=] & _)].
      exists 0%nat. rewrite Z.add_0_r, py_range_empty by lia. simpl. rewrite app_nil_r.
      split; [lia|]. split; [exact Hlog|]. split; [lia|]. split; [discriminate|].
      split; [|intros _; exact Hc].
      intros e0 [= <-]. destruct Hwhy as [Hz|(f & x_hat & Hf & Hfe)]; [left; exact Hz|].
      right. eauto.
    + destruct (train_batch_result _ _ _ _ _ _ _ _ Hb)
        as [(e' & [=] & _)|(acc' & [= <-] & Hcs & Hlog & Hstep & Hn & Hcritic & _)].
      destruct (IH _ _ _ _ H) as (k & Hk & Hlog' & Hstep' & Hok & Herr & Hone).
      exists (S k).
      assert (Hrange : py_range (Train.step rt st) (Train.step rt st + Z.of_nat (S k))
                       = Train.step rt st
                         :: py_range (Train.step rt st1) (Train.step rt st1 + Z.of_nat k)).
      { rewrite py_range_cons by lia. rewrite Hstep. f_equal. f_equal. lia. }
      rewrite Hrange. cbn [map].
      split; [simpl; lia|]. split.
      { rewrite Hlog', Hlog, <- app_assoc. reflexivity. }
      split; [rewrite Hstep', Hstep; lia|]. split.
      { intros acc2 Hr. destruct (Hok acc2 Hr) as (Hlen & _ & Hsnd).
        split; [simpl; lia|]. split; [intros _; exact Hcs|].
        rewrite Hsnd, Hn.
        change (Train.update_at (Specifications.critic_steps s) (Train.step rt st)
                :: map (Train.update_at (Specifications.critic_steps s))
                     (py_range (Train.step rt st1) (Train.step rt st1 + Z.of_nat k)))
          with ([Train.update_at (Specifications.critic_steps s) (Train.step rt st)]
                ++ map (Train.update_at (Specifications.critic_steps s))
                     (py_range (Train.step rt st1) (Train.step rt st1 + Z.of_nat k))).
        rewrite critic_updates_app, Nat2Z.inj_add, critic_updates_update_at. lia. }
      split; [exact Herr|].
      intros Hcs1. rewrite (Hone Hcs1). apply Hcritic.
      rewrite Hcs1, Z.mod_1_r. reflexivity.
Qed.

Lemma test_batch_result (rt : Train.runtime) (acc : R * Z) (b : Train.batch)
    (st st' : Train.state rt) (r : result (R * Z)) :
  Train.test_batch rt acc b st = (r, st') ->
  (exists wd, r = inr (wd, (snd acc + 1)%Z)) /\
  Train.log rt st' = Train.log rt st /\
  Train.step rt st' = Train.step rt st /\
  Train.critic rt st' = Train.critic rt st /\
  Train.generator rt st' = Train.generator rt st /\
  Train.files rt st' = Train.files rt st.
Proof.
  destruct acc as [wd n], b as [x context]. unfold Train.test_batch.
  unfold Train.mbind, Train.get, Train.sample, Train.ret, ok.
  cbn [Train.random Train.set_random].
  repeat (destruct_call; cbn [Train.random Train.set_random]).
  intros H. injection H as <- <-. repeat split; try reflexivity.
  eexists. reflexivity.
Qed.

(** The loop over the test batches raises nothing, counts every batch and
    touches neither the networks nor the log. *)
Lemma test_loop_result (rt : Train.runtime) (bs : list Train.batch) :
  forall (acc : R * Z) (st : Train.state rt) (r : result (R * Z)) (st' : Train.state rt),
    Train.for_fold bs acc (Train.test_batch rt) st = (r, st') ->
    (exists wd, r = inr (wd, (snd acc + Z.of_nat (length bs))%Z)) /\
    Train.log rt st' = Train.log rt st /\
    Train.step rt st' = Train.step rt st /\
    Train.critic rt st' = Train.critic rt st /\
    Train.generator rt st' = Train.generator rt st /\
    Train.files rt st' = Train.files rt st.
Proof.
  induction bs as [|b bs IH]; intros acc st r st' H; simpl in H.
  - injection H as <- <-. repeat split; auto. exists (fst acc). simpl.
    rewrite Z.add_0_r. destruct acc; reflexivity.
  - unfold Train.mbind in H.
    destruct (Train.test_batch rt acc b st) as [[e|acc1] st1] eqn:Hb;
      destruct (test_batch_result _ _ _ _ _ _ Hb)
        as ((wd1 & Hr1) & Hlog & Hstep & Hc & Hg & Hf); [discriminate|].
    injection Hr1 as ->.
    destruct (IH _ _ _ _ H) as ((wd' & Hr) & Hlog' & Hstep' & Hc' & Hg' & Hf').
    split.
    { exists wd'. rewrite Hr. cbn [snd length]. do 2 f_equal. lia. }
    repeat split; congruence.
Qed.

Lemma critic_updates_one (l : list Z) :
  TrainLog.critic_updates (map (Train.update_at 1) l) = 0%nat.
Proof.
  unfold TrainLog.critic_updates, Train.update_at.
  induction l as [|k l IH]; simpl; [reflexivity|].
  rewrite Z.mod_1_r. simpl. exact IH.
Qed.

(** One pass of the epoch loop: what it logs, how far the step counter
    moves, what has to hold for it to end without an exception, and what
    it can raise. *)
Lemma train_epoch_result (rt : Train.runtime) (s : Specifications.settings_dict)
    (penalty : option Train.penalty_fn) (tr te : Train.dataset rt) (epoch : Z)
    (st st' : Train.state rt) (r : result unit) :
  Train.train_epoch rt s penalty tr te epoch st = (r, st') ->
  exists (k : nat) (tail : list Train.event),
    Train.log rt st'
    = Train.log rt st
      ++ Train.EpochBegin epoch
         :: map (Train.update_at (Specifications.critic_steps s))
              (py_range (Train.step rt st) (Train.step rt st + Z.of_nat k))
      ++ tail /\
    TrainLog.critic_updates tail = 0%nat /\
    Train.step rt st' = (Train.step rt st + Z.of_nat k)%Z /\
    (r = inr tt ->
       (0 < TrainLog.critic_updates
              (map (Train.update_at (Specifications.critic_steps s))
                 (py_range (Train.step rt st) (Train.step rt st + Z.of_nat k))))%nat /\
       (exists g, fst (Train.batches rt g te) <> []) /\
       Specifications.print_every s <> 0%Z /\
       (truthy_path (Specifications.save_checkpoint s) = true ->
        Specifications.save_every s <> 0%Z) /\
       Specifications.critic_steps s <> 0%Z) /\
    (forall e, r = inl e ->
       e = ZeroDivisionError \/
       (exists f x_hat context, penalty = Some f /\ f x_hat context = inl e)) /\
    (Specifications.critic_steps s = 1%Z -> Train.critic rt st' = Train.critic rt st).
Proof.
  unfold Train.train_epoch.
  unfold Train.mbind at 1. unfold Train.tell at 1, Train.modify at 1.
  cbv beta iota. unfold ok at 1. cbv beta iota.
  unfold Train.mbind at 1. unfold Train.sample at 1.
  cbn [Train.random Train.add_event].
  destruct (Train.batches rt (Train.random rt st) tr) as [bs g1].
  unfold ok at 1. cbv beta iota.
  unfold Train.mbind at 1.
  destruct (Train.for_fold bs (0, 0%Z) (Train.train_batch rt s penalty) _)
    as [[e|[WD_train n]] st1] eqn:Hloop.
  - intros H. injection H as <- <-.
    destruct (train_loop_result _ _ _ _ _ _ _ _ Hloop) as (k & Hk & Hlog & Hstep & _ & Herr & Hone).
    cbn [Train.log Train.step Train.critic Train.set_random Train.add_event] in *.
    exists k, []. rewrite app_nil_r.
    split; [rewrite Hlog, <- app_assoc; reflexivity|].
    split; [reflexivity|]. split; [exact Hstep|]. split; [discriminate|].
    split; [|exact Hone].
    intros e0 [= <-]. destruct (Herr e eq_refl) as [[_ ->]|Hp]; [left; reflexivity|right; exact Hp].
  - destruct (train_loop_result _ _ _ _ _ _ _ _ Hloop) as (k & Hk & Hlog & Hstep & Hok & _ & Hone).
    destruct (Hok _ eq_refl) as (Hlen & Hcs & Hn).
    cbn [Train.log Train.step Train.critic Train.set_random Train.add_event snd] in *.
    rewrite Z.add_0_l in Hn.
    set (evs := map (Train.update_at (Specifications.critic_steps s))
                  (py_range (Train.step rt st) (Train.step rt st + Z.of_nat k))) in *.
    assert (Hfin : forall (r0 : result unit) (st0 : Train.state rt) (tail : list Train.event),
               Train.log rt st0 = Train.log rt st1 ++ tail ->
               TrainLog.critic_updates tail = 0%nat ->
               Train.step rt st0 = Train.step rt st1 ->
               Train.critic rt st0 = Train.critic rt st1 ->
               (r0 = inr tt ->
                n <> 0%Z /\
                (exists g, fst (Train.batches rt g te) <> []) /\
                Specifications.print_every s <> 0%Z /\
                (truthy_path (Specifications.save_checkpoint s) = true ->
                 Specifications.save_every s <> 0%Z)) ->
               (forall e, r0 = inl e -> e = ZeroDivisionError) ->
               (r0, st0) = (r, st') ->
               exists (k : nat) (tail : list Train.event),
                 Train.log rt st'
                 = Train.log rt st
                   ++ Train.EpochBegin epoch
                      :: map (Train.update_at (Specifications.critic_steps s))
                           (py_range (Train.step rt st) (Train.step rt st + Z.of_nat k))
                   ++ tail /\
                 TrainLog.critic_updates tail = 0%nat /\
                 Train.step rt st' = (Train.step rt st + Z.of_nat k)%Z /\
                 (r = inr tt ->
                  (0 < TrainLog.critic_updates
                         (map (Train.update_at (Specifications.critic_steps s))
                            (py_range (Train.step rt st)
                               (Train.step rt st + Z.of_nat k))))%nat /\
                  (exists g, fst (Train.batches rt g te) <> []) /\
                  Specifications.print_every s <> 0%Z /\
                  (truthy_path (Specifications.save_checkpoint s) = true ->
                   Specifications.save_every s <> 0%Z) /\
                  Specifications.critic_steps s <> 0%Z) /\
                 (forall e, r = inl e ->
                    e = ZeroDivisionError \/
                    (exists f x_hat context, penalty = Some f /\ f x_hat context = inl e)) /\
                 (Specifications.critic_steps s = 1%Z ->
                  Train.critic rt st' = Train.critic rt st)).
    { intros r0 st0 tail Hl Ht Hs Hc Hdone Hraise H. injection H as <- <-.
      exists k, tail. fold evs.
      split; [rewrite Hl, Hlog, <- !app_assoc; reflexivity|].
      split; [exact Ht|]. split; [rewrite Hs; exact Hstep|]. split.
      { intros Hr. destruct (Hdone Hr) as (Hn0 & Hte & Hpe & Hse).
        split; [lia|]. repeat split; auto.
        apply Hcs. intros ->. apply Hn0. rewrite Hn. unfold evs.
        replace k with 0%nat by (simpl in Hlen; lia).
        rewrite Z.add_0_r, py_range_empty by lia. reflexivity. }
      split; [intros e He; left; exact (Hraise e He)|].
      intros Hcs1. rewrite Hc. exact (Hone Hcs1). }
    unfold Train.mbind at 1, Train.lift at 1, Train.py_div.
    destruct (Z.eqb_spec n 0) as [Hn0|Hn0].
    { apply (Hfin _ _ []); auto.
      - rewrite app_nil_r. reflexivity.
      - discriminate.
      - intros e [= <-]. reflexivity. }
    unfold ok at 1. cbv beta iota.
    unfold Train.mbind at 1, Train.sample at 1.
    destruct (Train.batches rt (Train.random rt st1) te) as [bs' g2] eqn:Hte.
    unfold ok at 1. cbv beta iota. unfold Train.mbind at 1.
    destruct (Train.for_fold bs' (0, 0%Z) (Train.test_batch rt) _)
      as [[e|[WD_test n']] st2] eqn:Htest;
      destruct (test_loop_result _ _ _ _ _ _ Htest)
        as ((wd & Hr) & Hlog2 & Hstep2 & Hc2 & Hg2 & Hf2); [discriminate|].
    injection Hr as -> ->.
    cbn [Train.log Train.step Train.critic Train.set_random snd] in *.
    assert (Hbs : bs' <> [] -> exists g, fst (Train.batches rt g te) <> []).
    { intros Hne. exists (Train.random rt st1). rewrite Hte. exact Hne. }
    unfold Train.mbind at 1, Train.lift at 1.
    destruct (Z.eqb_spec (Z.of_nat (length bs')) 0) as [Hb0|Hb0].
    { apply (Hfin _ _ []); auto.
      - rewrite app_nil_r. exact Hlog2.
      - discriminate.
      - intros e [= <-]. reflexivity. }
    assert (Hbs' : bs' <> []) by (intros ->; apply Hb0; reflexivity).
    unfold ok at 1. cbv beta iota.
    unfold Train.mbind at 1, Train.lift at 1, py_mod at 1.
    destruct (Z.eqb_spec (Specifications.print_every s) 0) as [Hpe|Hpe].
    { apply (Hfin _ _ []); auto.
      - rewrite app_nil_r. exact Hlog2.
      - discriminate.
      - intros e [= <-]. reflexivity. }
    unfold ok at 1. cbv beta iota.
    unfold Train.mbind at 1.
    match goal with
    | |- match ?m st2 with _ => _ end = _ -> _ =>
        assert (Hprint : exists tail st3,
                   m st2 = (inr tt, st3) /\
                   Train.log rt st3 = Train.log rt st2 ++ tail /\
                   TrainLog.critic_updates tail = 0%nat /\
                   Train.step rt st3 = Train.step rt st2 /\
                   Train.critic rt st3 = Train.critic rt st2)
    end.
    { destruct (epoch mod Specifications.print_every s =? 0)%Z.
      - eexists [_], _. split; [reflexivity|]. repeat split; reflexivity.
      - exists [], st2. split; [reflexivity|]. rewrite app_nil_r.
        repeat split; reflexivity. }
    destruct Hprint as (tail1 & st3 & -> & Hlog3 & Ht3 & Hstep3 & Hc3).
    assert (Hquiet : forall st0 tail,
               Train.log rt st0 = Train.log rt st3 ++ tail ->
               TrainLog.critic_updates tail = 0%nat ->
               Train.log rt st0 = Train.log rt st1 ++ (tail1 ++ tail) /\
               TrainLog.critic_updates (tail1 ++ tail) = 0%nat).
    { intros st0 tail Hl Ht. split.
      - rewrite Hl, Hlog3, Hlog2, <- app_assoc. reflexivity.
      - rewrite critic_updates_app, Ht3, Ht. reflexivity. }
    destruct (Specifications.save_checkpoint s) as [path|] eqn:Hsave.
    + destruct (truthy_path (Some path)) eqn:Htruthy.
      * unfold Train.mbind at 1, Train.lift at 1, py_mod at 1.
        destruct (Z.eqb_spec (Specifications.save_every s) 0) as [Hse|Hse].
        { destruct (Hquiet st3 []) as [Hl Ht]; [rewrite app_nil_r; reflexivity|reflexivity|].
          apply (Hfin _ _ _ Hl Ht); congruence. }
        unfold ok at 1. cbv beta iota.
        destruct (epoch mod Specifications.save_every s =? 0)%Z.
        -- unfold Train.save, Train.mbind, Train.get, Train.modify, Train.tell,
             Train.modify, ok.
           cbn [Train.files Train.step Train.set_files Train.add_event].
           match goal with
           | |- (inr tt, ?st4) = _ -> _ =>
               destruct (Hquiet st4 [Train.Saved path epoch (Train.step rt st3)])
                 as [Hl Ht]; [reflexivity|reflexivity|];
               apply (Hfin _ _ _ Hl Ht); try (cbn; congruence)
           end.
           intros _. repeat split; auto.
        -- destruct (Hquiet st3 []) as [Hl Ht]; [rewrite app_nil_r; reflexivity|reflexivity|].
           apply (Hfin _ _ _ Hl Ht); try (unfold Train.ret, ok; congruence).
           intros _. repeat split; auto.
      * destruct (Hquiet st3 []) as [Hl Ht]; [rewrite app_nil_r; reflexivity|reflexivity|].
        apply (Hfin _ _ _ Hl Ht); try (unfold Train.ret, ok; congruence).
        intros _. repeat split; auto. congruence.
    + destruct (Hquiet st3 []) as [Hl Ht]; [rewrite app_nil_r; reflexivity|reflexivity|].
      apply (Hfin _ _ _ Hl Ht); try (unfold Train.ret, ok; congruence).
      intros _. repeat split; auto. discriminate.
Qed.

(** X10: an epoch of [train] ends without an exception only if at least
    one critic step was taken in it (else [WD_train /= n_batches] divides
    by zero), the test loader yields at least one batch (else
    [WD_test /= n_batches] does), [print_every] is not zero, [save_every]
    is not zero when a checkpoint path is set, and [critic_steps] is
    neither 0 nor 1. *)
Theorem train_epoch_completes_only_if (rt : Train.runtime)
    (s : Specifications.settings_dict) (penalty : option Train.penalty_fn)
    (tr te : Train.dataset rt) (epoch : Z) (st st' : Train.state rt) :
  Train.train_epoch rt s penalty tr te epoch st = (inr tt, st') ->
  (exists evs tail,
     Train.log rt st' = Train.log rt st ++ Train.EpochBegin epoch :: evs ++ tail /\
     (0 < TrainLog.critic_updates evs)%nat) /\
  (exists g, fst (Train.batches rt g te) <> []) /\
  Specifications.print_every s <> 0%Z /\
  (truthy_path (Specifications.save_checkpoint s) = true ->
   Specifications.save_every s <> 0%Z) /\
  Specifications.critic_steps s <> 0%Z /\
  Specifications.critic_steps s <> 1%Z.
Proof.
  intros H.
  destruct (train_epoch_result _ _ _ _ _ _ _ _ _ H)
    as (k & tail & Hlog & _ & _ & Hdone & _ & _).
  destruct (Hdone eq_refl) as (Hcritic & Hte & Hpe & Hse & Hcs).
  split; [eexists; exists tail; split; [exact Hlog|exact Hcritic]|].
  repeat split; auto.
  intros Hcs1. rewrite Hcs1, critic_updates_one in Hcritic. lia.
Qed.

Lemma train_epoch_completes_only_if_witness :
  exists st tr te st',
    Train.setup Examples.plain_runtime
      (Specifications.settings (Examples.train_spec 2 None))
      Examples.generator Examples.critic Examples.train_x Examples.train_context tt []
    = inr (st, tr, te) /\
    Train.train_epoch Examples.plain_runtime
      (Specifications.settings (Examples.train_spec 2 None)) None tr te 0 st
    = (inr tt, st') /\
    (exists g, fst (Train.batches Examples.plain_runtime g te) <> []) /\
    Specifications.critic_steps (Specifications.settings (Examples.train_spec 2 None))
    <> 1%Z.
Proof.
  assert (Hrun : exists st tr te st',
             Train.setup Examples.plain_runtime
               (Specifications.settings (Examples.train_spec 2 None))
               Examples.generator Examples.critic Examples.train_x
               Examples.train_context tt []
             = inr (st, tr, te) /\
             Train.train_epoch Examples.plain_runtime
               (Specifications.settings (Examples.train_spec 2 None)) None tr te 0 st
             = (inr tt, st')).
  { do 4 eexists. split; vm_compute; reflexivity. }
  destruct Hrun as (st & tr & te & st' & Hsetup & Hepoch).
  exists st, tr, te, st'. split; [exact Hsetup|]. split; [exact Hepoch|].
  destruct (train_epoch_completes_only_if Examples.plain_runtime
              (Specifications.settings (Examples.train_spec 2 None)) None tr te 0 st st'
              Hepoch) as (_ & Hte & _ & _ & _ & Hone).
  split; [exact Hte|exact Hone].
Defined.

Lemma setup_state (rt : Train.runtime) (s : Specifications.settings_dict)
    (generator : Generator.t) (critic : Critic.t) (x context : Tensor.mat)
    (g0 : Train.rng rt) (fs : Dict.t (Train.checkpoint rt))
    (st : Train.state rt) (tr te : Train.dataset rt) :
  Train.setup rt s generator critic x context g0 fs = inr (st, tr, te) ->
  Train.generator rt st = generator /\ Train.critic rt st = critic /\
  Train.step rt st = 1%Z /\ Train.log rt st = [] /\ Train.files rt st = fs.
Proof.
  unfold Train.setup. intros Hsetup.
  destruct (Train.generator_optimizer _ _ _ _) as [e|og]; cbn [bind] in Hsetup;
    [discriminate|].
  destruct (Train.critic_optimizer _ _ _ _) as [e|oc]; cbn [bind] in Hsetup;
    [discriminate|].
  destruct (Train.random_split _ _ _ _ _ _) as [e|[[d1 d2] g1]]; cbn [bind] in Hsetup;
    [discriminate|].
  destruct (Train.data_loader rt d1 _) as [e|l1]; cbn [bind] in Hsetup; [discriminate|].
  destruct (Train.data_loader rt d2 _) as [e|l2]; cbn [bind] in Hsetup; [discriminate|].
  injection Hsetup as <- _ _. repeat split; reflexivity.
Qed.

Lemma load_checkpoints_skipped (rt : Train.runtime) (s : Specifications.settings_dict)
    (st : Train.state rt) :
  truthy_path (Specifications.load_checkpoint s) = false ->
  Train.load_checkpoints rt s st = (inr 0%Z, st).
Proof.
  intros H. unfold Train.load_checkpoints.
  destruct (Specifications.load_checkpoint s) as [path|]; [rewrite H|]; reflexivity.
Qed.

(** X11: with [critic_steps = 1] every batch is a generator batch, so a
    call of [train] that starts from no checkpoint and has an epoch to run
    never updates the critic and ends during its first epoch with the
    [ZeroDivisionError] of [WD_train /= n_batches] (provided the penalty
    function, if any, raises nothing). *)
Theorem train_critic_steps_one_divides_by_zero (rt : Train.runtime)
    (generator : Generator.t) (critic : Critic.t) (x context : Tensor.mat)
    (specifications : Specifications.t) (penalty : option Train.penalty_fn)
    (g0 : Train.rng rt) (fs : Dict.t (Train.checkpoint rt))
    (r : result unit) (st : Train.state rt) :
  Specifications.critic_steps (Specifications.settings specifications) = 1%Z ->
  truthy_path (Specifications.load_checkpoint (Specifications.settings specifications))
  = false ->
  (0 < Specifications.max_epochs (Specifications.settings specifications))%Z ->
  TrainLog.penalty_returns penalty ->
  train rt generator critic x context specifications penalty g0 fs = inr (r, st) ->
  r = inl ZeroDivisionError /\
  Train.critic rt st = critic /\
  TrainLog.critic_updates (Train.log rt st) = 0%nat /\
  Train.epochs_begun (Train.log rt st) = [0%Z].
Proof.
  intros Hcs Hload Hmax Hpen Htrain. unfold train in Htrain.
  set (s := Specifications.settings specifications) in *.
  destruct (Train.setup rt s generator critic x context g0 fs)
    as [e|[[st0 tr] te]] eqn:Hsetup; cbn [bind] in Htrain; [discriminate|].
  injection Htrain as Hrun.
  destruct (setup_state _ _ _ _ _ _ _ _ _ _ _ Hsetup) as (_ & Hc0 & Hstep0 & Hlog0 & _).
  unfold Train.run, Train.mbind in Hrun.
  rewrite (load_checkpoints_skipped rt s st0 Hload) in Hrun.
  rewrite py_range_cons in Hrun by lia. cbn [Train.for_each] in Hrun.
  unfold Train.mbind in Hrun.
  destruct (Train.train_epoch rt s penalty tr te 0 st0) as [r1 st1] eqn:Hepoch.
  destruct (train_epoch_result _ _ _ _ _ _ _ _ _ Hepoch)
    as (k & tail & Hlog & Htail & _ & Hdone & Hraise & Hone).
  assert (Hlog1 : TrainLog.critic_updates (Train.log rt st1) = 0%nat /\
                  Train.epochs_begun (Train.log rt st1) = [0%Z]).
  { rewrite (train_epoch_begins_one _ _ _ _ _ _ _ _ _ Hepoch), Hlog, Hlog0.
    split; [|reflexivity]. cbn [app].
    change (Train.EpochBegin 0 :: ?l) with ([Train.EpochBegin 0] ++ l).
    rewrite !critic_updates_app, Htail, Hcs, critic_updates_one. reflexivity. }
  destruct r1 as [e|[]].
  - injection Hrun as <- <-.
    destruct (Hraise e eq_refl) as [->|(f & x_hat & c & Hf & Hfe)].
    + split; [reflexivity|]. split; [rewrite (Hone Hcs); exact Hc0|]. exact Hlog1.
    + destruct (Hpen f Hf x_hat c) as [p Hp]. congruence.
  - exfalso. destruct (Hdone eq_refl) as (Hcritic & _).
    rewrite Hcs, critic_updates_one in Hcritic. lia.
Qed.

Lemma train_critic_steps_one_divides_by_zero_witness :
  Specifications.critic_steps (Specifications.settings (Cases.spec_with 1 2 None)) = 1%Z /\
  truthy_path (Specifications.load_checkpoint
                 (Specifications.settings (Cases.spec_with 1 2 None))) = false /\
  (0 < Specifications.max_epochs (Specifications.settings (Cases.spec_with 1 2 None)))%Z /\
  TrainLog.penalty_returns None /\
  exists r st,
    Cases.train_one_critic_step = inr (r, st) /\
    r = inl ZeroDivisionError /\
    Train.critic Examples.plain_runtime st = Examples.critic /\
    TrainLog.critic_updates (Train.log Examples.plain_runtime st) = 0%nat /\
    Train.epochs_begun (Train.log Examples.plain_runtime st) = [0%Z].
Proof.
  assert (Hpen : TrainLog.penalty_returns None) by (intros f Hf; discriminate Hf).
  assert (Hmax : (0 < Specifications.max_epochs
                        (Specifications.settings (Cases.spec_with 1 2 None)))%Z)
    by (simpl; lia).
  split; [reflexivity|]. split; [reflexivity|]. split; [exact Hmax|].
  split; [exact Hpen|].
  assert (Hrun : exists r st, Cases.train_one_critic_step = inr (r, st)).
  { do 2 eexists. vm_compute. reflexivity. }
  destruct Hrun as (r & st & Hrun).
  exists r, st. split; [exact Hrun|].
  exact (train_critic_steps_one_divides_by_zero Examples.plain_runtime Examples.generator
           Examples.critic Examples.train_x Examples.train_context
           (Cases.spec_with 1 2 None) None tt [] r st eq_refl eq_refl Hmax Hpen Hrun).
Defined.

(** *** Checkpoints *)



(** ** More on the data wrapper *)

Lemma map_result_raises {A B} (f : A -> result B) (P : exn -> Prop) (l : list A) (a : A) :
  (forall a' e, f a' = inl e -> P e) ->
  In a l -> (exists e, f a = inl e) ->
  exists e, map_result f l = inl e /\ P e.
Proof.
  intros HP. induction l as [|b l IH]; simpl; [contradiction|].
  intros Hin Ha. destruct (f b) as [e|y] eqn:Hb; cbn [bind].
  - exists e. split; [reflexivity|]. eapply HP. exact Hb.
  - destruct Hin as [->|Hin]; [destruct Ha as [e He]; congruence|].
    destruct (IH Hin Ha) as (e & -> & He). exists e. split; [reflexivity|exact He].
Qed.

(** X13: [deprocess] raises a [RuntimeError] as soon as one row of [x] is
    not exactly as wide as the continuous variables plus all the
    categories together. *)
Theorem deprocess_rejects_wrong_width (w : DataWrapper.t) (s : DataWrapper.sampler)
    (x ctx : Tensor.mat) (n_features : nat) (row : Tensor.vec) :
  In row x ->
  length row <> (length (fst (DataWrapper.means w)) + list_sum (DataWrapper.cat_dims w))%nat ->
  exists msg, DataWrapper.deprocess w s x ctx n_features = inl (RuntimeError msg).
Proof.
  intros Hin Hlen. unfold DataWrapper.deprocess.
  destruct (map_result_raises
              (Tensor.split [length (fst (DataWrapper.means w));
                             list_sum (DataWrapper.cat_dims w)])
              (fun e => exists msg, e = RuntimeError msg) x row) as (e & He & msg & ->).
  - intros a e. unfold Tensor.split. destruct (_ =? _)%nat; [discriminate|].
    intros [= <-]. eexists. reflexivity.
  - exact Hin.
  - unfold Tensor.split.
    assert (Hs : list_sum [length (fst (DataWrapper.means w));
                           list_sum (DataWrapper.cat_dims w)]
                 = (length (fst (DataWrapper.means w))
                    + list_sum (DataWrapper.cat_dims w))%nat) by (simpl; lia).
    rewrite Hs.
    destruct (Nat.eqb_spec (length row)
                (length (fst (DataWrapper.means w)) + list_sum (DataWrapper.cat_dims w)));
      [contradiction|].
    eexists. reflexivity.
  - rewrite He. exists msg. reflexivity.
Qed.

Lemma deprocess_rejects_wrong_width_witness :
  In [0] [[0; 1; 0]; [0]] /\
  length [0] <> (length (fst (DataWrapper.means Examples.wrapper))
                 + list_sum (DataWrapper.cat_dims Examples.wrapper))%nat /\
  exists msg,
    DataWrapper.deprocess Examples.wrapper Examples.first_positive
      [[0; 1; 0]; [0]] [[0]; [0]] 1 = inl (RuntimeError msg).
Proof.
  assert (H1 : In [0] [[0; 1; 0]; [0]]) by (right; left; reflexivity).
  assert (H2 : length [0] <> (length (fst (DataWrapper.means Examples.wrapper))
                              + list_sum (DataWrapper.cat_dims Examples.wrapper))%nat)
    by (simpl; lia).
  split; [exact H1|]. split; [exact H2|].
  exact (deprocess_rejects_wrong_width Examples.wrapper Examples.first_positive
           [[0; 1; 0]; [0]] [[0]; [0]] 1 [0] H1 H2).
Defined.

Lemma extend_variables_names (n : nat) (vars : list string) :
  forall w2i i2w names w2i' i2w',
    DataWrapper.extend_variables n vars w2i i2w = inr (names, w2i', i2w') ->
    names = WrapperSpec.with_fillers n vars.
Proof.
  induction vars as [|v vars IH]; intros w2i i2w names w2i' i2w'; simpl.
  - intros [= <- _ _]. reflexivity.
  - match goal with
    | |- bind ?m _ = _ -> _ => destruct m as [e|[w1 i1]]; cbn [bind]; [discriminate|]
    end.
    destruct (DataWrapper.extend_variables n vars w1 i1) as [e|[[names1 w2] i2]] eqn:Hrest;
      cbn [bind]; [discriminate|].
    intros [= <- _ _]. rewrite (IH _ _ _ _ _ Hrest). reflexivity.
Qed.

Lemma extend_variables_no_fillers (n : nat) (vars : list string) w2i i2w :
  (n <= 1)%nat ->
  DataWrapper.extend_variables n vars w2i i2w = inr (vars, w2i, i2w).
Proof.
  intros Hn. induction vars as [|v vars IH]; [reflexivity|].
  cbn [DataWrapper.extend_variables]. unfold DataWrapper.filler_vars.
  replace (n - 1)%nat with 0%nat by lia. cbn [seq map].
  destruct (Dict.get w2i v); unfold ok at 1; cbn [bind]; rewrite IH; reflexivity.
Qed.

Lemma with_fillers_length (n : nat) (vars : list string) :
  length (WrapperSpec.with_fillers n vars) = (Nat.max 1 n * length vars)%nat.
Proof.
  unfold WrapperSpec.with_fillers, DataWrapper.filler_vars.
  assert (Hmax : Nat.max 1 n = S (n - 1)) by lia.
  rewrite Hmax.
  induction vars as [|v vars IH]; cbn [flat_map]; [simpl; lia|].
  rewrite length_app. cbn [length]. rewrite length_map, length_seq, IH.
  rewrite Nat.mul_succ_r. lia.
Qed.



(** *** Standardisation *)

Lemma scale_row_nth (x m s : list R) (j : nat) :
  length x = length m -> length x = length s -> (j < length x)%nat ->
  nth j (DataWrapper.scale_row x m s) 0 = (nth j x 0 - nth j m 0) / nth j s 0.
Proof.
  revert m s j. induction x as [|a x IH]; intros [|b m] [|c s] j; simpl;
    try discriminate; try lia.
  intros Hm Hs Hj. destruct j as [|j]; [reflexivity|]. apply IH; lia.
Qed.

Lemma sum_centred {A} (c : A -> R) (mu sigma : R) (l : list A) :
  Tensor.sum (map (fun r => (c r - mu) / sigma) l)
  = (Tensor.sum (map c l) - INR (length l) * mu) / sigma.
Proof.
  induction l as [|a l IH].
  - simpl. unfold Rdiv. ring.
  - cbn [map Tensor.sum fold_right length]. fold (Tensor.sum (map c l)).
    fold (Tensor.sum (map (fun r => (c r - mu) / sigma) l)).
    rewrite IH, S_INR. unfold Rdiv. ring.
Qed.

Lemma mean_centred {A} (c : A -> R) (sigma : R) (l : list A) :
  l <> [] ->
  Tensor.mean (map (fun r => (c r - Tensor.mean (map c l)) / sigma) l) = 0.
Proof.
  intros Hne. unfold Tensor.mean at 1. rewrite sum_centred.
  unfold Tensor.mean. rewrite !length_map.
  assert (Hn : INR (length l) <> 0).
  { apply not_0_INR. destruct l; [contradiction|discriminate]. }
  replace (Tensor.sum (map c l) - INR (length l) * (Tensor.sum (map c l) / INR (length l)))
    with 0 by (field; exact Hn).
  unfold Rdiv. ring.
Qed.

Lemma tensor_column_scaled (cells : DataWrapper.row -> list R) (d : nat)
    (df : DataWrapper.frame) (extra : DataWrapper.row -> list R) (j : nat) :
  Forall (fun r => length (cells r) = d) df -> (j < d)%nat ->
  DataWrapper.tensor_column
    (map (fun r => DataWrapper.scale_row (cells r)
                     (DataWrapper.col_means (map cells df) d)
                     (Tensor.add_scalar (DataWrapper.col_stds (map cells df) d) 1e-5)
                   ++ extra r) df) j
  = map (fun r => (nth j (cells r) 0
                   - Tensor.mean (map (fun r' => nth j (cells r') 0) df))
                  / nth j (Tensor.add_scalar (DataWrapper.col_stds (map cells df) d) 1e-5) 0)
        df.
Proof.
  intros Hall Hj. unfold DataWrapper.tensor_column. rewrite map_map.
  apply map_ext_in. intros r Hr.
  rewrite Forall_forall in Hall. specialize (Hall r Hr).
  assert (Hm : length (DataWrapper.col_means (map cells df) d) = d)
    by (unfold DataWrapper.col_means; rewrite length_map, length_seq; reflexivity).
  assert (Hs : length (Tensor.add_scalar (DataWrapper.col_stds (map cells df) d) 1e-5) = d)
    by (unfold Tensor.add_scalar, DataWrapper.col_stds;
        rewrite !length_map, length_seq; reflexivity).
  rewrite app_nth1 by (rewrite scale_row_length; lia).
  rewrite scale_row_nth by lia. f_equal. f_equal.
  unfold DataWrapper.col_means. rewrite nth_map_seq by assumption.
  unfold DataWrapper.tensor_column. rewrite map_map. reflexivity.
Qed.


Lemma fit_frame_well_formed : WrapperSpec.well_formed 1 1 0 Examples.fit_frame.
Proof. split; [simpl; lia|]. repeat constructor. Qed.


(** ** From the wrapper to the networks *)

Lemma scale_row_le (a b m s : list R) :
  Forall2 Rle a b -> Forall (fun c => 0 < c) s ->
  Forall2 Rle (DataWrapper.scale_row a m s) (DataWrapper.scale_row b m s).
Proof.
  intros Hab. revert m s. induction Hab as [|x y a b Hxy _ IH]; intros m s Hs.
  - destruct m, s; constructor.
  - destruct m as [|mu m], s as [|sd s]; simpl; try constructor.
    + inversion Hs; subst. unfold Rdiv. apply Rmult_le_compat_r.
      * left. apply Rinv_0_lt_compat. assumption.
      * lra.
    + apply IH. inversion Hs; subst. assumption.
Qed.

Lemma add_scalar_positive (v : list R) :
  Forall (fun x => 0 <= x) v -> Forall (fun c => 0 < c) (Tensor.add_scalar v 1e-5).
Proof.
  intros H. unfold Tensor.add_scalar. apply Forall_forall. intros c Hc.
  apply in_map_iff in Hc. destruct Hc as (x & <- & Hx).
  rewrite Forall_forall in H. specialize (H x Hx). lra.
Qed.

Lemma Forall2_map_le {A} (f g : A -> R) (l : list A) :
  Forall (fun v => f v <= g v) l -> Forall2 Rle (map f l) (map g l).
Proof. induction 1; simpl; constructor; assumption. Qed.

(** What the constructor of the wrapper computes, field by field. *)
Lemma DataWrapper_init_fields (fit : DataWrapper.frame)
    (continuous_vars categorical_vars context_vars : list string)
    (lower upper : Dict.t R) (w : DataWrapper.t) :
  DataWrapper.init fit continuous_vars categorical_vars context_vars lower upper = inr w ->
  DataWrapper.variables w
  = {| DataWrapper.continuous := continuous_vars;
       DataWrapper.categorical := categorical_vars;
       DataWrapper.context := context_vars |} /\
  DataWrapper.means w
  = (DataWrapper.col_means (map DataWrapper.cont_cells fit) (length continuous_vars),
     DataWrapper.col_means (map DataWrapper.ctx_cells fit) (length context_vars)) /\
  DataWrapper.stds w
  = (Tensor.add_scalar
       (DataWrapper.col_stds (map DataWrapper.cont_cells fit) (length continuous_vars)) 1e-5,
     Tensor.add_scalar
       (DataWrapper.col_stds (map DataWrapper.ctx_cells fit) (length context_vars)) 1e-5) /\
  DataWrapper.cat_dims w
  = map (fun j => length (DataWrapper.dummy_columns (DataWrapper.cat_column fit j)))
        (seq 0 (length categorical_vars)) /\
  DataWrapper.cont_bounds w
  = [ DataWrapper.scale_row (map (DataWrapper.bound_or lower (-1e8)) continuous_vars)
        (fst (DataWrapper.means w)) (fst (DataWrapper.stds w));
      DataWrapper.scale_row (map (DataWrapper.bound_or upper 1e8) continuous_vars)
        (fst (DataWrapper.means w)) (fst (DataWrapper.stds w)) ] /\
  DataWrapper.df0 w = firstn 1 fit.
Proof.
  unfold DataWrapper.init. intros Hinit.
  destruct (DataWrapper.init_categoricals fit ([], [], []) (enumerate categorical_vars))
    as [e|[[w2i i2w] labels]]; cbn [bind] in Hinit; [discriminate|].
  injection Hinit as <-. repeat split; reflexivity.
Qed.

Lemma init_bounds_ordered (fit : DataWrapper.frame)
    (continuous_vars categorical_vars context_vars : list string)
    (lower upper : Dict.t R) (w : DataWrapper.t) :
  DataWrapper.init fit continuous_vars categorical_vars context_vars lower upper = inr w ->
  WrapperSpec.bounds_consistent continuous_vars lower upper ->
  exists lo up,
    DataWrapper.cont_bounds w = [lo; up] /\
    length lo = length continuous_vars /\ length up = length continuous_vars /\
    Forall2 Rle lo up.
Proof.
  intros Hinit Hb.
  destruct (DataWrapper_init_fields _ _ _ _ _ _ _ Hinit) as (_ & Hm & Hs & _ & Hcb & _).
  rewrite Hcb, Hm, Hs. cbn [fst].
  do 2 eexists. split; [reflexivity|].
  assert (Hlm : length (DataWrapper.col_means (map DataWrapper.cont_cells fit)
                          (length continuous_vars)) = length continuous_vars)
    by (unfold DataWrapper.col_means; rewrite length_map, length_seq; reflexivity).
  assert (Hls : length (Tensor.add_scalar
                          (DataWrapper.col_stds (map DataWrapper.cont_cells fit)
                             (length continuous_vars)) 1e-5) = length continuous_vars)
    by (unfold Tensor.add_scalar, DataWrapper.col_stds;
        rewrite !length_map, length_seq; reflexivity).
  split; [rewrite scale_row_length; rewrite length_map; congruence|].
  split; [rewrite scale_row_length; rewrite length_map; congruence|].
  apply scale_row_le.
  - apply Forall2_map_le. exact Hb.
  - apply add_scalar_positive, col_stds_nonneg.
Qed.

Lemma generator_from_wrapper_shape (fit : DataWrapper.frame)
    (continuous_vars categorical_vars context_vars : list string)
    (lower upper : Dict.t R) (w : DataWrapper.t) (a : Specifications.args)
    (specifications : Specifications.t)
    (new_layer : Z -> Z -> Linear.t) (dropout : Tensor.vec -> Tensor.vec) :
  DataWrapper.init fit continuous_vars categorical_vars context_vars lower upper = inr w ->
  NoDup categorical_vars ->
  WrapperSpec.bounds_consistent continuous_vars lower upper ->
  Specifications.init w a = inr specifications ->
  Generator.bounds_ordered (Generator.init specifications new_layer dropout) /\
  GeneratorSpec.widths_consistent (Generator.init specifications new_layer dropout) /\
  Generator.d_cont (Generator.init specifications new_layer dropout)
  = length continuous_vars.
Proof.
  intros Hinit Hnd Hb Hspec.
  destruct (init_bounds_ordered _ _ _ _ _ _ _ Hinit Hb) as (lo & up & Hcb & Hlo & Hup & Hle).
  destruct (DataWrapper_init_fitted _ _ _ _ _ _ _ Hinit Hnd) as [Hvars Hfit].
  unfold Specifications.init in Hspec. injection Hspec as <-.
  unfold Generator.bounds_ordered, GeneratorSpec.widths_consistent, Generator.init.
  cbn [Generator.cont_bounds Generator.d_cont Generator.d_cat Generator.cat_dims
       Specifications.data Specifications.settings Specifications.cont_bounds
       Specifications.cat_dims].
  rewrite Hcb. cbn [hd]. split; [|split].
  - exists lo, up. repeat split; try reflexivity; try assumption. congruence.
  - split; [reflexivity|].
    rewrite (DataWrapperSpec.fitted_cat_dims _ _ Hfit), Hvars.
    cbn [DataWrapper.categorical].
    destruct (DataWrapperSpec.fitted_labels _ _ Hfit) as (ls & _ & _ & Hrec).
    rewrite Hvars in Hrec. cbn [DataWrapper.categorical] in Hrec.
    apply Forall_forall. intros d Hd. apply in_map_iff in Hd.
    destruct Hd as (j & <- & Hj). apply in_seq in Hj.
    eapply recorded_nonempty. apply (Hrec j). lia.
  - exact Hlo.
Qed.


Lemma no_bounds_consistent (vars : list string) : WrapperSpec.bounds_consistent vars [] [].
Proof.
  unfold WrapperSpec.bounds_consistent. apply Forall_forall. intros v _.
  unfold DataWrapper.bound_or. simpl. lra.
Qed.


(** *** Shapes through the networks *)

Lemma Linear_apply_shape (l : Linear.t) (i o : nat) (x : list R) :
  Shapes.layer l i o -> length x = i ->
  exists y, Linear.apply l x = inr y /\ length y = o.
Proof.
  intros (Hw & Hb & Hrows) Hx. unfold Linear.apply.
  assert (H1 : forallb (fun r => (length r =? length x)%nat) (Linear.weight l) = true).
  { apply forallb_forall. intros r Hr. rewrite Forall_forall in Hrows.
    apply Nat.eqb_eq. rewrite (Hrows r Hr). congruence. }
  assert (H2 : (length (Linear.weight l) =? length (Linear.bias l))%nat = true)
    by (apply Nat.eqb_eq; congruence).
  rewrite H1, H2. cbn [andb]. eexists. split; [reflexivity|].
  unfold Tensor.add. rewrite map2_length, length_map.
  transitivity (Nat.min o o); [|apply Nat.min_id].
  f_equal; [exact Hw|exact Hb].
Qed.

Lemma Linear_apply_raises (l : Linear.t) (i o : nat) (x : list R) :
  Shapes.layer l i o -> (0 < o)%nat -> length x <> i ->
  exists msg, Linear.apply l x = inl (RuntimeError msg).
Proof.
  intros (Hw & Hb & Hrows) Ho Hx. unfold Linear.apply.
  destruct (Linear.weight l) as [|r rows]; [simpl in Hw; lia|].
  inversion Hrows as [|? ? Hr _]; subst. cbn [forallb].
  destruct (Nat.eqb_spec (length r) (length x)); [congruence|].
  cbn [andb]. eexists. reflexivity.
Qed.

Lemma bind_assoc {A B C} (m : result A) (f : A -> result B) (g : B -> result C) :
  bind (bind m f) g = bind m (fun a => bind (f a) g).
Proof. destruct m; reflexivity. Qed.

Lemma network_cons (dropout : Tensor.vec -> Tensor.vec) (l l2 : Linear.t)
    (rest : list Linear.t) (x : list R) :
  Linear.network dropout (l :: l2 :: rest) x
  = bind (Linear.apply l x)
         (fun y => Linear.network dropout (l2 :: rest) (dropout (map Tensor.relu y))).
Proof.
  unfold Linear.network.
  change (rev (l :: l2 :: rest)) with (rev (l2 :: rest) ++ [l])%list.
  change (removelast (l :: l2 :: rest)) with (l :: removelast (l2 :: rest)).
  destruct (rev (l2 :: rest)) as [|final t] eqn:Hrev.
  - apply (f_equal (@length _)) in Hrev. rewrite length_rev in Hrev. discriminate.
  - cbn [app Linear.hidden]. rewrite bind_assoc. reflexivity.
Qed.

Lemma network_chained (dropout : Tensor.vec -> Tensor.vec) (layers : list Linear.t) :
  Shapes.keeps_width dropout ->
  forall (a b : nat) (x : list R),
    Shapes.chained layers a b -> length x = a ->
    exists y, Linear.network dropout layers x = inr y /\ length y = b.
Proof.
  intros Hd. induction layers as [|l rest IH]; intros a b x Hc Hx; [contradiction|].
  destruct rest as [|l2 rest].
  - unfold Linear.network. cbn [rev app removelast Linear.hidden bind ok].
    apply (Linear_apply_shape l a b x Hc Hx).
  - destruct Hc as (m & Hl & Hrest). rewrite network_cons.
    destruct (Linear_apply_shape l a m x Hl Hx) as (y & -> & Hy). cbn [bind].
    apply (IH m b); [exact Hrest|]. rewrite Hd, length_map. exact Hy.
Qed.

Lemma layers_chained (new_layer : Z -> Z -> Linear.t) (hidden : list Z) :
  Shapes.linear_constructor new_layer ->
  Forall (fun d => (0 <= d)%Z) hidden ->
  forall a b : Z, (0 <= a)%Z -> (0 <= b)%Z ->
    Shapes.chained (map (fun '(i, o) => new_layer i o) (combine (a :: hidden) (hidden ++ [b])))
                   (Z.to_nat a) (Z.to_nat b).
Proof.
  intros Hnew. induction 1 as [|h hidden Hh Hrest IH]; intros a b Ha Hb.
  - simpl. apply Hnew; assumption.
  - cbn [app combine map]. specialize (IH h b Hh Hb).
    destruct hidden as [|h2 hidden].
    + cbn [app combine map] in *. cbn [Shapes.chained].
      exists (Z.to_nat h). split; [apply Hnew; assumption|exact IH].
    + cbn [app combine map] in *. cbn [Shapes.chained].
      exists (Z.to_nat h). split; [apply Hnew; assumption|exact IH].
Qed.

Lemma Generator_transform_width (g : Generator.t) (hidden out : list R) :
  Generator._transform g hidden = inr out ->
  length out = (Generator.d_cont g + Generator.d_cat g)%nat.
Proof.
  intros H.
  destruct (Generator_transform_inv g hidden out H)
    as (cont' & cat' & -> & Hlen & Hc & _ & Hcat).
  rewrite length_app, Hc. f_equal.
  assert (Hskip : length (skipn (Generator.d_cont g) hidden) = Generator.d_cat g)
    by (rewrite length_skipn; lia).
  destruct (0 <? Generator.d_cat g)%nat.
  - destruct Hcat as [Hsum ->].
    rewrite length_concat, map_map.
    rewrite (map_ext _ (@length R)) by (intros v; apply softmax_length).
    rewrite chunks_lengths by congruence. symmetry. exact Hsum.
  - subst cat'. exact Hskip.
Qed.

(** X17: the networks built from the specifications of a wrapper fit
    together.  With layers of the shapes [nn.Linear] gives them, a dropout
    that keeps the shape, and hidden and noise sizes that are not
    negative, the generator turns a noise row of width [generator_d_noise]
    and a context row with one entry per context variable into a row of
    width [d_x], raising nothing, and the critic turns that row and the
    context into a single score. *)
Theorem networks_from_wrapper_fit_together (fit : DataWrapper.frame)
    (continuous_vars categorical_vars context_vars : list string)
    (lower upper : Dict.t R) (w : DataWrapper.t) (a : Specifications.args)
    (specifications : Specifications.t)
    (new_layer : Z -> Z -> Linear.t) (dropout : Tensor.vec -> Tensor.vec)
    (noise context : Tensor.vec) :
  DataWrapper.init fit continuous_vars categorical_vars context_vars lower upper = inr w ->
  NoDup categorical_vars ->
  WrapperSpec.bounds_consistent continuous_vars lower upper ->
  Specifications.init w a = inr specifications ->
  Shapes.sizes_ok a ->
  Shapes.linear_constructor new_layer ->
  Shapes.keeps_width dropout ->
  length noise
  = Z.to_nat (Specifications.generator_d_noise (Specifications.settings specifications)) ->
  length context = length context_vars ->
  exists x_hat score,
    Generator.forward (Generator.init specifications new_layer dropout) noise context
    = inr x_hat /\
    Z.of_nat (length x_hat) = Specifications.d_x (Specifications.data specifications) /\
    Critic.forward (Critic.init specifications new_layer dropout) x_hat context
    = inr [score].
Proof.
  intros Hinit Hnd Hb Hspec (Hgh & Hch & Hnoise) Hnew Hdrop Hn Hctx.
  destruct (generator_from_wrapper_shape _ _ _ _ _ _ _ _ _ new_layer dropout Hinit Hnd Hb Hspec)
    as (Hord & [Hsum _] & Hdc).
  destruct (DataWrapper_init_fields _ _ _ _ _ _ _ Hinit) as (Hvars & _).
  assert (Hfields :
            Specifications.d_x (Specifications.data specifications)
            = (Z.of_nat (length continuous_vars)
               + Z.of_nat (list_sum (Specifications.cat_dims
                                       (Specifications.data specifications))))%Z /\
            Specifications.d_context (Specifications.data specifications)
            = Z.of_nat (length context_vars) /\
            (0 <= Specifications.generator_d_noise
                    (Specifications.settings specifications))%Z /\
            Forall (fun d => (0 <= d)%Z)
                   (Specifications.generator_d_hidden
                      (Specifications.settings specifications)) /\
            Forall (fun d => (0 <= d)%Z)
                   (Specifications.critic_d_hidden
                      (Specifications.settings specifications))).
  { unfold Specifications.init in Hspec. injection Hspec as <-.
    cbn [Specifications.data Specifications.settings Specifications.d_x
         Specifications.d_context Specifications.cat_dims
         Specifications.generator_d_noise Specifications.generator_d_hidden
         Specifications.critic_d_hidden].
    rewrite Hvars. cbn [DataWrapper.continuous DataWrapper.context].
    repeat split; try assumption.
    destruct (Specifications.arg_generator_d_noise a); [lia|exact Hnoise]. }
  destruct Hfields as (Hdx0 & Hdctx & Hdn & Hgh' & Hch').
  set (g := Generator.init specifications new_layer dropout) in *.
  assert (Hdx : Specifications.d_x (Specifications.data specifications)
                = Z.of_nat (Generator.d_cont g + Generator.d_cat g)).
  { rewrite Hdx0, Hdc. unfold g, Generator.init. cbn [Generator.d_cat]. lia. }
  destruct (network_chained dropout (Generator.layers g) Hdrop
              (Z.to_nat (Specifications.generator_d_noise
                           (Specifications.settings specifications)
                         + Specifications.d_context (Specifications.data specifications)))
              (Z.to_nat (Z.of_nat (Generator.d_cont g + Generator.d_cat g)))
              (noise ++ context)) as (h & Hh & Hlen).
  { unfold g, Generator.init. cbn [Generator.layers Generator.d_cont Generator.d_cat].
    apply layers_chained; try assumption; lia. }
  { rewrite length_app, Hn, Hctx, Hdctx. lia. }
  rewrite Nat2Z.id in Hlen.
  destruct (Generator_transform_total g h Hord Hsum Hlen) as [x_hat Hx].
  pose proof (Generator_transform_width g h x_hat Hx) as Hwidth.
  destruct (network_chained dropout
              (Critic.layers (Critic.init specifications new_layer dropout)) Hdrop
              (Z.to_nat (Specifications.d_x (Specifications.data specifications)
                         + Specifications.d_context (Specifications.data specifications)))
              (Z.to_nat 1) (x_hat ++ context)) as (y & Hy & Hy1).
  { unfold Critic.init. cbn [Critic.layers].
    apply layers_chained; try assumption; lia. }
  { rewrite length_app, Hwidth, Hctx, Hdx, Hdctx. lia. }
  destruct y as [|score [|? ?]]; try discriminate.
  exists x_hat, score. split; [|split].
  - unfold Generator.forward. change (Generator.dropout g) with dropout.
    rewrite Hh. cbn [bind]. exact Hx.
  - rewrite Hwidth, Hdx. reflexivity.
  - unfold Critic.forward. exact Hy.
Qed.

Lemma zero_layer_shape : Shapes.linear_constructor Cases.zero_layer.
Proof.
  intros i o _ _. unfold Shapes.layer, Cases.zero_layer. cbn [Linear.weight Linear.bias].
  rewrite !repeat_length. repeat split.
  apply Forall_forall. intros r Hr. apply repeat_spec in Hr. subst.
  apply repeat_length.
Qed.

Lemma defaults_sizes_ok (device : string) : Shapes.sizes_ok (Specifications.defaults device).
Proof.
  unfold Shapes.sizes_ok, Specifications.defaults. simpl.
  repeat split; repeat constructor; lia.
Qed.

Lemma networks_from_wrapper_fit_together_witness :
  exists w specifications,
    DataWrapper.init Examples.fit_frame ["age"%string] ["color"%string] [] [] [] = inr w /\
    Specifications.init w (Specifications.defaults "cpu") = inr specifications /\
    exists x_hat score,
      Generator.forward (Generator.init specifications Cases.zero_layer Cases.no_dropout)
        (repeat 0 (Z.to_nat (Specifications.generator_d_noise
                               (Specifications.settings specifications)))) []
      = inr x_hat /\
      Critic.forward (Critic.init specifications Cases.zero_layer Cases.no_dropout)
        x_hat [] = inr [score].
Proof.
  destruct (DataWrapper_init_total Examples.fit_frame ["age"%string] ["color"%string]
              [] [] [] fit_frame_columns_ok) as [w Hw].
  assert (Hnd : NoDup ["color"%string]) by (constructor; [simpl; tauto|constructor]).
  exists w. eexists. split; [exact Hw|]. split; [reflexivity|].
  destruct (networks_from_wrapper_fit_together Examples.fit_frame ["age"%string]
              ["color"%string] [] [] [] w (Specifications.defaults "cpu") _
              Cases.zero_layer Cases.no_dropout
              (repeat 0 (Z.to_nat (Specifications.generator_d_noise
                                     (Specifications.settings _)))) []
              Hw Hnd (no_bounds_consistent ["age"%string]) eq_refl
              (defaults_sizes_ok "cpu") zero_layer_shape (fun v => eq_refl)
              (repeat_length _ _) eq_refl) as (x_hat & score & Hg & _ & Hc).
  exists x_hat, score. split; [exact Hg|exact Hc].
Defined.

(** ** More on the kernel-regression penalty *)

Lemma index_in_range (v : list R) (i : Z) :
  (0 <= i < Z.of_nat (length v))%Z ->
  Tensor.index v i = inr (nth (Z.to_nat i) v 0).
Proof.
  intros Hi. unfold Tensor.index.
  destruct (Z.ltb_spec i 0); [lia|].
  destruct (Z.leb_spec 0 i); [|lia].
  destruct (Z.ltb_spec i (Z.of_nat (length v))); [|lia]. cbn [andb].
  destruct (nth_error v (Z.to_nat i)) as [x|] eqn:Hx.
  - rewrite (nth_error_nth _ _ _ Hx). reflexivity.
  - apply nth_error_None in Hx. lia.
Qed.

Lemma index_past_end (v : list R) (i : Z) :
  (Z.of_nat (length v) <= i)%Z -> Tensor.index v i = inl IndexError.
Proof.
  intros Hi. unfold Tensor.index.
  destruct (Z.ltb_spec i 0); [lia|].
  destruct (Z.leb_spec 0 i); [|lia].
  destruct (Z.ltb_spec i (Z.of_nat (length v))); [lia|]. reflexivity.
Qed.

(** X18: with a data wrapper, the factory fails with an [IndexError] when
    the wrapper standardises a single column in all (squeezing leaves
    nothing to index); otherwise, for a valid [idx_in], it fails with a
    [TypeError] if an endpoint is left at [None], and with both endpoints
    given it returns the penalty over the grid between the endpoints
    rescaled as [(x - mean) / (std + 1e-3)] with the mean and the
    standard deviation of column [idx_in]. *)
Theorem monotonicity_penalty_kernreg_with_wrapper (factor h : R) (idx_out idx_in : Z)
    (x_min x_max : option R) (w : DataWrapper.t) :
  length (fst (DataWrapper.means w) ++ snd (DataWrapper.means w))
  = length (fst (DataWrapper.stds w) ++ snd (DataWrapper.stds w)) ->
  (length (fst (DataWrapper.stds w) ++ snd (DataWrapper.stds w)) = 1%nat ->
   monotonicity_penalty_kernreg factor h idx_out idx_in x_min x_max (Some w)
   = inl IndexError) /\
  (length (fst (DataWrapper.stds w) ++ snd (DataWrapper.stds w)) <> 1%nat ->
   (0 <= idx_in
    < Z.of_nat (length (fst (DataWrapper.stds w) ++ snd (DataWrapper.stds w))))%Z ->
   (x_min = None \/ x_max = None ->
    monotonicity_penalty_kernreg factor h idx_out idx_in x_min x_max (Some w)
    = inl TypeError) /\
   (forall a b, x_min = Some a -> x_max = Some b ->
      monotonicity_penalty_kernreg factor h idx_out idx_in x_min x_max (Some w)
      = inr (Kernreg.penalty factor h idx_out idx_in
               ((a - nth (Z.to_nat idx_in)
                       (fst (DataWrapper.means w) ++ snd (DataWrapper.means w)) 0)
                / (nth (Z.to_nat idx_in)
                       (fst (DataWrapper.stds w) ++ snd (DataWrapper.stds w)) 0 + 1e-3))
               ((b - nth (Z.to_nat idx_in)
                       (fst (DataWrapper.means w) ++ snd (DataWrapper.means w)) 0)
                / (nth (Z.to_nat idx_in)
                       (fst (DataWrapper.stds w) ++ snd (DataWrapper.stds w)) 0 + 1e-3))))).
Proof.
  intros Hlen. unfold monotonicity_penalty_kernreg, Tensor.squeeze_index.
  set (sd := (fst (DataWrapper.stds w) ++ snd (DataWrapper.stds w))%list) in *.
  set (mu := (fst (DataWrapper.means w) ++ snd (DataWrapper.means w))%list) in *.
  split.
  - intros H1. rewrite H1. reflexivity.
  - intros Hn Hidx.
    destruct (Nat.eqb_spec (length sd) 1); [contradiction|].
    destruct (Nat.eqb_spec (length mu) 1); [congruence|].
    rewrite (index_in_range sd idx_in Hidx).
    rewrite (index_in_range mu idx_in) by (rewrite Hlen; exact Hidx).
    cbn [bind]. split.
    + intros [-> | ->]; [reflexivity|]. destruct x_min; reflexivity.
    + intros a b -> ->. reflexivity.
Qed.

Lemma monotonicity_penalty_kernreg_with_wrapper_witness :
  length (fst (DataWrapper.means Examples.wrapper) ++ snd (DataWrapper.means Examples.wrapper))
  = length (fst (DataWrapper.stds Examples.wrapper) ++ snd (DataWrapper.stds Examples.wrapper))
  /\
  monotonicity_penalty_kernreg 1 0.1 1 0 (Some 20) None (Some Examples.wrapper)
  = inl TypeError /\
  monotonicity_penalty_kernreg 1 0.1 1 0 (Some 20) (Some 60) (Some Examples.wrapper)
  = inr (Kernreg.penalty 1 0.1 1 0 ((20 - 40) / (10 + 1e-3)) ((60 - 40) / (10 + 1e-3))).
Proof.
  split; [reflexivity|].
  destruct (monotonicity_penalty_kernreg_with_wrapper 1 0.1 1 0 (Some 20) None
              Examples.wrapper eq_refl) as [_ H].
  destruct (monotonicity_penalty_kernreg_with_wrapper 1 0.1 1 0 (Some 20) (Some 60)
              Examples.wrapper eq_refl) as [_ H'].
  split.
  - apply H; [simpl; lia|simpl; lia|right; reflexivity].
  - apply (proj2 (H' ltac:(simpl; lia) ltac:(simpl; lia)) 20 60); reflexivity.
Defined.

Lemma kernreg_terms_nonneg (factor : R) (l : list (R * R)) :
  Forall (fun x => 0 <= x) (map (fun '(a, b) => Rmax (factor * (a - b)) 0) l).
Proof.
  apply Forall_forall. intros x Hx. apply in_map_iff in Hx.
  destruct Hx as ([a b] & <- & _). apply Rmax_r.
Qed.

Lemma kernreg_terms_zero (l : list (R * R)) :
  Forall (fun x => x = 0) (map (fun '(a, b) => Rmax (0 * (a - b)) 0) l).
Proof.
  apply Forall_forall. intros x Hx. apply in_map_iff in Hx.
  destruct Hx as ([a b] & <- & _). rewrite Rmult_0_l. apply Rmax_left. lra.
Qed.



(** *** The word dictionaries *)

(** X20: for a categorical variable whose column starts with a word, the
    two dictionaries the constructor builds are inverse to each other on
    the values of the column: every value has a code in [words_to_int],
    the code is below the number of categories recorded for the variable,
    and [int_to_words] maps the code back to the value. *)
Theorem DataWrapper_dictionaries_inverse (fit : DataWrapper.frame)
    (continuous_vars categorical_vars context_vars : list string)
    (lower upper : Dict.t R) (w : DataWrapper.t) (j : nat) (v : string)
    (c : DataWrapper.label) :
  DataWrapper.init fit continuous_vars categorical_vars context_vars lower upper = inr w ->
  NoDup categorical_vars ->
  nth_error categorical_vars j = Some v ->
  (exists first rest, DataWrapper.cat_column fit j = first :: rest /\
                      DataWrapper.is_float first = false) ->
  In c (DataWrapper.cat_column fit j) ->
  exists table back i,
    Dict.get (DataWrapper.words_to_int w) v = Some table /\
    Dict.get (DataWrapper.int_to_words w) v = Some back /\
    DataWrapper.word_code table c = Some i /\
    (i < nth j (DataWrapper.cat_dims w) 0)%nat /\
    DataWrapper.code_word back (INR i) = Some c.
Proof.
  intros Hinit Hnd Hv (first & rest & Hcol & Hfloat) Hc.
  destruct (DataWrapper_init_fitted _ _ _ _ _ _ _ Hinit Hnd) as [Hvars Hfit].
  assert (Hj : (j < length categorical_vars)%nat)
    by (apply nth_error_Some; congruence).
  destruct (DataWrapperSpec.fitted_labels _ _ Hfit) as (ls & _ & _ & Hrec).
  rewrite Hvars in Hrec. cbn [DataWrapper.categorical] in Hrec.
  specialize (Hrec j Hj). rewrite (nth_error_nth _ _ _ Hv) in Hrec.
  unfold DataWrapperSpec.recorded in Hrec. rewrite Hcol, Hfloat in Hrec.
  rewrite <- Hcol in Hrec. destruct Hrec as (Hw2i & Hi2w & _).
  set (U := DataWrapper.dummy_columns (DataWrapper.cat_column fit j)) in *.
  assert (HU : In c U) by (apply dummy_columns_In; exact Hc).
  destruct (In_nth_error _ _ HU) as [i Hi].
  assert (HndU : NoDup U) by (apply sorted_NoDup, dummy_columns_sorted).
  exists (DataWrapperSpec.code_table (DataWrapper.cat_column fit j)), (enumerate U), i.
  split; [exact Hw2i|]. split; [exact Hi2w|]. split; [|split].
  - unfold DataWrapperSpec.code_table, enumerate. fold U.
    exact (word_code_nth 0 U c i HndU Hi).
  - rewrite (DataWrapperSpec.fitted_cat_dims _ _ Hfit), Hvars.
    cbn [DataWrapper.categorical].
    rewrite (nth_map_seq (fun j => length (DataWrapper.dummy_columns
                                             (DataWrapper.cat_column fit j))) 0%nat _ j Hj).
    fold U. apply nth_error_Some. congruence.
  - unfold enumerate. exact (code_word_from 0 U i c Hi).
Qed.

Lemma DataWrapper_dictionaries_inverse_witness :
  exists w,
    DataWrapper.init Examples.fit_frame ["age"%string] ["color"%string] [] [] [] = inr w /\
    exists table back i,
      Dict.get (DataWrapper.words_to_int w) "color" = Some table /\
      Dict.get (DataWrapper.int_to_words w) "color" = Some back /\
      DataWrapper.word_code table (DataWrapper.Word "red") = Some i /\
      DataWrapper.code_word back (INR i) = Some (DataWrapper.Word "red").
Proof.
  destruct (DataWrapper_init_total Examples.fit_frame ["age"%string] ["color"%string]
              [] [] [] fit_frame_columns_ok) as [w Hw].
  assert (Hnd : NoDup ["color"%string]) by (constructor; [simpl; tauto|constructor]).
  exists w. split; [exact Hw|].
  destruct (DataWrapper_dictionaries_inverse Examples.fit_frame ["age"%string]
              ["color"%string] [] [] [] w 0 "color" (DataWrapper.Word "red") Hw Hnd eq_refl)
    as (table & back & i & H1 & H2 & H3 & _ & H5).
  - exists (DataWrapper.Word "red"), [DataWrapper.Word "blue"]. split; reflexivity.
  - left. reflexivity.
  - exists table, back, i. repeat split; assumption.
Defined.

(** *** The shape of what [deprocess] returns *)

Lemma map_result_Forall2 {A B} (f : A -> result B) (l : list A) (l' : list B) :
  map_result f l = inr l' -> Forall2 (fun a b => f a = inr b) l l'.
Proof.
  revert l'. induction l as [|a l IH]; intros l' H; simpl in H.
  - unfold ok in H. injection H as <-. constructor.
  - destruct (f a) as [e|b] eqn:Hb; cbn [bind] in H; [discriminate|].
    destruct (map_result f l) as [e|bs]; cbn [bind] in H; [discriminate|].
    unfold ok in H. injection H as <-. constructor; [assumption|apply IH; reflexivity].
Qed.

Lemma map_result_length {A B} (f : A -> result B) (l : list A) (l' : list B) :
  map_result f l = inr l' -> length l' = length l.
Proof.
  intros H. symmetry. exact (Forall2_length (map_result_Forall2 _ _ _ H)).
Qed.

Lemma map_result_Forall {A B} (f : A -> result B) (P : B -> Prop) (l : list A) (l' : list B) :
  map_result f l = inr l' ->
  (forall a b, In a l -> f a = inr b -> P b) ->
  Forall P l'.
Proof.
  intros H HP. pose proof (map_result_Forall2 _ _ _ H) as H2. clear H.
  induction H2 as [|a b l l' Hab _ IH]; constructor.
  - apply (HP a); [left; reflexivity|assumption].
  - apply IH. intros a' b' Hin. apply HP. right. assumption.
Qed.

Lemma map_result_total {A B} (f : A -> result B) (P : B -> Prop) (l : list A) :
  (forall a, In a l -> exists b, f a = inr b /\ P b) ->
  exists bs, map_result f l = inr bs /\ Forall P bs /\ length bs = length l.
Proof.
  induction l as [|a l IH]; intros H; simpl.
  - exists []. repeat split. constructor.
  - destruct (H a (or_introl eq_refl)) as (b & -> & Hb). cbn [bind].
    destruct IH as (bs & -> & Hbs & Hlen); [intros a' Ha'; apply H; right; exact Ha'|].
    cbn [bind]. exists (b :: bs). repeat split; [constructor; assumption|simpl; lia].
Qed.

Lemma unscale_row_length (x m s : list R) :
  length x = length m -> length x = length s ->
  length (DataWrapper.unscale_row x m s) = length x.
Proof.
  revert m s. induction x as [|a x IH]; intros [|b m] [|c s]; simpl; try discriminate; auto.
Qed.

Lemma decode_cells_length w2i i2w (names : list string) (cells : list R)
    (os : list (option DataWrapper.label)) :
  DataWrapper.decode_cells w2i i2w names cells = inr os ->
  length os = Nat.min (length names) (length cells).
Proof.
  revert cells os. induction names as [|k names IH]; intros [|c cells] os H; simpl in H;
    try (unfold ok in H; injection H as <-; reflexivity).
  destruct (DataWrapper.decode_cell w2i i2w k c) as [e|o]; cbn [bind] in H; [discriminate|].
  destruct (DataWrapper.decode_cells w2i i2w names cells) as [e|os'] eqn:Hrest;
    cbn [bind] in H; [discriminate|].
  unfold ok in H. injection H as <-. simpl. rewrite (IH _ _ Hrest). reflexivity.
Qed.

Lemma In_enumerate {A} (l : list A) (i : nat) (a : A) :
  In (i, a) (enumerate l) -> In a l.
Proof. unfold enumerate. apply in_combine_r. Qed.

Lemma enumerate_length {A} (l : list A) : length (enumerate l) = length l.
Proof. unfold enumerate. rewrite length_combine, length_seq. lia. Qed.

(** Every row of indices drawn has as many entries as draws were asked
    for, and at least one. *)
Lemma multinomial_shape (s : DataWrapper.sampler) (j : nat) (p : list (list R)) (k : nat)
    (idx : list (list nat)) :
  DataWrapper.valid_sampler s ->
  DataWrapper.multinomial s j p k = inr idx ->
  length idx = length p /\ Forall (fun d => length d = k /\ (0 < k)%nat) idx.
Proof.
  intros Hs H. unfold DataWrapper.multinomial in H. split.
  - rewrite (map_result_length _ _ _ H). apply enumerate_length.
  - apply (map_result_Forall _ _ _ _ H). intros [i r] d _ Hd.
    destruct (DataWrapper.multinomial_ok r k) eqn:Hok; [|discriminate].
    unfold ok in Hd. injection Hd as <-. split.
    + apply (Hs j i r k Hok).
    + unfold DataWrapper.multinomial_ok in Hok.
      apply andb_prop in Hok as [Hok _]. apply andb_prop in Hok as [_ Hk].
      apply Nat.ltb_lt. exact Hk.
Qed.

Lemma gather_length (labels : list R) (idx : list nat) (v : list R) :
  DataWrapper.gather labels idx = inr v -> length v = length idx.
Proof. apply map_result_length. Qed.

(** The block a categorical variable decodes to has one row per row of
    weights, each [max 1 n_features] wide. *)
Lemma decode_block_shape (w : DataWrapper.t) (s : DataWrapper.sampler) (n j : nat)
    (p : list (list R)) (l : string * list R) (b : list (list R)) :
  DataWrapper.valid_sampler s ->
  DataWrapper.decode_block w s n j p l = inr b ->
  length b = length p /\ Forall (fun r => length r = Nat.max 1 n) b.
Proof.
  intros Hs H. unfold DataWrapper.decode_block in H.
  match type of H with (if ?c then _ else _) = _ => destruct c end.
  - destruct (DataWrapper.multinomial s j p n) as [e|idx] eqn:Hidx; cbn [bind] in H;
      [discriminate|].
    destruct (multinomial_shape _ _ _ _ _ Hs Hidx) as [Hlen Hrows]. split.
    + rewrite (map_result_length _ _ _ H). exact Hlen.
    + apply (map_result_Forall _ _ _ _ H). intros d r Hin Hr.
      rewrite (gather_length _ _ _ Hr).
      rewrite Forall_forall in Hrows. destruct (Hrows d Hin). lia.
  - destruct (DataWrapper.multinomial s j p 1) as [e|idx] eqn:Hidx; cbn [bind] in H;
      [discriminate|].
    destruct (multinomial_shape _ _ _ _ _ Hs Hidx) as [Hlen Hrows].
    match type of H with
    | bind ?m _ = _ => destruct m as [e|first] eqn:Hfirst; cbn [bind] in H; [discriminate|]
    end.
    assert (Hflen : length first = length p)
      by (rewrite (map_result_length _ _ _ Hfirst); exact Hlen).
    assert (Hfrows : Forall (fun r => length r = 1%nat) first).
    { apply (map_result_Forall _ _ _ _ Hfirst). intros d r Hin Hr.
      rewrite (gather_length _ _ _ Hr).
      rewrite Forall_forall in Hrows. destruct (Hrows d Hin). assumption. }
    destruct n as [|[|[|n]]]; destruct p as [|p0 p]; unfold raise, ok in H;
      try discriminate; injection H as <-;
      try (split; [exact Hflen|exact Hfrows]).
    + destruct first; [|discriminate]. split; [reflexivity|constructor].
    + split; [rewrite length_map; exact Hflen|].
      apply Forall_map. revert Hfrows. apply Forall_impl.
      intros r Hr. rewrite length_app, Hr. reflexivity.
    + destruct first; [|discriminate]. split; [reflexivity|constructor].
Qed.

Lemma flat_map_constant_length {A B} (f : A -> list B) (m : nat) (l : list A) :
  Forall (fun a => length (f a) = m) l ->
  length (flat_map f l) = (m * length l)%nat.
Proof.
  induction 1 as [|a l Ha _ IH]; simpl; [lia|].
  rewrite length_app, Ha, IH. lia.
Qed.

Lemma cat_blocks_shape (n m : nat) (blocks : list (list (list R))) :
  Forall (fun b => length b = n /\ Forall (fun r => length r = m) b) blocks ->
  length (DataWrapper.cat_blocks n blocks) = n /\
  Forall (fun r => length r = (m * length blocks)%nat) (DataWrapper.cat_blocks n blocks).
Proof.
  intros H. unfold DataWrapper.cat_blocks. split; [rewrite length_map, length_seq; reflexivity|].
  apply Forall_map. apply Forall_forall. intros i Hi. apply in_seq in Hi.
  apply flat_map_constant_length. revert H. apply Forall_impl.
  intros b [Hlen Hrows]. rewrite Forall_forall in Hrows. apply Hrows.
  apply nth_In. lia.
Qed.

(** A fitted wrapper has one positive dimension and one label tensor per
    categorical variable. *)
Lemma fitted_dims (fit : DataWrapper.frame) (w : DataWrapper.t) :
  DataWrapperSpec.fitted fit w ->
  length (DataWrapper.cat_dims w)
  = length (DataWrapper.categorical (DataWrapper.variables w)) /\
  length (DataWrapper.cat_labels w)
  = length (DataWrapper.categorical (DataWrapper.variables w)) /\
  Forall (fun k => (0 < k)%nat) (DataWrapper.cat_dims w).
Proof.
  intros F. destruct (DataWrapperSpec.fitted_labels _ _ F) as (ls & Hlabels & Hls & Hrec).
  rewrite (DataWrapperSpec.fitted_cat_dims _ _ F), Hlabels.
  rewrite length_map, length_seq, length_combine, Hls. repeat split; try lia.
  apply Forall_map. apply Forall_forall. intros j Hj. apply in_seq in Hj.
  apply (recorded_nonempty _ _ _ _ _ _ (Hrec j ltac:(lia))).
Qed.

(** The rows [deprocess] decodes, for a fitted wrapper: as many as rows
    were given, each with one cell per variable of the wrapper as the
    call leaves it. *)
Lemma deprocess_rows (fit : DataWrapper.frame) (w w' : DataWrapper.t)
    (s : DataWrapper.sampler) (x ctx : list (list R)) (n : nat)
    (out : list DataWrapper.out_row) :
  DataWrapperSpec.fitted fit w ->
  DataWrapper.valid_sampler s ->
  length ctx = length x ->
  Forall (fun r => length r = length (DataWrapper.context (DataWrapper.variables w))) ctx ->
  DataWrapper.deprocess w s x ctx n = inr (out, w') ->
  length out = length x /\
  Forall (fun r =>
            length (DataWrapper.out_cont r)
            = length (DataWrapper.continuous (DataWrapper.variables w')) /\
            length (DataWrapper.out_cat r)
            = length (DataWrapper.categorical (DataWrapper.variables w')) /\
            length (DataWrapper.out_ctx r)
            = length (DataWrapper.context (DataWrapper.variables w'))) out.
Proof.
  intros F Hs Hlen Hctx H.
  destruct (fitted_dims _ _ F) as (Hdims & Hlabels & Hpos).
  unfold DataWrapper.deprocess in H.
  match type of H with
  | bind ?m _ = _ => destruct m as [e|parts] eqn:Hparts; cbn [bind] in H; [discriminate|]
  end.
  assert (Hplen : length parts = length x) by exact (map_result_length _ _ _ Hparts).
  assert (Hprows :
            Forall (fun part =>
                      length (nth 0 part []) = length (fst (DataWrapper.means w)) /\
                      length (nth 1 part []) = list_sum (DataWrapper.cat_dims w)) parts).
  { apply (map_result_Forall _ _ _ _ Hparts). intros r part _ Hr.
    destruct (split_two _ _ _ _ Hr) as [-> Hr']. simpl.
    rewrite length_firstn, length_skipn. lia. }
  match type of H with
  | bind ?m _ = _ => destruct m as [e|x_cat] eqn:Hcat; cbn [bind] in H; [discriminate|]
  end.
  match type of H with
  | bind ?m _ = _ =>
      destruct m as [e|[[names w2i] i2w]] eqn:Hext; cbn [bind] in H; [discriminate|]
  end.
  pose proof (extend_variables_names _ _ _ _ _ _ _ Hext) as Hnames.
  match type of H with
  | bind ?m _ = _ => destruct m as [e|?]; cbn [bind] in H; [discriminate|]
  end.
  match type of H with
  | bind ?m _ = _ => destruct m as [e|cells] eqn:Hcells; cbn [bind] in H; [discriminate|]
  end.
  unfold ok in H. injection H as <- <-.
  cbn [DataWrapper.variables DataWrapper.continuous DataWrapper.categorical
         DataWrapper.context].
  assert (Hxcat : length x_cat = length x /\
                  Forall (fun r => length r = length names) x_cat).
  { destruct (0 <? list_sum (DataWrapper.cat_dims w))%nat eqn:Hd.
    - match type of Hcat with
      | bind ?m _ = _ =>
          destruct m as [e|blocks] eqn:Hblocks; cbn [bind] in Hcat; [discriminate|]
      end.
      unfold ok in Hcat. injection Hcat as <-.
      assert (Hb : Forall (fun b => length b = length x /\
                                    Forall (fun r => length r = Nat.max 1 n) b) blocks).
      { apply (map_result_Forall _ _ _ _ Hblocks). intros [j lab] b _ Hjb.
        destruct (decode_block_shape _ _ _ _ _ _ _ Hs Hjb) as [Hbl Hbr].
        split; [|exact Hbr]. rewrite Hbl. unfold DataWrapper.block.
        rewrite !length_map. exact Hplen. }
      destruct (cat_blocks_shape _ _ _ Hb) as [Hcl Hcr]. split; [exact Hcl|].
      revert Hcr. apply Forall_impl. intros r Hr.
      pose proof (map_result_length _ _ _ Hblocks) as Hbl.
      rewrite length_combine, length_seq in Hbl.
      rewrite Hnames, with_fillers_length, Hr. f_equal.
      etransitivity; [exact Hbl|]. lia.
    - unfold ok in Hcat. injection Hcat as <-. rewrite length_map. split; [exact Hplen|].
      apply Nat.ltb_ge in Hd.
      assert (Hnil : DataWrapper.cat_dims w = [])
        by (apply list_sum_pos; [exact Hpos|lia]).
      assert (Hvars : DataWrapper.categorical (DataWrapper.variables w) = []).
      { rewrite Hnil in Hdims. symmetry in Hdims. apply length_zero_iff_nil. exact Hdims. }
      apply Forall_map. revert Hprows. apply Forall_impl. intros part [_ Hp].
      rewrite Hp, Hnil, Hnames, Hvars. reflexivity. }
  destruct Hxcat as [Hxl Hxr].
  assert (Hcl : length cells = length x)
    by (rewrite (map_result_length _ _ _ Hcells); exact Hxl).
  unfold Tensor.mat, Tensor.vec in *. split.
  - rewrite length_map, !length_combine, !length_map. lia.
  - apply Forall_map. apply Forall_forall. intros [[c k] z] Hin.
    pose proof (in_combine_l _ _ _ _ Hin) as Hck.
    pose proof (in_combine_r _ _ _ _ Hin) as Hz.
    pose proof (in_combine_l _ _ _ _ Hck) as Hc.
    pose proof (in_combine_r _ _ _ _ Hck) as Hk.
    cbn [DataWrapper.out_cont DataWrapper.out_cat DataWrapper.out_ctx].
    repeat split.
    + apply in_map_iff in Hc as (part & <- & Hpart).
      rewrite Forall_forall in Hprows. destruct (Hprows part Hpart) as [Hp _].
      rewrite unscale_row_length; rewrite Hp;
        [apply (DataWrapperSpec.fitted_means_cont _ _ F)|reflexivity|].
      etransitivity; [apply (DataWrapperSpec.fitted_means_cont _ _ F)|].
      symmetry. apply (DataWrapperSpec.fitted_stds_cont _ _ F).
    + assert (Hall : Forall (fun os => length os = length names) cells).
      { apply (map_result_Forall _ _ _ _ Hcells). intros r os Hr Hos.
        rewrite (decode_cells_length _ _ _ _ _ Hos).
        rewrite Forall_forall in Hxr. rewrite (Hxr r Hr). lia. }
      rewrite Forall_forall in Hall. exact (Hall k Hk).
    + apply in_map_iff in Hz as (r & <- & Hr).
      rewrite Forall_forall in Hctx. pose proof (Hctx r Hr) as Hrl.
      rewrite unscale_row_length; rewrite Hrl; [reflexivity| |].
      * symmetry. apply (DataWrapperSpec.fitted_means_ctx _ _ F).
      * symmetry. apply (DataWrapperSpec.fitted_stds_ctx _ _ F).
Qed.

(** *** Frames *)

Lemma has_In (df : Frame.t) (k : string) :
  Frame.has df k = true <-> In k (Frame.columns df).
Proof.
  unfold Frame.has, Frame.columns, Dict.mem. split.
  - destruct (Dict.get (Frame.cols df) k) eqn:Hget; [|discriminate].
    intros _. exact (get_some_keys _ _ _ Hget).
  - intros Hin. destruct (Dict_get_keys _ _ Hin) as [v ->]. reflexivity.
Qed.

Lemma of_items_keys (items : list (string * list Frame.cell)) (k : string) :
  In k (Dict.keys (Frame.of_items items)) <-> In k (map fst items).
Proof.
  unfold Frame.of_items.
  assert (H : forall acc : Dict.t (list Frame.cell),
             In k (Dict.keys (fold_left (fun d kc => Dict.set d (fst kc) (snd kc)) items acc))
             <-> In k (Dict.keys acc) \/ In k (map fst items)).
  { induction items as [|[k' c] items IH]; intros acc; simpl; [tauto|].
    rewrite IH, keys_set.
    pose proof (has_In {| Frame.n_rows := 0; Frame.cols := acc |} k') as Hmem.
    unfold Frame.has, Frame.columns in Hmem. simpl in Hmem.
    destruct (Dict.mem acc k').
    - assert (Hk' : In k' (Dict.keys acc)) by (apply Hmem; reflexivity).
      split; [tauto|]. intros [Hk|[<-|Hk]]; tauto.
    - rewrite in_app_iff. simpl. split; [tauto|]. intros [Hk|[<-|Hk]]; tauto. }
  rewrite H. simpl. tauto.
Qed.

Lemma select_spec (df : Frame.t) (names : list string) (cs : list (list Frame.cell)) :
  Frame.select df names = inr cs ->
  length cs = length names /\ forall k, In k names -> In k (Frame.columns df).
Proof.
  intros H. unfold Frame.select in H. split; [exact (map_result_length _ _ _ H)|].
  pose proof (map_result_Forall2 _ _ _ H) as H2. clear H.
  induction H2 as [|k c names cs Hk _ IH]; intros k' Hin; [contradiction|].
  destruct Hin as [<-|Hin]; [|apply IH; assumption].
  destruct (Dict.get (Frame.cols df) k) eqn:Hget; [|discriminate].
  exact (get_some_keys _ _ _ Hget).
Qed.

Lemma restrict_columns (df r : Frame.t) (names : list string) :
  Frame.restrict df names = inr r ->
  Frame.columns r = names /\ Frame.n_rows r = Frame.n_rows df.
Proof.
  unfold Frame.restrict. intros H.
  destruct (Frame.select df names) as [e|cs] eqn:Hsel; cbn [bind] in H; [discriminate|].
  unfold ok in H. injection H as <-. unfold Frame.columns, Dict.keys. simpl.
  destruct (select_spec _ _ _ Hsel) as [Hlen _]. split; [|reflexivity].
  clear Hsel. revert cs Hlen. induction names as [|k names IH]; intros [|c cs] Hlen;
    simpl in *; try discriminate; [reflexivity|].
  f_equal. apply IH. lia.
Qed.

Lemma drop_ignore_columns (df : Frame.t) (names : list string) (c : string) :
  In c (Frame.columns (Frame.drop_ignore df names))
  <-> In c (Frame.columns df) /\ ~ In c names.
Proof.
  unfold Frame.columns, Frame.drop_ignore, Dict.keys. simpl.
  rewrite !in_map_iff. split.
  - intros ([k v] & <- & Hin). apply filter_In in Hin as [Hin Hneg]. simpl in *. split.
    + exists (k, v). split; [reflexivity|assumption].
    + intros Hk. apply In_existsb_eqb in Hk. rewrite Hk in Hneg. discriminate.
  - intros [([k v] & <- & Hin) Hout]. exists (k, v). split; [reflexivity|].
    apply filter_In. split; [assumption|]. simpl in *.
    destruct (existsb (String.eqb k) names) eqn:Hk; [|reflexivity].
    apply In_existsb_eqb in Hk. contradiction.
Qed.

Lemma drop_spec (df r : Frame.t) (names : list string) :
  Frame.drop df names = inr r -> r = Frame.drop_ignore df names.
Proof.
  unfold Frame.drop. intros H.
  match type of H with
  | bind ?m _ = _ => destruct m as [e|?]; cbn [bind] in H; [discriminate|]
  end.
  unfold ok in H. injection H as <-. reflexivity.
Qed.

(** A join that returns has found no column of the left frame in the
    right one, and puts the columns of the right frame after those of the
    left. *)
Lemma join_spec (left right j : Frame.t) :
  Frame.join left right = inr j ->
  Frame.columns j = (Frame.columns left ++ Frame.columns right)%list /\
  Frame.n_rows j = Frame.n_rows left /\
  forall c, In c (Frame.columns left) -> ~ In c (Frame.columns right).
Proof.
  unfold Frame.join. intros H.
  destruct (existsb (Frame.has right) (Frame.columns left)) eqn:Hov; [discriminate|].
  unfold ok in H. injection H as <-. unfold Frame.columns, Dict.keys. simpl.
  rewrite map_app, map_map. simpl. repeat split.
  intros c Hc Hr.
  assert (Hex : existsb (Frame.has right) (Frame.columns left) = true).
  { apply existsb_exists. exists c. split; [exact Hc|]. apply has_In. exact Hr. }
  rewrite Hex in Hov. discriminate.
Qed.

Lemma join_overlap (left right : Frame.t) (c : string) :
  In c (Frame.columns left) -> In c (Frame.columns right) ->
  Frame.join left right = inl (ValueError "columns overlap but no suffix specified").
Proof.
  intros Hl Hr. unfold Frame.join.
  assert (Hex : existsb (Frame.has right) (Frame.columns left) = true).
  { apply existsb_exists. exists c. split; [exact Hl|]. apply has_In. exact Hr. }
  rewrite Hex. reflexivity.
Qed.

Lemma of_rows_columns_In (w : DataWrapper.t) (out : list DataWrapper.out_row) (c : string) :
  In c (Frame.columns (Frame.of_rows w out)) ->
  In c (DataWrapper.continuous (DataWrapper.variables w)
        ++ DataWrapper.categorical (DataWrapper.variables w)
        ++ DataWrapper.context (DataWrapper.variables w))%list.
Proof.
  unfold Frame.columns, Frame.of_rows. cbn [Frame.cols]. rewrite of_items_keys.
  intros Hin. apply in_map_iff in Hin as ([k v] & <- & Hin).
  exact (in_combine_l _ _ _ _ Hin).
Qed.

Lemma map_fst_combine {A B} (l : list A) (l' : list B) :
  length l = length l' -> map fst (combine l l') = l.
Proof.
  revert l'. induction l as [|a l IH]; intros [|b l'] H; simpl in *; try discriminate;
    [reflexivity|].
  f_equal. apply IH. lia.
Qed.

(** With rows that have one cell per variable, the decoded frame has a
    column for every variable. *)
Lemma of_rows_columns_all (w : DataWrapper.t) (out : list DataWrapper.out_row) (c : string) :
  out <> [] ->
  Forall (fun r =>
            length (DataWrapper.out_cont r)
            = length (DataWrapper.continuous (DataWrapper.variables w)) /\
            length (DataWrapper.out_cat r)
            = length (DataWrapper.categorical (DataWrapper.variables w)) /\
            length (DataWrapper.out_ctx r)
            = length (DataWrapper.context (DataWrapper.variables w))) out ->
  In c (DataWrapper.continuous (DataWrapper.variables w)
        ++ DataWrapper.categorical (DataWrapper.variables w)
        ++ DataWrapper.context (DataWrapper.variables w))%list ->
  In c (Frame.columns (Frame.of_rows w out)).
Proof.
  intros Hne Hrows Hc. unfold Frame.columns, Frame.of_rows. cbn [Frame.cols].
  rewrite of_items_keys. rewrite map_fst_combine; [exact Hc|].
  rewrite length_map, length_seq.
  destruct out as [|r out]; [contradiction|]. inversion Hrows as [|? ? (H1 & H2 & H3) _]; subst.
  simpl. rewrite !length_app, !length_map. lia.
Qed.

(** *** [apply_generator] *)

Lemma numbers_length (row : list (option R)) (v : list R) :
  Frame.numbers row = Some v -> length v = length row.
Proof.
  revert v. induction row as [|[r|] row IH]; intros v H; simpl in H; try discriminate.
  - injection H as <-. reflexivity.
  - destruct (Frame.numbers row) as [v'|]; [|discriminate].
    injection H as <-. simpl. rewrite (IH v' eq_refl). reflexivity.
Qed.

Lemma tensor_columns_spec (df : Frame.t) (names : list string)
    (cols : list (list (option R))) :
  Frame.tensor_columns df names = inr cols ->
  length cols = length names /\ forall k, In k names -> In k (Frame.columns df).
Proof.
  unfold Frame.tensor_columns. intros H.
  destruct (Frame.select df names) as [e|cs] eqn:Hsel; cbn [bind] in H; [discriminate|].
  destruct (select_spec _ _ _ Hsel) as [Hlen Hin]. split; [|exact Hin].
  rewrite (map_result_length _ _ _ H). exact Hlen.
Qed.

(** What a call of [preprocess] that returns has found in the frame, and
    the shape of what it returns. *)
Lemma Frame_preprocess_spec (w : DataWrapper.t) (df : Frame.t) (x ctx : list (list R)) :
  Frame.preprocess w df = inr (x, ctx) ->
  length x = Frame.n_rows df /\ length ctx = Frame.n_rows df /\
  (forall k, In k (DataWrapper.continuous (DataWrapper.variables w)
                   ++ DataWrapper.categorical (DataWrapper.variables w)
                   ++ DataWrapper.context (DataWrapper.variables w))%list ->
             In k (Frame.columns df)) /\
  Forall (fun r => exists cr,
              length cr = length (DataWrapper.context (DataWrapper.variables w)) /\
              r = DataWrapper.scale_row cr (snd (DataWrapper.means w))
                                           (snd (DataWrapper.stds w))) ctx.
Proof.
  unfold Frame.preprocess. intros H.
  destruct (Frame.tensor_columns df (DataWrapper.continuous _)) as [e|xc] eqn:Hx;
    cbn [bind] in H; [discriminate|].
  destruct (Frame.tensor_columns df (DataWrapper.context _)) as [e|cc] eqn:Hc;
    cbn [bind] in H; [discriminate|].
  match type of H with
  | bind ?m _ = _ => destruct m as [e|cat] eqn:Hcat; cbn [bind] in H; [discriminate|]
  end.
  match type of H with
  | bind ?m _ = _ => destruct m as [e|rows] eqn:Hrows; cbn [bind] in H; [discriminate|]
  end.
  unfold ok in H. injection H as <- <-.
  destruct (tensor_columns_spec _ _ _ Hx) as [_ Hxin].
  destruct (tensor_columns_spec _ _ _ Hc) as [Hclen Hcin].
  pose proof (map_result_length _ _ _ Hrows) as Hlen. rewrite length_seq in Hlen.
  rewrite !length_map. repeat split; try exact Hlen.
  - intros k Hk. apply in_app_iff in Hk as [Hk|Hk]; [auto|].
    apply in_app_iff in Hk as [Hk|Hk]; [|auto].
    destruct (DataWrapper.categorical (DataWrapper.variables w)) as [|v vars] eqn:Hvars;
      [contradiction|].
    simpl in Hcat. destruct (select_spec _ _ _ Hcat) as [_ Hin]. auto.
  - apply Forall_map.
    apply (map_result_Forall _ _ _ _ Hrows). intros i [xr cr] _ Hi.
    destruct (Frame.numbers (Frame.row_of None xc i)) as [xr'|]; [|discriminate].
    destruct (Frame.numbers (Frame.row_of None cc i)) as [cr'|] eqn:Hn; [|discriminate].
    unfold ok in Hi. injection Hi as <- <-. exists cr'. split; [|reflexivity].
    rewrite (numbers_length _ _ Hn). unfold Frame.row_of. rewrite length_map. exact Hclen.
Qed.

Lemma generate_length (generator : Generator.t) (noise : nat -> list R)
    (context x_hat : list (list R)) :
  Frame.generate generator noise context = inr x_hat -> length x_hat = length context.
Proof.
  unfold Frame.generate. intros H. rewrite (map_result_length _ _ _ H).
  apply enumerate_length.
Qed.

Lemma sample_df0_rows (w : DataWrapper.t) (n : nat) (df : Frame.t) :
  Frame.sample_df0 w n = inr df -> Frame.n_rows df = n.
Proof.
  unfold Frame.sample_df0. destruct (DataWrapper.df0 w) as [|r rest].
  - destruct (Nat.eqb_spec n 0) as [->|]; [|discriminate].
    unfold ok. intros [= <-]. reflexivity.
  - unfold ok. intros [= <-]. reflexivity.
Qed.

(** The steps of a call of [apply_generator] that returns. *)
Lemma apply_generator_inv (w w' : DataWrapper.t) (generator : Generator.t)
    (noise : nat -> list R) (s : DataWrapper.sampler) (df r : Frame.t) (n : nat)
    (updated : list string) :
  updated = (DataWrapper.continuous (DataWrapper.variables w)
             ++ DataWrapper.categorical (DataWrapper.variables w))%list ->
  Frame.apply_generator w generator noise s df n = inr (r, w') ->
  exists sampled joined x context x_hat out,
    Frame.sample_df0 w (Frame.n_rows df) = inr sampled /\
    Frame.join sampled (Frame.drop_ignore df updated) = inr joined /\
    Frame.preprocess w joined = inr (x, context) /\
    Frame.generate generator noise context = inr x_hat /\
    DataWrapper.deprocess w s x_hat context n = inr (out, w') /\
    exists both,
      Frame.join (Frame.of_rows w' out) (Frame.drop_ignore joined updated) = inr both /\
      Frame.restrict both (Frame.columns (Frame.of_rows w' out)) = inr r.
Proof.
  intros Hu H. unfold Frame.apply_generator in H. rewrite <- Hu in H.
  cbn [Frame.drop_ignore Frame.n_rows] in H.
  destruct (Frame.sample_df0 w (Frame.n_rows df)) as [e|sampled] eqn:Hs; cbn [bind] in H;
    [discriminate|].
  match type of H with
  | bind ?m _ = _ => destruct m as [e|joined] eqn:Hj; cbn [bind] in H; [discriminate|]
  end.
  destruct (Frame.preprocess w joined) as [e|[x context]] eqn:Hp; cbn [bind] in H;
    [discriminate|].
  destruct (Frame.generate generator noise context) as [e|x_hat] eqn:Hg; cbn [bind] in H;
    [discriminate|].
  destruct (DataWrapper.deprocess w s x_hat context n) as [e|[out w1]] eqn:Hd;
    cbn [bind] in H; [discriminate|].
  destruct (Frame.drop joined updated) as [e|right] eqn:Hdrop; cbn [bind] in H;
    [discriminate|].
  apply drop_spec in Hdrop. subst right.
  match type of H with
  | bind ?m _ = _ => destruct m as [e|both] eqn:Hb; cbn [bind] in H; [discriminate|]
  end.
  match type of H with
  | bind ?m _ = _ => destruct m as [e|r'] eqn:Hr; cbn [bind] in H; [discriminate|]
  end.
  unfold ok in H. injection H as <- <-.
  exists sampled, joined, x, context, x_hat, out.
  do 5 (split; [first [assumption|reflexivity]|]).
  exists both. split; assumption.
Qed.

Lemma deprocess_keeps_names (w w' : DataWrapper.t) (s : DataWrapper.sampler)
    (x ctx : list (list R)) (n : nat) (out : list DataWrapper.out_row) :
  DataWrapper.deprocess w s x ctx n = inr (out, w') ->
  DataWrapper.continuous (DataWrapper.variables w')
  = DataWrapper.continuous (DataWrapper.variables w) /\
  DataWrapper.context (DataWrapper.variables w')
  = DataWrapper.context (DataWrapper.variables w).
Proof.
  unfold DataWrapper.deprocess. intros H.
  repeat match type of H with
         | bind ?m _ = _ => destruct m as [e|?]; cbn [bind] in H; [discriminate|]
         | context [let '(_, _) := ?p in _] => destruct p
         end.
  unfold ok in H. injection H as _ <-. split; reflexivity.
Qed.

(** X21: the frame [apply_generator] returns has generated columns only.
    For a wrapper whose categorical variables [deprocess] has not
    extended before, every column of the result is named after a variable
    of the wrapper as the call leaves it, and a column of the frame passed
    in is in the result only if it is one of the continuous or categorical
    variables, whose values are then the generated ones: the other columns
    of the frame are not returned with it. *)
Theorem apply_generator_returns_generated_columns_only (w w' : DataWrapper.t)
    (generator : Generator.t) (noise : nat -> Tensor.vec) (s : DataWrapper.sampler)
    (df r : Frame.t) (n_features : nat) :
  FrameSpec.df0_current w ->
  Frame.apply_generator w generator noise s df n_features = inr (r, w') ->
  forall c, In c (Frame.columns r) ->
    In c (DataWrapper.continuous (DataWrapper.variables w')
          ++ DataWrapper.categorical (DataWrapper.variables w')
          ++ DataWrapper.context (DataWrapper.variables w'))%list /\
    (In c (Frame.columns df) ->
     In c (DataWrapper.continuous (DataWrapper.variables w)
           ++ DataWrapper.categorical (DataWrapper.variables w))%list).
Proof.
  intros _ H c Hc.
  destruct (apply_generator_inv _ _ _ _ _ _ _ _ _ eq_refl H)
    as (sampled & joined & x & context & x_hat & out & Hsam & Hj & Hp & Hg & Hd
        & both & Hb & Hr).
  destruct (restrict_columns _ _ _ Hr) as [Hcols _]. rewrite Hcols in Hc.
  split; [exact (of_rows_columns_In _ _ _ Hc)|].
  intros Hdf.
  destruct (in_dec string_dec c
              (DataWrapper.continuous (DataWrapper.variables w)
               ++ DataWrapper.categorical (DataWrapper.variables w))%list)
    as [Hin|Hout]; [exact Hin|exfalso].
  destruct (join_spec _ _ _ Hb) as (_ & _ & Hdisj). apply (Hdisj c Hc).
  apply drop_ignore_columns. split; [|exact Hout].
  destruct (join_spec _ _ _ Hj) as (Hjc & _ & _). rewrite Hjc. apply in_app_iff. right.
  apply drop_ignore_columns. split; assumption.
Qed.

Lemma apply_generator_returns_generated_columns_only_witness :
  FrameSpec.df0_current Cases.plain_wrapper /\
  exists r,
    Frame.apply_generator Cases.plain_wrapper Cases.plain_generator Cases.no_noise
      Examples.first_positive Cases.ids 1 = inr (r, Cases.plain_wrapper) /\
    forall c, In c (Frame.columns r) ->
      In c ["y"%string] /\ (In c (Frame.columns Cases.ids) -> In c ["y"%string]).
Proof.
  assert (H0 : FrameSpec.df0_current Cases.plain_wrapper)
    by (repeat constructor).
  split; [exact H0|].
  eexists. split; [vm_compute; reflexivity|].
  apply (apply_generator_returns_generated_columns_only
           Cases.plain_wrapper Cases.plain_wrapper Cases.plain_generator Cases.no_noise
           Examples.first_positive Cases.ids _ 1 H0).
  vm_compute. reflexivity.
Defined.

Lemma ctx_rows_width (fit : DataWrapper.frame) (w : DataWrapper.t) (ctx : list (list R)) :
  DataWrapperSpec.fitted fit w ->
  Forall (fun r => exists cr,
              length cr = length (DataWrapper.context (DataWrapper.variables w)) /\
              r = DataWrapper.scale_row cr (snd (DataWrapper.means w))
                                           (snd (DataWrapper.stds w))) ctx ->
  Forall (fun r => length r = length (DataWrapper.context (DataWrapper.variables w))) ctx.
Proof.
  intros F. apply Forall_impl. intros r (cr & Hcr & ->).
  rewrite scale_row_length; [exact Hcr| |]; rewrite Hcr; symmetry.
  - apply (DataWrapperSpec.fitted_means_ctx _ _ F).
  - apply (DataWrapperSpec.fitted_stds_ctx _ _ F).
Qed.

(** X22: with a context variable that is not also a generated one, a call
    of [apply_generator] on a frame with rows never returns a frame.  When
    sampling, [preprocess], the generator and [deprocess] all return, the
    generated frame and what is left of the frame passed in both have the
    context columns, and the join of the last line raises a [ValueError]
    over them. *)
Theorem apply_generator_fails_with_context (fit : DataWrapper.frame)
    (continuous_vars categorical_vars context_vars : list string)
    (lower upper : Dict.t R) (w : DataWrapper.t)
    (generator : Generator.t) (noise : nat -> Tensor.vec) (s : DataWrapper.sampler)
    (df : Frame.t) (n_features : nat) :
  DataWrapper.init fit continuous_vars categorical_vars context_vars lower upper = inr w ->
  NoDup categorical_vars ->
  DataWrapper.valid_sampler s ->
  (exists c, In c context_vars /\ ~ In c (continuous_vars ++ categorical_vars)) ->
  (0 < Frame.n_rows df)%nat ->
  exists e,
    Frame.apply_generator w generator noise s df n_features = inl e /\
    (FrameSpec.decodes w generator noise s df n_features ->
     e = ValueError "columns overlap but no suffix specified").
Proof.
  intros Hinit Hnd Hs (c & Hc & Hnot) Hrows.
  destruct (DataWrapper_init_fitted _ _ _ _ _ _ _ Hinit Hnd) as [Hvars F].
  assert (Hov : forall joined x context x_hat out w',
             Frame.n_rows joined = Frame.n_rows df ->
             Frame.preprocess w joined = inr (x, context) ->
             Frame.generate generator noise context = inr x_hat ->
             DataWrapper.deprocess w s x_hat context n_features = inr (out, w') ->
             Frame.join (Frame.of_rows w' out)
               (Frame.drop_ignore joined
                  (DataWrapper.continuous (DataWrapper.variables w)
                   ++ DataWrapper.categorical (DataWrapper.variables w)))
             = inl (ValueError "columns overlap but no suffix specified")).
  { intros joined x context x_hat out w' Hjn Hp Hg Hd.
    destruct (Frame_preprocess_spec _ _ _ _ Hp) as (_ & Hcl & Hcols & Hcrows).
    pose proof (generate_length _ _ _ _ Hg) as Hgl.
    destruct (deprocess_rows _ _ _ _ _ _ _ _ F Hs (eq_sym Hgl)
                (ctx_rows_width _ _ _ F Hcrows) Hd) as [Hol Hshape].
    destruct (deprocess_keeps_names _ _ _ _ _ _ _ Hd) as [_ Hctx'].
    assert (Hne : out <> []).
    { intros ->. simpl in Hol. unfold Tensor.mat, Tensor.vec in *. lia. }
    apply (join_overlap _ _ c).
    - apply of_rows_columns_all; [exact Hne|exact Hshape|].
      rewrite Hctx', Hvars. cbn [DataWrapper.context]. rewrite !in_app_iff. tauto.
    - apply drop_ignore_columns. split.
      + apply Hcols. rewrite Hvars. cbn [DataWrapper.context]. rewrite !in_app_iff. tauto.
      + rewrite Hvars. exact Hnot. }
  destruct (Frame.apply_generator w generator noise s df n_features) as [e|[r w']] eqn:H.
  - exists e. split; [reflexivity|].
    intros (sampled & joined & x & context & x_hat & out & w' & Hsam & Hj & Hp & Hg & Hd).
    destruct (join_spec _ _ _ Hj) as (_ & Hjr & _).
    pose proof (sample_df0_rows _ _ _ Hsam) as Hsr.
    unfold Frame.apply_generator in H.
    change (Frame.n_rows
              (Frame.drop_ignore df
                 (DataWrapper.continuous (DataWrapper.variables w)
                  ++ DataWrapper.categorical (DataWrapper.variables w))))
      with (Frame.n_rows df) in H.
    rewrite Hsam in H. cbn [bind] in H. rewrite Hj in H. cbn [bind] in H.
    rewrite Hp in H. cbn [bind] in H. rewrite Hg in H. cbn [bind] in H.
    rewrite Hd in H. cbn [bind] in H.
    destruct (Frame.drop joined _) as [e'|right] eqn:Hdrop in H.
    + exfalso. unfold Frame.drop in Hdrop.
      match type of Hdrop with
      | bind ?m _ = _ =>
          destruct (map_result_total
                      (fun k => if Frame.has joined k then ok tt else raise (KeyError k))
                      (fun _ => True)
                      (DataWrapper.continuous (DataWrapper.variables w)
                       ++ DataWrapper.categorical (DataWrapper.variables w)))
            as (units & Hunits & _)
      end.
      * intros k Hk. exists tt. split; [|exact I].
        destruct (Frame_preprocess_spec _ _ _ _ Hp) as (_ & _ & Hcols & _).
        assert (Hhas : Frame.has joined k = true).
        { apply has_In, Hcols. rewrite !in_app_iff in *. tauto. }
        rewrite Hhas. reflexivity.
      * rewrite Hunits in Hdrop. discriminate.
    + apply drop_spec in Hdrop. subst right. cbn [bind] in H.
      rewrite (Hov joined x context x_hat out w') in H; try assumption.
      * cbn [bind] in H. injection H as <-. reflexivity.
      * rewrite Hjr. exact Hsr.
  - exfalso.
    destruct (apply_generator_inv _ _ _ _ _ _ _ _ _ eq_refl H)
      as (sampled & joined & x & context & x_hat & out & Hsam & Hj & Hp & Hg & Hd
          & both & Hb & Hr).
    destruct (join_spec _ _ _ Hj) as (_ & Hjr & _).
    pose proof (sample_df0_rows _ _ _ Hsam) as Hsr.
    rewrite (Hov joined x context x_hat out w') in Hb; try assumption;
      [discriminate|]. rewrite Hjr. exact Hsr.
Qed.

Lemma apply_generator_fails_with_context_witness :
  exists w e,
    DataWrapper.init Cases.xy_frame ["y"%string] [] ["z"%string] [] [] = inr w /\
    FrameSpec.decodes w Cases.xy_generator Cases.no_noise Examples.first_positive
      Cases.z_frame 1 /\
    Frame.apply_generator w Cases.xy_generator Cases.no_noise
      Examples.first_positive Cases.z_frame 1 = inl e /\
    e = ValueError "columns overlap but no suffix specified".
Proof.
  assert (Hrun : exists w,
             DataWrapper.init Cases.xy_frame ["y"%string] [] ["z"%string] [] [] = inr w /\
             FrameSpec.decodes w Cases.xy_generator Cases.no_noise Examples.first_positive
               Cases.z_frame 1).
  { eexists. split; [vm_compute; reflexivity|].
    unfold FrameSpec.decodes. do 7 eexists.
    split; [vm_compute; reflexivity|]. split; [vm_compute; reflexivity|].
    split; [vm_compute; reflexivity|]. split; [vm_compute; reflexivity|].
    vm_compute. reflexivity. }
  destruct Hrun as (w & Hw & Hd).
  destruct (apply_generator_fails_with_context
              Cases.xy_frame ["y"%string] [] ["z"%string] [] [] w
              Cases.xy_generator Cases.no_noise Examples.first_positive Cases.z_frame 1 Hw)
    as (e & He & Hval).
  - constructor.
  - exact first_positive_valid.
  - exists "z"%string. split; [left; reflexivity|].
    intros [H|[]]. discriminate.
  - simpl. lia.
  - exists w, e. split; [exact Hw|]. split; [exact Hd|].
    split; [exact He|]. exact (Hval Hd).
Defined.

(** *** [apply_critic] *)

Lemma select_columns (df : Frame.t) (names : list string) (cs : list (list Frame.cell)) :
  Frame.select df names = inr cs -> cs = map (FrameSpec.column df) names.
Proof.
  unfold Frame.select. revert cs. induction names as [|k names IH]; intros cs H; simpl in H.
  - unfold ok in H. injection H as <-. reflexivity.
  - destruct (Dict.get (Frame.cols df) k) as [c|] eqn:Hget; unfold ok at 1, raise in H;
      cbn [bind] in H; [|discriminate].
    match type of H with
    | bind ?m _ = _ => destruct m as [e|cs'] eqn:Hrest; cbn [bind] in H; [discriminate|]
    end.
    unfold ok in H. injection H as <-. simpl. unfold FrameSpec.column at 1. rewrite Hget.
    f_equal. apply IH. exact Hrest.
Qed.

Lemma Frame_one_hot_length (columns : list DataWrapper.label) (c : Frame.cell) :
  length (Frame.one_hot columns c) = length columns.
Proof.
  destruct c as [l|]; simpl; [apply one_hot_length|apply length_map].
Qed.

Lemma dummies_length (cs : list (list Frame.cell)) (i : nat) :
  length (flat_map (fun c => Frame.one_hot (Frame.dummy_columns c) (nth i c None)) cs)
  = list_sum (map (fun c => length (Frame.dummy_columns c)) cs).
Proof.
  induction cs as [|c cs IH]; simpl; [reflexivity|].
  rewrite length_app, Frame_one_hot_length, IH. reflexivity.
Qed.

(** The widths of what [preprocess] returns from a frame, for a wrapper
    with one mean and one deviation per variable. *)
Lemma Frame_preprocess_rows (w : DataWrapper.t) (df : Frame.t) (x ctx : list (list R)) :
  length (fst (DataWrapper.means w))
  = length (DataWrapper.continuous (DataWrapper.variables w)) ->
  length (fst (DataWrapper.stds w))
  = length (DataWrapper.continuous (DataWrapper.variables w)) ->
  length (snd (DataWrapper.means w))
  = length (DataWrapper.context (DataWrapper.variables w)) ->
  length (snd (DataWrapper.stds w))
  = length (DataWrapper.context (DataWrapper.variables w)) ->
  Frame.preprocess w df = inr (x, ctx) ->
  length x = Frame.n_rows df /\ length ctx = Frame.n_rows df /\
  Forall (fun r => length r
                   = (length (DataWrapper.continuous (DataWrapper.variables w))
                      + FrameSpec.dummy_width df
                          (DataWrapper.categorical (DataWrapper.variables w)))%nat) x /\
  Forall (fun r => length r = length (DataWrapper.context (DataWrapper.variables w))) ctx.
Proof.
  intros Hm1 Hs1 Hm2 Hs2 H. unfold Frame.preprocess in H.
  destruct (Frame.tensor_columns df (DataWrapper.continuous _)) as [e|xc] eqn:Hx;
    cbn [bind] in H; [discriminate|].
  destruct (Frame.tensor_columns df (DataWrapper.context _)) as [e|cc] eqn:Hc;
    cbn [bind] in H; [discriminate|].
  match type of H with
  | bind ?m _ = _ => destruct m as [e|cat] eqn:Hcat; cbn [bind] in H; [discriminate|]
  end.
  match type of H with
  | bind ?m _ = _ => destruct m as [e|rows] eqn:Hrows; cbn [bind] in H; [discriminate|]
  end.
  unfold ok in H. injection H as <- <-.
  destruct (tensor_columns_spec _ _ _ Hx) as [Hxlen _].
  destruct (tensor_columns_spec _ _ _ Hc) as [Hclen _].
  pose proof (map_result_length _ _ _ Hrows) as Hlen. rewrite length_seq in Hlen.
  assert (Hw : list_sum (map (fun c => length (Frame.dummy_columns c)) cat)
               = FrameSpec.dummy_width df
                   (DataWrapper.categorical (DataWrapper.variables w))).
  { unfold FrameSpec.dummy_width.
    destruct (DataWrapper.categorical (DataWrapper.variables w)) as [|v vars] eqn:Hvars.
    - simpl in Hcat. unfold ok in Hcat. injection Hcat as <-. reflexivity.
    - cbn [length Nat.ltb Nat.leb] in Hcat.
      rewrite (select_columns _ _ _ Hcat), map_map. reflexivity. }
  assert (Hall : Forall (fun r =>
                           length (fst r)
                           = (length (DataWrapper.continuous (DataWrapper.variables w))
                              + FrameSpec.dummy_width df
                                  (DataWrapper.categorical (DataWrapper.variables w)))%nat /\
                           length (snd r)
                           = length (DataWrapper.context (DataWrapper.variables w))) rows).
  { apply (map_result_Forall _ _ _ _ Hrows). intros i [xr cr] _ Hi.
    destruct (Frame.numbers (Frame.row_of None xc i)) as [xr'|] eqn:Hn1; [|discriminate].
    destruct (Frame.numbers (Frame.row_of None cc i)) as [cr'|] eqn:Hn2; [|discriminate].
    unfold ok in Hi. injection Hi as <- <-. cbn [fst snd].
    apply numbers_length in Hn1, Hn2. unfold Frame.row_of in Hn1, Hn2.
    rewrite length_map in Hn1, Hn2.
    rewrite length_app, dummies_length, Hw.
    rewrite !scale_row_length; unfold Tensor.vec in *; lia. }
  rewrite !length_map. repeat split; try exact Hlen.
  - apply Forall_map. revert Hall. apply Forall_impl. intros r [H1 _]. exact H1.
  - apply Forall_map. revert Hall. apply Forall_impl. intros r [_ H2]. exact H2.
Qed.

Lemma to_float_numbers (values : list R) :
  Frame.to_float (map Frame.number values) = inr (map Some values).
Proof.
  unfold Frame.to_float. induction values as [|v values IH]; [reflexivity|].
  cbn [map map_result]. change (Frame.number v) with (Some (DataWrapper.Num v)).
  cbv beta iota. unfold ok at 1. cbn [bind]. rewrite IH. reflexivity.
Qed.

(** The tensor made of numeric columns. *)
Lemma tensor_columns_numeric (df : Frame.t) (names : list string) :
  (forall k, In k names -> FrameSpec.numeric df k) ->
  exists vss : list (list R),
    Frame.tensor_columns df names = inr (map (map Some) vss) /\
    Forall (fun vs => length vs = Frame.n_rows df) vss.
Proof.
  unfold Frame.tensor_columns, Frame.select.
  induction names as [|k names IH]; intros H.
  - exists []. split; [reflexivity|constructor].
  - destruct (H k (or_introl eq_refl)) as (vs & Hget & Hlen).
    destruct IH as (vss & Hrest & Hall); [intros k' Hk'; apply H; right; exact Hk'|].
    exists (vs :: vss). split; [|constructor; assumption].
    cbn [map_result]. rewrite Hget. unfold ok at 1. cbn [bind].
    match type of Hrest with
    | bind ?m _ = _ => destruct m as [e|cs] eqn:Hsel; cbn [bind] in Hrest; [discriminate|]
    end.
    cbn [bind]. unfold ok at 1. cbn [bind map_result]. rewrite to_float_numbers. cbn [bind].
    rewrite Hrest. reflexivity.
Qed.

Lemma numbers_row (vss : list (list R)) (n i : nat) :
  Forall (fun vs => length vs = n) vss -> (i < n)%nat ->
  Frame.numbers (Frame.row_of None (map (map Some) vss) i)
  = Some (map (fun vs => nth i vs 0) vss).
Proof.
  intros Hall Hi. unfold Frame.row_of.
  induction Hall as [|vs vss Hvs _ IH]; simpl; [reflexivity|].
  rewrite (nth_indep _ None (Some 0)) by (rewrite length_map; lia).
  rewrite (map_nth Some vs 0 i). rewrite IH. reflexivity.
Qed.

(** [preprocess] takes every frame that has the continuous and the
    context variables as numeric columns and has the categorical ones. *)
Lemma Frame_preprocess_total (w : DataWrapper.t) (df : Frame.t) :
  (forall k, In k (DataWrapper.continuous (DataWrapper.variables w)
                   ++ DataWrapper.context (DataWrapper.variables w))%list ->
             FrameSpec.numeric df k) ->
  (forall k, In k (DataWrapper.categorical (DataWrapper.variables w)) ->
             Frame.has df k = true) ->
  exists x ctx, Frame.preprocess w df = inr (x, ctx).
Proof.
  intros Hnum Hcat. unfold Frame.preprocess.
  destruct (tensor_columns_numeric df (DataWrapper.continuous (DataWrapper.variables w)))
    as (xs & -> & Hxs); [intros k Hk; apply Hnum; apply in_app_iff; tauto|].
  destruct (tensor_columns_numeric df (DataWrapper.context (DataWrapper.variables w)))
    as (cs & -> & Hcs); [intros k Hk; apply Hnum; apply in_app_iff; tauto|].
  cbn [bind].
  assert (Hsel : exists cat,
             (if (0 <? length (DataWrapper.categorical (DataWrapper.variables w)))%nat
              then Frame.select df (DataWrapper.categorical (DataWrapper.variables w))
              else ok []) = inr cat).
  { destruct (0 <? length (DataWrapper.categorical (DataWrapper.variables w)))%nat;
      [|eexists; reflexivity].
    unfold Frame.select.
    destruct (map_result_total
                (fun k => match Dict.get (Frame.cols df) k with
                          | Some c => ok c
                          | None => raise (KeyError k)
                          end) (fun _ => True)
                (DataWrapper.categorical (DataWrapper.variables w))) as (cat & Hc & _).
    - intros k Hk. specialize (Hcat k Hk). unfold Frame.has, Dict.mem in Hcat.
      destruct (Dict.get (Frame.cols df) k) as [c|]; [|discriminate].
      exists c. split; [reflexivity|exact I].
    - exists cat. exact Hc. }
  destruct Hsel as [cat ->]. cbn [bind].
  match goal with
  | |- exists x ctx, bind (map_result ?f ?l) _ = _ =>
      destruct (map_result_total f (fun _ => True) l) as (rows & -> & _)
  end.
  - intros i Hi. apply in_seq in Hi.
    rewrite (numbers_row xs (Frame.n_rows df) i Hxs) by lia.
    rewrite (numbers_row cs (Frame.n_rows df) i Hcs) by lia.
    eexists. split; [reflexivity|exact I].
  - cbn [bind]. eexists. eexists. reflexivity.
Qed.

(** A stack of layers raises on an input its first layer does not take. *)
Lemma network_first_raises (dropout : Tensor.vec -> Tensor.vec) (l : Linear.t)
    (rest : list Linear.t) (i o : nat) (x : list R) :
  Shapes.layer l i o -> (0 < o)%nat -> length x <> i ->
  exists msg, Linear.network dropout (l :: rest) x = inl (RuntimeError msg).
Proof.
  intros Hl Ho Hx. destruct (Linear_apply_raises l i o x Hl Ho Hx) as [msg Hmsg].
  exists msg. destruct rest as [|l2 rest].
  - unfold Linear.network. cbn [rev app removelast Linear.hidden bind ok].
    exact Hmsg.
  - rewrite network_cons, Hmsg. reflexivity.
Qed.

Lemma Critic_first_layer (specifications : Specifications.t)
    (new_layer : Z -> Z -> Linear.t) (dropout : Tensor.vec -> Tensor.vec) :
  exists rest,
    Critic.layers (Critic.init specifications new_layer dropout)
    = new_layer (Specifications.d_x (Specifications.data specifications)
                 + Specifications.d_context (Specifications.data specifications))%Z
                (hd 1%Z (Specifications.critic_d_hidden
                           (Specifications.settings specifications)))
      :: rest.
Proof.
  unfold Critic.init. cbn [Critic.layers].
  destruct (Specifications.critic_d_hidden (Specifications.settings specifications))
    as [|h hidden]; cbn [app combine map hd]; eauto.
Qed.

(** X23: [apply_critic] takes no frame with rows whose categorical
    columns have, taken together, another number of distinct values than
    those of the training frame: [preprocess] makes one column per value
    of the frame at hand, and the first layer of the critic, built for the
    widths of the training frame, raises a [RuntimeError] on the rows it
    returns.  A subset of the training data in which some category does
    not occur is such a frame. *)
Theorem apply_critic_rejects_other_category_count (fit : DataWrapper.frame)
    (continuous_vars categorical_vars context_vars : list string)
    (lower upper : Dict.t R) (w : DataWrapper.t) (a : Specifications.args)
    (specifications : Specifications.t)
    (new_layer : Z -> Z -> Linear.t) (dropout : Tensor.vec -> Tensor.vec)
    (df : Frame.t) (colname : string) :
  DataWrapper.init fit continuous_vars categorical_vars context_vars lower upper = inr w ->
  Specifications.init w a = inr specifications ->
  Shapes.linear_constructor new_layer ->
  (0 < hd 1 (Specifications.arg_critic_d_hidden a))%Z ->
  (0 < Frame.n_rows df)%nat ->
  FrameSpec.dummy_width df categorical_vars <> list_sum (DataWrapper.cat_dims w) ->
  exists e,
    Frame.apply_critic w (Critic.init specifications new_layer dropout) df colname = inl e /\
    (forall x context, Frame.preprocess w df = inr (x, context) ->
                       exists msg, e = RuntimeError msg).
Proof.
  intros Hinit Hspec Hnew Hfirst Hrows Hwidth.
  destruct (DataWrapper_init_fields _ _ _ _ _ _ _ Hinit) as (Hvars & Hmeans & Hstds & _).
  unfold Frame.apply_critic.
  destruct (Frame.preprocess w df) as [e|[x ctx]] eqn:Hp; cbn [bind].
  { exists e. split; [reflexivity|]. intros ? ? [=]. }
  destruct (Frame_preprocess_rows w df x ctx) as (Hxl & Hcl & Hxr & Hcr); try exact Hp;
    try (rewrite Hvars; first [rewrite Hmeans|rewrite Hstds]; cbn [fst snd
           DataWrapper.continuous DataWrapper.context];
         unfold Tensor.add_scalar, DataWrapper.col_means, DataWrapper.col_stds;
         rewrite ?length_map, length_seq; reflexivity).
  destruct x as [|x0 x]; [simpl in Hxl; lia|].
  destruct ctx as [|c0 ctx]; [simpl in Hcl; lia|].
  inversion Hxr as [|? ? Hx0 _]; subst. inversion Hcr as [|? ? Hc0 _]; subst.
  assert (Hf : exists msg,
             Critic.forward (Critic.init specifications new_layer dropout) x0 c0
             = inl (RuntimeError msg)).
  { destruct (Critic_first_layer specifications new_layer dropout) as [rest Hlayers].
    unfold Critic.forward. rewrite Hlayers.
    unfold Specifications.init, ok in Hspec. injection Hspec as <-.
    cbn [Specifications.data Specifications.settings Specifications.d_x
           Specifications.d_context Specifications.critic_d_hidden].
    rewrite Hvars in Hx0, Hc0 |- *.
    cbn [DataWrapper.continuous DataWrapper.categorical DataWrapper.context] in Hx0, Hc0 |- *.
    set (d_in := (Z.of_nat (length continuous_vars)
                  + Z.of_nat (list_sum (DataWrapper.cat_dims w))
                  + Z.of_nat (length context_vars))%Z).
    apply (network_first_raises _ _ rest (Z.to_nat d_in)
             (Z.to_nat (hd 1%Z (Specifications.arg_critic_d_hidden a)))).
    - apply Hnew; unfold d_in; lia.
    - lia.
    - rewrite length_app. unfold d_in. unfold Tensor.vec in *. lia. }
  destruct Hf as [msg Hf].
  exists (RuntimeError msg). split; [|intros; eauto].
  cbn [combine map_result fst snd]. rewrite Hf. reflexivity.
Qed.

Lemma apply_critic_rejects_other_category_count_witness :
  exists w specifications msg,
    DataWrapper.init Examples.fit_frame ["age"%string] ["color"%string] [] [] [] = inr w /\
    Specifications.init w (Specifications.defaults "cpu") = inr specifications /\
    FrameSpec.dummy_width Cases.red_only ["color"%string] = 1%nat /\
    list_sum (DataWrapper.cat_dims w) = 2%nat /\
    Frame.apply_critic w (Critic.init specifications Cases.zero_layer Cases.no_dropout)
      Cases.red_only "critic" = inl (RuntimeError msg).
Proof.
  destruct (DataWrapper_init_total Examples.fit_frame ["age"%string] ["color"%string]
              [] [] [] fit_frame_columns_ok) as [w Hw].
  destruct (DataWrapper_init_fields _ _ _ _ _ _ _ Hw) as (Hvars & _ & _ & Hdims & _).
  assert (Hsum : list_sum (DataWrapper.cat_dims w) = 2%nat)
    by (rewrite Hdims; vm_compute; reflexivity).
  destruct (apply_critic_rejects_other_category_count Examples.fit_frame ["age"%string]
              ["color"%string] [] [] [] w (Specifications.defaults "cpu") _
              Cases.zero_layer Cases.no_dropout Cases.red_only "critic" Hw eq_refl
              zero_layer_shape) as (e & He & Hval).
  - vm_compute. reflexivity.
  - simpl. lia.
  - rewrite Hsum. vm_compute. discriminate.
  - destruct (Frame_preprocess_total w Cases.red_only) as (x & context & Hp).
    + rewrite Hvars. intros k [<-|[]]. exists [30]. split; reflexivity.
    + rewrite Hvars. intros k [<-|[]]. reflexivity.
    + destruct (Hval x context Hp) as [msg ->].
      exists w. eexists. exists msg. split; [exact Hw|]. split; [reflexivity|].
      split; [vm_compute; reflexivity|]. split; [exact Hsum|exact He].
Defined.

Lemma drop_ignore_has (df : Frame.t) (k : string) :
  Frame.has (Frame.drop_ignore df [k]) k = false.
Proof.
  destruct (Frame.has (Frame.drop_ignore df [k]) k) eqn:H; [|reflexivity].
  apply has_In in H. apply drop_ignore_columns in H as [_ H]. exfalso. apply H.
  left. reflexivity.
Qed.

Lemma drop_ignore_absent (df : Frame.t) (k : string) :
  Frame.has df k = false -> Frame.cols (Frame.drop_ignore df [k]) = Frame.cols df.
Proof.
  intros H. unfold Frame.drop_ignore. cbn [Frame.cols].
  assert (Hk : ~ In k (Frame.columns df)) by (rewrite <- has_In, H; discriminate).
  unfold Frame.columns, Dict.keys in Hk.
  induction (Frame.cols df) as [|[k' c] d IH]; simpl in *; [reflexivity|].
  destruct (String.eqb_spec k' k) as [->|Hne]; [tauto|]. simpl.
  f_equal. apply IH. tauto.
Qed.



(** *** [deprocess] on what the generator returns *)

Lemma positive_entry (p : list R) :
  Forall (fun x => 0 <= x) p -> 0 < Tensor.sum p ->
  (1 <= length (filter (DataWrapper.Rltb 0) p))%nat.
Proof.
  induction 1 as [|x p Hx Hp IH]; simpl; [lra|].
  intros Hsum. unfold DataWrapper.Rltb at 1. destruct (Rlt_dec 0 x); [simpl; lia|].
  apply IH. lra.
Qed.

Lemma probability_multinomial_ok (p : list R) :
  GeneratorSpec.probability_vector p -> DataWrapper.multinomial_ok p 1 = true.
Proof.
  intros [Hnn Hsum]. unfold DataWrapper.multinomial_ok.
  assert (Hall : forallb (DataWrapper.Rleb 0) p = true).
  { apply forallb_forall. intros x Hx. rewrite Forall_forall in Hnn.
    unfold DataWrapper.Rleb. destruct (Rle_dec 0 x); [reflexivity|].
    exfalso. auto. }
  rewrite Hall. unfold DataWrapper.Rltb at 1.
  destruct (Rlt_dec 0 (Tensor.sum p)); [|lra].
  cbn [andb Nat.ltb Nat.leb].
  pose proof (positive_entry p Hnn ltac:(lra)) as Hc.
  destruct (length (filter (DataWrapper.Rltb 0) p)); [lia|reflexivity].
Qed.

(** The constructor records one label per distinct value. *)
Lemma recorded_labels_length (fit : DataWrapper.frame) (j : nat) (v : string) w2i i2w
    (l : list R) :
  DataWrapperSpec.recorded fit j v w2i i2w l ->
  length l = length (DataWrapper.dummy_columns (DataWrapper.cat_column fit j)).
Proof.
  unfold DataWrapperSpec.recorded.
  destruct (DataWrapper.cat_column fit j) as [|first col]; [contradiction|].
  destruct (DataWrapper.is_float first); intros (_ & _ & Hl).
  - apply to_float_tensor_inv in Hl. rewrite Hl, length_map. reflexivity.
  - rewrite code_labels in Hl. apply to_float_tensor_inv in Hl.
    apply (f_equal (@length _)) in Hl. rewrite !length_map, length_seq in Hl.
    symmetry. exact Hl.
Qed.

(** With one draw, a block of probability rows as wide as the labels
    decodes. *)
Lemma decode_block_total (w : DataWrapper.t) (s : DataWrapper.sampler) (j : nat)
    (p : Tensor.mat) (l : string * Tensor.vec) :
  DataWrapper.valid_sampler s ->
  Forall (fun r => GeneratorSpec.probability_vector r /\ length r = length (snd l)) p ->
  exists b, DataWrapper.decode_block w s 1 j p l = inr b.
Proof.
  intros Hs Hp.
  assert (Hfirst : exists first,
             (idx <- DataWrapper.multinomial s j p 1 ;;
              map_result (DataWrapper.gather (snd l)) idx)%result = inr first).
  { unfold DataWrapper.multinomial.
    destruct (map_result_total
                (fun '(i, pi) =>
                   if DataWrapper.multinomial_ok pi 1 then ok (s j i pi 1%nat)
                   else raise (RuntimeError "invalid multinomial distribution"))
                (fun d => forall i, In i d -> (i < length (snd l))%nat) (enumerate p))
      as (idx & Hidx & Hall & _).
    - intros [i r] Hin. apply In_enumerate in Hin.
      rewrite Forall_forall in Hp. destruct (Hp r Hin) as [Hprob Hlen].
      pose proof (probability_multinomial_ok r Hprob) as Hok. rewrite Hok.
      eexists. split; [reflexivity|].
      intros k Hk. destruct (Hs j i r 1%nat Hok) as (_ & _ & Hpos).
      destruct (Hpos k Hk) as (y & Hy & _). rewrite <- Hlen.
      apply nth_error_Some. rewrite Hy. discriminate.
    - rewrite Hidx. cbn [bind].
      destruct (map_result_total (DataWrapper.gather (snd l)) (fun _ => True) idx)
        as (first & Hf & _).
      + intros d Hd. rewrite Forall_forall in Hall. specialize (Hall d Hd).
        unfold DataWrapper.gather.
        destruct (map_result_total
                    (fun i => match nth_error (snd l) i with
                              | Some x => ok x
                              | None => raise IndexError
                              end) (fun _ => True) d) as (v & Hv & _).
        * intros i Hi. specialize (Hall i Hi). apply nth_error_Some in Hall.
          destruct (nth_error (snd l) i) as [y|]; [|contradiction].
          exists y. split; [reflexivity|exact I].
        * exists v. split; [exact Hv|exact I].
      + exists first. exact Hf. }
  destruct Hfirst as [first Hfirst]. unfold DataWrapper.decode_block.
  match goal with |- context [if ?c then _ else _] => destruct c end.
  - exists first. exact Hfirst.
  - destruct (DataWrapper.multinomial s j p 1) as [e|idx]; cbn [bind] in *; [discriminate|].
    rewrite Hfirst. cbn [bind]. exists first. reflexivity.
Qed.

Lemma decode_cells_total w2i i2w (names : list string) (cells : list R) :
  (forall k, In k names -> Dict.mem w2i k = true -> Dict.get i2w k <> None) ->
  exists os, DataWrapper.decode_cells w2i i2w names cells = inr os.
Proof.
  revert cells. induction names as [|k names IH]; intros cells H; simpl.
  - eexists. reflexivity.
  - destruct cells as [|c cells]; [eexists; reflexivity|].
    destruct (IH cells) as [os Hos]; [intros k' Hk'; apply H; right; exact Hk'|].
    unfold DataWrapper.decode_cell.
    destruct (Dict.mem w2i k) eqn:Hmem.
    + pose proof (H k (or_introl eq_refl) Hmem) as Hget.
      destruct (Dict.get i2w k) as [back|]; [|contradiction].
      unfold ok at 1. cbn [bind]. rewrite Hos. cbn [bind]. eexists. reflexivity.
    + unfold ok at 1. cbn [bind]. rewrite Hos. cbn [bind]. eexists. reflexivity.
Qed.

(** A fitted wrapper has a decoding dictionary for every variable it has
    an encoding dictionary for. *)
Lemma fitted_dictionaries (fit : DataWrapper.frame) (w : DataWrapper.t) (k : string) :
  DataWrapperSpec.fitted fit w ->
  In k (DataWrapper.categorical (DataWrapper.variables w)) ->
  Dict.mem (DataWrapper.words_to_int w) k = true ->
  Dict.get (DataWrapper.int_to_words w) k <> None.
Proof.
  intros F Hin Hmem.
  destruct (DataWrapperSpec.fitted_labels _ _ F) as (ls & _ & _ & Hrec).
  destruct (In_nth _ _ EmptyString Hin) as (j & Hj & Hk).
  specialize (Hrec j Hj). rewrite Hk in Hrec. unfold DataWrapperSpec.recorded in Hrec.
  unfold Dict.mem in Hmem.
  destruct (DataWrapper.cat_column fit j) as [|first col]; [contradiction|].
  destruct (DataWrapper.is_float first).
  - destruct Hrec as (Hw & _). rewrite Hw in Hmem. discriminate.
  - destruct Hrec as (_ & Hi & _). rewrite Hi. discriminate.
Qed.

Lemma wrapper_eta (w : DataWrapper.t) :
  {| DataWrapper.variables :=
       {| DataWrapper.continuous := DataWrapper.continuous (DataWrapper.variables w);
          DataWrapper.categorical := DataWrapper.categorical (DataWrapper.variables w);
          DataWrapper.context := DataWrapper.context (DataWrapper.variables w) |};
     DataWrapper.means := DataWrapper.means w;
     DataWrapper.stds := DataWrapper.stds w;
     DataWrapper.cat_dims := DataWrapper.cat_dims w;
     DataWrapper.words_to_int := DataWrapper.words_to_int w;
     DataWrapper.int_to_words := DataWrapper.int_to_words w;
     DataWrapper.cat_labels := DataWrapper.cat_labels w;
     DataWrapper.cont_bounds := DataWrapper.cont_bounds w;
     DataWrapper.df0 := DataWrapper.df0 w |} = w.
Proof. destruct w as [[? ? ?] ? ? ? ? ? ? ? ?]. reflexivity. Qed.

(** With one draw per variable, [deprocess] decodes every batch of rows
    of the width of the wrapper whose categorical blocks are probability
    vectors, and leaves the wrapper as it was. *)
Lemma deprocess_total (fit : DataWrapper.frame) (w : DataWrapper.t)
    (s : DataWrapper.sampler) (x ctx : list (list R)) :
  DataWrapperSpec.fitted fit w ->
  DataWrapper.valid_sampler s ->
  Forall (fun r =>
            length r = (length (DataWrapper.continuous (DataWrapper.variables w))
                        + list_sum (DataWrapper.cat_dims w))%nat /\
            Forall GeneratorSpec.probability_vector
                   (Tensor.chunks (DataWrapper.cat_dims w)
                      (skipn (length (DataWrapper.continuous (DataWrapper.variables w))) r)))
         x ->
  exists out, DataWrapper.deprocess w s x ctx 1 = inr (out, w).
Proof.
  intros F Hs Hx.
  destruct (fitted_dims _ _ F) as (Hdims & Hlabels & Hpos).
  pose proof (DataWrapperSpec.fitted_means_cont _ _ F) as Hm.
  unfold DataWrapper.deprocess.
  set (dc := length (fst (DataWrapper.means w))).
  assert (Hdc : dc = length (DataWrapper.continuous (DataWrapper.variables w)))
    by exact Hm.
  match goal with
  | |- exists out, bind ?m _ = _ =>
      assert (Hparts : m = inr (map (fun r => [firstn dc r; skipn dc r]) x))
  end.
  { apply map_result_all. intros r Hr. rewrite Forall_forall in Hx.
    destruct (Hx r Hr) as [Hlen _]. apply split_two_ok. rewrite Hdc. exact Hlen. }
  rewrite Hparts. cbn [bind]. rewrite !map_map. cbn [nth].
  match goal with
  | |- exists out, bind ?m _ = _ => assert (Hcat : exists x_cat, m = inr x_cat)
  end.
  { destruct (0 <? list_sum (DataWrapper.cat_dims w))%nat; [|eexists; reflexivity].
    match goal with
    | |- exists x_cat, bind (map_result ?f ?l) _ = _ =>
        destruct (map_result_total f (fun _ => True) l) as (blocks & Hb & _)
    end.
    - intros [j l] Hin.
      destruct (decode_block_total w s j
                  (DataWrapper.block (DataWrapper.cat_dims w)
                     (map (fun r => skipn dc r) x) j) l Hs) as [b Hb];
        [|exists b; split; [exact Hb|exact I]].
      unfold DataWrapper.block. rewrite map_map. apply Forall_map.
      apply Forall_forall. intros r Hr. rewrite Forall_forall in Hx.
      destruct (Hx r Hr) as [Hlen Hprob]. rewrite <- Hdc in Hprob.
      pose proof (in_combine_l _ _ _ _ Hin) as Hj. apply in_seq in Hj.
      assert (Hchunks : map (@length R) (Tensor.chunks (DataWrapper.cat_dims w) (skipn dc r))
                        = DataWrapper.cat_dims w).
      { apply chunks_lengths. rewrite length_skipn. lia. }
      assert (Hjlen : (j < length (Tensor.chunks (DataWrapper.cat_dims w) (skipn dc r)))%nat).
      { rewrite <- (length_map (@length R)), Hchunks. lia. }
      split.
      + rewrite Forall_forall in Hprob. apply Hprob. apply nth_In. exact Hjlen.
      + transitivity (nth j (DataWrapper.cat_dims w) 0%nat).
        * rewrite <- Hchunks at 2.
          rewrite (nth_indep _ 0%nat (length (@nil R)))
            by (rewrite length_map; exact Hjlen).
          rewrite map_nth. reflexivity.
        * destruct (DataWrapperSpec.fitted_labels _ _ F) as (ls & Hl & Hls & Hrec).
          assert (Hjv : (j < length (DataWrapper.categorical (DataWrapper.variables w)))%nat)
            by lia.
          unfold Tensor.vec, Tensor.mat in *.
          rewrite Hl, Hdims in Hin.
          rewrite (combine_seq_pairs _ _ EmptyString [] Hls) in Hin.
          apply in_map_iff in Hin as (j' & Heq & _). injection Heq as -> <-.
          cbn [snd].
          rewrite (recorded_labels_length _ _ _ _ _ _ (Hrec j Hjv)).
          rewrite (DataWrapperSpec.fitted_cat_dims _ _ F).
          exact (nth_map_seq
                   (fun j => length (DataWrapper.dummy_columns (DataWrapper.cat_column fit j)))
                   0%nat _ j Hjv).
    - rewrite Hb. cbn [bind]. eexists. reflexivity. }
  destruct Hcat as [x_cat ->]. cbn [bind].
  rewrite extend_variables_one. cbn [bind].
  match goal with
  | |- exists out, bind (map_result ?f ?l) _ = _ =>
      destruct (map_result_total f (fun _ => True) l) as (units & -> & _)
  end.
  { intros k Hk. exists tt. split; [|exact I].
    pose proof (DataWrapperSpec.fitted_keys _ _ F k Hk) as Hin.
    assert (Hex : existsb (String.eqb k)
                    (DataWrapper.continuous (DataWrapper.variables w)
                     ++ DataWrapper.categorical (DataWrapper.variables w)
                     ++ DataWrapper.context (DataWrapper.variables w)) = true).
    { apply In_existsb_eqb. rewrite !in_app_iff. tauto. }
    rewrite Hex. reflexivity. }
  cbn [bind].
  match goal with
  | |- exists out, bind (map_result ?f ?l) _ = _ =>
      destruct (map_result_total f (fun _ => True) l) as (cells & -> & _)
  end.
  { intros r _.
    destruct (decode_cells_total (DataWrapper.words_to_int w) (DataWrapper.int_to_words w)
                (DataWrapper.categorical (DataWrapper.variables w)) r) as [os Hos].
    - intros k Hk. apply (fitted_dictionaries _ _ _ F Hk).
    - exists os. split; [exact Hos|exact I]. }
  cbn [bind]. eexists. unfold ok. rewrite wrapper_eta. reflexivity.
Qed.

(** *** Generating without context *)

(** A row the generator built from a wrapper returns: as wide as the
    wrapper's data, with probability vectors as categorical blocks. *)
Lemma generator_forward_row (fit : DataWrapper.frame)
    (continuous_vars categorical_vars context_vars : list string)
    (lower upper : Dict.t R) (w : DataWrapper.t) (a : Specifications.args)
    (specifications : Specifications.t)
    (new_layer : Z -> Z -> Linear.t) (dropout : Tensor.vec -> Tensor.vec)
    (noise context : Tensor.vec) :
  DataWrapper.init fit continuous_vars categorical_vars context_vars lower upper = inr w ->
  NoDup categorical_vars ->
  WrapperSpec.bounds_consistent continuous_vars lower upper ->
  Specifications.init w a = inr specifications ->
  Shapes.sizes_ok a ->
  Shapes.linear_constructor new_layer ->
  Shapes.keeps_width dropout ->
  length noise
  = Z.to_nat (Specifications.generator_d_noise (Specifications.settings specifications)) ->
  length context = length context_vars ->
  exists x_hat,
    Generator.forward (Generator.init specifications new_layer dropout) noise context
    = inr x_hat /\
    length x_hat = (length continuous_vars + list_sum (DataWrapper.cat_dims w))%nat /\
    Forall GeneratorSpec.probability_vector
           (Tensor.chunks (DataWrapper.cat_dims w) (skipn (length continuous_vars) x_hat)).
Proof.
  intros Hinit Hnd Hb Hspec (Hgh & _ & Hnoise) Hnew Hdrop Hn Hctx.
  destruct (generator_from_wrapper_shape _ _ _ _ _ _ _ _ _ new_layer dropout Hinit Hnd Hb Hspec)
    as (Hord & Hwc & Hdc).
  pose proof Hwc as [Hsum _].
  destruct (DataWrapper_init_fields _ _ _ _ _ _ _ Hinit) as (Hvars & _).
  set (g := Generator.init specifications new_layer dropout) in *.
  assert (Hfields :
            Specifications.d_context (Specifications.data specifications)
            = Z.of_nat (length context_vars) /\
            (0 <= Specifications.generator_d_noise
                    (Specifications.settings specifications))%Z /\
            Forall (fun d => (0 <= d)%Z)
                   (Specifications.generator_d_hidden
                      (Specifications.settings specifications)) /\
            Generator.cat_dims g = DataWrapper.cat_dims w).
  { unfold g, Generator.init. unfold Specifications.init in Hspec. injection Hspec as <-.
    cbn [Specifications.data Specifications.settings Specifications.d_x
         Specifications.d_context Specifications.cat_dims Generator.cat_dims
         Specifications.generator_d_noise Specifications.generator_d_hidden].
    rewrite Hvars. cbn [DataWrapper.continuous DataWrapper.context].
    repeat split; try assumption.
    destruct (Specifications.arg_generator_d_noise a); [lia|exact Hnoise]. }
  destruct Hfields as (Hdctx & Hdn & Hgh' & Hcd).
  destruct (network_chained dropout (Generator.layers g) Hdrop
              (Z.to_nat (Specifications.generator_d_noise
                           (Specifications.settings specifications)
                         + Specifications.d_context (Specifications.data specifications)))
              (Z.to_nat (Z.of_nat (Generator.d_cont g + Generator.d_cat g)))
              (noise ++ context)) as (h & Hh & Hlen).
  { unfold g, Generator.init. cbn [Generator.layers Generator.d_cont Generator.d_cat].
    apply layers_chained; try assumption; lia. }
  { rewrite length_app, Hn, Hctx, Hdctx. lia. }
  rewrite Nat2Z.id in Hlen.
  destruct (Generator_transform_total g h Hord Hsum Hlen) as [x_hat Hx].
  pose proof (Generator_transform_width g h x_hat Hx) as Hwidth.
  destruct (Generator_transform_probabilities g h x_hat Hwc Hx) as [_ Hprob].
  unfold GeneratorSpec.categorical_blocks in Hprob.
  exists x_hat. split; [|split].
  - unfold Generator.forward. change (Generator.dropout g) with dropout.
    rewrite Hh. cbn [bind]. exact Hx.
  - rewrite Hwidth, Hdc, Hsum, Hcd. reflexivity.
  - rewrite <- Hcd, <- Hdc. exact Hprob.
Qed.

Lemma get_app_l {V} (d d' : Dict.t V) (k : string) (v : V) :
  Dict.get d k = Some v -> Dict.get (d ++ d') k = Some v.
Proof.
  induction d as [|[k' v'] d IH]; simpl; [discriminate|].
  destruct (String.eqb k k'); [auto|exact IH].
Qed.

(** The cell under a name among the first names of a zipped frame. *)
Lemma get_combine_first {A V} (f : A -> V) (ks1 ks2 : list string) (vs1 : list A)
    (vs2 : list V) (k : string) :
  length ks1 = length vs1 -> In k ks1 ->
  exists y, Dict.get (combine (ks1 ++ ks2) (map f vs1 ++ vs2)) k = Some (f y).
Proof.
  revert vs1. induction ks1 as [|a ks1 IH]; intros [|y vs1] Hlen Hin; simpl in *;
    try discriminate; [contradiction|].
  destruct (String.eqb_spec k a) as [->|Hne]; [eauto|].
  destruct Hin as [->|Hin]; [contradiction|]. apply IH; [lia|exact Hin].
Qed.

Lemma join_disjoint (left right : Frame.t) :
  (forall c, In c (Frame.columns left) -> ~ In c (Frame.columns right)) ->
  exists j, Frame.join left right = inr j.
Proof.
  intros H. unfold Frame.join.
  destruct (existsb (Frame.has right) (Frame.columns left)) eqn:Hex.
  - apply existsb_exists in Hex as (c & Hc & Hr). apply has_In in Hr.
    exfalso. exact (H c Hc Hr).
  - eexists. reflexivity.
Qed.

Lemma of_items_fresh (items : list (string * list Frame.cell)) :
  NoDup (map fst items) -> Frame.of_items items = items.
Proof.
  unfold Frame.of_items.
  assert (H : forall acc : Dict.t (list Frame.cell),
             NoDup (Dict.keys acc ++ map fst items) ->
             fold_left (fun d kc => Dict.set d (fst kc) (snd kc)) items acc
             = (acc ++ items)%list).
  { induction items as [|[k c] items IH]; intros acc Hacc; simpl.
    - rewrite app_nil_r. reflexivity.
    - simpl in Hacc. pose proof (NoDup_remove_2 _ _ _ Hacc) as Hk.
      rewrite set_fresh by (intros Hin; apply Hk; apply in_app_iff; left; exact Hin).
      rewrite IH.
      + rewrite <- app_assoc. reflexivity.
      + unfold Dict.keys in *. rewrite map_app, <- app_assoc. simpl. exact Hacc. }
  intros Hnd. apply (H []). exact Hnd.
Qed.

(** With pairwise distinct names and rows that have a cell for each, the
    decoded frame has exactly the variables as columns and one row per
    decoded row. *)
Lemma of_rows_exact (w : DataWrapper.t) (out : list DataWrapper.out_row) :
  out <> [] ->
  Forall (fun r =>
            length (DataWrapper.out_cont r)
            = length (DataWrapper.continuous (DataWrapper.variables w)) /\
            length (DataWrapper.out_cat r)
            = length (DataWrapper.categorical (DataWrapper.variables w)) /\
            length (DataWrapper.out_ctx r)
            = length (DataWrapper.context (DataWrapper.variables w))) out ->
  NoDup (DataWrapper.continuous (DataWrapper.variables w)
         ++ DataWrapper.categorical (DataWrapper.variables w)
         ++ DataWrapper.context (DataWrapper.variables w)) ->
  (DataWrapper.continuous (DataWrapper.variables w)
   ++ DataWrapper.categorical (DataWrapper.variables w)
   ++ DataWrapper.context (DataWrapper.variables w))%list <> [] ->
  Frame.columns (Frame.of_rows w out)
  = (DataWrapper.continuous (DataWrapper.variables w)
     ++ DataWrapper.categorical (DataWrapper.variables w)
     ++ DataWrapper.context (DataWrapper.variables w))%list /\
  Frame.n_rows (Frame.of_rows w out) = length out.
Proof.
  intros Hne Hrows Hnd Hnames. unfold Frame.columns, Frame.of_rows.
  cbn [Frame.cols Frame.n_rows].
  set (names := (DataWrapper.continuous (DataWrapper.variables w)
                 ++ DataWrapper.categorical (DataWrapper.variables w)
                 ++ DataWrapper.context (DataWrapper.variables w))%list) in *.
  match goal with
  | |- context [combine names ?cs] => set (columns := cs)
  end.
  assert (Hlen : length names = length columns).
  { unfold columns. rewrite length_map, length_seq.
    destruct out as [|r out]; [contradiction|].
    inversion Hrows as [|? ? (H1 & H2 & H3) _]; subst.
    simpl. unfold names. rewrite !length_app, !length_map. lia. }
  rewrite of_items_fresh by (rewrite map_fst_combine; assumption).
  unfold Dict.keys. rewrite map_fst_combine by assumption. split; [reflexivity|].
  destruct names as [|k names]; [contradiction|].
  destruct columns as [|c columns]; [discriminate|]. reflexivity.
Qed.

Lemma map_number_repeat (y : R) (n : nat) :
  repeat (Frame.number y) n = map Frame.number (repeat y n).
Proof. induction n as [|n IH]; simpl; [reflexivity|]. rewrite IH. reflexivity. Qed.

(** X25: without context variables [apply_generator] generates.  For a
    wrapper over pairwise distinct variables, none of them a context
    variable, a generator built from it, and the default of one draw per
    categorical variable, the call returns for every frame with rows: the
    result has one row per row of the frame and exactly the continuous
    and the categorical variables as columns, and the wrapper is left as
    it was. *)
Theorem apply_generator_without_context (fit : DataWrapper.frame)
    (continuous_vars categorical_vars : list string)
    (lower upper : Dict.t R) (w : DataWrapper.t) (a : Specifications.args)
    (specifications : Specifications.t)
    (new_layer : Z -> Z -> Linear.t) (dropout : Tensor.vec -> Tensor.vec)
    (noise : nat -> Tensor.vec) (s : DataWrapper.sampler) (df : Frame.t) :
  DataWrapper.init fit continuous_vars categorical_vars [] lower upper = inr w ->
  WrapperSpec.well_formed (length continuous_vars) (length categorical_vars) 0 fit ->
  NoDup (continuous_vars ++ categorical_vars) ->
  (continuous_vars ++ categorical_vars)%list <> [] ->
  WrapperSpec.bounds_consistent continuous_vars lower upper ->
  Specifications.init w a = inr specifications ->
  Shapes.sizes_ok a ->
  Shapes.linear_constructor new_layer ->
  Shapes.keeps_width dropout ->
  (forall i, length (noise i)
             = Z.to_nat (Specifications.generator_d_noise
                           (Specifications.settings specifications))) ->
  DataWrapper.valid_sampler s ->
  (0 < Frame.n_rows df)%nat ->
  exists r,
    Frame.apply_generator w (Generator.init specifications new_layer dropout) noise s df 1
    = inr (r, w) /\
    Frame.columns r = (continuous_vars ++ categorical_vars)%list /\
    Frame.n_rows r = Frame.n_rows df.
Proof.
  intros Hinit [Hfit2 Hfit] Hnd Hne Hb Hspec Hsizes Hnew Hdrop Hnoise Hs Hrows.
  assert (Hndc : NoDup categorical_vars) by (apply NoDup_app_remove_l in Hnd; exact Hnd).
  destruct (DataWrapper_init_fitted _ _ _ _ _ _ _ Hinit Hndc) as [Hvars F].
  destruct (DataWrapper_init_fields _ _ _ _ _ _ _ Hinit) as (_ & _ & _ & _ & _ & Hdf0).
  set (updated := (continuous_vars ++ categorical_vars)%list) in *.
  set (generator := Generator.init specifications new_layer dropout).
  unfold Frame.apply_generator. rewrite Hvars.
  cbn [DataWrapper.continuous DataWrapper.categorical]. fold updated.
  cbn [Frame.drop_ignore Frame.n_rows].
  (* the sample of the first training row *)
  destruct fit as [|r0 fit']; [simpl in Hfit2; lia|].
  inversion Hfit as [|? ? (Hc0 & Hk0 & _) _]; subst.
  unfold Frame.sample_df0. rewrite Hdf0, Hvars.
  cbn [firstn DataWrapper.continuous DataWrapper.categorical]. fold updated.
  cbn [bind ok].
  match goal with
  | |- context [Frame.join ?l ?r'] => set (sampled := l); set (rest := r')
  end.
  assert (Hscols : Frame.columns sampled = updated).
  { unfold Frame.columns, Dict.keys, sampled. cbn [Frame.cols].
    apply map_fst_combine. unfold updated.
    rewrite length_map, !length_app, !length_map. lia. }
  assert (Hrest : forall c, In c (Frame.columns rest) -> ~ In c updated).
  { intros c Hc. apply drop_ignore_columns in Hc. tauto. }
  destruct (join_disjoint sampled rest) as [joined Hj].
  { intros c Hc Hr. rewrite Hscols in Hc. exact (Hrest c Hr Hc). }
  rewrite Hj. cbn [bind].
  destruct (join_spec _ _ _ Hj) as (Hjcols & Hjrows & _).
  assert (Hjn : Frame.n_rows joined = Frame.n_rows df) by (rewrite Hjrows; reflexivity).
  assert (Hjin : forall c, In c updated -> In c (Frame.columns joined)).
  { intros c Hc. rewrite Hjcols, Hscols. apply in_app_iff. left. exact Hc. }
  (* preprocessing *)
  destruct (Frame_preprocess_total w joined) as (x & context & Hp).
  { rewrite Hvars. cbn [DataWrapper.continuous DataWrapper.context]. rewrite app_nil_r.
    intros k Hk. unfold FrameSpec.numeric.
    unfold Frame.join in Hj.
    destruct (existsb (Frame.has rest) (Frame.columns sampled)); [discriminate|].
    unfold ok in Hj. injection Hj as <-. cbn [Frame.cols Frame.n_rows].
    destruct (get_combine_first (fun y => repeat (Frame.number y) (Frame.n_rows df))
                continuous_vars categorical_vars (DataWrapper.cont_cells r0)
                (map (fun c => repeat c (Frame.n_rows df))
                     (map Some (DataWrapper.cat_cells r0))) k (eq_sym Hc0) Hk)
      as [y Hy].
    exists (repeat y (Frame.n_rows df)). split; [|apply repeat_length].
    apply get_app_l. unfold sampled. cbn [Frame.cols]. unfold updated.
    rewrite !map_app, !map_map. rewrite map_map in Hy.
    rewrite <- map_number_repeat. exact Hy. }
  { rewrite Hvars. cbn [DataWrapper.categorical]. intros k Hk. apply has_In.
    apply Hjin. unfold updated. apply in_app_iff. right. exact Hk. }
  rewrite Hp. cbn [bind].
  destruct (Frame_preprocess_rows w joined x context) as (_ & Hcl & _ & Hcr);
    try exact Hp;
    try apply (DataWrapperSpec.fitted_means_cont _ _ F);
    try apply (DataWrapperSpec.fitted_stds_cont _ _ F);
    try apply (DataWrapperSpec.fitted_means_ctx _ _ F);
    try apply (DataWrapperSpec.fitted_stds_ctx _ _ F).
  (* the generator *)
  unfold Frame.generate.
  destruct (map_result_total
              (fun ic : nat * Tensor.vec =>
                 Generator.forward generator (noise (fst ic)) (snd ic))
              (fun r =>
                 length r = (length (DataWrapper.continuous (DataWrapper.variables w))
                             + list_sum (DataWrapper.cat_dims w))%nat /\
                 Forall GeneratorSpec.probability_vector
                        (Tensor.chunks (DataWrapper.cat_dims w)
                           (skipn (length (DataWrapper.continuous
                                             (DataWrapper.variables w))) r)))
              (enumerate context)) as (x_hat & Hg & Hgood & Hgl).
  { intros [i c] Hin. cbn [fst snd]. apply In_enumerate in Hin.
    rewrite Forall_forall in Hcr. specialize (Hcr c Hin).
    rewrite Hvars in Hcr |- *. cbn [DataWrapper.context DataWrapper.continuous] in Hcr |- *.
    apply (generator_forward_row _ _ _ _ _ _ _ _ _ new_layer dropout (noise i) c
             Hinit Hndc Hb Hspec Hsizes Hnew Hdrop (Hnoise i) Hcr). }
  rewrite Hg. cbn [bind]. rewrite enumerate_length in Hgl.
  (* decoding *)
  destruct (deprocess_total _ w s x_hat context F Hs Hgood) as [out Hd].
  rewrite Hd. cbn [bind].
  destruct (deprocess_rows _ _ _ _ _ _ _ _ F Hs (eq_sym Hgl) Hcr Hd) as [Hol Hshape].
  assert (Hout : out <> []).
  { intros ->. simpl in Hol. unfold Tensor.mat, Tensor.vec in *. lia. }
  destruct (of_rows_exact w out Hout Hshape) as [Hhat Hhatn].
  { rewrite Hvars. cbn [DataWrapper.continuous DataWrapper.categorical DataWrapper.context].
    rewrite app_nil_r. exact Hnd. }
  { rewrite Hvars. cbn [DataWrapper.continuous DataWrapper.categorical DataWrapper.context].
    rewrite app_nil_r. exact Hne. }
  rewrite Hvars in Hhat.
  cbn [DataWrapper.continuous DataWrapper.categorical DataWrapper.context] in Hhat.
  rewrite app_nil_r in Hhat. fold updated in Hhat.
  (* the columns that are replaced *)
  unfold Frame.drop.
  destruct (map_result_total
              (fun k => if Frame.has joined k then ok tt else raise (KeyError k))
              (fun _ => True) updated) as (units & Hunits & _).
  { intros k Hk. exists tt. split; [|exact I].
    assert (Hhas : Frame.has joined k = true) by (apply has_In, Hjin, Hk).
    rewrite Hhas. reflexivity. }
  rewrite Hunits. cbn [bind ok].
  destruct (join_disjoint (Frame.of_rows w out) (Frame.drop_ignore joined updated))
    as [both Hboth].
  { intros c Hc Hr. rewrite Hhat in Hc. apply drop_ignore_columns in Hr. tauto. }
  rewrite Hboth. cbn [bind].
  destruct (join_spec _ _ _ Hboth) as (Hbcols & Hbrows & _).
  unfold Frame.restrict, Frame.select.
  destruct (map_result_total
              (fun k => match Dict.get (Frame.cols both) k with
                        | Some c => ok c
                        | None => raise (KeyError k)
                        end)
              (fun _ => True) (Frame.columns (Frame.of_rows w out))) as (cs & Hcs & _ & Hcsl).
  { intros k Hk.
    assert (Hin : In k (Frame.columns both)) by (rewrite Hbcols; apply in_app_iff; tauto).
    destruct (Dict_get_keys _ _ Hin) as [c Hc]. rewrite Hc.
    exists c. split; [reflexivity|exact I]. }
  rewrite Hcs. cbn [bind]. eexists. split; [reflexivity|].
  unfold Frame.columns at 1, Dict.keys. cbn [Frame.cols Frame.n_rows]. split.
  - rewrite map_fst_combine by (symmetry; exact Hcsl). exact Hhat.
  - rewrite Hbrows, Hhatn. unfold Tensor.mat, Tensor.vec in *. lia.
Qed.

Lemma apply_generator_without_context_witness :
  exists w specifications r,
    DataWrapper.init Examples.fit_frame ["age"%string] ["color"%string] [] [] [] = inr w /\
    Specifications.init w (Specifications.defaults "cpu") = inr specifications /\
    Frame.apply_generator w
      (Generator.init specifications Cases.zero_layer Cases.no_dropout)
      (fun _ => repeat 0 (Z.to_nat (Specifications.generator_d_noise
                                      (Specifications.settings specifications))))
      Examples.first_positive Cases.ids 1 = inr (r, w) /\
    Frame.columns r = ["age"%string; "color"%string] /\
    Frame.n_rows r = 2%nat.
Proof.
  destruct (DataWrapper_init_total Examples.fit_frame ["age"%string] ["color"%string]
              [] [] [] fit_frame_columns_ok) as [w Hw].
  assert (Hnd : NoDup ["age"%string; "color"%string]).
  { constructor; [intros [H|[]]; discriminate|].
    constructor; [simpl; tauto|constructor]. }
  exists w. eexists.
  destruct (apply_generator_without_context Examples.fit_frame ["age"%string]
              ["color"%string] [] [] w (Specifications.defaults "cpu") _
              Cases.zero_layer Cases.no_dropout
              (fun _ => repeat 0 (Z.to_nat (Specifications.generator_d_noise
                                              (Specifications.settings _))))
              Examples.first_positive Cases.ids Hw fit_frame_well_formed Hnd
              ltac:(discriminate) (no_bounds_consistent ["age"%string]) eq_refl
              (defaults_sizes_ok "cpu") zero_layer_shape (fun v => eq_refl)
              (fun i => repeat_length _ _) first_positive_valid ltac:(simpl; lia))
    as (r & Hrun & Hcols & Hrows).
  exists r. split; [exact Hw|]. split; [reflexivity|].
  split; [exact Hrun|]. split; [exact Hcols|exact Hrows].
Defined.

(** X26: whatever a generator built from a wrapper returns, [deprocess]
    decodes it.  For a wrapper the constructor returned, a generator
    built from its specifications, one draw per categorical variable and
    any batch of context rows with one entry per context variable, the
    forward pass returns, [deprocess] returns on its result and leaves
    the wrapper as it was, and the decoded frame has one row per context
    row, each with one cell per variable. *)
Theorem deprocess_decodes_generator_output (fit : DataWrapper.frame)
    (continuous_vars categorical_vars context_vars : list string)
    (lower upper : Dict.t R) (w : DataWrapper.t) (a : Specifications.args)
    (specifications : Specifications.t)
    (new_layer : Z -> Z -> Linear.t) (dropout : Tensor.vec -> Tensor.vec)
    (noise : nat -> Tensor.vec) (s : DataWrapper.sampler) (context : Tensor.mat) :
  DataWrapper.init fit continuous_vars categorical_vars context_vars lower upper = inr w ->
  NoDup categorical_vars ->
  WrapperSpec.bounds_consistent continuous_vars lower upper ->
  Specifications.init w a = inr specifications ->
  Shapes.sizes_ok a ->
  Shapes.linear_constructor new_layer ->
  Shapes.keeps_width dropout ->
  (forall i, length (noise i)
             = Z.to_nat (Specifications.generator_d_noise
                           (Specifications.settings specifications))) ->
  DataWrapper.valid_sampler s ->
  Forall (fun c => length c = length context_vars) context ->
  exists x_hat out,
    Frame.generate (Generator.init specifications new_layer dropout) noise context
    = inr x_hat /\
    DataWrapper.deprocess w s x_hat context 1 = inr (out, w) /\
    length out = length context /\
    Forall (fun r => length (DataWrapper.out_cont r) = length continuous_vars /\
                     length (DataWrapper.out_cat r) = length categorical_vars /\
                     length (DataWrapper.out_ctx r) = length context_vars) out.
Proof.
  intros Hinit Hnd Hb Hspec Hsizes Hnew Hdrop Hnoise Hs Hctx.
  destruct (DataWrapper_init_fitted _ _ _ _ _ _ _ Hinit Hnd) as [Hvars F].
  unfold Frame.generate.
  destruct (map_result_total
              (fun ic : nat * Tensor.vec =>
                 Generator.forward (Generator.init specifications new_layer dropout)
                   (noise (fst ic)) (snd ic))
              (fun r =>
                 length r = (length (DataWrapper.continuous (DataWrapper.variables w))
                             + list_sum (DataWrapper.cat_dims w))%nat /\
                 Forall GeneratorSpec.probability_vector
                        (Tensor.chunks (DataWrapper.cat_dims w)
                           (skipn (length (DataWrapper.continuous
                                             (DataWrapper.variables w))) r)))
              (enumerate context)) as (x_hat & Hg & Hgood & Hgl).
  { intros [i c] Hin. cbn [fst snd]. apply In_enumerate in Hin.
    rewrite Forall_forall in Hctx. specialize (Hctx c Hin).
    rewrite Hvars. cbn [DataWrapper.continuous].
    apply (generator_forward_row _ _ _ _ _ _ _ _ _ new_layer dropout (noise i) c
             Hinit Hnd Hb Hspec Hsizes Hnew Hdrop (Hnoise i) Hctx). }
  rewrite enumerate_length in Hgl.
  destruct (deprocess_total fit w s x_hat context F Hs Hgood) as [out Hd].
  assert (Hctx' : Forall (fun r => length r
                                   = length (DataWrapper.context (DataWrapper.variables w)))
                         context).
  { rewrite Hvars. exact Hctx. }
  destruct (deprocess_rows _ _ _ _ _ _ _ _ F Hs (eq_sym Hgl) Hctx' Hd) as [Hol Hshape].
  rewrite Hvars in Hshape.
  cbn [DataWrapper.continuous DataWrapper.categorical DataWrapper.context] in Hshape.
  exists x_hat, out. split; [exact Hg|]. split; [exact Hd|]. split; [|exact Hshape].
  unfold Tensor.mat, Tensor.vec in *. lia.
Qed.

Lemma deprocess_decodes_generator_output_witness :
  exists w specifications x_hat out,
    DataWrapper.init Examples.fit_frame ["age"%string] ["color"%string] [] [] [] = inr w /\
    Specifications.init w (Specifications.defaults "cpu") = inr specifications /\
    Frame.generate (Generator.init specifications Cases.zero_layer Cases.no_dropout)
      (fun _ => repeat 0 (Z.to_nat (Specifications.generator_d_noise
                                      (Specifications.settings specifications))))
      [[]; []; []] = inr x_hat /\
    DataWrapper.deprocess w Examples.first_positive x_hat [[]; []; []] 1 = inr (out, w) /\
    length out = 3%nat.
Proof.
  destruct (DataWrapper_init_total Examples.fit_frame ["age"%string] ["color"%string]
              [] [] [] fit_frame_columns_ok) as [w Hw].
  assert (Hnd : NoDup ["color"%string]) by (constructor; [simpl; tauto|constructor]).
  exists w. eexists.
  destruct (deprocess_decodes_generator_output Examples.fit_frame ["age"%string]
              ["color"%string] [] [] [] w (Specifications.defaults "cpu") _
              Cases.zero_layer Cases.no_dropout
              (fun _ => repeat 0 (Z.to_nat (Specifications.generator_d_noise
                                              (Specifications.settings _))))
              Examples.first_positive [[]; []; []] Hw Hnd
              (no_bounds_consistent ["age"%string]) eq_refl
              (defaults_sizes_ok "cpu") zero_layer_shape (fun v => eq_refl)
              (fun i => repeat_length _ _) first_positive_valid
              ltac:(repeat constructor))
    as (x_hat & out & Hg & Hd & Hlen & _).
  exists x_hat, out. split; [exact Hw|]. split; [reflexivity|].
  split; [exact Hg|]. split; [exact Hd|exact Hlen].
Defined.
